(* ===== verification/_CoqProject ===== *)
-Q . S2P
Prelude.v
WireTypes.v
Codec.v
SingleThreadedPool.v
PriceLevel.v
FlatHashMap.v
SkipList.v
Containers.v
BookSpec.v
Feed.v
Interfaces.v
OrderBook.v
BidAsk.v
BidAskProofs.v
Engine.v
SpscQueue.v
StoragePool.v
Consumer.v
Buffers.v
EpollServer.v
GatewayStates.v
OrderRouter.v
GatewayWriter.v
AccountStates.v
AccountService.v
WireFormats.v
UdpMulticast.v
UdpReceiver.v
Multicast.v
GatewayServers.v
TradingSession.v
System.v
Dashboard.v
ClientSystem.v
Exchange.v
OrderPath.v
TextParse.v
Discovery.v
EtcdWatcher.v
TradingPanel.v
MarketCharts.v
MulticastClient.v
TradeFeed.v
FeedMonitor.v
PriceHistory.v
SharedMemory.v
Services.v
Startup.v
ClientPages.v
LoadGenerator.v
GeneratorConduct.v
