(* ===== verification/Prelude.v ===== *)
(** Naoto exchange: verification development.

    * The system

    An exchange of three services and a client.  Clients send orders over TCP to an
    order gateway (src/market_server/order_gateway), which checks them against the
    client's balance and forwards them to the matching engine of the asset
    (src/market_server/matching_engine).  An engine reports every change of an order
    and of its book on two UDP multicast feeds.  The gateways apply the reports to
    the balances of the clients they serve; the account service
    (src/market_server/account_service) applies them to all accounts and answers the
    logins the gateways forward.  The market client (src/market_client) is a
    dashboard that trades, shows the books and the trades, and follows balances.
    Threads of a service exchange pointers to pooled objects through bounded queues
    (src/market_server/common).

    * Files

    Foundations
    - Prelude.v: outcomes of C++ code, machine integers, sums, automation.
    - WireTypes.v: the structs of the messages and the constants of system_conf.hpp.
    - Codec.v: packed layouts with their round-trip laws.

    Matching engine
    - SingleThreadedPool.v, PriceLevel.v, FlatHashMap.v, SkipList.v: the containers,
      each with its representation invariant; Containers.v: what sequences of calls
      observe of them.
    - Interfaces.v: the classes the book is written against, with their instances.
    - OrderBook.v, BidAsk.v, BidAskProofs.v: order_book.hpp and bid_ask.hpp, and the
      refinement of BookSpec.v, the abstract matching with price-time priority.
    - Engine.v: the results for whole runs.  Feed.v: what the feeds tell of a run.

    Threads and buffers
    - SpscQueue.v: the queue at the granularity of its accesses to shared memory;
      StoragePool.v, Consumer.v: pools and batch consumers; Buffers.v: the sequence
      ring, versioned descriptors and byte buffers.

    Network
    - WireFormats.v: the layouts of every message, of the services and the client.
    - EpollServer.v: epoll_server.hpp, streams of bytes to batches of messages.
    - UdpMulticast.v, UdpReceiver.v, Multicast.v: the emitter, the receiver and both
      together; the packet library is a record of parameters with laws.

    Gateway
    - GatewayStates.v, GatewayWriter.v: the triple buffer of client states and its
      writer; OrderRouter.v: risk check and routing; GatewayServers.v: the servers
      and senders at its sockets.
    - Discovery.v: what the services register in etcd, and the connections the router
      opens and closes as it follows them (order_router.hpp, [EtcdClientSetUp] of the
      three services); TextParse.v: the string and number functions of the standard
      library it uses.

    Account service
    - AccountStates.v, AccountService.v: accounts, their writer, the request
      processor and the dispatcher of answers.

    Client
    - TradingSession.v: trading_session.hpp and client_details_poller.hpp;
      Dashboard.v: app_state.hpp, mpsc_queue.hpp and the event handling of main.cpp.
    - EtcdWatcher.v: etcd_watcher.hpp; MulticastClient.v: multicast_receiver.hpp.
    - TradingPanel.v: the trading panel and the lookup page of main.cpp, with the
      lifetimes of session objects under their detached threads.
    - MarketCharts.v, PriceHistory.v, TradeFeed.v: what the pages of main.cpp compute
      before they draw: candles, depth, quotes, statistics, the wording of the feed.
    - ClientPages.v: the frames of the main loop, with the feeds, both panels and the
      clicks on the trading and the lookup page, the service discovery page and the overlay of notifications.

    Processes
    - Services.v: the threads of each service and the ends of queues and pools their
      constructors give them (order_gateway_service.hpp, matching_engine.hpp,
      account_service.cpp).
    - Startup.v: descriptor limits and the sizes the servers take from them
      (file_descriptors_ops.cpp), the listening socket, the placement of the emitters
      (market_data_emitters.hpp), the receivers, the initial accounts.
    - SharedMemory.v: the build in which one gateway and one engine share a queue of
      orders (shared_memory_ops.hpp and the NAOTO_SHARED_MEMORY branches).

    Tests
    - FeedMonitor.v: the monitor of the book feed (functional_tests/receiver.c).
    - LoadGenerator.v, GeneratorConduct.v: the load generator
      (functional_tests/realistic_stress_test.cpp) and the conduct of its bots.

    Composition
    - System.v: engine, account service and gateway; ClientSystem.v: client, gateway
      and account service; Exchange.v: the engine's reports over the wire to the
      accounts; OrderPath.v: a client's orders through gateway and router to the
      engine's book.

    * Correspondence

    A class is a [Record] of its fields; a method is a function on it, under the
    method's name where Rocq allows it, with a prefix where two classes share one
    ([acc_], [gw_], [ms_]).  Pointers into a pool or a heap are indices, and shared
    memory is a map that is passed along.  A method that can fault returns [result].
    Loops over data are structural; other loops have fuel.  The configuration is the
    one without NAOTO_SHARED_MEMORY, which has a file of its own, and without
    NAOTO_PERF, whose code only adds timestamps.  What other threads, the operating system and third-party
    libraries answer are parameters: functions from the number of the call to the
    answer, or lists of events.

    * What is proved

    - Matching (Engine.v): a run of the engine computes the book, the reports and the
      updates of the specification; the book never crosses, every asset is conserved,
      executions follow price and time, and an order is matched even when no report
      can be sent.
    - Containers (Containers.v): hash map, skip list and price level are a finite map,
      a sorted list and a queue.
    - Threads (SpscQueue.v, StoragePool.v, Consumer.v, Buffers.v): the queue is a
      race-free FIFO under every interleaving, a waiting push stores its item and
      returns, pools
      partition their objects, batches are consumed once and in order.
    - Balances (GatewayStates.v, GatewayWriter.v, AccountStates.v, AccountService.v,
      OrderRouter.v): readers see whole published states, batches update exactly the
      clients they name, a login in the middle of the feed replays what its snapshot
      misses, up to a difference of the attempts that is computed, logins are answered
      by a table of verdicts, and the risk check never commits more than a
      client has.
    - Transport (EpollServer.v, WireFormats.v, UdpMulticast.v, UdpReceiver.v,
      Multicast.v): messages come out of a stream as they were put in, client and
      services have the layouts of docs/PROTOCOL.md, and the reports reach every receiver in order
      and unchanged; whatever arrives, a receiver never reorders or skips, and stops
      at a report that is lost.
    - Whole system (Exchange.v, System.v, Dashboard.v, ClientSystem.v): what the
      accounts hold together is conserved by trading; orders and logins of a client
      arrive as sent, and the engine executes exactly the orders the gateway accepted,
      in order (OrderPath.v); the dashboard shows the book, the trades and the balance
      the services have.
    - Discovery (Discovery.v, EtcdWatcher.v): the router's table of engines and the
      client's list of services follow the registrations through listing and watch,
      and the watch loses no socket, whatever the network answers.
    - Processes (Services.v, Startup.v, SharedMemory.v): the wiring of every service
      gives each queue and pool one producing and one consuming thread, so that the
      results on one queue hold for all of them under every interleaving; every
      descriptor a gateway can be given indexes its tables; the emitters are placed on
      their own lcore and transmit queue; the initial clients can log in; over the
      shared queue the engine executes exactly the orders that were confirmed.
    - Tests (GeneratorConduct.v): the load generator is a proper client, whatever the
      gateway and the network answer: whole numbered orders, cancels of its own
      accepted orders by id and side, statistics that count what happened.
    - Client (TradingPanel.v, MarketCharts.v, PriceHistory.v, TradeFeed.v,
      MulticastClient.v, ClientPages.v): a panel has one balance query at a time and reports every
      confirmation, keys are read as typed, candles summarise their trades, searches
      find the quote in force, the visible stretch shows what the whole history
      shows, the feed names both parties of every trade, a receiver closes its
      socket once; the feeds, the confirmations and the failed sends of each panel are
      delivered independently over any number of frames and clicks.
    - Behaviour that is not what it should be is proved next to the component it
      belongs to, on concrete runs or in general (cancels that name the wrong side, the
      price of market sells): keys the hash map
      loses, orders lost at a full socket, funds that can be spent twice, streams that
      lose their framing, packets and pool objects that leak, a set-up that gives up
      discovery, a session destroyed in use, a monitor that checks prices, orders of
      different gateways that share an id, orders dropped at a full shared queue, two
      processes on different shared objects, tables sized before the limit is raised.

    * Bounds and fuel

    Integers are [Z], reduced to the width of their C++ type after every operation
    that can leave it.  Theorems on the engine are about the sequences of requests
    that [valid_run] of Engine.v admits: at each step the pools and maps have room,
    an order to execute has a positive amount, a limit order an id not in use and a
    price that is not a sentinel, and a cancel names no resting order of the other
    side than the one it gives.  The code accepts all of these; a cancel that names
    the wrong side, as the client sends for sells, is followed in BidAskProofs.v
    ([phantom]) and ClientSystem.v.  Theorems on pools and queues assume a size that
    is a power of two, at most 2^62.  The fuel of a loop is derived from its data (the
    length of a buffer, the size of a ring, the number of nodes); the theorems show
    that it is enough, so that [OutOfFuel] is not an outcome.  Where a loop waits for
    another thread, the answers of that thread are a parameter of the theorem.
    Floating point is an abstract type with the operations used; theorems that need
    more than the operations state which laws ([DoubleLaws], and the order of the
    times in a history).  The JSON library is [Json], with what is used of it in
    [JsonLaws].

    * Not modelled

    - The command line of the processes, the start and pinning of their threads and
      the initialisation inside the packet library: calls without logic of their own.
    - The timestamps of the NAOTO_PERF build and the cycle counters they read.
    - The drawing of the windows, which is most of main.cpp, but for what clicks do:
      axis ranges,
      histogram bins and the formatting of numbers.
    - Unit tests, the Python scripts of the functional tests, and logging. *)

From Stdlib Require Export ZArith Lia.
From stdpp Require Export base tactics option numbers fin_maps gmap.
From stdpp Require Export list.

#[global] Open Scope Z_scope.

(** ** Outcomes of C++ code

    The handlers are [noexcept] and run until they return; what can go wrong
    in them is made explicit.  [NullDeref] is a dereference of the null
    pointer a drained pool returned, [OutOfBounds] an array access past its
    end, [Terminate] a call of [std::terminate], [Blocked] a spin on a full
    queue that no other step of the same thread can release, and [OutOfFuel]
    the exhaustion of the recursion bound that stands for a loop. *)

Inductive Fault :=
| NullDeref
| OutOfBounds
| Terminate
| Blocked
| OutOfFuel.

Inductive result (A : Type) :=
| Ret (a : A)
| Crash (f : Fault).
Arguments Ret {A} a.
Arguments Crash {A} f.

#[export] Instance result_ret : MRet result := fun A a => Ret a.
#[export] Instance result_bind : MBind result := fun A B k m =>
  match m with Ret a => k a | Crash f => Crash f end.

(** Dereference of a possibly null pointer. *)
Definition deref {A} (p : option A) : result A :=
  match p with Some a => Ret a | None => Crash NullDeref end.

(** ** Machine integers

    A [w]-bit value is a [Z]; every operation that can leave the range is
    followed by the reduction of its C++ type.  Signed overflow, undefined in
    C++, is given its two's-complement value; theorems that need the
    mathematical value state the bound. *)

Definition u8 (z : Z) : Z := z mod 2 ^ 8.
Definition u16 (z : Z) : Z := z mod 2 ^ 16.
Definition u32 (z : Z) : Z := z mod 2 ^ 32.
Definition u64 (z : Z) : Z := z mod 2 ^ 64.
Definition s8 (z : Z) : Z := (z + 2 ^ 7) mod 2 ^ 8 - 2 ^ 7.
Definition s32 (z : Z) : Z := (z + 2 ^ 31) mod 2 ^ 32 - 2 ^ 31.
Definition s64 (z : Z) : Z := (z + 2 ^ 63) mod 2 ^ 64 - 2 ^ 63.

Definition INT64_MAX : Z := 2 ^ 63 - 1.
Definition INT64_MIN : Z := - 2 ^ 63.

Definition in_s64 (z : Z) : Prop := - 2 ^ 63 <= z < 2 ^ 63.
Definition in_u32 (z : Z) : Prop := 0 <= z < 2 ^ 32.

Lemma s32_small z : - 2 ^ 31 <= z < 2 ^ 31 -> s32 z = z.
Proof. intros H. unfold s32. rewrite Z.mod_small by lia. lia. Qed.
Lemma u32_small z : 0 <= z < 2 ^ 32 -> u32 z = z.
Proof. intros. unfold u32. by apply Z.mod_small. Qed.

Lemma u32_range z : 0 <= u32 z < 2 ^ 32.
Proof. unfold u32. apply Z.mod_pos_bound. lia. Qed.

Lemma u64_small z : 0 <= z < 2 ^ 64 -> u64 z = z.
Proof. intros. unfold u64. by apply Z.mod_small. Qed.

Lemma u64_range z : 0 <= u64 z < 2 ^ 64.
Proof. unfold u64. apply Z.mod_pos_bound. lia. Qed.

Lemma s64_small z : in_s64 z -> s64 z = z.
Proof. unfold in_s64, s64. intros. rewrite Z.mod_small; lia. Qed.

Lemma s64_range z : in_s64 (s64 z).
Proof.
  unfold s64, in_s64.
  pose proof (Z.mod_pos_bound (z + 2 ^ 63) (2 ^ 64) ltac:(lia)). lia.
Qed.

Lemma s64_add_l a b : s64 (s64 a + b) = s64 (a + b).
Proof.
  unfold s64. f_equal.
  replace ((a + 2 ^ 63) mod 2 ^ 64 - 2 ^ 63 + b + 2 ^ 63)
    with ((a + 2 ^ 63) mod 2 ^ 64 + b) by lia.
  rewrite Zplus_mod_idemp_l. f_equal. lia.
Qed.

Lemma s64_add_r a b : s64 (a + s64 b) = s64 (a + b).
Proof. rewrite Z.add_comm, s64_add_l. f_equal. lia. Qed.

Lemma s64_sub_l a b : s64 (s64 a - b) = s64 (a - b).
Proof. rewrite <- !Z.add_opp_r. apply s64_add_l. Qed.

Lemma s64_add_pow a k : s64 (a + k * 2 ^ 64) = s64 a.
Proof.
  unfold s64. f_equal. replace (a + k * 2 ^ 64 + 2 ^ 63) with (a + 2 ^ 63 + k * 2 ^ 64) by lia.
  by rewrite Z.mod_add by lia.
Qed.

Lemma s64_mult z : exists k, s64 z = z + k * 2 ^ 64.
Proof.
  exists (- ((z + 2 ^ 63) / 2 ^ 64)). unfold s64.
  pose proof (Z.div_mod (z + 2 ^ 63) (2 ^ 64) ltac:(lia)). lia.
Qed.

Lemma s64_opp z : s64 (- s64 z) = s64 (- z).
Proof.
  destruct (s64_mult z) as [k ->].
  replace (- (z + k * 2 ^ 64)) with (- z + (- k) * 2 ^ 64) by lia. apply s64_add_pow.
Qed.

Lemma s64_idem z : s64 (s64 z) = s64 z.
Proof. apply s64_small, s64_range. Qed.

Lemma u32_idem z : u32 (u32 z) = u32 z.
Proof. apply u32_small, u32_range. Qed.

Lemma u32_u64 z : u32 (u64 z) = u32 z.
Proof.
  unfold u32, u64. apply Z.mod_mod_divide. exists (2 ^ 32). lia.
Qed.

Lemma u32_add_cong a b c : u32 a = u32 b -> u32 (a + c) = u32 (b + c).
Proof. unfold u32. intros H. by rewrite Z.add_mod, H, <- Z.add_mod by lia. Qed.

Lemma u32_sub_cong a b c : u32 a = u32 b -> u32 (a - c) = u32 (b - c).
Proof. rewrite <- !Z.add_opp_r. apply u32_add_cong. Qed.

Lemma u64_add_l a b : u64 (u64 a + b) = u64 (a + b).
Proof. unfold u64. apply Zplus_mod_idemp_l. Qed.

Lemma u64_sub_l a b : u64 (u64 a - b) = u64 (a - b).
Proof. unfold u64. apply Zminus_mod_idemp_l. Qed.

(** Adding a multiple of 2^32 does not change the low 32 bits. *)
Lemma u32_add_pow a k : u32 (a + k * 2 ^ 32) = u32 a.
Proof. unfold u32. by rewrite Z.mod_add by lia. Qed.

(** Equality of 64-bit values, as an equivalence that sums respect. *)
Definition cong64 (x y : Z) : Prop := exists k, x = y + k * 2 ^ 64.

#[export] Instance cong64_equiv : Equivalence cong64.
Proof.
  split.
  - intros x. exists 0. lia.
  - intros x y [k ->]. exists (- k). lia.
  - intros x y z [k ->] [l ->]. exists (k + l). lia.
Qed.
#[export] Instance cong64_add : Proper (cong64 ==> cong64 ==> cong64) Z.add.
Proof. intros x x' [k ->] y y' [l ->]. exists (k + l). lia. Qed.

Lemma cong64_s64 z : cong64 (s64 z) z.
Proof. destruct (s64_mult z) as [k ->]. by exists k. Qed.

(** ** Sums *)

Definition zsum (l : list Z) : Z := foldr Z.add 0 l.

Lemma zsum_cons x l : zsum (x :: l) = x + zsum l.
Proof. reflexivity. Qed.
Lemma zsum_app l l' : zsum (l ++ l') = zsum l + zsum l'.
Proof. induction l as [|x l IH]; [done|]. simpl app. rewrite !zsum_cons. lia. Qed.

Lemma zsum_add {A} (f g : A -> Z) l : zsum ((fun x => f x + g x) <$> l) = zsum (f <$> l) + zsum (g <$> l).
Proof. induction l as [|x l IH]; [done|]. rewrite !fmap_cons, !zsum_cons. lia. Qed.

Lemma zsum_zero {A} (f : A -> Z) l : (forall x, x ∈ l -> f x = 0) -> zsum (f <$> l) = 0.
Proof.
  induction l as [|x l IH]; intros H; [done|]. rewrite fmap_cons, zsum_cons, H, IH by set_solver. done.
Qed.

(** A sum in which one index contributes. *)
Lemma zsum_single x k n : (k < n)%nat -> zsum ((fun i => if decide (i = k) then x else 0) <$> seq 0 n) = x.
Proof.
  intros Hk. replace n with (k + S (n - S k))%nat by lia.
  rewrite seq_app, fmap_app, zsum_app, <- cons_seq, fmap_cons, zsum_cons.
  rewrite !zsum_zero; [case_decide; lia|..].
  all: intros i Hi%elem_of_seq; case_decide; lia.
Qed.

(** A sum over a list as a sum over its indices. *)
Lemma zsum_lookup {A} (f : A -> Z) l :
  zsum (f <$> l) = zsum ((fun i => from_option f 0 (l !! i)) <$> seq 0 (length l)).
Proof.
  induction l as [|x l IH]; [done|]. cbn [length]. rewrite <- cons_seq, !fmap_cons, !zsum_cons. cbn [lookup list_lookup].
  rewrite IH, <- fmap_S_seq, <- list_fmap_compose. done.
Qed.

Lemma zsum_cong {A} (f g : A -> Z) l :
  (forall x, x ∈ l -> cong64 (f x) (g x)) -> cong64 (zsum (f <$> l)) (zsum (g <$> l)).
Proof.
  induction l as [|x l IH]; intros H; [done|]. rewrite !fmap_cons, !zsum_cons.
  apply cong64_add; [apply H|apply IH]; set_solver.
Qed.

(** ** Lists *)

Lemma filter_none {A} (P : A -> Prop) `{!forall x, Decision (P x)} l :
  Forall (fun x => ~ P x) l -> filter P l = [].
Proof. induction 1 as [|x l Hx _ IH]; [done|]. by rewrite filter_cons_False. Qed.

Lemma filter_all {A} (P : A -> Prop) `{!forall x, Decision (P x)} l :
  Forall P l -> filter P l = l.
Proof. induction 1 as [|x l Hx _ IH]; [done|]. by rewrite filter_cons_True, IH. Qed.

(** ** Automation *)

Create HintDb naoto.
Create Rewrite HintDb wrap.
#[export] Hint Resolve u32_range u64_range s64_range : naoto.
#[export] Hint Rewrite s64_add_l s64_add_r s64_sub_l u64_add_l u64_sub_l : wrap.

(** Case analysis on the boolean comparisons the code branches on. *)
Ltac zcase :=
  match goal with
  | |- context [?a <=? ?b] => destruct (Z.leb_spec a b)
  | |- context [?a <? ?b] => destruct (Z.ltb_spec a b)
  | |- context [?a =? ?b] => destruct (Z.eqb_spec a b)
  | H : context [?a <=? ?b] |- _ => destruct (Z.leb_spec a b)
  | H : context [?a <? ?b] |- _ => destruct (Z.ltb_spec a b)
  | H : context [?a =? ?b] |- _ => destruct (Z.eqb_spec a b)
  end.
