(* ===== verification/WireTypes.v ===== *)
(** Wire types shared by every service (src/market_server/common/include):
    the enumerations and packed structs of [order.hpp], [order_state_report.hpp],
    [order_book_update.hpp], [client_account_snapshot.hpp],
    [client_auth_request.hpp], [routed_auth_request.hpp], [gateway_handshake.hpp]
    and the compile-time configuration of [system_conf.hpp].  The default build
    is modelled: NAOTO_PERF is off, so no struct has timestamp fields. *)

From S2P Require Import Prelude.

(** ** Configuration ([system_conf.hpp]) *)

Definition MaxGateways : nat := 16.
Definition MaxClients : nat := 1024.
Definition MaxPositions : nat := 16.
Definition MaxAssets : Z := 128.
Definition MTU : Z := 1500.
Definition GatewayMaxClients : nat := 128.
Definition MeEpollReceiveBatchSize : nat := 16.
Definition GatewayEpollReceiveBatchSize : nat := 16.
Definition GatewayUpdateBufferSize : nat := 8192.

(** ** Orders ([order.hpp]) *)

Inductive OrderType := LIMIT | MARKET.
Inductive OrderSide := BUY | SELL.
Inductive OrderAction := EXECUTE | CANCEL_ORDER.

#[export] Instance OrderType_eq_dec : EqDecision OrderType.
Proof. solve_decision. Defined.
#[export] Instance OrderSide_eq_dec : EqDecision OrderSide.
Proof. solve_decision. Defined.
#[export] Instance OrderAction_eq_dec : EqDecision OrderAction.
Proof. solve_decision. Defined.

(** The other side, and the order of prices, best first, on a side of the book:
    ascending for asks. *)
Definition opposite (sd : OrderSide) : OrderSide := match sd with BUY => SELL | SELL => BUY end.
Definition side_asc (sd : OrderSide) : bool := match sd with BUY => false | SELL => true end.

Record Order := MkOrder {
  Price : Z;           (* int64_t *)
  OrderId : Z;         (* uint64_t *)
  ClientOrderId : Z;   (* uint32_t *)
  ClientId : Z;        (* uint32_t *)
  Amount : Z;          (* uint32_t *)
  AssetId : Z;         (* uint16_t *)
  Type_ : OrderType;
  Side : OrderSide;
  Action : OrderAction
}.

#[export] Instance Order_eq_dec : EqDecision Order.
Proof. solve_decision. Defined.

Definition set_Amount (a : Z) (o : Order) : Order :=
  MkOrder (Price o) (OrderId o) (ClientOrderId o) (ClientId o) a (AssetId o)
    (Type_ o) (Side o) (Action o).

Definition set_OrderId (i : Z) (o : Order) : Order :=
  MkOrder (Price o) i (ClientOrderId o) (ClientId o) (Amount o) (AssetId o)
    (Type_ o) (Side o) (Action o).

(** The fields of a decoded order are in the ranges of their C++ types. *)
Definition order_in_range (o : Order) : Prop :=
  in_s64 (Price o) /\ 0 <= OrderId o < 2 ^ 64 /\ in_u32 (ClientOrderId o) /\
  in_u32 (ClientId o) /\ in_u32 (Amount o) /\ 0 <= AssetId o < 2 ^ 16.

(** ** Execution reports ([order_state_report.hpp]) *)

Inductive OrderState := FILL | PARTIAL_FILL | CANCEL | REJECT | ADD.

#[export] Instance OrderState_eq_dec : EqDecision OrderState.
Proof. solve_decision. Defined.

Record OrderStateReport := MkReport {
  BoughtDelta : Z;       (* int64_t *)
  SoldDelta : Z;         (* int64_t *)
  SoldAttemptDelta : Z;  (* int64_t *)
  RSequenceId : Z;       (* uint32_t *)
  RClientId : Z;         (* uint32_t *)
  ROrderId : Z;          (* uint32_t *)
  TradeId : Z;           (* uint32_t *)
  BoughtAssetId : Z;     (* uint16_t *)
  SoldAssetId : Z;       (* uint16_t *)
  State : OrderState
}.

#[export] Instance OrderStateReport_eq_dec : EqDecision OrderStateReport.
Proof. solve_decision. Defined.

(** The parameters of [FillReport] have the types of the fields: the call
    converts its arguments, in particular a 64-bit order id to 32 bits and a
    32-bit asset id to 16. *)
Definition FillReport (boughtDelta soldDelta soldAttemptDelta sequenceId clientId
    orderId tradeId boughtAssetId soldAssetId : Z) (state : OrderState)
    : OrderStateReport :=
  MkReport (s64 boughtDelta) (s64 soldDelta) (s64 soldAttemptDelta)
    (u32 sequenceId) (u32 clientId) (u32 orderId) (u32 tradeId)
    (u16 boughtAssetId) (u16 soldAssetId) state.

(** ** Book updates ([order_book_update.hpp]) *)

Definition ORDER_BOOK_UPDATE_BUY : Z := 0.
Definition ORDER_BOOK_UPDATE_SELL : Z := 1.

Record OrderBookUpdate := MkUpdate {
  UPrice : Z;        (* int64_t *)
  USequenceId : Z;   (* uint32_t *)
  Depth : Z;         (* uint32_t *)
  UAssetId : Z;      (* uint16_t *)
  USide : Z          (* uint8_t *)
}.

#[export] Instance OrderBookUpdate_eq_dec : EqDecision OrderBookUpdate.
Proof. solve_decision. Defined.

Definition FillUpdate (sequenceId depth price assetId side : Z) : OrderBookUpdate :=
  MkUpdate (s64 price) (u32 sequenceId) (u32 depth) (u16 assetId) (u8 side).

(** ** Account snapshots ([client_account_snapshot.hpp]) *)

Record ClientAccountSnapshot := MkSnapshot {
  SnStatus : Z;             (* char: 'A', 'C' or 'R' *)
  SnSequenceId : Z;         (* uint64_t *)
  SnClientId : Z;           (* uint32_t *)
  SnClientFd : Z;           (* uint32_t *)
  SnAssetId : list Z;       (* std::array<uint16_t, MaxPositions> *)
  SnConfirmed : list Z;     (* std::array<int64_t, MaxPositions> *)
  SnAttempt : list Z        (* std::array<int64_t, MaxPositions> *)
}.

Definition char_A : Z := 65.
Definition char_C : Z := 67.
Definition char_R : Z := 82.

Definition snapshot_Clear : ClientAccountSnapshot :=
  MkSnapshot char_R 0 0 0 (replicate MaxPositions 0) (replicate MaxPositions 0) (replicate MaxPositions 0).
