(* ===== verification/Codec.v ===== *)
(** Packed binary layouts.  The structs of the wire are [#pragma pack(1)] and are
    copied to and from buffers by [memcpy] on a little-endian machine, so that the
    layout of a struct is the concatenation of those of its fields.  A [Codec] is
    such a layout: its width in bytes, the writer, the reader, and the values that
    fit it; the law is that reading back what was written gives the value and the
    bytes that follow.  The combinators build the layout of a struct from its
    fields, and with it its law. *)

From S2P Require Import Prelude.

(** ** Little-endian integers *)

Fixpoint le_bytes (n : nat) (z : Z) : list Z :=
  match n with O => [] | S n => z mod 2 ^ 8 :: le_bytes n (z / 2 ^ 8) end.

Fixpoint of_le (bs : list Z) : Z :=
  match bs with [] => 0 | b :: bs => b + 2 ^ 8 * of_le bs end.

Lemma le_bytes_length n z : length (le_bytes n z) = n.
Proof. revert z. induction n as [|n IH]; intros z; simpl; [done|]. by rewrite IH. Qed.

Definition is_byte (b : Z) : Prop := 0 <= b < 2 ^ 8.

Lemma le_bytes_bytes n z : Forall is_byte (le_bytes n z).
Proof.
  revert z. induction n as [|n IH]; intros z; simpl; constructor; [|apply IH]. apply Z.mod_pos_bound. lia.
Qed.

Lemma of_le_bytes n z : of_le (le_bytes n z) = z mod 2 ^ (8 * Z.of_nat n).
Proof.
  revert z. induction n as [|n IH]; intros z.
  - change (8 * Z.of_nat 0) with 0. by rewrite Z.pow_0_r, Z.mod_1_r.
  - cbn [le_bytes of_le]. rewrite IH. replace (8 * Z.of_nat (S n)) with (8 + 8 * Z.of_nat n) by lia.
    rewrite Z.pow_add_r by lia. rewrite Zmod_recombine || rewrite Z.rem_mul_r by lia. lia.
Qed.

Lemma of_le_range bs : Forall is_byte bs -> 0 <= of_le bs < 2 ^ (8 * Z.of_nat (length bs)).
Proof.
  induction 1 as [|b bs Hb _ IH]; [cbn; lia|]. cbn [of_le length].
  replace (8 * Z.of_nat (S (length bs))) with (8 + 8 * Z.of_nat (length bs)) by lia. rewrite Z.pow_add_r by lia.
  unfold is_byte in Hb. nia.
Qed.

Lemma le_bytes_of_le bs : Forall is_byte bs -> le_bytes (length bs) (of_le bs) = bs.
Proof.
  induction 1 as [|b bs Hb _ IH]; [done|]. cbn [length le_bytes of_le]. unfold is_byte in Hb.
  rewrite (Z.mul_comm (2 ^ 8)), Z.mod_add, Z.mod_small by lia.
  rewrite Z.div_add, Z.div_small by lia. by rewrite Z.add_0_l, IH.
Qed.

(** ** Codecs *)

Record Codec (A : Type) := MkCodec {
  width : nat;
  enc : A -> list Z;
  dec : list Z -> option (A * list Z);
  fits : A -> Prop;
  enc_length : forall a, fits a -> length (enc a) = width;
  enc_bytes : forall a, fits a -> Forall is_byte (enc a);
  dec_enc : forall a rest, fits a -> dec (enc a ++ rest) = Some (a, rest)
}.
Arguments MkCodec {A}. Arguments width {A}. Arguments enc {A}. Arguments dec {A}. Arguments fits {A}.
Arguments enc_length {A}. Arguments enc_bytes {A}. Arguments dec_enc {A}.

#[local] Unset Program Cases.
#[local] Obligation Tactic := idtac.

(** The next [n] bytes. *)
Definition next (n : nat) (bs : list Z) : option (list Z * list Z) :=
  if (n <=? length bs)%nat then Some (take n bs, drop n bs) else None.

Lemma next_app n bs rest : length bs = n -> next n (bs ++ rest) = Some (bs, rest).
Proof.
  intros <-. unfold next. rewrite length_app. rewrite (proj2 (Nat.leb_le _ _)) by lia.
  by rewrite take_app_length, drop_app_length.
Qed.

(** [uint8_t], [uint16_t], [uint32_t], [uint64_t] *)
Program Definition uint (n : nat) : Codec Z :=
  MkCodec n (le_bytes n) (fun bs => '(x, rest) ← next n bs; Some (of_le x, rest))
    (fun z => 0 <= z < 2 ^ (8 * Z.of_nat n)) _ _ _.
Next Obligation. intros; cbv beta in *. apply le_bytes_length. Qed.
Next Obligation. intros; cbv beta in *. apply le_bytes_bytes. Qed.
Next Obligation.
  intros n a rest Ha; cbv beta in *. rewrite next_app by apply le_bytes_length. cbn. by rewrite of_le_bytes, Z.mod_small.
Qed.

(** [int64_t] *)
Program Definition sint64 : Codec Z :=
  MkCodec 8 (fun z => le_bytes 8 (u64 z)) (fun bs => '(x, rest) ← next 8 bs; Some (s64 (of_le x), rest)) in_s64 _ _ _.
Next Obligation. intros; cbv beta in *. apply le_bytes_length. Qed.
Next Obligation. intros; cbv beta in *. apply le_bytes_bytes. Qed.
Next Obligation.
  intros a rest Ha; cbv beta in *. rewrite next_app by apply le_bytes_length. cbn [mbind option_bind]. rewrite of_le_bytes.
  do 2 f_equal. change (8 * Z.of_nat 8) with 64. rewrite Z.mod_small by apply u64_range.
  unfold u64. rewrite <- (s64_add_pow (a mod 2 ^ 64) (a / 2 ^ 64)). rewrite <- (s64_small a) at 3 by done.
  f_equal. pose proof (Z.div_mod a (2 ^ 64) ltac:(lia)). lia.
Qed.

(** Bytes the program neither sets nor reads; they are zero when a struct is
    value-initialised. *)
Program Definition padding (n : nat) : Codec unit :=
  MkCodec n (fun _ => replicate n 0) (fun bs => '(_, rest) ← next n bs; Some (tt, rest)) (fun _ => True) _ _ _.
Next Obligation. intros; cbv beta in *. apply length_replicate. Qed.
Next Obligation. intros; cbv beta in *. apply Forall_replicate. unfold is_byte. lia. Qed.
Next Obligation. intros n [] rest _; cbv beta in *. by rewrite next_app by apply length_replicate. Qed.

(** An enumeration over an integer type, with its enumerators; other values have
    no meaning for the program. *)
Program Definition enum {A} `{EqDecision A} (n : nat) (code : A -> Z) (all : list A)
    (Hc : Forall (fun a => 0 <= code a < 2 ^ (8 * Z.of_nat n)) all) (Hinj : NoDup (code <$> all)) : Codec A :=
  MkCodec n (fun a => le_bytes n (code a))
    (fun bs => '(x, rest) ← next n bs; a ← List.find (fun a => code a =? of_le x) all; Some (a, rest))
    (fun a => a ∈ all) _ _ _.
Next Obligation. intros; cbv beta in *. apply le_bytes_length. Qed.
Next Obligation. intros; cbv beta in *. apply le_bytes_bytes. Qed.
Next Obligation.
  intros A ? n code all Hc Hinj a rest Ha; cbv beta in *. rewrite next_app by apply le_bytes_length. cbn [mbind option_bind].
  rewrite of_le_bytes. rewrite Forall_forall in Hc. rewrite Z.mod_small by auto. clear Hc.
  induction all as [|b all IH]; [by apply elem_of_nil in Ha|]. cbn [List.find]. rewrite fmap_cons in Hinj.
  apply NoDup_cons in Hinj as [Hb Hinj]. apply elem_of_cons in Ha as [->|Ha]; [by rewrite Z.eqb_refl|].
  destruct (Z.eqb_spec (code b) (code a)) as [He|_]; [|by apply IH].
  exfalso. apply Hb. rewrite He. by apply list_elem_of_fmap_2.
Qed.

(** Two fields. *)
Program Definition pair_codec {A B} (ca : Codec A) (cb : Codec B) : Codec (A * B) :=
  MkCodec (width ca + width cb) (fun p => enc ca p.1 ++ enc cb p.2)
    (fun bs => '(a, bs) ← dec ca bs; '(b, bs) ← dec cb bs; Some ((a, b), bs))
    (fun p => fits ca p.1 /\ fits cb p.2) _ _ _.
Next Obligation. intros A B ca cb [a b] [Ha Hb]; cbv beta in *. rewrite length_app. by rewrite (enc_length ca), (enc_length cb). Qed.
Next Obligation. intros A B ca cb [a b] [Ha Hb]; cbv beta in *. apply Forall_app. split; by apply enc_bytes. Qed.
Next Obligation.
  intros A B ca cb [a b] rest [Ha Hb]; cbv beta in *. cbn [fst snd] in *. rewrite <- app_assoc, dec_enc by done. cbn.
  by rewrite dec_enc by done.
Qed.

(** [std::array] *)
Fixpoint dec_n {A} (c : Codec A) (n : nat) (bs : list Z) : option (list A * list Z) :=
  match n with
  | O => Some ([], bs)
  | S n => '(a, bs) ← dec c bs; '(l, bs) ← dec_n c n bs; Some (a :: l, bs)
  end.

Lemma dec_n_enc {A} (c : Codec A) l rest :
  Forall (fits c) l -> dec_n c (length l) ((l ≫= enc c) ++ rest) = Some (l, rest).
Proof.
  induction 1 as [|a l Ha _ IH]; [done|]. cbn [length dec_n]. rewrite bind_cons, <- app_assoc, dec_enc by done.
  cbn [mbind option_bind]. by rewrite IH.
Qed.

Program Definition array {A} (n : nat) (c : Codec A) : Codec (list A) :=
  MkCodec (n * width c) (fun l => l ≫= enc c) (dec_n c n) (fun l => length l = n /\ Forall (fits c) l) _ _ _.
Next Obligation.
  intros A n c l [<- Hl]; cbv beta in *. induction Hl as [|a l Ha _ IH]; [done|]. rewrite bind_cons, length_app, IH, enc_length by done. done.
Qed.
Next Obligation.
  intros A n c l [_ Hl]; cbv beta in *. induction Hl as [|a l Ha _ IH]; [constructor|]. rewrite bind_cons. apply Forall_app.
  split; [by apply enc_bytes|exact IH].
Qed.
Next Obligation. intros A n c l rest [<- Hl]; cbv beta in *. by apply dec_n_enc. Qed.

(** A struct: the tuple of its fields, in the order of declaration. *)
Program Definition struct {A F} (c : Codec F) (to : A -> F) (from : F -> A) (H : forall a, from (to a) = a) : Codec A :=
  MkCodec (width c) (fun a => enc c (to a)) (fun bs => '(f, bs) ← dec c bs; Some (from f, bs)) (fun a => fits c (to a)) _ _ _.
Next Obligation. intros; cbv beta in *. by apply enc_length. Qed.
Next Obligation. intros; cbv beta in *. by apply enc_bytes. Qed.
Next Obligation. intros A F c to from H a rest Ha; cbv beta in *. rewrite dec_enc by done. cbn. by rewrite H. Qed.

Declare Scope codec_scope.
Delimit Scope codec_scope with codec.
Infix "⊗" := pair_codec (at level 40, left associativity) : codec_scope.

(** ** Streams of messages *)

(** The messages of a byte string, and what does not make a whole message. *)
Fixpoint dec_stream {A} (c : Codec A) (fuel : nat) (bs : list Z) : option (list A * list Z) :=
  match fuel with
  | O => Some ([], bs)
  | S fuel =>
      if (length bs <? width c)%nat then Some ([], bs)
      else '(a, bs) ← dec c bs; '(l, bs) ← dec_stream c fuel bs; Some (a :: l, bs)
  end.

Lemma enc_stream_length {A} (c : Codec A) l : Forall (fits c) l -> length (l ≫= enc c) = (length l * width c)%nat.
Proof. induction 1 as [|a l Ha _ IH]; [done|]. rewrite bind_cons, length_app, IH, enc_length by done. done. Qed.

Lemma dec_stream_enc {A} (c : Codec A) l rest fuel :
  Forall (fits c) l -> (length rest < width c)%nat -> (length l <= fuel)%nat ->
  dec_stream c fuel ((l ≫= enc c) ++ rest) = Some (l, rest).
Proof.
  intros Hl Hr. revert fuel. induction Hl as [|a l Ha _ IH]; intros fuel Hf; cbn [length] in Hf.
  - destruct fuel; [done|]. cbn [dec_stream mbind list_bind app]. by rewrite (proj2 (Nat.ltb_lt _ _)).
  - destruct fuel as [|fuel]; [lia|]. cbn [dec_stream]. rewrite bind_cons, <- app_assoc.
    rewrite (proj2 (Nat.ltb_ge _ _)) by (rewrite length_app, enc_length by done; lia).
    rewrite dec_enc by done. cbn [mbind option_bind]. by rewrite IH by lia.
Qed.

(** ** Layouts of integers

    Any bytes are a value of a struct of integers. *)

Definition total {A} (c : Codec A) : Prop :=
  forall bs, (width c <= length bs)%nat -> exists a, dec c bs = Some (a, drop (width c) bs).

Lemma uint_total n : total (uint n).
Proof.
  intros bs Hl. cbn [dec uint width] in *. unfold next. rewrite (proj2 (Nat.leb_le _ _)) by done. cbn. by eexists.
Qed.

Lemma pair_total {A B} (ca : Codec A) (cb : Codec B) : total ca -> total cb -> total (pair_codec ca cb).
Proof.
  intros Ha Hb bs Hl. cbn [dec pair_codec width] in *. destruct (Ha bs) as [a ->]; [lia|]. cbn [mbind option_bind].
  destruct (Hb (drop (width ca) bs)) as [b ->]; [rewrite length_drop; lia|]. cbn. rewrite drop_drop. by eexists.
Qed.

Lemma array_total {A} n (c : Codec A) : total c -> total (array n c).
Proof.
  intros Hc bs. cbn [dec array width]. revert bs. induction n as [|n IH]; intros bs Hl; cbn [dec_n Nat.mul].
  { rewrite drop_0. by eexists. }
  cbn [Nat.mul] in Hl. destruct (Hc bs) as [a ->]; [lia|]. cbn [mbind option_bind].
  destruct (IH (drop (width c) bs)) as [l ->]; [rewrite length_drop; lia|]. cbn. rewrite drop_drop. by eexists.
Qed.

Lemma struct_total {A F} (c : Codec F) (to : A -> F) (from : F -> A) H : total c -> total (struct c to from H).
Proof. intros Hc bs Hl. cbn [dec struct width] in *. destruct (Hc bs Hl) as [f ->]. by eexists. Qed.
#[export] Hint Resolve uint_total pair_total array_total struct_total : naoto.

(** ** Layouts as tables

    A layout told without the combinators: a list of fields, each with its offset,
    its size and the number that stands there, in little-endian two's complement. *)

Definition fields_of := list (nat * nat * Z).

Definition shows (fs : fields_of) (bs : list Z) : Prop :=
  Forall (fun '(off, n, v) => take n (drop off bs) = le_bytes n v) fs.

(** The program writes, and reads, messages of [size] bytes with these fields. *)
Record documented {A} (c : Codec A) (size : nat) (fs : A -> fields_of) : Prop := {
  doc_width : width c = size;
  doc_written : forall a, fits c a -> length (enc c a) = size /\ shows (fs a) (enc c a);
  doc_read : forall a bs rest, fits c a -> length bs = size -> shows (fs a) bs -> dec c (bs ++ rest) = Some (a, rest)
}.

(** The elements of an array that starts at [off]. *)
Definition elements (off n : nat) (l : list Z) : fields_of := imap (fun i x => (off + n * i, n, x)%nat) l.

Definition table_bytes (fs : fields_of) : list Z := fs ≫= (fun '(_, n, v) => le_bytes n v).

(** The fields follow each other from [k] to [stop]. *)
Fixpoint tiles (k : nat) (fs : fields_of) (stop : nat) : Prop :=
  match fs with
  | [] => k = stop
  | (off, n, _) :: fs => off = k /\ tiles (k + n) fs stop
  end.

Lemma tiles_app k fs gs mid stop : tiles k fs mid -> tiles mid gs stop -> tiles k (fs ++ gs) stop.
Proof.
  revert k. induction fs as [|[[off n] v] fs IH]; intros k; cbn [tiles app]; [by intros ->|]. intros [-> H] Hg.
  split; [done|by apply IH].
Qed.

Lemma tiles_elements off n l : tiles off (elements off n l) (off + n * length l).
Proof.
  revert off. unfold elements. induction l as [|x l IH]; intros off; cbn [imap tiles length]; [lia|].
  split; [lia|]. replace (off + n * S (length l))%nat with (off + n + n * length l)%nat by lia.
  erewrite imap_ext; [apply (IH (off + n)%nat)|]. intros i y _. cbn. do 2 f_equal. lia.
Qed.

Lemma table_bytes_app fs gs : table_bytes (fs ++ gs) = table_bytes fs ++ table_bytes gs.
Proof. unfold table_bytes. apply bind_app. Qed.

Lemma table_bytes_elements off n l : table_bytes (elements off n l) = l ≫= le_bytes n.
Proof.
  unfold table_bytes, elements. revert off. induction l as [|x l IH]; intros off; [done|]. rewrite imap_cons, !bind_cons. f_equal.
  rewrite <- (IH (off + n)%nat). f_equal. apply imap_ext. intros i y _. cbn. do 2 f_equal. lia.
Qed.

Lemma shows_bytes fs bs k stop :
  tiles k fs stop -> length bs = stop -> shows fs bs <-> drop k bs = table_bytes fs.
Proof.
  revert k. induction fs as [|[[off n] v] fs IH]; intros k Ht Hl; cbn [tiles] in Ht.
  { split; [|constructor]. intros _. subst. apply drop_all. }
  destruct Ht as [-> Ht]. unfold shows, table_bytes in *. rewrite Forall_cons, bind_cons.
  rewrite (IH _ Ht Hl), <- drop_drop. set (d := drop k bs). split.
  - intros [H1 H2]. by rewrite <- (take_drop n d), H1, H2.
  - intros ->. rewrite take_app_length', drop_app_length' by (by rewrite le_bytes_length). done.
Qed.

Lemma documented_table {A} (c : Codec A) size fs :
  width c = size -> (forall a, fits c a -> tiles 0 (fs a) size /\ enc c a = table_bytes (fs a)) -> documented c size fs.
Proof.
  intros Hw Hc. split; [done|..]; intros a; [intros Ha|intros bs rest Ha Hl Hs]; destruct (Hc a Ha) as [Ht He].
  - assert (Hl : length (enc c a) = size) by (by rewrite enc_length). split; [done|].
    apply (shows_bytes _ _ _ _ Ht Hl). by rewrite drop_0.
  - apply (shows_bytes _ _ _ _ Ht Hl) in Hs. rewrite drop_0 in Hs. rewrite Hs, <- He. by apply dec_enc.
Qed.

Lemma le_bytes_mod n z : le_bytes n (z mod 2 ^ (8 * Z.of_nat n)) = le_bytes n z.
Proof.
  revert z. induction n as [|n IH]; intros z; [done|]. cbn [le_bytes].
  replace (8 * Z.of_nat (S n)) with (8 + 8 * Z.of_nat n) by lia. rewrite Z.pow_add_r by lia.
  rewrite Z.rem_mul_r by lia. rewrite (Z.mul_comm (2 ^ 8) (_ mod _)), Z.mod_add, Z.mod_mod by lia. f_equal.
  rewrite Z.div_add by lia. rewrite Z.div_small by (apply Z.mod_pos_bound; lia). apply IH.
Qed.

Lemma le_bytes_u64 z : le_bytes 8 (u64 z) = le_bytes 8 z.
Proof. exact (le_bytes_mod 8 z). Qed.

Lemma bind_u64 l : (l ≫= (fun z => le_bytes 8 (u64 z))) = l ≫= le_bytes 8.
Proof. induction l as [|z l IH]; [done|]. by rewrite !bind_cons, IH, le_bytes_u64. Qed.
