(* ===== verification/SingleThreadedPool.v ===== *)
(** [SingleThreadedStoragePool] (src/market_server/common/include/
    single_threaded_storage_pool.hpp): the free list of a fixed array of
    objects, used as a stack by one thread.  A [T*] into [Storage] is the index
    of the object; the objects themselves live in the heap of the component
    that owns the pool.  The result [pool_rep] relates a pool to the list of
    its free objects, bottom of the stack first. *)

From S2P Require Import Prelude.

Record StackPool := MkStackPool {
  FreeQueue : list nat;   (* std::array<T *, Size> *)
  FreeSize : nat          (* size_t *)
}.

(** The constructor: every object is free. *)
Definition pool_init (Size : nat) : StackPool :=
  MkStackPool (seq 0 Size) Size.

(** [Acquire]: [FreeQueue[--FreeSize]], or the null pointer. *)
Definition Acquire (p : StackPool) : option nat * StackPool :=
  match FreeSize p with
  | O => (None, p)
  | S n => (FreeQueue p !! n, MkStackPool (FreeQueue p) n)
  end.

(** [Release]: refuses the null pointer and a full free list. *)
Definition Release (Size : nat) (toRelease : option nat) (p : StackPool)
    : bool * StackPool :=
  match toRelease with
  | Some e =>
      if (FreeSize p <? Size)%nat
      then (true, MkStackPool (<[FreeSize p := e]> (FreeQueue p)) (S (FreeSize p)))
      else (false, p)
  | None => (false, p)
  end.

(** [pool_rep Size p free]: the live part of the array is [free], which holds
    distinct objects of the storage. *)
Record pool_rep (Size : nat) (p : StackPool) (free : list nat) : Prop := {
  pool_len : length (FreeQueue p) = Size;
  pool_size : FreeSize p = length free;
  pool_take : take (FreeSize p) (FreeQueue p) = free;
  pool_nodup : NoDup free;
  pool_bound : Forall (fun x => x < Size)%nat free
}.

Lemma pool_init_rep Size : pool_rep Size (pool_init Size) (seq 0 Size).
Proof.
  split; simpl.
  - apply length_seq.
  - by rewrite length_seq.
  - apply take_ge. by rewrite length_seq.
  - apply NoDup_seq.
  - apply Forall_forall. intros x Hx%elem_of_seq. lia.
Qed.

(** Distinct indices below [n] that miss one index are fewer than [n]. *)
Lemma nodup_bound_lt (n : nat) (l : list nat) (e : nat) :
  NoDup l -> Forall (fun x => x < n)%nat l -> (e < n)%nat -> e ∉ l ->
  (length l < n)%nat.
Proof.
  intros Hnd Hb He Hni.
  assert (Hsub : e :: l ⊆+ seq 0 n).
  { apply NoDup_submseteq; [by constructor|].
    intros x [->|Hx]%elem_of_cons; apply elem_of_seq; [lia|].
    rewrite Forall_forall in Hb. specialize (Hb x Hx). lia. }
  apply submseteq_length in Hsub. rewrite length_seq in Hsub. simpl in Hsub. lia.
Qed.

Lemma acquire_empty Size p : pool_rep Size p [] -> Acquire p = (None, p).
Proof. intros []. unfold Acquire. by rewrite pool_size0. Qed.

Lemma acquire_snoc Size p free x :
  pool_rep Size p (free ++ [x]) ->
  exists p', Acquire p = (Some x, p') /\ pool_rep Size p' free.
Proof.
  intros [Hl Hs Ht Hnd Hb]. rewrite length_app in Hs. simpl in Hs.
  unfold Acquire. rewrite Hs.
  replace (length free + 1)%nat with (S (length free)) in * by lia.
  assert (Hx : FreeQueue p !! length free = Some x).
  { rewrite <- (lookup_take_lt _ (FreeSize p)) by lia.
    rewrite Ht. by rewrite lookup_app_r, Nat.sub_diag by lia. }
  rewrite Hx. eexists; split; [done|].
  apply NoDup_app in Hnd as (Hnd & _ & _). apply Forall_app in Hb as [Hb _].
  split; simpl; try done.
  rewrite Hs in Ht.
  apply (f_equal (take (length free))) in Ht.
  rewrite take_take, take_app_length in Ht.
  by rewrite Nat.min_l in Ht by lia.
Qed.

Lemma release_rep Size p free e :
  pool_rep Size p free -> e ∉ free -> (e < Size)%nat ->
  exists p', Release Size (Some e) p = (true, p') /\ pool_rep Size p' (free ++ [e]).
Proof.
  intros [Hl Hs Ht Hnd Hb] Hni He. unfold Release.
  pose proof (nodup_bound_lt Size free e Hnd Hb He Hni) as Hlt.
  destruct (Nat.ltb_spec (FreeSize p) Size); [|lia].
  eexists; split; [done|]. split; simpl.
  - by rewrite length_insert.
  - rewrite length_app. simpl. lia.
  - rewrite (take_S_r _ _ e) by (apply list_lookup_insert_eq; lia).
    f_equal. by rewrite take_insert_ge by lia.
  - apply NoDup_app; split_and!; [done| |apply NoDup_singleton].
    intros x Hx ->%list_elem_of_singleton. done.
  - apply Forall_app; split; [done|]. by constructor.
Qed.

Lemma release_null Size p : Release Size None p = (false, p).
Proof. done. Qed.

(** ** Use of a pool by its owner

    A state pairs the pool with the objects currently handed out.  The owner
    may acquire, and may release what it holds. *)

Inductive pool_step (Size : nat) : StackPool * list nat -> StackPool * list nat -> Prop :=
| step_acquire p p' x held :
    Acquire p = (Some x, p') -> pool_step Size (p, held) (p', x :: held)
| step_acquire_null p p' held :
    Acquire p = (None, p') -> pool_step Size (p, held) (p', held)
| step_release p p' b x h1 h2 :
    Release Size (Some x) p = (b, p') ->
    pool_step Size (p, h1 ++ x :: h2) (p', h1 ++ h2).

Definition pool_inv (Size : nat) (s : StackPool * list nat) : Prop :=
  exists free, pool_rep Size s.1 free /\ free ++ s.2 ≡ₚ seq 0 Size.

Lemma pool_step_inv Size s s' :
  pool_inv Size s -> pool_step Size s s' -> pool_inv Size s'.
Proof.
  intros (free & Hr & Hp) Hs. destruct Hs as [p p' x held HA|p p' held HA|p p' b x h1 h2 HR];
    cbn [fst snd] in *.
  - destruct free as [|y free _] using rev_ind.
    { by rewrite (acquire_empty _ _ Hr) in HA. }
    destruct (acquire_snoc _ _ _ _ Hr) as (p'' & HA' & Hr'). rewrite HA' in HA.
    injection HA as -> ->. exists free. split; [done|]. simpl.
    rewrite <- Hp, <- app_assoc. done.
  - destruct free as [|y free _] using rev_ind.
    + rewrite (acquire_empty _ _ Hr) in HA. injection HA as <-. by exists [].
    + destruct (acquire_snoc _ _ _ _ Hr) as (p'' & HA' & _). congruence.
  - assert (Hnd : NoDup (free ++ h1 ++ x :: h2)) by (rewrite Hp; apply NoDup_seq).
    assert (Hx : (x < Size)%nat).
    { assert (Hin : x ∈ seq 0 Size) by (rewrite <- Hp; set_solver).
      apply elem_of_seq in Hin. lia. }
    assert (Hni : x ∉ free).
    { apply NoDup_app in Hnd as (_ & Hd & _). intros Hf. apply (Hd x Hf). set_solver. }
    destruct (release_rep _ _ _ _ Hr Hni Hx) as (p'' & HR' & Hr').
    rewrite HR' in HR. injection HR as <- <-.
    exists (free ++ [x]). split; [done|]. simpl. rewrite <- Hp.
    rewrite <- app_assoc. apply Permutation_app_head. simpl. by rewrite Permutation_middle.
Qed.

(** At every point of every run in which the owner acquires objects and
    releases what it holds, the free objects and the objects handed out partition
    the storage: none is handed out twice and none is lost. *)
Theorem stack_pool_partition Size s :
  rtc (pool_step Size) (pool_init Size, []) s ->
  exists free, pool_rep Size s.1 free /\ free ++ s.2 ≡ₚ seq 0 Size.
Proof.
  intros Hr. assert (Hi : pool_inv Size (pool_init Size, [])).
  { exists (seq 0 Size). split; [apply pool_init_rep|]. by rewrite app_nil_r. }
  revert Hi. induction Hr as [s|s s1 s2 Hs _ IH]; [done|].
  intros Hi. apply IH. by eapply pool_step_inv.
Qed.

Lemma stack_pool_partition_witness :
  exists free, pool_rep 2 (Acquire (pool_init 2)).2 free /\ free ++ [1%nat] ≡ₚ seq 0 2.
Proof.
  apply (stack_pool_partition 2 ((Acquire (pool_init 2)).2, [1%nat])).
  eapply rtc_l; [|apply rtc_refl]. apply step_acquire. reflexivity.
Defined.
