(* ===== verification/PriceLevel.v ===== *)
(** [OrderNode] and [PriceLevel] (src/market_server/matching_engine/include/
    order_node.hpp, price_level.hpp): the intrusive doubly linked FIFO of the
    orders resting at one price.  An [OrderNode*] is the index of the node in
    the storage of the node pool; [NodeHeap] is that storage.  Storage is never
    unmapped, so a read through a stale pointer returns the last contents.
    [level_links] relates a level and the heap to the list of node pointers in
    time priority. *)

From S2P Require Import Prelude WireTypes SingleThreadedPool.

(** ** Order nodes *)

Record OrderNode := MkNode {
  Prev : option nat;
  Next : option nat;
  NodeOrder : Order
}.

Abbreviation NodeHeap := (gmap nat OrderNode).

Definition order0 : Order := MkOrder 0 0 0 0 0 0 LIMIT BUY EXECUTE.
Definition node0 : OrderNode := MkNode None None order0.

Definition node (h : NodeHeap) (p : nat) : OrderNode := default node0 (h !! p).

Definition SetOrder (p : nat) (o : Order) (h : NodeHeap) : NodeHeap :=
  <[p := MkNode (Prev (node h p)) (Next (node h p)) o]> h.
Definition SetAmount (p : nat) (a : Z) (h : NodeHeap) : NodeHeap :=
  <[p := MkNode (Prev (node h p)) (Next (node h p))
           (set_Amount (u32 a) (NodeOrder (node h p)))]> h.
Definition SetPrev (p : nat) (q : option nat) (h : NodeHeap) : NodeHeap :=
  <[p := MkNode q (Next (node h p)) (NodeOrder (node h p))]> h.
Definition SetNext (p : nat) (q : option nat) (h : NodeHeap) : NodeHeap :=
  <[p := MkNode (Prev (node h p)) q (NodeOrder (node h p))]> h.
Definition GetPrev (h : NodeHeap) (p : nat) : option nat := Prev (node h p).
Definition GetNext (h : NodeHeap) (p : nat) : option nat := Next (node h p).
Definition GetAmount (h : NodeHeap) (p : nat) : Z := Amount (NodeOrder (node h p)).
(** [GetId] returns a [uint32_t]: the 64-bit order id is truncated. *)
Definition GetId (h : NodeHeap) (p : nat) : Z := u32 (OrderId (NodeOrder (node h p))).
Definition GetClientId (h : NodeHeap) (p : nat) : Z := ClientId (NodeOrder (node h p)).
Definition GetPrice (h : NodeHeap) (p : nat) : Z := Price (NodeOrder (node h p)).

(** ** Price levels *)

Record PriceLevel := MkLevel {
  LPrice : Z;            (* int64_t *)
  LSize : Z;             (* size_t *)
  TotalAmount : Z;       (* uint64_t *)
  LHead : option nat;
  LTail : option nat
}.

Definition level0 : PriceLevel := MkLevel 0 0 0 None None.

Definition AddOrder (order : nat) (h : NodeHeap) (l : PriceLevel)
    : result (NodeHeap * PriceLevel) :=
  '(h, l) ←
    match LHead l with
    | None =>
        Ret (SetNext order None (SetPrev order None h),
             MkLevel (LPrice l) (LSize l) (TotalAmount l) (Some order) (Some order))
    | Some _ =>
        t ← deref (LTail l);
        let h := SetNext t (Some order) h in
        let h := SetPrev order (Some t) h in
        let h := SetNext order None h in
        Ret (h, MkLevel (LPrice l) (LSize l) (TotalAmount l) (LHead l) (Some order))
    end;
  Ret (h, MkLevel (LPrice l) (u64 (LSize l + 1))
            (u64 (TotalAmount l + GetAmount h order)) (LHead l) (LTail l)).

(** Returns whether the level is now empty. *)
Definition DeleteOrder (order : nat) (h : NodeHeap) (l : PriceLevel)
    : bool * NodeHeap * PriceLevel :=
  let l := MkLevel (LPrice l) (u64 (LSize l - 1))
             (u64 (TotalAmount l - GetAmount h order)) (LHead l) (LTail l) in
  let '(h, l) :=
    match GetPrev h order with
    | Some pr => (SetNext pr (GetNext h order) h, l)
    | None => (h, MkLevel (LPrice l) (LSize l) (TotalAmount l) (GetNext h order) (LTail l))
    end in
  let '(h, l) :=
    match GetNext h order with
    | Some nx => (SetPrev nx (GetPrev h order) h, l)
    | None => (h, MkLevel (LPrice l) (LSize l) (TotalAmount l) (LHead l) (GetPrev h order))
    end in
  (LSize l =? 0, h, l).

Definition PeekOrder (l : PriceLevel) : option nat := LHead l.

Definition PopOrder (h : NodeHeap) (l : PriceLevel)
    : option nat * NodeHeap * PriceLevel :=
  match LHead l with
  | None => (None, h, l)
  | Some res =>
      let hd := GetNext h res in
      let '(h, tl) :=
        match hd with
        | Some y => (SetPrev y None h, LTail l)
        | None => (h, None)
        end in
      (Some res, h,
       MkLevel (LPrice l) (u64 (LSize l - 1)) (u64 (TotalAmount l - GetAmount h res)) hd tl)
  end.

(** The loop of [ClearPriceLevel]: every node of the chain goes back to the
    node pool; a refused release terminates the process. *)
Fixpoint release_chain (fuel : nat) (Size : nat) (h : NodeHeap) (cur : option nat)
    (pool : StackPool) : result StackPool :=
  match cur with
  | None => Ret pool
  | Some x =>
      match fuel with
      | O => Crash OutOfFuel
      | S fuel =>
          let nxt := GetNext h x in
          match Release Size (Some x) pool with
          | (true, pool) => release_chain fuel Size h nxt pool
          | (false, _) => Crash Terminate
          end
      end
  end.

(** The chain has at most [Size] nodes, the size of their pool. *)
Definition ClearPriceLevel (Size : nat) (h : NodeHeap) (l : PriceLevel) (pool : StackPool)
    : result (PriceLevel * StackPool) :=
  pool ← release_chain Size Size h (LHead l) pool;
  Ret (MkLevel (LPrice l) 0 0 None None, pool).

Definition SetPrice (price : Z) (l : PriceLevel) : PriceLevel :=
  MkLevel price (LSize l) (TotalAmount l) (LHead l) (LTail l).

(** The delta has type [int64_t]. *)
Definition IncTotalAmount (amountDelta : Z) (l : PriceLevel) : PriceLevel :=
  MkLevel (LPrice l) (LSize l) (u64 (TotalAmount l + amountDelta)) (LHead l) (LTail l).

Definition GetKey (l : PriceLevel) : Z := LPrice l.
Definition GetTotalAmount (l : PriceLevel) : Z := TotalAmount l.

(** ** Representation *)

Definition hd_or (b : list nat) (n : option nat) : option nat :=
  match b with [] => n | y :: _ => Some y end.
Definition last_or (a : list nat) (p : option nat) : option nat :=
  match last a with Some z => Some z | None => p end.

(** [dll h prev ids nxt]: [ids] is a doubly linked segment between [prev] and
    [nxt]. *)
Fixpoint dll (h : NodeHeap) (prev : option nat) (ids : list nat) (nxt : option nat) : Prop :=
  match ids with
  | [] => True
  | x :: xs =>
      Prev (node h x) = prev /\ Next (node h x) = hd_or xs nxt /\ dll h (Some x) xs nxt
  end.

(** Quantity resting in the orders [ids]. *)
Fixpoint qty (h : NodeHeap) (ids : list nat) : Z :=
  match ids with [] => 0 | x :: xs => GetAmount h x + qty h xs end.

Record level_links (h : NodeHeap) (l : PriceLevel) (ids : list nat) : Prop := {
  ll_head : LHead l = head ids;
  ll_tail : LTail l = last ids;
  ll_size : LSize l = Z.of_nat (length ids);
  ll_dll : dll h None ids None;
  ll_nodup : NoDup ids
}.

(** What [PriceLevel] keeps of the quantity: the 64-bit counter agrees with the
    resting quantity modulo 2^32, the width of the published depth. *)
Definition level_depth (h : NodeHeap) (l : PriceLevel) (ids : list nat) : Prop :=
  u32 (TotalAmount l) = u32 (qty h ids).

(** ** Heap lemmas *)

Lemma node_insert_eq h p n : node (<[p := n]> h) p = n.
Proof. unfold node. by rewrite lookup_insert_eq. Qed.
Lemma node_insert_ne h p q n : p <> q -> node (<[p := n]> h) q = node h q.
Proof. intros. unfold node. by rewrite lookup_insert_ne. Qed.

(** Updates of the links do not touch the orders. *)
Lemma order_SetPrev p q h x : NodeOrder (node (SetPrev p q h) x) = NodeOrder (node h x).
Proof.
  unfold SetPrev. destruct (decide (p = x)) as [->|];
    [by rewrite node_insert_eq | by rewrite node_insert_ne].
Qed.
Lemma order_SetNext p q h x : NodeOrder (node (SetNext p q h) x) = NodeOrder (node h x).
Proof.
  unfold SetNext. destruct (decide (p = x)) as [->|];
    [by rewrite node_insert_eq | by rewrite node_insert_ne].
Qed.

Lemma node_SetPrev_eq p q h : Prev (node (SetPrev p q h) p) = q.
Proof. unfold SetPrev. by rewrite node_insert_eq. Qed.
Lemma node_SetNext_eq p q h : Next (node (SetNext p q h) p) = q.
Proof. unfold SetNext. by rewrite node_insert_eq. Qed.
Lemma prev_SetNext p q h x : Prev (node (SetNext p q h) x) = Prev (node h x).
Proof.
  unfold SetNext. destruct (decide (p = x)) as [->|];
    [by rewrite node_insert_eq | by rewrite node_insert_ne].
Qed.
Lemma next_SetPrev p q h x : Next (node (SetPrev p q h) x) = Next (node h x).
Proof.
  unfold SetPrev. destruct (decide (p = x)) as [->|];
    [by rewrite node_insert_eq | by rewrite node_insert_ne].
Qed.
Lemma node_SetPrev_ne p q h x : p <> x -> node (SetPrev p q h) x = node h x.
Proof. intros. unfold SetPrev. by rewrite node_insert_ne. Qed.
Lemma node_SetNext_ne p q h x : p <> x -> node (SetNext p q h) x = node h x.
Proof. intros. unfold SetNext. by rewrite node_insert_ne. Qed.
Lemma node_SetAmount_ne p a h x : p <> x -> node (SetAmount p a h) x = node h x.
Proof. intros. unfold SetAmount. by rewrite node_insert_ne. Qed.
Lemma node_SetOrder_ne p o h x : p <> x -> node (SetOrder p o h) x = node h x.
Proof. intros. unfold SetOrder. by rewrite node_insert_ne. Qed.

Create Rewrite HintDb heap.
#[export] Hint Rewrite order_SetPrev order_SetNext node_SetPrev_eq node_SetNext_eq
  prev_SetNext next_SetPrev : heap.
#[export] Hint Rewrite node_SetPrev_ne node_SetNext_ne node_SetAmount_ne
  node_SetOrder_ne using congruence : heap.

(** Two heaps that agree on the links of [ids] agree on the segment. *)
Lemma dll_frame h h' prev ids nxt :
  (forall x, x ∈ ids -> Prev (node h' x) = Prev (node h x) /\
                        Next (node h' x) = Next (node h x)) ->
  dll h prev ids nxt -> dll h' prev ids nxt.
Proof.
  revert prev. induction ids as [|x xs IH]; simpl; [done|].
  intros prev Hf (Hp & Hn & Hd).
  destruct (Hf x) as [-> ->]; [set_solver|]. split_and!; [done|done|].
  apply IH; [|done]. intros y Hy. apply Hf. set_solver.
Qed.

Lemma last_or_cons x a p : last_or (x :: a) p = last_or a (Some x).
Proof.
  unfold last_or. destruct a as [|y a]; [done|]. rewrite last_cons_cons.
  destruct (last (y :: a)) eqn:E; [done|]. by apply last_None in E.
Qed.

Lemma dll_app h prev a b nxt :
  dll h prev (a ++ b) nxt <-> dll h prev a (hd_or b nxt) /\ dll h (last_or a prev) b nxt.
Proof.
  revert prev. induction a as [|x a IH]; intros prev; simpl.
  { unfold last_or; simpl. tauto. }
  rewrite IH, last_or_cons.
  assert (hd_or (a ++ b) nxt = hd_or a (hd_or b nxt)) as -> by (by destruct a). tauto.
Qed.

(** The neighbours of a node inside a segment. *)
Lemma dll_mid h prev a x b nxt :
  dll h prev (a ++ x :: b) nxt ->
  Prev (node h x) = last_or a prev /\ Next (node h x) = hd_or b nxt.
Proof. rewrite dll_app. simpl. tauto. Qed.

Lemma qty_ext h h' ids :
  (forall x, x ∈ ids -> GetAmount h' x = GetAmount h x) -> qty h' ids = qty h ids.
Proof.
  induction ids as [|x xs IH]; simpl; [done|]. intros Hf.
  rewrite Hf by set_solver. rewrite IH; [done|]. intros; apply Hf; set_solver.
Qed.

Lemma qty_app h a b : qty h (a ++ b) = qty h a + qty h b.
Proof. induction a as [|x a IH]; simpl; [done|]. rewrite IH. lia. Qed.

Lemma qty_nonneg h ids :
  (forall x, x ∈ ids -> 0 <= GetAmount h x) -> 0 <= qty h ids.
Proof.
  induction ids as [|x xs IH]; simpl; [lia|]. intros Hf.
  pose proof (Hf x ltac:(set_solver)). specialize (IH ltac:(set_solver)). lia.
Qed.

(** ** Operations on the representation *)

(** [AddOrder] appends at the end of the FIFO. *)
Lemma AddOrder_links h l ids x :
  level_links h l ids -> x ∉ ids -> Z.of_nat (length ids) + 1 < 2 ^ 64 ->
  exists h' l',
    AddOrder x h l = Ret (h', l') /\ level_links h' l' (ids ++ [x]) /\
    LPrice l' = LPrice l /\
    TotalAmount l' = u64 (TotalAmount l + GetAmount h x) /\
    (forall y, NodeOrder (node h' y) = NodeOrder (node h y)) /\
    (forall y, y ∉ ids -> y <> x -> node h' y = node h y).
Proof.
  intros [Hh Ht Hs Hd Hnd] Hx Hb. unfold AddOrder.
  destruct ids as [|z ids _] using rev_ind.
  { rewrite Hh. simpl. do 2 eexists. split; [done|].
    split_and!; simpl; try done.
    - split; simpl; try done; [by rewrite Hs, u64_small by (simpl in *; lia)| |apply NoDup_singleton].
      autorewrite with heap. done.
    - unfold GetAmount. by autorewrite with heap.
    - intros y. by autorewrite with heap.
    - intros y _ Hy. by rewrite node_SetNext_ne, node_SetPrev_ne by congruence. }
  assert (Hz : z <> x) by set_solver.
  assert (exists y, LHead l = Some y) as [y Hy].
  { rewrite Hh. destruct ids; simpl; eauto. }
  rewrite Hy. rewrite Ht, last_snoc. simpl.
  do 2 eexists. split; [done|]. split_and!; simpl; try done.
  - split; simpl.
    + rewrite <- Hy, Hh. by destruct ids.
    + by rewrite last_snoc.
    + rewrite Hs, u64_small; [rewrite !length_app; simpl; lia|]. lia.
    + apply dll_app in Hd as [Hd1 Hd2]. rewrite <- app_assoc. apply dll_app. split.
      * eapply dll_frame; [|exact Hd1]. apply NoDup_app in Hnd as (_ & Hnd & _).
        intros w Hw. assert (w <> z) by set_solver. assert (w <> x) by set_solver.
        by autorewrite with heap.
      * simpl in *. destruct Hd2 as (Hp & Hn & _).
        split_and!; try done; autorewrite with heap; done.
    + apply NoDup_app. split_and!; [done| |apply NoDup_singleton].
      intros w Hw ->%list_elem_of_singleton. done.
  - unfold GetAmount. by autorewrite with heap.
  - intros w. by autorewrite with heap.
  - intros w Hw1 Hw2. assert (w <> z) by set_solver. by autorewrite with heap.
Qed.

Lemma last_or_None a : last_or a None = last a.
Proof. unfold last_or. by destruct (last a). Qed.
Lemma hd_or_None b : hd_or b None = head b.
Proof. by destruct b. Qed.

(** The links after unlinking [x] from between [a] and [b]. *)
Definition unlink (x : nat) (h : NodeHeap) : NodeHeap :=
  let h1 := match GetPrev h x with Some pr => SetNext pr (GetNext h x) h | None => h end in
  match GetNext h1 x with Some nx => SetPrev nx (GetPrev h1 x) h1 | None => h1 end.

Lemma unlink_order x h y : NodeOrder (node (unlink x h) y) = NodeOrder (node h y).
Proof.
  unfold unlink. destruct (GetPrev h x); destruct (GetNext _ x);
    by autorewrite with heap.
Qed.

Lemma unlink_dll h a x b :
  dll h None (a ++ x :: b) None -> NoDup (a ++ x :: b) ->
  dll (unlink x h) None (a ++ b) None /\
  (forall y, y ∉ a ++ x :: b -> node (unlink x h) y = node h y) /\
  node (unlink x h) x = node h x.
Proof.
  intros Hd Hnd. destruct (dll_mid _ _ _ _ _ _ Hd) as [Hp Hn].
  rewrite last_or_None in Hp. rewrite hd_or_None in Hn.
  apply dll_app in Hd as [Hda Hdb]. simpl in Hdb. destruct Hdb as (_ & _ & Hdb).
  apply NoDup_app in Hnd as (Hna & Hdis & Hnb). apply NoDup_cons in Hnb as [Hxb Hnb].
  assert (Hxa : x ∉ a) by (intros H; apply (Hdis x H); set_solver).
  unfold unlink, GetPrev, GetNext. rewrite Hp, Hn.
  destruct a as [|z a _] using rev_ind; [|rewrite last_snoc].
  { simpl last. cbn iota. rewrite Hn, Hp. destruct b as [|y b]; simpl.
    - split_and!; done.
    - assert (x <> y) by set_solver. split_and!.
      + by autorewrite with heap.
      + autorewrite with heap. simpl in Hdb. tauto.
      + apply NoDup_cons in Hnb as [Hyb _].
        eapply dll_frame; [|apply Hdb]. intros w Hw.
        assert (w <> y) by set_solver. by autorewrite with heap.
      + intros w Hw. assert (w <> y) by set_solver. by autorewrite with heap.
      + by autorewrite with heap. }
  assert (z <> x) by set_solver.
  rewrite node_SetNext_ne by done. rewrite Hn, Hp.
  apply NoDup_app in Hna as (Hna & Hza & _).
  apply dll_app in Hda as [Hda1 Hda2]. simpl in Hda2. destruct Hda2 as (Hpz & _ & _).
  destruct b as [|y b]; simpl.
  - split_and!.
    + rewrite app_nil_r. apply dll_app. split.
      * eapply dll_frame; [|apply Hda1]. intros w Hw.
        assert (w <> z) by set_solver. by autorewrite with heap.
      * simpl. by autorewrite with heap.
    + intros w Hw. assert (w <> z) by set_solver. by autorewrite with heap.
    + by autorewrite with heap.
  - assert (x <> y) by set_solver. assert (z <> y).
    { intros ->. apply (Hdis y); set_solver. }
    apply NoDup_cons in Hnb as [Hyb _].
    split_and!.
    + rewrite <- app_assoc. apply dll_app. split.
      * eapply dll_frame; [|apply Hda1]. intros w Hw.
        assert (w <> z) by set_solver.
        assert (w <> y) by (intros ->; apply (Hdis y); set_solver).
        by autorewrite with heap.
      * simpl. autorewrite with heap. rewrite last_snoc. split_and!; try done.
        -- simpl in Hdb; tauto.
        -- eapply dll_frame; [|apply Hdb]. intros w Hw.
           assert (w <> z) by (intros ->; apply (Hdis z); set_solver).
           assert (w <> y) by set_solver. by autorewrite with heap.
    + intros w Hw. assert (w <> z) by set_solver. assert (w <> y) by set_solver.
      by autorewrite with heap.
    + by autorewrite with heap.
Qed.

(** [DeleteOrder] removes exactly the given node and reports emptiness. *)
Lemma DeleteOrder_links h l a x b :
  level_links h l (a ++ x :: b) -> Z.of_nat (length (a ++ x :: b)) < 2 ^ 64 ->
  exists l',
    DeleteOrder x h l = (bool_decide (a ++ b = []), unlink x h, l') /\
    level_links (unlink x h) l' (a ++ b) /\
    LPrice l' = LPrice l /\
    TotalAmount l' = u64 (TotalAmount l - GetAmount h x).
Proof.
  intros [Hh Ht Hs Hd Hnd] Hb.
  destruct (dll_mid _ _ _ _ _ _ Hd) as [Hp Hn].
  rewrite last_or_None in Hp. rewrite hd_or_None in Hn.
  destruct (unlink_dll _ _ _ _ Hd Hnd) as (Hd' & _ & _).
  assert (Hlen : LSize l = Z.of_nat (length (a ++ b)) + 1).
  { rewrite Hs, !length_app. simpl. lia. }
  assert (Hsz : u64 (LSize l - 1) = Z.of_nat (length (a ++ b))).
  { rewrite Hlen, u64_small; [lia|]. rewrite !length_app in *. simpl in *. lia. }
  assert (Hemp : (Z.of_nat (length (a ++ b)) =? 0) = bool_decide (a ++ b = [])).
  { by destruct (a ++ b). }
  assert (Hnd' : NoDup (a ++ b)).
  { apply NoDup_app in Hnd as (? & Hdis & Hnb). apply NoDup_cons in Hnb as [? ?].
    apply NoDup_app. split_and!; [done| |done]. intros q Hq Hq'. apply (Hdis q Hq). set_solver. }
  unfold DeleteOrder. cbn zeta. unfold unlink in *. unfold GetPrev, GetNext in *.
  rewrite Hp, Hn in *.
  destruct a as [|z a _] using rev_ind; [simpl last in *|rewrite last_snoc in *];
    cbn iota beta in *.
  - rewrite Hn, Hp in *. destruct b as [|y b]; simpl head in *; cbn iota beta in *; simpl in *.
    + eexists. split; [by rewrite Hsz|]. split_and!; try done.
    + eexists. split; [by rewrite Hsz|]. split_and!; try done.
  - assert (Hzx : z <> x).
    { intros ->. apply NoDup_app in Hnd as (_ & Hdis & _). apply (Hdis x); set_solver. }
    rewrite node_SetNext_ne in * by done. rewrite Hn, Hp in *.
    assert (Hhd : forall c, head ((a ++ [z]) ++ c) = head (a ++ [z])) by (by destruct a).
    destruct b as [|y b]; cbn [head hd_error] in *; cbn iota beta in *; cbn [LSize LHead LTail LPrice TotalAmount].
    + eexists. split; [by rewrite Hsz, Hemp|]. split_and!; try done.
      split; simpl; try done.
      * by rewrite Hh, !Hhd.
      * by rewrite app_nil_r, last_snoc.
    + eexists. split; [by rewrite Hsz, Hemp|]. split_and!; try done.
      split; simpl; try done.
      * by rewrite Hh, !Hhd.
      * rewrite Ht. rewrite !last_app. by destruct b.
Qed.

(** [PopOrder] on a non-empty level is [DeleteOrder] of its oldest order. *)
Lemma PopOrder_links h l x b :
  level_links h l (x :: b) -> Z.of_nat (length (x :: b)) < 2 ^ 64 ->
  exists l',
    PopOrder h l = (Some x, unlink x h, l') /\ level_links (unlink x h) l' b /\
    TotalAmount l' = u64 (TotalAmount l - GetAmount h x).
Proof.
  intros HL Hb. pose proof HL as [Hh Ht Hs Hd Hnd].
  destruct (unlink_dll h [] x b Hd Hnd) as (Hd' & _ & _).
  simpl in Hd. destruct Hd as (Hp & Hn & _). rewrite hd_or_None in Hn.
  apply NoDup_cons in Hnd as [Hx Hnd].
  assert (Hsz : u64 (LSize l - 1) = Z.of_nat (length b)).
  { rewrite Hs. simpl. rewrite u64_small; simpl in Hb; lia. }
  unfold PopOrder. unfold unlink, GetPrev, GetNext in *. simpl in Hh.
  rewrite Hh, Hp, Hn in *. rewrite Hp in *.
  destruct b as [|y b]; simpl in *.
  - eexists. split; [done|]. split; [|done]. by split.
  - eexists. split; [done|]. split.
    + by split.
    + simpl. unfold GetAmount. by autorewrite with heap.
Qed.
