(* ===== verification/FlatHashMap.v ===== *)
(** [FlatHashMap] (src/market_server/common/include/flat_hash_map.hpp): an
    open-addressing robin-hood table with 16 slots per bucket, probed 16 bytes at
    a time with SSE2.  The four parallel arrays are lists of length
    [(Size + 1) * 16]; the intrinsics are modelled lane by lane.

    Main results: while no bucket is home to more than 16 live keys the table
    implements a finite map ([fhm_rep]), and [GetVal], [AddNode], [DeleteNode]
    are lookup, insert-if-absent and delete on it; beyond that bound an inserted
    key can be unreachable. *)

From S2P Require Import Prelude.

(** ** SSE2 intrinsics: a [__m128i] is a list of 16 bytes *)

Definition _mm_set1_epi8 (x : Z) : list Z := replicate 16 (u8 x).
Definition _mm_add_epi8 (a b : list Z) : list Z := zip_with (fun x y => u8 (x + y)) a b.
Definition _mm_cmpeq_epi8 (a b : list Z) : list Z :=
  zip_with (fun x y => if x =? y then 255 else 0) a b.
(** Signed comparison. *)
Definition _mm_cmplt_epi8 (a b : list Z) : list Z :=
  zip_with (fun x y => if s8 x <? s8 y then 255 else 0) a b.
Definition _mm_and_si128 (a b : list Z) : list Z := zip_with Z.land a b.
Definition _mm_or_si128 (a b : list Z) : list Z := zip_with Z.lor a b.
(** The top bit of every byte, lane 0 first. *)
Fixpoint _mm_movemask_epi8 (a : list Z) : Z :=
  match a with
  | [] => 0
  | x :: xs => Z.b2z (Z.testbit x 7) + 2 * _mm_movemask_epi8 xs
  end.
Definition _mm_load_si128 (arr : list Z) (idx : nat) : list Z := take 16 (drop idx arr).

(** [__builtin_ctz]; the code never calls it on 0. *)
Fixpoint pos_ctz (p : positive) : nat :=
  match p with xO q => S (pos_ctz q) | _ => O end.
Definition ctz (z : Z) : nat := match z with Zpos p => pos_ctz p | _ => O end.

Section FlatHashMap.
Context {V : Type} (V0 : V) (Size : nat).

Record FlatHashMap := MkMap {
  FootPrints : list Z;   (* uint8_t *)
  Tags : list Z;         (* uint8_t: distance to the home slot *)
  Keys : list Z;         (* K *)
  Data : list V
}.

Definition EMPTY_MARKER : Z := 128.
Definition base_seq : list Z := [0; 1; 2; 3; 4; 5; 6; 7; 8; 9; 10; 11; 12; 13; 14; 15].
Definition total_size : nat := (Size * 16)%nat.

Definition hash_64 (key : Z) : Z := u64 (u64 key * 0x9E3779B97F4A7C15).
Definition footprint_of (key : Z) : Z := Z.shiftr (hash_64 key) 56.
(** [(h & (Size - 1)) << 4] *)
Definition home (key : Z) : nat :=
  (Z.to_nat (Z.land (hash_64 key) (Z.of_nat Size - 1)) * 16)%nat.
(** [x & (total_size - 1)] *)
Definition wrap_idx (x : nat) : nat := Nat.land x (total_size - 1).

Definition tag (m : FlatHashMap) (i : nat) : Z := nth i (Tags m) 0.
Definition fprint (m : FlatHashMap) (i : nat) : Z := nth i (FootPrints m) 0.
Definition keyat (m : FlatHashMap) (i : nat) : Z := nth i (Keys m) 0.
Definition dataat (m : FlatHashMap) (i : nat) : V := nth i (Data m) V0.

Definition write_slot (idx : nat) (dib key fp : Z) (val : V) (m : FlatHashMap)
    : FlatHashMap :=
  MkMap (<[idx := fp]> (FootPrints m)) (<[idx := u8 dib]> (Tags m))
    (<[idx := key]> (Keys m)) (<[idx := val]> (Data m)).

Definition PaddingSafeWrite (idx : nat) (dib key : Z) (val : V) (m : FlatHashMap)
    : FlatHashMap :=
  let h := footprint_of key in
  let m := write_slot idx dib key h val m in
  if (idx <? 16)%nat then write_slot (Size * 16 + idx) dib key h val m else m.

(** Returns the evicted distance, key and value with the new table. *)
Definition PaddingSafeSwap (idx : nat) (dib key : Z) (val : V) (m : FlatHashMap)
    : Z * Z * V * FlatHashMap :=
  (tag m idx, keyat m idx, dataat m idx, PaddingSafeWrite idx dib key val m).

(** The constructor. *)
Definition fhm_empty : FlatHashMap :=
  MkMap (replicate ((Size + 1) * 16) 0) (replicate ((Size + 1) * 16) EMPTY_MARKER)
    (replicate ((Size + 1) * 16) 0) (replicate ((Size + 1) * 16) V0).

(** *** GetVal *)

(** The candidates of one group, lowest lane first.  [Some r] is a return of
    [GetVal] with [r]; [None] continues after the loop. *)
Fixpoint check_matches (fuel : nat) (m : FlatHashMap) (matches : Z) (first_stop : nat)
    (cur_idx : nat) (key : Z) : option (option V) :=
  match fuel with
  | O => None
  | S fuel =>
      if matches =? 0 then None
      else
        let first_match := ctz matches in
        if (first_match <? first_stop)%nat then
          let i := wrap_idx (cur_idx + first_match) in
          if (fprint m i =? footprint_of key) && (keyat m i =? key)
          then Some (Some (dataat m i))
          else check_matches fuel m (Z.land matches (matches - 1)) first_stop cur_idx key
        else Some None
  end.

Definition group_dibs (cur_dib : Z) : list Z := _mm_add_epi8 base_seq (_mm_set1_epi8 cur_dib).

Definition group_matches (m : FlatHashMap) (cur_idx : nat) (cur_dib key : Z) : Z :=
  let dib_mask := _mm_cmpeq_epi8 (_mm_load_si128 (Tags m) cur_idx) (group_dibs cur_dib) in
  let footprint_mask :=
    _mm_cmpeq_epi8 (_mm_load_si128 (FootPrints m) cur_idx)
      (_mm_set1_epi8 (footprint_of key)) in
  _mm_movemask_epi8 (_mm_and_si128 dib_mask footprint_mask).

Definition group_free (m : FlatHashMap) (cur_idx : nat) : list Z :=
  _mm_cmpeq_epi8 (_mm_load_si128 (Tags m) cur_idx) (_mm_set1_epi8 EMPTY_MARKER).

(** Free or richer slots of a group: [stop_slots] of [GetVal] and
    [available_slots] of [AddNode]. *)
Definition group_stops (m : FlatHashMap) (cur_idx : nat) (cur_dib : Z) : Z :=
  _mm_movemask_epi8
    (_mm_or_si128 (group_free m cur_idx)
       (_mm_cmplt_epi8 (_mm_load_si128 (Tags m) cur_idx) (group_dibs cur_dib))).

Fixpoint get_loop (fuel : nat) (m : FlatHashMap) (cur_idx cur_dib : nat) (key : Z)
    : option V :=
  match fuel with
  | O => None
  | S fuel =>
      if (cur_dib <? total_size)%nat then
        let matches := group_matches m cur_idx (Z.of_nat cur_dib) key in
        let stops := group_stops m cur_idx (Z.of_nat cur_dib) in
        let first_stop := if stops =? 0 then 16%nat else ctz stops in
        match check_matches 16 m matches first_stop cur_idx key with
        | Some r => r
        | None =>
            if negb (stops =? 0) then None
            else get_loop fuel m (wrap_idx (cur_idx + 16)) (cur_dib + 16) key
        end
      else None
  end.

(** [Some v] is [true] with [value = v].  A group advances [cur_dib] by 16, so
    [Size] iterations reach [total_size]. *)
Definition GetVal (m : FlatHashMap) (key : Z) : option V :=
  get_loop (S Size) m (home key) 0 key.

(** *** AddNode *)

Inductive add_state :=
| AddDone (m : FlatHashMap)
| AddMore (idx : nat) (dib key : Z) (val : V) (m : FlatHashMap).

(** One slot of the scalar loops: write, or swap, and advance; the index of the
    first loop is not masked, so a read past the arrays is possible. *)
Definition add_slot (masked : bool) (idx : nat) (dib key : Z) (val : V) (m : FlatHashMap)
    : result add_state :=
  match Tags m !! idx with
  | None => Crash OutOfBounds
  | Some t =>
      if t =? EMPTY_MARKER then Ret (AddDone (PaddingSafeWrite idx dib key val m))
      else
        let '(dib, key, val, m) :=
          if t <? dib then PaddingSafeSwap idx dib key val m else (dib, key, val, m) in
        Ret (AddMore (if masked then wrap_idx (idx + 1) else (idx + 1)%nat) (dib + 1) key val m)
  end.

(** [while (cur_dib < 16)] *)
Fixpoint add_loop1 (fuel : nat) (idx : nat) (dib key : Z) (val : V) (m : FlatHashMap)
    : result add_state :=
  match fuel with
  | O => Crash OutOfFuel
  | S fuel =>
      if dib <? 16 then
        s ← add_slot false idx dib key val m;
        match s with
        | AddDone m => Ret (AddDone m)
        | AddMore idx dib key val m => add_loop1 fuel idx dib key val m
        end
      else Ret (AddMore idx dib key val m)
  end.

(** [while ((cur_idx & 15) != 0)] *)
Fixpoint add_align (fuel : nat) (idx : nat) (dib key : Z) (val : V) (m : FlatHashMap)
    : result add_state :=
  match fuel with
  | O => Crash OutOfFuel
  | S fuel =>
      if negb (Nat.land idx 15 =? 0)%nat then
        s ← add_slot true idx dib key val m;
        match s with
        | AddDone m => Ret (AddDone m)
        | AddMore idx dib key val m => add_align fuel idx dib key val m
        end
      else Ret (AddMore idx dib key val m)
  end.

(** [while (cur_dib < total_size)].  Note the last case: a group whose first
    slot is richer is skipped. *)
Fixpoint add_loop2 (fuel : nat) (idx : nat) (dib key : Z) (val : V) (m : FlatHashMap)
    : result FlatHashMap :=
  match fuel with
  | O => Crash OutOfFuel
  | S fuel =>
      if dib <? Z.of_nat total_size then
        s ← add_align 16 idx dib key val m;
        match s with
        | AddDone m => Ret m
        | AddMore idx dib key val m =>
            let free := _mm_movemask_epi8 (group_free m idx) in
            let available := group_stops m idx dib in
            let first_free := if free =? 0 then 16%nat else ctz free in
            let first_available := if available =? 0 then 16%nat else ctz available in
            if (first_available =? 16)%nat then
              add_loop2 fuel (wrap_idx (idx + 16)) (dib + 16) key val m
            else
              let slot_idx := wrap_idx (idx + first_available) in
              if (first_free =? first_available)%nat then
                Ret (PaddingSafeWrite slot_idx (dib + Z.of_nat first_available) key val m)
              else if negb (first_available =? 0)%nat then
                let '(dib, key, val, m) :=
                  PaddingSafeSwap slot_idx (dib + Z.of_nat first_available) key val m in
                add_loop2 fuel (wrap_idx (slot_idx + 1)) (dib + 1) key val m
              else add_loop2 fuel (wrap_idx (idx + 16)) (dib + 16) key val m
        end
      else Ret m   (* no available slot *)
  end.

(** An existing key is left as it is.  A slot's distance only grows when it is
    swapped, which bounds the second loop by the slots times the tag values. *)
Definition AddNode (key : Z) (val : V) (m : FlatHashMap) : result FlatHashMap :=
  match GetVal m key with
  | Some _ => Ret m
  | None =>
      s ← add_loop1 (S ((Size + 1) * 16)) (home key) 0 key val m;
      match s with
      | AddDone m => Ret m
      | AddMore idx dib key val m => add_loop2 (total_size * 256) idx dib key val m
      end
  end.

(** *** DeleteNode *)

(** The search: [Some i] breaks at slot [i], [None] returns. *)
Fixpoint del_find (fuel : nat) (m : FlatHashMap) (idx dib : nat) (key : Z) : option nat :=
  match fuel with
  | O => None
  | S fuel =>
      if (dib <? total_size)%nat then
        let t := tag m idx in
        if (t =? EMPTY_MARKER) || (t <? Z.of_nat dib) then None
        else if (fprint m idx =? footprint_of key) && (keyat m idx =? key) then Some idx
        else del_find fuel m (wrap_idx (idx + 1)) (dib + 1) key
      else None
  end.

(** The backward shift. *)
Fixpoint del_shift (fuel : nat) (idx : nat) (m : FlatHashMap) : result FlatHashMap :=
  match fuel with
  | O => Crash OutOfFuel
  | S fuel =>
      let next_idx := wrap_idx (idx + 1) in
      let next_tag := tag m next_idx in
      if (next_tag =? EMPTY_MARKER) || (next_tag =? 0)
      then Ret (PaddingSafeWrite idx EMPTY_MARKER 0 V0 m)
      else del_shift fuel next_idx
             (PaddingSafeWrite idx (next_tag - 1) (keyat m next_idx) (dataat m next_idx) m)
  end.

Definition DeleteNode (key : Z) (m : FlatHashMap) : result FlatHashMap :=
  match del_find (S total_size) m (home key) 0 key with
  | None => Ret m
  | Some idx => del_shift (S total_size) idx m
  end.

(** *** Representation

    [buckets_ok m B]: bucket [b] holds the entries [B b], packed from its first
    slot, each at its distance from home; every key sits in its home bucket. *)

Definition bucket (key : Z) : nat :=
  Z.to_nat (Z.land (hash_64 key) (Z.of_nat Size - 1)).

Definition slot_ok (m : FlatHashMap) (b k : nat) (e : option (Z * V)) : Prop :=
  match e with
  | Some (key, v) =>
      tag m (b * 16 + k) = Z.of_nat k /\ fprint m (b * 16 + k) = footprint_of key /\
      keyat m (b * 16 + k) = key /\ dataat m (b * 16 + k) = v
  | None => tag m (b * 16 + k) = EMPTY_MARKER
  end.

Record buckets_ok (m : FlatHashMap) (B : nat -> list (Z * V)) : Prop := {
  bo_tags : length (Tags m) = ((Size + 1) * 16)%nat;
  bo_fps : length (FootPrints m) = ((Size + 1) * 16)%nat;
  bo_keys : length (Keys m) = ((Size + 1) * 16)%nat;
  bo_data : length (Data m) = ((Size + 1) * 16)%nat;
  bo_cap : forall b, (b < Size)%nat -> (length (B b) <= 16)%nat;
  bo_slots : forall b k, (b < Size)%nat -> (k < 16)%nat -> slot_ok m b k (B b !! k);
  bo_home : forall b key, (b < Size)%nat -> key ∈ (B b).*1 -> bucket key = b;
  bo_nodup : forall b, (b < Size)%nat -> NoDup (B b).*1
}.

(** The finite map a table stands for. *)
Definition fhm_rep (m : FlatHashMap) (g : gmap Z V) : Prop :=
  exists B, buckets_ok m B /\
    forall key, g !! key = (list_to_map (B (bucket key)) : gmap Z V) !! key.

(** The live keys that share the home bucket of [key]. *)
Definition bucket_load (g : gmap Z V) (key : Z) : nat :=
  size (filter (fun kv => bucket kv.1 = bucket key) g).

End FlatHashMap.

(** ** Bit-level lemmas *)

Lemma movemask_nonneg a : 0 <= _mm_movemask_epi8 a.
Proof.
  induction a as [|x a IH]; cbn [_mm_movemask_epi8]; [lia|].
  destruct (Z.testbit x 7); unfold Z.b2z; lia.
Qed.

Lemma movemask_testbit a (i : nat) :
  Z.testbit (_mm_movemask_epi8 a) (Z.of_nat i) =
  match a !! i with Some x => Z.testbit x 7 | None => false end.
Proof.
  revert i. induction a as [|x a IH]; intros i; cbn [_mm_movemask_epi8].
  { by rewrite Z.bits_0. }
  destruct i as [|i]; simpl lookup.
  - rewrite Z.add_comm. apply Z.testbit_0_r.
  - rewrite <- IH, Nat2Z.inj_succ, Z.add_comm. apply Z.testbit_succ_r. lia.
Qed.

Lemma ctz_true z : 0 < z -> Z.testbit z (Z.of_nat (ctz z)) = true.
Proof.
  destruct z as [|p|p]; try lia. intros _. simpl.
  induction p as [p IH|p IH|]; simpl pos_ctz; try done.
  rewrite Nat2Z.inj_succ, Pos2Z.inj_xO, Z.testbit_even_succ by lia. done.
Qed.

Lemma ctz_below z (i : nat) : 0 < z -> (i < ctz z)%nat -> Z.testbit z (Z.of_nat i) = false.
Proof.
  destruct z as [|p|p]; try lia. intros _. simpl. revert i.
  induction p as [p IH|p IH|]; simpl pos_ctz; intros i Hi; try lia.
  rewrite Pos2Z.inj_xO. destruct i as [|i]; [by rewrite Z.testbit_even_0|].
  rewrite Nat2Z.inj_succ, Z.testbit_even_succ by lia. apply IH. lia.
Qed.

(** [x & (x - 1)] clears the lowest set bit. *)
Lemma land_pred_testbit z (i : nat) :
  0 < z ->
  Z.testbit (Z.land z (z - 1)) (Z.of_nat i) =
  Z.testbit z (Z.of_nat i) && negb (i =? ctz z)%nat.
Proof.
  destruct z as [|p|p]; try lia. intros _. simpl ctz. revert i.
  induction p as [p IH|p IH|]; intros i; rewrite Z.land_spec.
  - replace (Z.pos p~1 - 1) with (2 * Z.pos p) by lia. simpl pos_ctz.
    destruct i as [|i]; [by rewrite Z.testbit_even_0|].
    rewrite Nat2Z.inj_succ, Pos2Z.inj_xI, Z.testbit_odd_succ, Z.testbit_even_succ by lia.
    simpl. by destruct (Z.testbit _ _).
  - replace (Z.pos p~0 - 1) with (2 * (Z.pos p - 1) + 1) by lia. simpl pos_ctz.
    rewrite Pos2Z.inj_xO.
    destruct i as [|i]; [by rewrite Z.testbit_even_0|].
    rewrite Nat2Z.inj_succ, Z.testbit_odd_succ, Z.testbit_even_succ by lia.
    rewrite <- Z.land_spec, IH. done.
  - destruct i as [|i]; [done|]. simpl pos_ctz.
    rewrite Nat2Z.inj_succ. replace 1 with (2 * 0 + 1) by lia.
    rewrite Z.testbit_odd_succ by lia. by rewrite !Z.bits_0.
Qed.

Lemma land_pred_nonneg z : 0 <= z -> 0 <= Z.land z (z - 1).
Proof. intros. apply Z.land_nonneg. by left. Qed.

Lemma testbit_pos z (i : nat) : 0 <= z -> Z.testbit z (Z.of_nat i) = true -> 0 < z.
Proof.
  intros H0 Ht. destruct (Z.eq_dec z 0) as [->|]; [by rewrite Z.bits_0 in Ht|lia].
Qed.

(** ** The table as a finite map *)

Section Proofs.
Context {V : Type} (V0 : V) (Size s : nat) (HSize : Size = (2 ^ s)%nat).

Abbreviation FlatHashMap := (@FlatHashMap V).
Abbreviation total_size := (total_size Size).
Abbreviation wrap_idx := (wrap_idx Size).
Abbreviation bucket := (bucket Size).
Abbreviation buckets_ok := (buckets_ok V0 Size).

Lemma Size_pos : (0 < Size)%nat.
Proof. rewrite HSize. apply Nat.neq_0_lt_0, Nat.pow_nonzero. lia. Qed.

Lemma wrap_idx_mod x : wrap_idx x = (x mod total_size)%nat.
Proof.
  unfold FlatHashMap.wrap_idx, FlatHashMap.total_size.
  replace (Size * 16)%nat with (2 ^ (s + 4))%nat.
  - rewrite <- Nat.land_ones, Nat.ones_equiv. f_equal. lia.
  - rewrite HSize, Nat.pow_add_r. done.
Qed.

Lemma wrap_idx_small x : (x < total_size)%nat -> wrap_idx x = x.
Proof. intros. rewrite wrap_idx_mod. by apply Nat.mod_small. Qed.

Lemma bucket_lt key : (bucket key < Size)%nat.
Proof.
  unfold FlatHashMap.bucket. pose proof Size_pos.
  replace (Z.of_nat Size - 1) with (Z.ones (Z.of_nat s)).
  - rewrite Z.land_ones by lia.
    pose proof (Z.mod_pos_bound (hash_64 key) (2 ^ Z.of_nat s) ltac:(lia)).
    rewrite HSize. apply Nat2Z.inj_lt. rewrite Nat2Z.inj_pow, Z2Nat.id by lia. lia.
  - rewrite Z.ones_equiv, HSize, Nat2Z.inj_pow. lia.
Qed.

Lemma home_bucket key : home Size key = (bucket key * 16)%nat.
Proof. done. Qed.

Lemma footprint_range key : 0 <= footprint_of key < 256.
Proof.
  unfold footprint_of, hash_64. rewrite Z.shiftr_div_pow2 by lia.
  pose proof (u64_range (u64 key * 0x9E3779B97F4A7C15)).
  split; [apply Z.div_pos; lia|]. apply Z.div_lt_upper_bound; lia.
Qed.

(** The lanes of a group. *)

Lemma load_lane (arr : list Z) (idx k : nat) :
  (k < 16)%nat -> (idx + 16 <= length arr)%nat ->
  _mm_load_si128 arr idx !! k = Some (nth (idx + k) arr 0).
Proof.
  intros Hk Hl. unfold _mm_load_si128.
  rewrite lookup_take_lt, lookup_drop by lia.
  destruct (lookup_lt_is_Some_2 arr (idx + k)) as [x Hx]; [lia|].
  rewrite Hx. f_equal. symmetry. by apply nth_lookup_Some.
Qed.

Lemma dibs_lane d (k : nat) :
  (k < 16)%nat -> group_dibs d !! k = Some (u8 (Z.of_nat k + u8 d)).
Proof.
  intros Hk. do 16 (destruct k as [|k]; [done|]). lia.
Qed.

Lemma set1_lane x (k : nat) : (k < 16)%nat -> _mm_set1_epi8 x !! k = Some (u8 x).
Proof. intros. unfold _mm_set1_epi8. by apply lookup_replicate_2. Qed.

Ltac lanes :=
  rewrite ?lookup_zip_with, ?load_lane, ?dibs_lane, ?set1_lane by lia; simpl.

Lemma matches_lane (m : FlatHashMap) idx d key (k : nat) :
  (k < 16)%nat -> (idx + 16 <= length (Tags m))%nat ->
  (idx + 16 <= length (FootPrints m))%nat ->
  Z.testbit (group_matches m idx d key) (Z.of_nat k) =
  (tag m (idx + k) =? u8 (Z.of_nat k + u8 d)) && (fprint m (idx + k) =? footprint_of key).
Proof.
  intros Hk Ht Hf. unfold group_matches. rewrite movemask_testbit.
  unfold _mm_and_si128, _mm_cmpeq_epi8. lanes.
  assert (u8 (footprint_of key) = footprint_of key) as ->.
  { unfold u8. apply Z.mod_small. pose proof (footprint_range key). lia. }
  unfold tag, fprint.
  by destruct (nth _ (Tags m) 0 =? _), (nth _ (FootPrints m) 0 =? _).
Qed.

Lemma matches_high (m : FlatHashMap) idx d key (k : nat) :
  (16 <= k)%nat -> Z.testbit (group_matches m idx d key) (Z.of_nat k) = false.
Proof.
  intros Hk. unfold group_matches. rewrite movemask_testbit.
  unfold _mm_and_si128, _mm_cmpeq_epi8, _mm_load_si128.
  rewrite lookup_ge_None_2; [done|].
  rewrite !length_zip_with, length_take. lia.
Qed.

Lemma stops_lane (m : FlatHashMap) idx d (k : nat) :
  (k < 16)%nat -> (idx + 16 <= length (Tags m))%nat ->
  Z.testbit (group_stops m idx d) (Z.of_nat k) =
  (tag m (idx + k) =? EMPTY_MARKER) || (s8 (tag m (idx + k)) <? s8 (u8 (Z.of_nat k + u8 d))).
Proof.
  intros Hk Ht. unfold group_stops, group_free. rewrite movemask_testbit.
  unfold _mm_or_si128, _mm_cmpeq_epi8, _mm_cmplt_epi8. lanes.
  change (u8 EMPTY_MARKER) with EMPTY_MARKER. unfold tag.
  by destruct (nth _ (Tags m) 0 =? _), (s8 (nth _ (Tags m) 0) <? _).
Qed.

Lemma stops_high (m : FlatHashMap) idx d (k : nat) :
  (16 <= k)%nat -> Z.testbit (group_stops m idx d) (Z.of_nat k) = false.
Proof.
  intros Hk. unfold group_stops, group_free. rewrite movemask_testbit.
  unfold _mm_or_si128, _mm_cmpeq_epi8, _mm_cmplt_epi8, _mm_load_si128.
  rewrite lookup_ge_None_2; [done|].
  rewrite !length_zip_with, length_take. lia.
Qed.

(** A number whose bits are those of a predicate on lanes is 0 when the
    predicate is nowhere true. *)
Lemma bits_none z : 0 <= z -> (forall k : nat, Z.testbit z (Z.of_nat k) = false) -> z = 0.
Proof.
  intros H0 Hb. apply Z.bits_inj'. intros n Hn. rewrite Z.bits_0.
  rewrite <- (Z2Nat.id n) by done. apply Hb.
Qed.

(** *** The candidate loop *)

(** With every candidate before the first stop, the loop returns the data of the
    candidate that holds the key, and falls through when there is none. *)
Lemma check_matches_hit fuel (m : FlatHashMap) z stop idx key (j k : nat) :
  0 <= z -> (forall i : nat, Z.testbit z (Z.of_nat i) = true -> (j <= i < 16)%nat) ->
  (forall i : nat, Z.testbit z (Z.of_nat i) = true -> (i < stop)%nat) ->
  (16 - j <= fuel)%nat ->
  Z.testbit z (Z.of_nat k) = true ->
  fprint m (wrap_idx (idx + k)) = footprint_of key ->
  keyat m (wrap_idx (idx + k)) = key ->
  (forall i : nat, Z.testbit z (Z.of_nat i) = true -> keyat m (wrap_idx (idx + i)) = key -> i = k) ->
  check_matches V0 Size fuel m z stop idx key = Some (Some (dataat V0 m (wrap_idx (idx + k)))).
Proof.
  revert z j. induction fuel as [|fuel IH]; intros z j Hz Hr Hs Hf Hk Hfp Hkey Hu.
  { specialize (Hr k Hk). lia. }
  pose proof (testbit_pos _ _ Hz Hk) as Hpos. simpl.
  destruct (Z.eqb_spec z 0); [lia|].
  pose proof (ctz_true z Hpos) as Hc.
  destruct (Nat.ltb_spec (ctz z) stop) as [_|Hge]; [|specialize (Hs _ Hc); lia].
  destruct (decide (ctz z = k)) as [<-|Hne].
  { rewrite Hfp, Hkey, !Z.eqb_refl. done. }
  destruct (Z.eqb_spec (keyat m (wrap_idx (idx + ctz z))) key) as [He|_].
  { by specialize (Hu _ Hc He). }
  rewrite andb_false_r.
  assert (Hbit : forall i : nat, Z.testbit (Z.land z (z - 1)) (Z.of_nat i) = true ->
            Z.testbit z (Z.of_nat i) = true /\ i <> ctz z).
  { intros i. rewrite land_pred_testbit by done. intros [? Hi]%andb_true_iff.
    split; [done|]. intros ->. by rewrite Nat.eqb_refl in Hi. }
  apply (IH _ (S (ctz z))); try done.
  - by apply land_pred_nonneg.
  - intros i Hi. destruct (Hbit i Hi) as [Hi1 Hi2]. specialize (Hr i Hi1).
    destruct (Nat.lt_ge_cases i (ctz z)) as [Hlt|]; [|lia].
    by rewrite (ctz_below z i Hpos Hlt) in Hi1.
  - intros i Hi. by apply Hs, Hbit.
  - specialize (Hr _ Hc). lia.
  - rewrite land_pred_testbit, Hk by done. simpl. by destruct (Nat.eqb_spec k (ctz z)).
  - intros i Hi. by apply Hu, Hbit.
Qed.

Lemma check_matches_miss fuel (m : FlatHashMap) z stop idx key (j : nat) :
  0 <= z -> (forall i : nat, Z.testbit z (Z.of_nat i) = true -> (j <= i < 16)%nat) ->
  (forall i : nat, Z.testbit z (Z.of_nat i) = true -> (i < stop)%nat) ->
  (forall i : nat, Z.testbit z (Z.of_nat i) = true -> keyat m (wrap_idx (idx + i)) <> key) ->
  check_matches V0 Size fuel m z stop idx key = None.
Proof.
  revert z j. induction fuel as [|fuel IH]; intros z j Hz Hr Hs Hu; [done|]. simpl.
  destruct (Z.eqb_spec z 0); [done|].
  assert (Hpos : 0 < z) by lia. pose proof (ctz_true z Hpos) as Hc.
  destruct (Nat.ltb_spec (ctz z) stop) as [_|Hge]; [|specialize (Hs _ Hc); lia].
  destruct (Z.eqb_spec (keyat m (wrap_idx (idx + ctz z))) key) as [He|_].
  { by specialize (Hu _ Hc He). }
  rewrite andb_false_r.
  assert (Hbit : forall i : nat, Z.testbit (Z.land z (z - 1)) (Z.of_nat i) = true ->
            Z.testbit z (Z.of_nat i) = true).
  { intros i. rewrite land_pred_testbit by done. by intros [? _]%andb_true_iff. }
  apply (IH _ j); eauto using land_pred_nonneg.
Qed.

(** *** Groups of a well-formed table *)

Section Table.
Context (m : FlatHashMap) (B : nat -> list (Z * V)) (HB : buckets_ok m B).

Lemma group_in_range b : (b < Size)%nat -> (b * 16 + 16 <= (Size + 1) * 16)%nat.
Proof. lia. Qed.

Lemma home_stops_lane b (k : nat) :
  (b < Size)%nat -> (k < 16)%nat ->
  Z.testbit (group_stops m (b * 16) 0) (Z.of_nat k) = (length (B b) <=? k)%nat.
Proof.
  intros Hb Hk. rewrite stops_lane by (rewrite ?(bo_tags _ _ _ _ HB); lia).
  pose proof (bo_slots _ _ _ _ HB b k Hb Hk) as Hs. unfold slot_ok in Hs.
  destruct (B b !! k) as [[key v]|] eqn:E.
  - destruct Hs as (-> & _). pose proof (lookup_lt_Some _ _ _ E).
    destruct (Nat.leb_spec (length (B b)) k); [lia|].
    do 16 (destruct k as [|k]; [done|]). lia.
  - rewrite Hs. apply lookup_ge_None in E.
    by destruct (Nat.leb_spec (length (B b)) k); [|lia].
Qed.

Lemma home_matches_lane b key (k : nat) :
  (b < Size)%nat -> (k < 16)%nat ->
  Z.testbit (group_matches m (b * 16) 0 key) (Z.of_nat k) =
  match B b !! k with
  | Some (key', _) => footprint_of key' =? footprint_of key
  | None => false
  end.
Proof.
  intros Hb Hk.
  rewrite matches_lane by (rewrite ?(bo_tags _ _ _ _ HB), ?(bo_fps _ _ _ _ HB); lia).
  pose proof (bo_slots _ _ _ _ HB b k Hb Hk) as Hs. unfold slot_ok in Hs.
  assert (Hu : u8 (Z.of_nat k + u8 0) = Z.of_nat k).
  { unfold u8. rewrite Z.mod_0_l, Z.add_0_r, Z.mod_small by lia. done. }
  rewrite Hu. destruct (B b !! k) as [[key' v]|].
  - destruct Hs as (-> & -> & _). by rewrite Z.eqb_refl.
  - rewrite Hs. unfold EMPTY_MARKER. by destruct (Z.eqb_spec 128 (Z.of_nat k)); [lia|].
Qed.

(** In the group after the home group every slot stops the probe. *)
Lemma next_group b key :
  (b < Size)%nat ->
  group_matches m (b * 16) 16 key = 0 /\ group_stops m (b * 16) 16 <> 0.
Proof.
  intros Hb.
  assert (Ht : forall k, (k < 16)%nat -> tag m (b * 16 + k) = Z.of_nat k \/
                                tag m (b * 16 + k) = EMPTY_MARKER).
  { intros k Hk. pose proof (bo_slots _ _ _ _ HB b k Hb Hk) as Hs. unfold slot_ok in Hs.
    destruct (B b !! k) as [[? ?]|]; naive_solver. }
  split.
  - apply bits_none; [apply movemask_nonneg|]. intros k.
    destruct (Nat.lt_ge_cases k 16) as [Hk|Hk]; [|by apply matches_high].
    rewrite matches_lane by (rewrite ?(bo_tags _ _ _ _ HB), ?(bo_fps _ _ _ _ HB); lia).
    apply andb_false_iff. left. specialize (Ht k Hk).
    do 16 (destruct k as [|k]; [by destruct Ht as [-> | ->]|]). lia.
  - intros H0. pose proof (stops_lane m (b * 16) 16 0) as H.
    rewrite H0, Z.bits_0 in H. specialize (H ltac:(lia)).
    rewrite (bo_tags _ _ _ _ HB) in H. specialize (H ltac:(lia)).
    specialize (Ht O ltac:(lia)). by destruct Ht as [Ht | Ht]; rewrite Ht in H.
Qed.

(** The first stop of the home group is the number of its entries. *)
Lemma home_first_stop b :
  (b < Size)%nat ->
  let stops := group_stops m (b * 16) 0 in
  (if stops =? 0 then 16%nat else ctz stops) = length (B b) /\
  (stops =? 0) = (length (B b) =? 16)%nat.
Proof.
  intros Hb stops. pose proof (bo_cap _ _ _ _ HB b Hb) as Hc.
  assert (Hnn : 0 <= stops) by apply movemask_nonneg.
  destruct (Z.eqb_spec stops 0) as [H0|H0].
  - assert (length (B b) = 16%nat) as ->; [|done].
    destruct (Nat.lt_ge_cases (length (B b)) 16) as [Hlt|]; [|lia].
    pose proof (home_stops_lane b (length (B b)) Hb Hlt) as H.
    fold stops in H. rewrite H0, Z.bits_0 in H.
    destruct (Nat.leb_spec (length (B b)) (length (B b))); [done|lia].
  - pose proof (ctz_true stops ltac:(lia)) as Ht.
    assert (Hlt : (ctz stops < 16)%nat).
    { destruct (Nat.lt_ge_cases (ctz stops) 16) as [|Hge]; [done|].
      unfold stops in Ht. by rewrite stops_high in Ht. }
    unfold stops in Ht. rewrite home_stops_lane in Ht by done. fold stops in Ht.
    apply Nat.leb_le in Ht.
    assert (ctz stops = length (B b)) as ->.
    { destruct (Nat.eq_dec (ctz stops) (length (B b))) as [|Hne]; [done|].
      pose proof (ctz_below stops (length (B b)) ltac:(lia) ltac:(lia)) as Hf.
      unfold stops in Hf. rewrite home_stops_lane in Hf by lia.
      by rewrite Nat.leb_refl in Hf. }
    split; [done|]. destruct (Nat.eqb_spec (length (B b)) 16); [lia|done].
Qed.

Lemma home_slot b k : (b < Size)%nat -> (k < 16)%nat -> wrap_idx (b * 16 + k) = (b * 16 + k)%nat.
Proof. intros. apply wrap_idx_small. unfold FlatHashMap.total_size. lia. Qed.

(** Candidates of the home group. *)
Lemma home_candidate b key (k : nat) :
  (b < Size)%nat ->
  Z.testbit (group_matches m (b * 16) 0 key) (Z.of_nat k) = true ->
  (k < 16)%nat /\ exists key' v, B b !! k = Some (key', v) /\
    keyat m (wrap_idx (b * 16 + k)) = key'.
Proof.
  intros Hb Ht. destruct (Nat.lt_ge_cases k 16) as [Hk|Hk];
    [|by rewrite matches_high in Ht].
  split; [done|]. rewrite home_matches_lane in Ht by done.
  rewrite home_slot by done.
  pose proof (bo_slots _ _ _ _ HB b k Hb Hk) as Hs. unfold slot_ok in Hs.
  destruct (B b !! k) as [[key' v]|]; [|done]. exists key', v. tauto.
Qed.

Lemma GetVal_hit key v :
  (key, v) ∈ B (bucket key) -> GetVal V0 Size m key = Some v.
Proof.
  intros (k & Hk)%list_elem_of_lookup. pose proof (bucket_lt key) as Hb.
  pose proof (bo_cap _ _ _ _ HB _ Hb) as Hc. pose proof (lookup_lt_Some _ _ _ Hk) as Hkl.
  assert (Hk16 : (k < 16)%nat) by lia.
  unfold GetVal. rewrite home_bucket. cbn [get_loop].
  pose proof Size_pos. unfold FlatHashMap.total_size.
  destruct (Nat.ltb_spec 0 (Size * 16)); [|lia].
  change (Z.of_nat 0) with 0. destruct (home_first_stop _ Hb) as [-> _].
  pose proof (bo_slots _ _ _ _ HB _ k Hb Hk16) as Hs. rewrite Hk in Hs.
  destruct Hs as (_ & Hfp & Hkey & Hd).
  erewrite (check_matches_hit 16 m _ _ _ key 0 k).
  - by rewrite home_slot, Hd.
  - apply movemask_nonneg.
  - intros i Hi. apply home_candidate in Hi as [? _]; [lia|done].
  - intros i Hi. apply home_candidate in Hi as (_ & ? & ? & E & _); [|done].
    by apply lookup_lt_Some in E.
  - lia.
  - rewrite home_matches_lane, Hk by done. by rewrite Z.eqb_refl.
  - by rewrite home_slot.
  - by rewrite home_slot.
  - intros i Hi He. apply home_candidate in Hi as (_ & key' & v' & E & Hk'); [|done].
    rewrite He in Hk'. subst key'.
    eapply (NoDup_lookup (B (bucket key)).*1); [by apply (bo_nodup _ _ _ _ HB)| |].
    + rewrite list_lookup_fmap, E. done.
    + rewrite list_lookup_fmap, Hk. done.
Qed.

Lemma GetVal_miss key :
  key ∉ (B (bucket key)).*1 -> GetVal V0 Size m key = None.
Proof.
  intros Hni. pose proof (bucket_lt key) as Hb. pose proof Size_pos as Hsz.
  assert (Hmiss : forall stop, (length (B (bucket key)) <= stop)%nat ->
    check_matches V0 Size 16 m (group_matches m (bucket key * 16) 0 key) stop
      (bucket key * 16) key = None).
  { intros stop Hstop. apply (check_matches_miss 16 m _ _ _ key 0).
    - apply movemask_nonneg.
    - intros i Hi. apply home_candidate in Hi as [? _]; [lia|done].
    - intros i Hi. apply home_candidate in Hi as (_ & ? & ? & E & _); [|done].
      apply lookup_lt_Some in E. lia.
    - intros i Hi He. apply home_candidate in Hi as (_ & key' & v' & E & Hk'); [|done].
      rewrite He in Hk'. subst key'. apply Hni. apply list_elem_of_fmap.
      exists (key, v'). split; [done|]. apply list_elem_of_lookup. eauto. }
  unfold GetVal. rewrite home_bucket. cbn [get_loop]. unfold FlatHashMap.total_size.
  destruct (Nat.ltb_spec 0 (Size * 16)) as [_|]; [|lia].
  change (Z.of_nat 0) with 0. destruct (home_first_stop _ Hb) as [Hfs Hst].
  rewrite Hfs, Hmiss by done. rewrite Hst.
  destruct (Nat.eqb_spec (length (B (bucket key))) 16) as [_|_]; [|done].
  cbn [negb]. cut (forall fuel, get_loop V0 Size fuel m (wrap_idx (bucket key * 16 + 16)) 16 key = None);
    [intros Hn; apply Hn|].
  intros [|fuel]; [done|]. cbn [get_loop]. unfold FlatHashMap.total_size.
  destruct (Nat.ltb_spec 16 (Size * 16)) as [Hlt|]; [|done].
  assert (exists b', (b' < Size)%nat /\ wrap_idx (bucket key * 16 + 16) = (b' * 16)%nat)
    as (b' & Hb' & ->).
  { rewrite wrap_idx_mod. unfold FlatHashMap.total_size.
    replace (bucket key * 16 + 16)%nat with ((bucket key + 1) * 16)%nat by lia.
    rewrite Nat.Div0.mul_mod_distr_r. exists ((bucket key + 1) mod Size)%nat.
    split; [apply Nat.mod_upper_bound; lia|done]. }
  change (Z.of_nat 16) with 16.
  destruct (next_group b' key Hb') as [-> Hns].
  rewrite (check_matches_miss 16 m 0 _ _ key 0); try (intros i; by rewrite Z.bits_0).
  - destruct (Z.eqb_spec (group_stops m (b' * 16) 16) 0); done.
  - done.
Qed.

(** [GetVal] is lookup in the home bucket. *)
Lemma GetVal_bucket key :
  GetVal V0 Size m key = (list_to_map (B (bucket key)) : gmap Z V) !! key.
Proof.
  destruct ((list_to_map (B (bucket key)) : gmap Z V) !! key) as [v|] eqn:E.
  - apply GetVal_hit. by apply elem_of_list_to_map_2.
  - apply GetVal_miss. by apply not_elem_of_list_to_map_2.
Qed.

End Table.

(** *** Writes *)

Lemma nth_insert {A} (l : list A) (i j : nat) (x d : A) :
  (j < length l)%nat -> nth i (<[j := x]> l) d = if decide (i = j) then x else nth i l d.
Proof.
  intros Hj. rewrite !nth_lookup. case_decide as He.
  - subst. by rewrite list_lookup_insert_eq by lia.
  - by rewrite list_lookup_insert_ne by lia.
Qed.

Definition lens_ok (m : FlatHashMap) : Prop :=
  length (Tags m) = ((Size + 1) * 16)%nat /\ length (FootPrints m) = ((Size + 1) * 16)%nat /\
  length (Keys m) = ((Size + 1) * 16)%nat /\ length (Data m) = ((Size + 1) * 16)%nat.

Lemma psw_lens idx dib key v m : lens_ok m -> lens_ok (PaddingSafeWrite Size idx dib key v m).
Proof.
  unfold lens_ok, PaddingSafeWrite. intros (? & ? & ? & ?).
  destruct (idx <? 16)%nat; simpl; rewrite ?length_insert; done.
Qed.

(** A write changes its slot and, for the first bucket, its copy past the end. *)
Lemma psw_slot idx dib key v m i :
  lens_ok m -> (idx < Size * 16)%nat -> (i < Size * 16)%nat ->
  let m' := PaddingSafeWrite Size idx dib key v m in
  if decide (i = idx)
  then tag m' i = u8 dib /\ fprint m' i = footprint_of key /\ keyat m' i = key /\
       dataat V0 m' i = v
  else tag m' i = tag m i /\ fprint m' i = fprint m i /\ keyat m' i = keyat m i /\
       dataat V0 m' i = dataat V0 m i.
Proof.
  intros (Ht & Hf & Hk & Hd) Hidx Hi m'. unfold m', PaddingSafeWrite.
  unfold tag, fprint, keyat, dataat.
  destruct (Nat.ltb_spec idx 16); simpl;
    rewrite !nth_insert by (rewrite ?length_insert; lia);
    repeat case_decide; try lia; done.
Qed.

Lemma slot_ok_write_ne idx dib key v m b k e :
  lens_ok m -> (idx < Size * 16)%nat -> (b < Size)%nat -> (k < 16)%nat ->
  (b * 16 + k)%nat <> idx ->
  slot_ok V0 m b k e -> slot_ok V0 (PaddingSafeWrite Size idx dib key v m) b k e.
Proof.
  intros Hl Hidx Hb Hk Hne. pose proof (psw_slot idx dib key v m (b * 16 + k) Hl Hidx ltac:(lia)) as H.
  cbn zeta in H. rewrite decide_False in H by done. destruct H as (H1 & H2 & H3 & H4).
  unfold slot_ok. destruct e as [[? ?]|]; by rewrite ?H1, ?H2, ?H3, ?H4.
Qed.

Lemma slot_ok_write_eq key v m b k :
  lens_ok m -> (b < Size)%nat -> (k < 16)%nat ->
  slot_ok V0 (PaddingSafeWrite Size (b * 16 + k) (Z.of_nat k) key v m) b k (Some (key, v)).
Proof.
  intros Hl Hb Hk.
  pose proof (psw_slot (b * 16 + k) (Z.of_nat k) key v m (b * 16 + k) Hl ltac:(lia) ltac:(lia)) as H.
  cbn zeta in H. rewrite decide_True in H by done. destruct H as (H1 & H2 & H3 & H4).
  unfold slot_ok. rewrite H1, H2, H3, H4. split_and!; try done.
  unfold u8. apply Z.mod_small. lia.
Qed.

Lemma slot_ok_write_empty m b k :
  lens_ok m -> (b < Size)%nat -> (k < 16)%nat ->
  slot_ok V0 (PaddingSafeWrite Size (b * 16 + k) EMPTY_MARKER 0 V0 m) b k None.
Proof.
  intros Hl Hb Hk.
  pose proof (psw_slot (b * 16 + k) EMPTY_MARKER 0 V0 m (b * 16 + k) Hl ltac:(lia) ltac:(lia)) as H.
  cbn zeta in H. rewrite decide_True in H by done. apply H.
Qed.

Lemma buckets_lens m B : buckets_ok m B -> lens_ok m.
Proof. intros []. done. Qed.

Lemma slot_tag m B b k :
  buckets_ok m B -> (b < Size)%nat -> (k < 16)%nat ->
  tag m (b * 16 + k) = if (k <? length (B b))%nat then Z.of_nat k else EMPTY_MARKER.
Proof.
  intros HB Hb Hk. pose proof (bo_slots _ _ _ _ HB b k Hb Hk) as Hs. unfold slot_ok in Hs.
  destruct (B b !! k) as [[? ?]|] eqn:E.
  - apply lookup_lt_Some in E. destruct (Nat.ltb_spec k (length (B b))); [|lia]. tauto.
  - apply lookup_ge_None in E. destruct (Nat.ltb_spec k (length (B b))); [lia|]. done.
Qed.

Lemma tags_lookup m i : lens_ok m -> (i < Size * 16)%nat -> Tags m !! i = Some (tag m i).
Proof.
  intros (Ht & _) Hi. unfold tag. destruct (lookup_lt_is_Some_2 (Tags m) i) as [x Hx]; [lia|].
  rewrite Hx. f_equal. symmetry. by apply nth_lookup_Some.
Qed.

(** *** Insertion *)

Lemma add_loop1_free m B b key v fuel k :
  buckets_ok m B -> (b < Size)%nat -> (length (B b) < 16)%nat ->
  (k <= length (B b))%nat -> (length (B b) - k < fuel)%nat ->
  add_loop1 V0 Size fuel (b * 16 + k) (Z.of_nat k) key v m =
  Ret (AddDone (PaddingSafeWrite Size (b * 16 + length (B b)) (Z.of_nat (length (B b))) key v m)).
Proof.
  intros HB Hb Hn. revert k. induction fuel as [|fuel IH]; intros k Hk Hf; [lia|].
  cbn [add_loop1]. destruct (Z.ltb_spec (Z.of_nat k) 16); [|lia].
  unfold add_slot. rewrite tags_lookup by (eauto using buckets_lens; lia).
  rewrite (slot_tag m B) by (done || lia).
  destruct (Nat.ltb_spec k (length (B b))) as [Hlt|Hge].
  - unfold EMPTY_MARKER. destruct (Z.eqb_spec (Z.of_nat k) 128); [lia|].
    destruct (Z.ltb_spec (Z.of_nat k) (Z.of_nat k)); [lia|].
    cbn [mbind result_bind]. replace (Z.of_nat k + 1) with (Z.of_nat (k + 1)) by lia.
    rewrite <- Nat.add_assoc. apply IH; lia.
  - replace k with (length (B b)) by lia. by rewrite Z.eqb_refl.
Qed.

Definition upd_bucket (B : nat -> list (Z * V)) (b : nat) (es : list (Z * V)) : nat -> list (Z * V) :=
  fun b' => if decide (b' = b) then es else B b'.

Lemma upd_bucket_eq B b es : upd_bucket B b es b = es.
Proof. unfold upd_bucket. by rewrite decide_True. Qed.
Lemma upd_bucket_ne B b es b' : b' <> b -> upd_bucket B b es b' = B b'.
Proof. intros. unfold upd_bucket. by rewrite decide_False. Qed.

(** Replacing the entries of one bucket keeps the table well formed. *)
Lemma buckets_upd m m' B b es :
  buckets_ok m B -> lens_ok m' -> (b < Size)%nat -> (length es <= 16)%nat ->
  NoDup es.*1 -> (forall key, key ∈ es.*1 -> bucket key = b) ->
  (forall k, (k < 16)%nat -> slot_ok V0 m' b k (es !! k)) ->
  (forall b' k, (b' < Size)%nat -> (k < 16)%nat -> b' <> b -> slot_ok V0 m' b' k (B b' !! k)) ->
  buckets_ok m' (upd_bucket B b es).
Proof.
  intros HB (Ht & Hf & Hk & Hd) Hb Hlen Hnd Hh Hs Ho.
  split; try done; intros b' **; destruct (decide (b' = b)) as [->|Hne];
    rewrite ?upd_bucket_eq, ?upd_bucket_ne in * by done; auto.
  - by apply (bo_cap _ _ _ _ HB).
  - by eapply (bo_home _ _ _ _ HB).
  - by apply (bo_nodup _ _ _ _ HB).
Qed.

Lemma AddNode_buckets m B key v :
  buckets_ok m B -> key ∉ (B (bucket key)).*1 -> (length (B (bucket key)) < 16)%nat ->
  exists m', AddNode V0 Size key v m = Ret m' /\
    buckets_ok m' (upd_bucket B (bucket key) (B (bucket key) ++ [(key, v)])).
Proof.
  intros HB Hni Hn. pose proof (bucket_lt key) as Hb.
  unfold AddNode. rewrite (GetVal_miss m B HB) by done. rewrite home_bucket.
  pose proof (add_loop1_free m B (bucket key) key v (S ((Size + 1) * 16)) 0 HB Hb Hn
    ltac:(lia) ltac:(lia)) as HL.
  rewrite Nat.add_0_r in HL. change (Z.of_nat 0) with 0 in HL. rewrite HL.
  cbn [mbind result_bind]. eexists. split; [done|].
  pose proof (buckets_lens _ _ HB) as Hl.
  apply (buckets_upd m); auto using psw_lens.
  - rewrite length_app. simpl. lia.
  - rewrite fmap_app. apply NoDup_app. split_and!.
    + by apply (bo_nodup _ _ _ _ HB).
    + intros x Hx ->%list_elem_of_singleton. done.
    + apply NoDup_singleton.
  - intros key'. rewrite fmap_app. intros [Hin|Hin]%elem_of_app.
    + by eapply (bo_home _ _ _ _ HB).
    + by apply list_elem_of_singleton in Hin as ->.
  - intros k Hk. destruct (lt_eq_lt_dec k (length (B (bucket key)))) as [[Hlt| ->]|Hgt].
    + rewrite lookup_app_l by done. apply slot_ok_write_ne; try done; try lia.
      by apply (bo_slots _ _ _ _ HB).
    + rewrite lookup_app_r, Nat.sub_diag by lia. by apply slot_ok_write_eq.
    + rewrite lookup_ge_None_2 by (rewrite length_app; simpl; lia).
      apply slot_ok_write_ne; try done; try lia.
      rewrite <- (lookup_ge_None_2 (B (bucket key)) k) by lia. by apply (bo_slots _ _ _ _ HB).
  - intros b' k Hb' Hk Hne. apply slot_ok_write_ne; try done; try lia.
    by apply (bo_slots _ _ _ _ HB).
Qed.

(** *** Deletion *)

Lemma wrap_succ b k :
  (b < Size)%nat -> (k < 16)%nat ->
  wrap_idx (b * 16 + k + 1) = (b * 16 + (k + 1))%nat /\ (k < 15)%nat \/
  (exists b', (b' < Size)%nat /\ wrap_idx (b * 16 + k + 1) = (b' * 16 + 0)%nat) /\ k = 15%nat.
Proof.
  intros Hb Hk. destruct (decide (k = 15)%nat) as [->|Hne].
  - right. split; [|done]. exists ((b + 1) mod Size)%nat. split.
    + apply Nat.mod_upper_bound. lia.
    + rewrite wrap_idx_mod. unfold FlatHashMap.total_size.
      replace (b * 16 + 15 + 1)%nat with ((b + 1) * 16)%nat by lia.
      rewrite Nat.Div0.mul_mod_distr_r. lia.
  - left. rewrite wrap_idx_small by (unfold FlatHashMap.total_size; lia). lia.
Qed.

Lemma del_find_hit m B b key v k0 fuel k :
  buckets_ok m B -> (b < Size)%nat -> B b !! k0 = Some (key, v) ->
  (k <= k0)%nat -> (k0 - k < fuel)%nat ->
  del_find Size fuel m (b * 16 + k) k key = Some (b * 16 + k0)%nat.
Proof.
  intros HB Hb Hk0. pose proof (lookup_lt_Some _ _ _ Hk0) as Hl.
  pose proof (bo_cap _ _ _ _ HB b Hb) as Hc.
  revert k. induction fuel as [|fuel IH]; intros k Hk Hf; [lia|].
  cbn [del_find]. unfold FlatHashMap.total_size.
  destruct (Nat.ltb_spec k (Size * 16)); [|lia].
  pose proof (bo_slots _ _ _ _ HB b k Hb ltac:(lia)) as Hs. unfold slot_ok in Hs.
  destruct (lookup_lt_is_Some_2 (B b) k) as [[key' v'] Hk']; [lia|]. rewrite Hk' in Hs.
  destruct Hs as (Ht & Hfp & Hkey & _). rewrite Ht, Hfp, Hkey. unfold EMPTY_MARKER.
  destruct (Z.eqb_spec (Z.of_nat k) 128); [lia|].
  destruct (Z.ltb_spec (Z.of_nat k) (Z.of_nat k)); [lia|]. cbn [orb].
  destruct (decide (k = k0)) as [->|Hne].
  { rewrite Hk0 in Hk'. injection Hk' as <- <-. by rewrite !Z.eqb_refl. }
  assert (key' <> key) as Hd.
  { intros ->. apply Hne. eapply (NoDup_lookup (B b).*1 _ _ key).
    - by apply (bo_nodup _ _ _ _ HB).
    - by rewrite list_lookup_fmap, Hk'.
    - by rewrite list_lookup_fmap, Hk0. }
  destruct (Z.eqb_spec key' key) as [|_]; [done|]. rewrite andb_false_r.
  destruct (wrap_succ b k Hb ltac:(lia)) as [[-> _]|[_ ?]]; [|lia]. apply IH; lia.
Qed.

Lemma del_find_miss m B key fuel k :
  buckets_ok m B -> key ∉ (B (bucket key)).*1 -> (k <= 16)%nat ->
  forall b, (b < Size)%nat -> b = bucket key ->
  del_find Size fuel m (wrap_idx (b * 16 + k)) k key = None.
Proof.
  intros HB Hni. revert k. induction fuel as [|fuel IH]; intros k Hk b Hb ->; [done|].
  cbn [del_find]. unfold FlatHashMap.total_size.
  destruct (Nat.ltb_spec k (Size * 16)) as [_|]; [|done].
  destruct (decide (k = 16)%nat) as [->|Hne].
  { replace (bucket key * 16 + 16)%nat with (bucket key * 16 + 15 + 1)%nat by lia.
    destruct (wrap_succ (bucket key) 15 Hb ltac:(lia)) as [[_ ?]|[(b' & Hb' & ->) _]]; [lia|].
    rewrite (slot_tag m B) by (done || lia).
    destruct (0 <? length (B b'))%nat; done. }
  rewrite home_slot by lia. rewrite (slot_tag m B) by (done || lia).
  pose proof (bo_slots _ _ _ _ HB (bucket key) k Hb ltac:(lia)) as Hs. unfold slot_ok in Hs.
  destruct (Nat.ltb_spec k (length (B (bucket key)))) as [Hlt|]; [|done].
  destruct (lookup_lt_is_Some_2 _ _ Hlt) as [[key' v'] Hk']. rewrite Hk' in Hs.
  destruct Hs as (_ & _ & -> & _).
  destruct (Z.eqb_spec key' key) as [->|_].
  { exfalso. apply Hni. apply list_elem_of_fmap. exists (key, v').
    split; [done|]. apply list_elem_of_lookup. eauto. }
  rewrite andb_false_r. destruct (_ || _); [done|].
  rewrite <- Nat.add_assoc. apply IH; [lia|done|done].
Qed.

(** The table while the entries after position [j] move down by one: [es] are
    the entries of the bucket before the deletion, [es'] those after it. *)
Definition shifting (m : FlatHashMap) (B : nat -> list (Z * V)) (b : nat)
    (es' : list (Z * V)) (j : nat) : Prop :=
  lens_ok m /\
  (forall b' k, (b' < Size)%nat -> (k < 16)%nat -> b' <> b -> slot_ok V0 m b' k (B b' !! k)) /\
  (forall k, (k < j)%nat -> slot_ok V0 m b k (es' !! k)) /\
  (forall k, (j < k < 16)%nat -> slot_ok V0 m b k (B b !! k)).

Lemma shift_step m B b k0 j key v :
  let es' := delete k0 (B b) in
  shifting m B b es' j -> (b < Size)%nat -> (k0 <= j)%nat -> (j < 15)%nat ->
  B b !! (j + 1)%nat = Some (key, v) ->
  shifting (PaddingSafeWrite Size (b * 16 + j) (Z.of_nat j) key v m) B b es' (j + 1).
Proof.
  intros es' (Hl & Ho & Hlo & Hhi) Hb Hk0 Hj He. split_and!.
  - by apply psw_lens.
  - intros. apply slot_ok_write_ne; auto; lia.
  - intros k Hk. destruct (decide (k = j)) as [->|].
    + unfold es'. rewrite list_lookup_delete_ge by lia. rewrite Nat.add_1_r in He. rewrite He.
      apply slot_ok_write_eq; auto; lia.
    + apply slot_ok_write_ne; auto; try lia. apply Hlo. lia.
  - intros k Hk. apply slot_ok_write_ne; auto; try lia. apply Hhi. lia.
Qed.

Lemma del_shift_ok m B b k0 fuel j :
  let es' := delete k0 (B b) in
  (forall b', (b' < Size)%nat -> (length (B b') <= 16)%nat) ->
  shifting m B b es' j -> (b < Size)%nat -> (k0 <= j < length (B b))%nat ->
  (length (B b) - j <= fuel)%nat ->
  exists m', del_shift V0 Size fuel (b * 16 + j) m = Ret m' /\ lens_ok m' /\
    (forall k, (k < 16)%nat -> slot_ok V0 m' b k (es' !! k)) /\
    (forall b' k, (b' < Size)%nat -> (k < 16)%nat -> b' <> b -> slot_ok V0 m' b' k (B b' !! k)).
Proof.
  intros es' Hcap Hsh Hb. revert m j Hsh. pose proof (Hcap b Hb) as Hc.
  induction fuel as [|fuel IH]; intros m j Hsh Hj Hf; [lia|].
  pose proof Hsh as (Hl & Ho & Hlo & Hhi). cbn [del_shift].
  destruct (decide (j + 1 < length (B b))%nat) as [Hlt|Hge].
  - destruct (wrap_succ b j Hb ltac:(lia)) as [[-> _]|[_ ?]]; [|lia].
    destruct (lookup_lt_is_Some_2 (B b) (j + 1)) as [[key v] He]; [lia|].
    pose proof (Hhi (j + 1)%nat ltac:(lia)) as Hs. rewrite He in Hs.
    destruct Hs as (Ht & _ & Hk & Hd). rewrite Ht, Hk, Hd. unfold EMPTY_MARKER.
    destruct (Z.eqb_spec (Z.of_nat (j + 1)) 128); [lia|].
    destruct (Z.eqb_spec (Z.of_nat (j + 1)) 0); [lia|]. cbn [orb].
    replace (Z.of_nat (j + 1) - 1) with (Z.of_nat j) by lia.
    apply IH; [|lia|lia]. apply shift_step; auto; lia.
  - assert (Hstop : (tag m (wrap_idx (b * 16 + j + 1)) =? EMPTY_MARKER)
        || (tag m (wrap_idx (b * 16 + j + 1)) =? 0) = true).
    { destruct (wrap_succ b j Hb ltac:(lia)) as [[-> ?]|[(b' & Hb' & ->) ->]].
      - specialize (Hhi (j + 1)%nat ltac:(lia)). rewrite lookup_ge_None_2 in Hhi by lia.
        simpl in Hhi. by rewrite Hhi.
      - destruct (decide (b' = b)) as [->|Hne].
        + specialize (Hlo O ltac:(lia)).
          assert (exists e, es' !! 0%nat = Some e) as [[key v] He].
          { apply lookup_lt_is_Some_2. unfold es'. rewrite length_delete; [lia|].
            apply lookup_lt_is_Some_2. lia. }
          rewrite He in Hlo. destruct Hlo as (-> & _). done.
        + specialize (Ho b' O Hb' ltac:(lia) Hne). unfold slot_ok in Ho.
          destruct (B b' !! 0%nat) as [[? ?]|]; [destruct Ho as (-> & _)|rewrite Ho]; done. }
    rewrite Hstop. eexists. split; [done|]. split_and!.
    + by apply psw_lens.
    + intros k Hk. destruct (lt_eq_lt_dec k j) as [[Hlt| ->]|Hgt].
      * apply slot_ok_write_ne; auto; lia.
      * unfold es'. rewrite list_lookup_delete_ge, lookup_ge_None_2 by lia.
        by apply slot_ok_write_empty.
      * unfold es'. rewrite list_lookup_delete_ge, lookup_ge_None_2 by lia.
        apply slot_ok_write_ne; auto; try lia.
        specialize (Hhi k ltac:(lia)). by rewrite lookup_ge_None_2 in Hhi by lia.
    + intros. apply slot_ok_write_ne; auto; lia.
Qed.

Lemma DeleteNode_buckets_hit m B key v k :
  buckets_ok m B -> B (bucket key) !! k = Some (key, v) ->
  exists m', DeleteNode V0 Size key m = Ret m' /\
    buckets_ok m' (upd_bucket B (bucket key) (delete k (B (bucket key)))).
Proof.
  intros HB Hk. pose proof (bucket_lt key) as Hb. pose proof (lookup_lt_Some _ _ _ Hk) as Hl.
  pose proof (bo_cap _ _ _ _ HB _ Hb) as Hc.
  unfold DeleteNode. rewrite home_bucket.
  pose proof (del_find_hit m B (bucket key) key v k (S total_size) 0 HB Hb Hk ltac:(lia)
    ltac:(unfold FlatHashMap.total_size; lia)) as HF.
  rewrite Nat.add_0_r in HF. rewrite HF.
  destruct (del_shift_ok m B (bucket key) k (S total_size) k) as (m' & Hm' & Hlen & Hs & Ho).
  - intros. by apply (bo_cap _ _ _ _ HB).
  - split_and!.
    + by eapply buckets_lens.
    + intros. by apply (bo_slots _ _ _ _ HB).
    + intros i Hi. rewrite list_lookup_delete_lt by done. apply (bo_slots _ _ _ _ HB); lia.
    + intros i Hi. apply (bo_slots _ _ _ _ HB); lia.
  - done.
  - lia.
  - unfold FlatHashMap.total_size. lia.
  - exists m'. split; [done|].
    assert (Hsub : (delete k (B (bucket key))) `sublist_of` B (bucket key))
      by apply sublist_delete.
    apply (buckets_upd m); auto.
    + apply sublist_length in Hsub. lia.
    + eapply sublist_NoDup; [apply (bo_nodup _ _ _ _ HB _ Hb)|]. by apply fmap_sublist.
    + intros key' Hin. apply (bo_home _ _ _ _ HB); [done|].
      eapply elem_of_sublist; [done|]. by apply fmap_sublist.
Qed.

Lemma DeleteNode_buckets_miss m B key :
  buckets_ok m B -> key ∉ (B (bucket key)).*1 -> DeleteNode V0 Size key m = Ret m.
Proof.
  intros HB Hni. pose proof (bucket_lt key) as Hb. unfold DeleteNode. rewrite home_bucket.
  pose proof (del_find_miss m B key (S total_size) 0 HB Hni ltac:(lia) _ Hb eq_refl) as H.
  rewrite home_slot, Nat.add_0_r in H by lia. by rewrite H.
Qed.

(** *** The specification of the table *)

Lemma fhm_empty_rep : fhm_rep V0 Size (fhm_empty V0 Size) ∅.
Proof.
  exists (fun _ => []). split; [|done].
  split; simpl; rewrite ?length_replicate; try done.
  - intros. lia.
  - intros b k Hb Hk. unfold slot_ok, tag, fhm_empty. simpl.
    rewrite nth_lookup, lookup_replicate_2 by lia. done.
  - intros. set_solver.
  - intros. constructor.
Qed.

Lemma fhm_GetVal m g key : fhm_rep V0 Size m g -> GetVal V0 Size m key = g !! key.
Proof. intros (B & HB & ->). by apply GetVal_bucket. Qed.

Lemma fhm_AddNode_present m g key v v' :
  fhm_rep V0 Size m g -> g !! key = Some v' -> AddNode V0 Size key v m = Ret m.
Proof. intros Hr Hg. unfold AddNode. by rewrite (fhm_GetVal m g), Hg. Qed.

(** The entries of a bucket are as many as the live keys it is home to. *)
Lemma bucket_load_length m B (g : gmap Z V) key :
  buckets_ok m B ->
  (forall key, g !! key = (list_to_map (B (bucket key)) : gmap Z V) !! key) ->
  bucket_load Size g key = length (B (bucket key)).
Proof.
  intros HB Hg. unfold bucket_load. pose proof (bucket_lt key) as Hb.
  assert (filter (fun kv => bucket kv.1 = bucket key) g = list_to_map (B (bucket key))) as ->.
  { apply map_eq. intros key'. rewrite map_lookup_filter, Hg.
    destruct (decide (bucket key' = bucket key)) as [He|Hne].
    - rewrite He. destruct (list_to_map _ !! key') eqn:E; simpl; [|done].
      by rewrite option_guard_True.
    - assert ((list_to_map (B (bucket key)) : gmap Z V) !! key' = None) as ->.
      { apply not_elem_of_list_to_map_1. intros Hin. apply Hne.
        by apply (bo_home _ _ _ _ HB). }
      destruct (list_to_map (B (bucket key')) !! key'); simpl; [|done].
      by rewrite option_guard_False. }
  rewrite <- (length_map_to_list).
  rewrite (map_to_list_to_map (M := gmap Z)); [done|]. by apply (bo_nodup _ _ _ _ HB).
Qed.

Lemma fhm_AddNode m g key v :
  fhm_rep V0 Size m g -> g !! key = None -> (bucket_load Size g key < 16)%nat ->
  exists m', AddNode V0 Size key v m = Ret m' /\ fhm_rep V0 Size m' (<[key := v]> g).
Proof.
  intros (B & HB & Hg) Hn Hl. rewrite (bucket_load_length m B) in Hl by done.
  rewrite Hg in Hn. apply not_elem_of_list_to_map_2 in Hn.
  destruct (AddNode_buckets m B key v HB Hn Hl) as (m' & Hm' & HB').
  exists m'. split; [done|]. exists (upd_bucket B (bucket key) (B (bucket key) ++ [(key, v)])).
  split; [done|]. intros key'. destruct (decide (bucket key' = bucket key)) as [He|Hne].
  - rewrite He, upd_bucket_eq, list_to_map_app, lookup_union.
    destruct (decide (key' = key)) as [->|Hk].
    + rewrite lookup_insert_eq, (not_elem_of_list_to_map_1 _ _ Hn). simpl.
      by rewrite lookup_insert_eq.
    + rewrite lookup_insert_ne, Hg, He by done. simpl.
      rewrite lookup_insert_ne, lookup_empty by done. by destruct (list_to_map _ !! _).
  - rewrite upd_bucket_ne, lookup_insert_ne by congruence. done.
Qed.

Lemma fhm_DeleteNode m g key :
  fhm_rep V0 Size m g ->
  exists m', DeleteNode V0 Size key m = Ret m' /\ fhm_rep V0 Size m' (delete key g).
Proof.
  intros (B & HB & Hg). pose proof (bucket_lt key) as Hb.
  destruct (decide (key ∈ (B (bucket key)).*1)) as [Hin|Hni].
  - apply list_elem_of_fmap in Hin as ([key0 v] & -> & (k & Hk)%list_elem_of_lookup).
    simpl in *. destruct (DeleteNode_buckets_hit m B key0 v k HB Hk) as (m' & Hm' & HB').
    exists m'. split; [done|]. exists (upd_bucket B (bucket key0) (delete k (B (bucket key0)))).
    split; [done|]. intros key'. destruct (decide (bucket key' = bucket key0)) as [He|Hne].
    + rewrite He, upd_bucket_eq.
      pose proof (bo_nodup _ _ _ _ HB _ Hb) as Hnd.
      pose proof (bo_nodup _ _ _ _ HB' _ Hb) as Hnd'. rewrite upd_bucket_eq in Hnd'.
      rewrite <- (take_drop_middle _ _ _ Hk) in Hnd.
      rewrite delete_take_drop in *. destruct (decide (key' = key0)) as [->|Hk'].
      * rewrite lookup_delete_eq. symmetry. apply not_elem_of_list_to_map_1.
        rewrite fmap_app in *. simpl in Hnd.
        apply NoDup_app in Hnd as (_ & Hd & Hnd). apply NoDup_cons in Hnd as [Hd' _].
        intros [Hx|Hx]%elem_of_app; [by apply (Hd _ Hx); left|done].
      * rewrite lookup_delete_ne, Hg, He by done.
        rewrite <- (take_drop_middle _ _ _ Hk) at 1.
        rewrite !list_to_map_app, !lookup_union. simpl. by rewrite lookup_insert_ne.
    + rewrite upd_bucket_ne, lookup_delete_ne by congruence. done.
  - exists m. split; [by apply (DeleteNode_buckets_miss m B)|].
    rewrite delete_id; [by exists B|]. rewrite Hg. by apply not_elem_of_list_to_map_1.
Qed.

End Proofs.
