(* ===== verification/SkipList.v ===== *)
(** [SkipList] (src/market_server/common/include/skip_list.hpp): the ordered
    index of price levels.  A [SkipNode*] is the index of the node in the storage
    of the list's own pool; [Forward] arrays have [MaxLevel + 1] entries.  The
    comparator is [std::less] ([asc = true], ask side) or [std::greater] (bid
    side), and fixes the sentinel keys of the head and tail nodes.

    Main results: for keys strictly between the sentinels the structure
    implements a sorted association list ([sl_rep]); [AddNode], [DeleteNode],
    [GetVal], [GetHead] are insertion, removal, lookup and first element on it,
    whatever the heights drawn by the generator. *)

From Stdlib Require Import Sorting.Sorted.
From S2P Require Import Prelude SingleThreadedPool.
From S2P Require FlatHashMap.

Section SkipList.
Context {V : Type} (asc : bool) (PoolSize MaxLevel : nat).

Definition comp (a b : Z) : bool := if asc then a <? b else b <? a.

Record SkipNode := MkSkipNode {
  Key : Z;
  Value : option V;            (* a pointer; None is nullptr *)
  Height : nat;
  Forward : list (option nat)  (* std::array<SkipNode *, MaxLevel + 1> *)
}.

Record SkipList := MkSkipList {
  Nodes : gmap nat SkipNode;
  SHead : nat;
  STail : nat;
  NodesPool : StackPool;
  GenState : Z;                (* uint64_t State *)
  CurMax : nat
}.

Definition snode0 : SkipNode := MkSkipNode 0 None 0 (replicate (MaxLevel + 1) None).
Definition snode (t : SkipList) (p : nat) : SkipNode := default snode0 (Nodes t !! p).
Definition forward (t : SkipList) (p l : nat) : option nat := mjoin (Forward (snode t p) !! l).
Definition set_node (p : nat) (n : SkipNode) (t : SkipList) : SkipList :=
  MkSkipList (<[p := n]> (Nodes t)) (SHead t) (STail t) (NodesPool t) (GenState t) (CurMax t).
Definition set_forward (p l : nat) (q : option nat) (t : SkipList) : SkipList :=
  let n := snode t p in
  set_node p (MkSkipNode (Key n) (Value n) (Height n) (<[l := q]> (Forward n))) t.
Definition set_pool (po : StackPool) (t : SkipList) : SkipList :=
  MkSkipList (Nodes t) (SHead t) (STail t) po (GenState t) (CurMax t).

(** *** The generator of heights *)

Definition next_u64 (state : Z) : Z :=
  let newState := u64 (state + 0xa0761d6478bd642f) in
  let t := newState * Z.lxor newState 0xe7037ed1a0b428db in
  Z.lxor (Z.shiftr t 64) (u64 t).

Definition nextLevel (t : SkipList) : nat * SkipList :=
  let st := next_u64 (GenState t) in
  let level := FlatHashMap.ctz st in
  ((if (level <=? MaxLevel)%nat then level else MaxLevel),
   MkSkipList (Nodes t) (SHead t) (STail t) (NodesPool t) st (CurMax t)).

(** *** Construction *)

Definition max_key : Z := if asc then INT64_MAX else INT64_MIN.   (* of the tail *)
Definition min_key : Z := if asc then INT64_MIN else INT64_MAX.   (* of the head *)

Definition skiplist_init (seed : Z) : result SkipList :=
  let '(tl, po) := Acquire (pool_init PoolSize) in
  tl ← deref tl;
  let '(hd, po) := Acquire po in
  hd ← deref hd;
  Ret (MkSkipList
         (<[hd := MkSkipNode min_key None MaxLevel (replicate (MaxLevel + 1) (Some tl))]>
            {[tl := MkSkipNode max_key None MaxLevel (replicate (MaxLevel + 1) None)]})
         hd tl po seed 0).

(** *** Search *)

(** [while (go(curNode->Forward[lvl]->Key)) curNode = curNode->Forward[lvl];] *)
Fixpoint walk (fuel : nat) (t : SkipList) (go : Z -> bool) (lvl cur : nat) : result nat :=
  match fuel with
  | O => Crash OutOfFuel
  | S fuel =>
      nx ← deref (forward t cur lvl);
      if go (Key (snode t nx)) then walk fuel t go lvl nx else Ret cur
  end.

(** The levels from [lvl] down to 0; returns the last node and [prev[0..lvl]].
    A level has at most [PoolSize] nodes. *)
Fixpoint descend (t : SkipList) (go : Z -> bool) (lvl cur : nat) : result (nat * list nat) :=
  c ← walk PoolSize t go lvl cur;
  match lvl with
  | O => Ret (c, [c])
  | S l => '(c', ps) ← descend t go l c; Ret (c', ps ++ [c])
  end.

(** [Some v] is [found = true] with the value [v]. *)
Definition GetVal (key : Z) (t : SkipList) : result (option (option V)) :=
  '(cur, _) ← descend t (fun k => comp k key) MaxLevel (SHead t);
  nx ← deref (forward t cur 0);
  Ret (if Key (snode t nx) =? key then Some (Value (snode t nx)) else None).

(** *** Insertion *)

Fixpoint link_levels (n : nat) (new : nat) (prev : list nat) (t : SkipList) : SkipList :=
  match n with
  | O => t
  | S i =>
      let t := link_levels i new prev t in
      let p := nth i prev O in
      let t := set_forward new i (forward t p i) t in
      set_forward p i (Some new) t
  end.

Definition AddNode (key : Z) (val : V) (t : SkipList) : result SkipList :=
  '(_, prev) ← descend t (fun k => negb (comp key k)) MaxLevel (SHead t);
  if Key (snode t (nth 0 prev O)) =? key then Ret t
  else
    let '(level, t) := nextLevel t in
    let '(new, po) := Acquire (NodesPool t) in
    match new with
    | None => Crash Terminate
    | Some new =>
        let n := snode t new in
        let t := MkSkipList (<[new := MkSkipNode key (Some val) level (Forward n)]> (Nodes t))
                   (SHead t) (STail t) po (GenState t) (Nat.max (CurMax t) level) in
        let t := link_levels (level + 1) new prev t in
        Ret (foldl (fun t i => set_forward new i (Some (STail t)) t) t
               (seq (level + 1) (MaxLevel - level)))
    end.

(** *** Deletion *)

Fixpoint unlink_levels (n : nat) (cur : nat) (prev : list nat) (t : SkipList) : SkipList :=
  match n with
  | O => t
  | S i =>
      let t := unlink_levels i cur prev t in
      set_forward (nth i prev O) i (forward t cur i) t
  end.

Definition DeleteNode (key : Z) (t : SkipList) : result SkipList :=
  '(last, prev) ← descend t (fun k => comp k key) MaxLevel (SHead t);
  cur ← deref (forward t last 0);
  if Key (snode t cur) =? key then
    let t := unlink_levels (Height (snode t cur) + 1) cur prev t in
    match Release PoolSize (Some cur) (NodesPool t) with
    | (true, po) => Ret (set_pool po t)
    | (false, _) => Crash Terminate
    end
  else Ret t.

(** The value of the best level; [nullptr] when the list is empty, since the
    tail's value is null. *)
Definition GetHead (t : SkipList) : result (option V) :=
  nx ← deref (forward t (SHead t) 0);
  Ret (Value (snode t nx)).

(** *** Representation *)

Record entry := MkEntry { ekey : Z; evalue : V; eptr : nat; eht : nat }.

(** The pointers of the nodes linked at level [l]. *)
Definition at_level (l : nat) (L : list entry) : list nat :=
  eptr <$> filter (fun e => l <= eht e)%nat L.

Fixpoint chain (t : SkipList) (l : nat) (ps : list nat) : Prop :=
  match ps with
  | p :: ((q :: _) as r) => forward t p l = Some q /\ chain t l r
  | _ => True
  end.

Definition key_lt (a b : Z) : Prop := comp a b = true.
Definition keys_sorted (L : list entry) : Prop := StronglySorted (fun a b => key_lt (ekey a) (ekey b)) L.

Record sl_inv (t : SkipList) (L : list entry) (free : list nat) : Prop := {
  si_sorted : keys_sorted L;
  si_range : Forall (fun e => key_lt min_key (ekey e) /\ key_lt (ekey e) max_key) L;
  si_height : Forall (fun e => (eht e <= MaxLevel)%nat) L;
  si_nodes : Forall (fun e => Key (snode t (eptr e)) = ekey e /\
                 Value (snode t (eptr e)) = Some (evalue e) /\
                 Height (snode t (eptr e)) = eht e) L;
  si_head : Key (snode t (SHead t)) = min_key;
  si_tail : Key (snode t (STail t)) = max_key /\ Value (snode t (STail t)) = None;
  si_len : forall p, length (Forward (snode t p)) = (MaxLevel + 1)%nat;
  si_pool : pool_rep PoolSize (NodesPool t) free;
  si_nodup : NoDup (free ++ SHead t :: STail t :: (eptr <$> L));
  si_bound : Forall (fun p => p < PoolSize)%nat (SHead t :: STail t :: (eptr <$> L));
  si_chain : forall l, (l <= MaxLevel)%nat ->
               chain t l (SHead t :: at_level l L ++ [STail t])
}.

(** The sorted association list a skip list stands for, with the number of free
    nodes left. *)
Definition sl_rep (t : SkipList) (kvs : list (Z * V)) (room : nat) : Prop :=
  exists L free, sl_inv t L free /\ kvs = (fun e => (ekey e, evalue e)) <$> L /\
                 room = length free.

End SkipList.

Arguments SkipNode : clear implicits.
Arguments SkipList : clear implicits.
Arguments entry : clear implicits.

(** Insertion into and removal from a sorted association list. *)
Fixpoint insert_sorted {V} (asc : bool) (k : Z) (v : V) (l : list (Z * V)) : list (Z * V) :=
  match l with
  | [] => [(k, v)]
  | (k', v') :: r => if comp asc k k' then (k, v) :: l else (k', v') :: insert_sorted asc k v r
  end.
Definition remove_key {V} (k : Z) (l : list (Z * V)) : list (Z * V) :=
  filter (fun kv => kv.1 <> k) l.

(** ** Proofs *)

Section Order.
Context (asc : bool).

Lemma comp_trans a b c : comp asc a b = true -> comp asc b c = true -> comp asc a c = true.
Proof. unfold comp. destruct asc; rewrite !Z.ltb_lt; lia. Qed.
Lemma comp_irrefl a : comp asc a a = false.
Proof. unfold comp. destruct asc; apply Z.ltb_irrefl. Qed.
Lemma comp_asym a b : comp asc a b = true -> comp asc b a = false.
Proof. unfold comp. destruct asc; rewrite Z.ltb_lt, Z.ltb_ge; lia. Qed.
Lemma comp_total a b : comp asc a b = false -> a <> b -> comp asc b a = true.
Proof. unfold comp. destruct asc; rewrite Z.ltb_lt, Z.ltb_ge; lia. Qed.
Lemma comp_false_trans a b c : comp asc a b = true -> comp asc c b = false -> comp asc c a = false.
Proof. unfold comp. destruct asc; rewrite Z.ltb_lt, !Z.ltb_ge; lia. Qed.
End Order.

Section Proofs.
Context {V : Type} (asc : bool) (PoolSize MaxLevel : nat).
Abbreviation SkipList := (SkipList V).
Abbreviation entry := (entry V).
Abbreviation snode := (snode MaxLevel).
Abbreviation forward := (forward MaxLevel).
Abbreviation chain := (chain MaxLevel).
Abbreviation sl_inv := (sl_inv asc PoolSize MaxLevel).
Implicit Types (t : SkipList) (L : list entry).

(** *** Single updates *)

Lemma snode_set_eq p n t : snode (set_node p n t) p = n.
Proof. unfold SkipList.snode, set_node. simpl. by rewrite lookup_insert_eq. Qed.
Lemma snode_set_ne p q n t : p <> q -> snode (set_node p n t) q = snode t q.
Proof. intros. unfold SkipList.snode, set_node. simpl. by rewrite lookup_insert_ne. Qed.

(** [set_forward] changes one link and no key, value or height. *)
Lemma set_forward_fields p l q t p' :
  Key (snode (set_forward MaxLevel p l q t) p') = Key (snode t p') /\
  Value (snode (set_forward MaxLevel p l q t) p') = Value (snode t p') /\
  Height (snode (set_forward MaxLevel p l q t) p') = Height (snode t p') /\
  length (Forward (snode (set_forward MaxLevel p l q t) p')) = length (Forward (snode t p')).
Proof.
  unfold set_forward. destruct (decide (p = p')) as [->|Hne].
  - rewrite snode_set_eq. simpl. by rewrite length_insert.
  - by rewrite snode_set_ne.
Qed.

Lemma set_forward_forward p l q t p' l' :
  (l < length (Forward (snode t p)))%nat ->
  forward (set_forward MaxLevel p l q t) p' l' =
  if decide (p' = p /\ l' = l) then q else forward t p' l'.
Proof.
  intros Hl. unfold SkipList.forward, set_forward. destruct (decide (p = p')) as [->|Hne].
  - rewrite snode_set_eq. simpl. destruct (decide (l' = l)) as [->|Hl'].
    + rewrite list_lookup_insert_eq by done. by rewrite decide_True.
    + rewrite list_lookup_insert_ne by done. by rewrite decide_False by naive_solver.
  - rewrite snode_set_ne by done. by rewrite decide_False by naive_solver.
Qed.

(** Relation between two lists that differ only in their links. *)
Definition same_fields t t' : Prop :=
  SHead t' = SHead t /\ STail t' = STail t /\ NodesPool t' = NodesPool t /\
  forall p, Key (snode t' p) = Key (snode t p) /\ Value (snode t' p) = Value (snode t p) /\
            Height (snode t' p) = Height (snode t p) /\
            length (Forward (snode t' p)) = length (Forward (snode t p)).

Lemma same_fields_refl t : same_fields t t.
Proof. done. Qed.
Lemma same_fields_trans t1 t2 t3 : same_fields t1 t2 -> same_fields t2 t3 -> same_fields t1 t3.
Proof.
  intros (a1 & b1 & c1 & d1) (a2 & b2 & c2 & d2). split_and!; try congruence.
  intros p. destruct (d1 p) as (?&?&?&?), (d2 p) as (?&?&?&?). split_and!; congruence.
Qed.
Lemma same_fields_set_forward p l q t : same_fields t (set_forward MaxLevel p l q t).
Proof. split_and!; try done. intros. apply set_forward_fields. Qed.

Definition full_arrays t : Prop := forall p, length (Forward (snode t p)) = (MaxLevel + 1)%nat.

Lemma full_arrays_same t t' : same_fields t t' -> full_arrays t -> full_arrays t'.
Proof. intros (_ & _ & _ & H) Hf p. destruct (H p) as (_ & _ & _ & ->). apply Hf. Qed.

Lemma link_levels_ok n new prev t :
  full_arrays t -> (n <= MaxLevel + 1)%nat ->
  (forall i, (i < n)%nat -> nth i prev O <> new) ->
  same_fields t (link_levels MaxLevel n new prev t) /\
  forall p l, forward (link_levels MaxLevel n new prev t) p l =
    if decide (l < n)%nat then
      if decide (p = new) then forward t (nth l prev O) l
      else if decide (p = nth l prev O) then Some new else forward t p l
    else forward t p l.
Proof.
  intros Hf. induction n as [|n IH]; intros Hn Hp.
  { split; [done|]. intros p l. by rewrite decide_False by lia. }
  destruct IH as [Hs Hfw]; [lia|intros; apply Hp; lia|]. cbn [link_levels].
  set (t1 := link_levels MaxLevel n new prev t) in *.
  pose proof (full_arrays_same _ _ Hs Hf) as Hf1.
  pose proof (same_fields_set_forward new n (forward t1 (nth n prev 0%nat) n) t1) as Hs2.
  set (t2 := set_forward MaxLevel new n _ t1) in *.
  pose proof (full_arrays_same _ _ Hs2 Hf1) as Hf2.
  split; [eauto using same_fields_trans, same_fields_set_forward|].
  intros p l. rewrite set_forward_forward by (rewrite Hf2; lia). unfold t2.
  rewrite set_forward_forward by (rewrite Hf1; lia). rewrite !Hfw.
  pose proof (Hp n ltac:(lia)) as Hne.
  destruct (decide (l = n)) as [->|Hl].
  - repeat case_decide; naive_solver lia.
  - repeat case_decide; naive_solver lia.
Qed.

Lemma fill_levels_ok new t lv :
  full_arrays t -> Forall (fun i => i <= MaxLevel)%nat lv ->
  let t' := foldl (fun t i => set_forward MaxLevel new i (Some (STail t)) t) t lv in
  same_fields t t' /\
  forall p l, p <> new \/ l ∉ lv -> forward t' p l = forward t p l.
Proof.
  revert t. induction lv as [|i lv IH]; intros t Hf Hi; [done|]. cbn [foldl].
  apply Forall_cons in Hi as [Hi His].
  pose proof (same_fields_set_forward new i (Some (STail t)) t) as Hs.
  destruct (IH (set_forward MaxLevel new i (Some (STail t)) t)) as [Hs' Hfw];
    [by eapply full_arrays_same|done|].
  split; [by eapply same_fields_trans|]. intros p l Hpl.
  rewrite Hfw by set_solver. rewrite set_forward_forward by (rewrite Hf; lia).
  rewrite decide_False; [done|]. intros [-> ->]. set_solver.
Qed.

Lemma unlink_levels_ok n cur prev t :
  full_arrays t -> (n <= MaxLevel + 1)%nat ->
  (forall i, (i < n)%nat -> nth i prev O <> cur) ->
  same_fields t (unlink_levels MaxLevel n cur prev t) /\
  forall p l, forward (unlink_levels MaxLevel n cur prev t) p l =
    if decide (l < n)%nat then
      if decide (p = nth l prev O) then forward t cur l else forward t p l
    else forward t p l.
Proof.
  intros Hf. induction n as [|n IH]; intros Hn Hp.
  { split; [done|]. intros p l. by rewrite decide_False by lia. }
  destruct IH as [Hs Hfw]; [lia|intros; apply Hp; lia|]. cbn [unlink_levels].
  set (t1 := unlink_levels MaxLevel n cur prev t) in *.
  pose proof (full_arrays_same _ _ Hs Hf) as Hf1.
  split; [eauto using same_fields_trans, same_fields_set_forward|].
  intros p l. rewrite set_forward_forward by (rewrite Hf1; lia). rewrite !Hfw.
  pose proof (Hp n ltac:(lia)) as Hne.
  destruct (decide (l = n)) as [->|Hl]; repeat case_decide; naive_solver lia.
Qed.

(** *** Chains *)

Lemma chain_join t l A p R : chain t l (A ++ [p]) -> chain t l (p :: R) -> chain t l (A ++ p :: R).
Proof.
  induction A as [|a A IH]; [done|]. destruct A as [|b A]; simpl in *; naive_solver.
Qed.

Lemma chain_split t l A p R : chain t l (A ++ p :: R) -> chain t l (A ++ [p]) /\ chain t l (p :: R).
Proof.
  induction A as [|a A IH]; [done|]. destruct A as [|b A]; simpl in *; naive_solver.
Qed.

Lemma chain_frame t t' l A z :
  (forall p, p ∈ A -> forward t' p l = forward t p l) ->
  chain t l (A ++ [z]) -> chain t' l (A ++ [z]).
Proof.
  induction A as [|a A IH]; [done|]. intros Hf Hc.
  destruct A as [|b A]; simpl in *.
  - rewrite Hf by set_solver. done.
  - rewrite Hf by set_solver. split; [tauto|]. apply IH; [set_solver|tauto].
Qed.

Lemma walk_ok fuel t go l c r1 q r2 :
  chain t l (c :: r1 ++ q :: r2) ->
  Forall (fun p => go (Key (snode t p)) = true) r1 -> go (Key (snode t q)) = false ->
  (length r1 < fuel)%nat ->
  walk MaxLevel fuel t go l c = Ret (default c (last r1)).
Proof.
  revert c r1. induction fuel as [|fuel IH]; intros c r1 Hc Hg Hq Hf; [lia|].
  destruct r1 as [|b r1]; simpl in Hc.
  - destruct Hc as [Hfw _]. cbn [walk]. rewrite Hfw. cbn [deref mbind result_bind]. by rewrite Hq.
  - destruct Hc as [Hfw Hc]. apply Forall_cons in Hg as [Hb Hg]. cbn [walk]. rewrite Hfw.
    cbn [deref mbind result_bind]. rewrite Hb. rewrite (IH b r1) by (simpl in *; done || lia).
    f_equal. destruct r1 as [|b' r1]; [done|]. rewrite last_cons_cons.
    destruct (last (b' :: r1)) eqn:E; [done|]. by apply last_None in E.
Qed.

Lemma at_level_app l L1 L2 : at_level l (L1 ++ L2) = at_level l L1 ++ at_level l L2.
Proof. unfold at_level. by rewrite filter_app, fmap_app. Qed.

Lemma at_level_cons l e L :
  at_level l (e :: L) = if decide (l <= eht e)%nat then eptr e :: at_level l L else at_level l L.
Proof. unfold at_level. rewrite filter_cons. by case_decide. Qed.

Lemma elem_at_level l L p : p ∈ at_level l L -> exists e, e ∈ L /\ eptr e = p /\ (l <= eht e)%nat.
Proof.
  unfold at_level. rewrite list_elem_of_fmap. intros (e & -> & He).
  apply list_elem_of_filter in He. exists e. tauto.
Qed.

Lemma at_level_mono l L p : p ∈ at_level (S l) L -> p ∈ at_level l L.
Proof.
  intros (e & He & <- & Hl)%elem_at_level. unfold at_level. apply list_elem_of_fmap.
  exists e. split; [done|]. apply list_elem_of_filter. split; [lia|done].
Qed.

Lemma at_level_sub l L : at_level l L `sublist_of` eptr <$> L.
Proof. unfold at_level. apply fmap_sublist. apply sublist_filter. Qed.

Lemma at_level_0 L : at_level 0 L = eptr <$> L.
Proof.
  unfold at_level. f_equal. induction L as [|e L IH]; [done|].
  rewrite filter_cons_True by lia. by rewrite IH.
Qed.

(** The last node of level [l] before the split point. *)
Definition before t (L1 : list entry) (l : nat) : nat := default (SHead t) (last (at_level l L1)).

Lemma before_elem t L1 l : before t L1 l ∈ SHead t :: at_level l L1.
Proof.
  unfold before. destruct (last (at_level l L1)) as [p|] eqn:E; simpl; [|left].
  right. apply last_Some_elem_of in E. done.
Qed.

Lemma before_split t L1 l :
  exists A, SHead t :: at_level l L1 = A ++ [before t L1 l].
Proof.
  unfold before. destruct (at_level l L1) as [|p ps _] using rev_ind.
  - by exists [].
  - exists (SHead t :: ps). by rewrite last_snoc.
Qed.

Section Inv.
Context (t : SkipList) (L : list entry) (free : list nat) (HI : sl_inv t L free).

Lemma sl_room : (length L + 2 <= PoolSize)%nat.
Proof.
  pose proof (si_nodup _ _ _ _ _ _ HI) as Hnd. pose proof (si_bound _ _ _ _ _ _ HI) as Hb.
  apply NoDup_app in Hnd as (_ & _ & Hnd).
  assert (Hsub : SHead t :: STail t :: (eptr <$> L) ⊆+ seq 0 PoolSize).
  { apply NoDup_submseteq; [done|]. intros x Hx. rewrite Forall_forall in Hb.
    specialize (Hb x Hx). apply elem_of_seq. lia. }
  apply submseteq_length in Hsub. simpl in Hsub. rewrite length_fmap, length_seq in Hsub. lia.
Qed.

Lemma entry_key e : e ∈ L -> Key (snode t (eptr e)) = ekey e.
Proof.
  intros He. pose proof (si_nodes _ _ _ _ _ _ HI) as H. rewrite Forall_forall in H. by apply H.
Qed.

Context (go : Z -> bool) (L1 L2 : list entry) (HL : L = L1 ++ L2).
Context (Hgo1 : Forall (fun e => go (ekey e) = true) L1).
Context (Hgo2 : Forall (fun e => go (ekey e) = false) L2).
Context (Hgot : go (max_key asc) = false).

Lemma level_walk l cur :
  (l <= MaxLevel)%nat -> cur ∈ SHead t :: at_level l L1 ->
  walk MaxLevel PoolSize t go l cur = Ret (before t L1 l).
Proof.
  intros Hl (A & C & HA)%list_elem_of_split.
  pose proof (si_chain _ _ _ _ _ _ HI l Hl) as Hc.
  rewrite HL, at_level_app in Hc.
  assert (exists q r2, at_level l L2 ++ [STail t] = q :: r2 /\ go (Key (snode t q)) = false)
    as (q & r2 & Hq & Hgq).
  { destruct (at_level l L2) as [|q qs] eqn:E; simpl.
    - exists (STail t), []. split; [done|]. by destruct (si_tail _ _ _ _ _ _ HI) as [-> _].
    - exists q, (qs ++ [STail t]). split; [done|].
      assert (Hin : q ∈ at_level l L2) by (rewrite E; left).
      apply elem_at_level in Hin as (e & He & <- & _).
      rewrite entry_key by (rewrite HL; set_solver). rewrite Forall_forall in Hgo2. auto. }
  rewrite <- app_assoc, Hq in Hc.
  replace (SHead t :: at_level l L1 ++ q :: r2) with ((SHead t :: at_level l L1) ++ q :: r2) in Hc by done.
  rewrite HA, <- app_assoc in Hc. simpl in Hc. apply chain_split in Hc as [_ Hc].
  rewrite (walk_ok _ _ _ _ _ C q r2); try done.
  - f_equal. unfold before. destruct (at_level l L1) as [|p ps _] using rev_ind.
    + destruct A as [|? [|? ?]]; simplify_eq/=. done.
    + rewrite last_snoc. destruct C as [|c C _] using rev_ind.
      * simpl. replace (SHead t :: ps ++ [p]) with ((SHead t :: ps) ++ [p]) in HA by done.
        apply app_inj_2 in HA as [_ HA]; [|done]. by simplify_eq.
      * rewrite last_snoc. simpl.
        replace (SHead t :: ps ++ [p]) with ((SHead t :: ps) ++ [p]) in HA by done.
        replace (A ++ cur :: C ++ [c]) with ((A ++ cur :: C) ++ [c]) in HA
          by (by rewrite <- app_assoc).
        apply app_inj_2 in HA as [_ HA]; [|done]. by simplify_eq.
  - apply Forall_forall. intros p Hp.
    assert (Hin : p ∈ at_level l L1).
    { destruct A as [|a A]; injection HA as _ HA; rewrite HA; set_solver. }
    apply elem_at_level in Hin as (e & He & <- & _).
    rewrite entry_key by (rewrite HL; set_solver). rewrite Forall_forall in Hgo1. auto.
  - apply (f_equal length) in HA. rewrite length_app in HA. simpl in HA.
    pose proof sl_room as Hr. rewrite HL, length_app in Hr.
    pose proof (sublist_length _ _ (at_level_sub l L1)) as Hs. rewrite length_fmap in Hs. lia.
Qed.

Lemma descend_ok l cur :
  (l <= MaxLevel)%nat -> cur ∈ SHead t :: at_level l L1 ->
  descend PoolSize MaxLevel t go l cur =
  Ret (before t L1 0, before t L1 <$> seq 0 (l + 1)).
Proof.
  revert cur. induction l as [|l IH]; intros cur Hl Hcur; cbn [descend];
    rewrite (level_walk _ _ Hl Hcur); cbn [mbind result_bind]; [done|].
  rewrite IH; [|lia|].
  - cbn [mbind result_bind]. do 2 f_equal. replace (S l + 1)%nat with (l + 1 + 1)%nat by lia.
    rewrite (seq_app (l + 1) 1), fmap_app. simpl. do 3 f_equal. lia.
  - pose proof (before_elem t L1 (S l)) as [->|Hin]%elem_of_cons; [by left|].
    right. by apply at_level_mono.
Qed.

Lemma nth_before l : (l <= MaxLevel)%nat -> nth l (before t L1 <$> seq 0 (MaxLevel + 1)) O = before t L1 l.
Proof.
  intros. rewrite nth_lookup, list_lookup_fmap, lookup_seq_lt by lia. done.
Qed.

(** The node that follows the split point at level [l]. *)
Lemma before_next l :
  (l <= MaxLevel)%nat ->
  forward t (before t L1 l) l = head (at_level l L2 ++ [STail t]).
Proof.
  intros Hl. pose proof (si_chain _ _ _ _ _ _ HI l Hl) as Hc.
  rewrite HL, at_level_app in Hc. destruct (before_split t L1 l) as [A HA].
  replace (SHead t :: (at_level l L1 ++ at_level l L2) ++ [STail t])
    with (A ++ before t L1 l :: at_level l L2 ++ [STail t]) in Hc.
  - apply chain_split in Hc as [_ Hc]. destruct (at_level l L2); simpl in *; tauto.
  - replace (A ++ before t L1 l :: at_level l L2 ++ [STail t])
      with ((A ++ [before t L1 l]) ++ at_level l L2 ++ [STail t]) by (by rewrite <- app_assoc).
    rewrite <- HA. simpl. by rewrite <- !app_assoc.
Qed.

Lemma before_ne p l : p ∉ SHead t :: (eptr <$> L) -> before t L1 l <> p.
Proof.
  intros Hp <-. apply Hp. pose proof (before_elem t L1 l) as [->|Hin]%elem_of_cons; [by left|].
  right. rewrite HL, fmap_app. apply elem_of_app. left.
  eapply elem_of_sublist; [done|apply at_level_sub].
Qed.

End Inv.

Lemma split_go (go : Z -> bool) L :
  keys_sorted asc L ->
  (forall a b, comp asc a b = true -> go b = true -> go a = true) ->
  exists L1 L2, L = L1 ++ L2 /\ Forall (fun e => go (ekey e) = true) L1 /\
                Forall (fun e => go (ekey e) = false) L2.
Proof.
  intros Hs Hm. induction L as [|e L IH]; [by exists [], []|].
  apply StronglySorted_inv in Hs as [Hs He].
  destruct (go (ekey e)) eqn:E.
  - destruct (IH Hs) as (L1 & L2 & -> & H1 & H2). exists (e :: L1), L2.
    split_and!; [done|by constructor|done].
  - exists [], (e :: L). split_and!; [done|constructor|]. constructor; [done|].
    apply Forall_forall. intros e' He'. rewrite Forall_forall in He. specialize (He e' He').
    destruct (go (ekey e')) eqn:E'; [|done]. by rewrite (Hm _ _ He E') in E.
Qed.

(** *** Sorted lists of entries *)

Definition kv (e : entry) : Z * V := (ekey e, evalue e).

Lemma sorted_insert e L1 L2 :
  keys_sorted asc (L1 ++ L2) ->
  Forall (fun e' => key_lt asc (ekey e') (ekey e)) L1 ->
  Forall (fun e' => key_lt asc (ekey e) (ekey e')) L2 ->
  keys_sorted asc (L1 ++ e :: L2).
Proof.
  intros Hs H1 H2. induction L1 as [|a L1 IH]; simpl in *; [by constructor|].
  apply StronglySorted_inv in Hs as [Hs Ha]. apply Forall_cons in H1 as [Hae H1].
  constructor; [by apply IH|]. apply Forall_app in Ha as [Ha1 Ha2].
  apply Forall_app; split; [done|]. by constructor.
Qed.

Lemma sorted_remove e L1 L2 : keys_sorted asc (L1 ++ e :: L2) -> keys_sorted asc (L1 ++ L2).
Proof.
  induction L1 as [|a L1 IH]; simpl; intros [Hs Ha]%StronglySorted_inv; [done|].
  constructor; [by apply IH|]. apply Forall_app in Ha as [Ha1 [_ Ha2]%Forall_cons].
  by apply Forall_app.
Qed.

Lemma sorted_mid e L1 L2 :
  keys_sorted asc (L1 ++ e :: L2) ->
  Forall (fun e' => key_lt asc (ekey e') (ekey e)) L1 /\
  Forall (fun e' => key_lt asc (ekey e) (ekey e')) L2.
Proof.
  induction L1 as [|a L1 IH]; simpl; intros [Hs Ha]%StronglySorted_inv; [done|].
  destruct (IH Hs) as [H1 H2]. split; [|done]. constructor; [|done].
  apply Forall_app in Ha as [_ [? _]%Forall_cons]. done.
Qed.

Lemma insert_sorted_split k v L1 L2 :
  Forall (fun e => comp asc k (ekey e) = false) L1 ->
  Forall (fun e => comp asc k (ekey e) = true) L2 ->
  insert_sorted asc k v (kv <$> (L1 ++ L2)) = (kv <$> L1) ++ (k, v) :: (kv <$> L2).
Proof.
  intros H1 H2. induction L1 as [|e L1 IH].
  - destruct L2 as [|e L2]; [done|]. apply Forall_cons in H2 as [H2 _]. simpl. by rewrite H2.
  - apply Forall_cons in H1 as [He H1].
    change (kv <$> (e :: L1) ++ L2) with ((ekey e, evalue e) :: (kv <$> (L1 ++ L2))).
    cbn [insert_sorted]. rewrite He, IH by done. done.
Qed.

Lemma remove_key_id k (l : list (Z * V)) : k ∉ l.*1 -> remove_key k l = l.
Proof.
  unfold remove_key. induction l as [|[k' v] l IH]; [done|]. simpl.
  intros Hn. rewrite filter_cons_True by (simpl; set_solver). f_equal. apply IH. set_solver.
Qed.

Lemma fmap_kv_keys L : (kv <$> L).*1 = ekey <$> L.
Proof. rewrite <- list_fmap_compose. done. Qed.

Lemma remove_key_split e L1 L2 :
  keys_sorted asc (L1 ++ e :: L2) ->
  remove_key (ekey e) (kv <$> (L1 ++ e :: L2)) = kv <$> (L1 ++ L2).
Proof.
  intros Hs. destruct (sorted_mid _ _ _ Hs) as [H1 H2].
  assert (Hn : forall L', Forall (fun e' => ekey e' <> ekey e) L' -> ekey e ∉ (kv <$> L').*1).
  { intros L' HF. rewrite fmap_kv_keys. intros (e' & He & Hin)%list_elem_of_fmap.
    rewrite Forall_forall in HF. by apply (HF e' Hin). }
  assert (Hirr : forall a b, key_lt asc a b -> a <> b).
  { intros a b Hab ->. unfold key_lt in Hab. by rewrite comp_irrefl in Hab. }
  rewrite !fmap_app. unfold remove_key. rewrite filter_app. simpl.
  rewrite filter_cons_False by naive_solver. f_equal; apply remove_key_id, Hn.
  - eapply Forall_impl; [exact H1|]. simpl. intros e' He'. by apply Hirr.
  - eapply Forall_impl; [exact H2|]. simpl. intros e' He'. apply not_eq_sym. by apply Hirr.
Qed.

(** *** Insertion *)

Lemma nextLevel_ok t :
  exists lv st, nextLevel MaxLevel t =
    (lv, MkSkipList (Nodes t) (SHead t) (STail t) (NodesPool t) st (CurMax t)) /\
    (lv <= MaxLevel)%nat.
Proof.
  unfold nextLevel. do 2 eexists. split; [done|].
  destruct (Nat.leb_spec (FlatHashMap.ctz (next_u64 (GenState t))) MaxLevel); lia.
Qed.

(** The chains after linking a node of height [lv] at the split point. *)
Lemma insert_chain t t' L1 L2 new lv l A :
  SHead t' = SHead t -> STail t' = STail t ->
  SHead t :: at_level l L1 = A ++ [before t L1 l] ->
  NoDup (new :: SHead t :: STail t :: (eptr <$> (L1 ++ L2))) ->
  chain t l (SHead t :: at_level l (L1 ++ L2) ++ [STail t]) ->
  (forall p, p <> new ->
     forward t' p l = if decide (l <= lv /\ p = before t L1 l)%nat then Some new else forward t p l) ->
  ((l <= lv)%nat -> forward t' new l = head (at_level l L2 ++ [STail t])) ->
  forall e, eptr e = new -> eht e = lv ->
  chain t' l (SHead t' :: at_level l (L1 ++ e :: L2) ++ [STail t']).
Proof.
  intros HH HT HA Hnd Hc Hfw Hnew e <- <-. rewrite HH, HT.
  rewrite at_level_app in *. rewrite at_level_cons.
  apply NoDup_cons in Hnd as [Hnew' Hnd].
  rewrite fmap_app in *. apply NoDup_cons in Hnd as [HndH Hnd].
  apply NoDup_cons in Hnd as [HndT Hnd].
  pose proof (at_level_sub l L1) as Hs1. pose proof (at_level_sub l L2) as Hs2.
  assert (Hin1 : forall p, p ∈ at_level l L1 -> p ∈ eptr <$> L1) by (intros; by eapply elem_of_sublist).
  assert (Hin2 : forall p, p ∈ at_level l L2 -> p ∈ eptr <$> L2) by (intros; by eapply elem_of_sublist).
  assert (Hnd1 : NoDup (SHead t :: at_level l L1)).
  { constructor; [intros ?%Hin1; set_solver|]. eapply sublist_NoDup; [|done].
    by apply NoDup_app in Hnd as (? & _ & _). }
  assert (HbA : before t L1 l ∉ A).
  { rewrite HA in Hnd1. apply NoDup_app in Hnd1 as (_ & Hd & _). set_solver. }
  assert (Hb_in : before t L1 l ∈ SHead t :: at_level l L1) by apply before_elem.
  assert (HA_in : forall p, p ∈ A -> p ∈ SHead t :: at_level l L1).
  { intros p Hp. rewrite HA. set_solver. }
  assert (Hb2 : before t L1 l ∉ at_level l L2).
  { intros Hx%Hin2. apply elem_of_cons in Hb_in as [Hb_in|Hb_in%Hin1].
    - rewrite Hb_in in Hx. set_solver.
    - apply NoDup_app in Hnd as (_ & Hd & _). by apply (Hd _ Hb_in). }
  assert (Hfr : forall p, p ∈ A \/ p ∈ at_level l L2 -> forward t' p l = forward t p l).
  { intros p Hp. rewrite Hfw.
    - rewrite decide_False; [done|]. intros [_ ->]. tauto.
    - intros ->. destruct Hp as [Hp%HA_in|Hp%Hin2]; [|set_solver].
      apply elem_of_cons in Hp as [Hp|Hp%Hin1]; set_solver. }
  rewrite <- app_assoc in Hc.
  replace (SHead t :: at_level l L1 ++ at_level l L2 ++ [STail t])
    with (A ++ before t L1 l :: at_level l L2 ++ [STail t]) in Hc
    by (rewrite (app_comm_cons (at_level l L1)), HA, <- app_assoc; done).
  apply chain_split in Hc as [HcA HcB].
  assert (HcA' : chain t' l (A ++ [before t L1 l])) by (eapply chain_frame; [|exact HcA]; auto).
  assert (HcB' : chain t' l (at_level l L2 ++ [STail t])).
  { eapply chain_frame; [intros; apply Hfr; by right|].
    destruct (at_level l L2); [done|]. simpl in HcB. tauto. }
  assert (Hbn : before t L1 l <> eptr e) by (intros Heq; rewrite Heq in Hb_in;
    apply elem_of_cons in Hb_in as [?|?%Hin1]; set_solver).
  rewrite <- !app_assoc.
  replace (SHead t :: at_level l L1 ++ (if decide (l <= eht e)%nat then eptr e :: at_level l L2 else at_level l L2) ++ [STail t])
    with (A ++ before t L1 l :: (if decide (l <= eht e)%nat then eptr e :: at_level l L2 else at_level l L2) ++ [STail t])
    by (rewrite (app_comm_cons (at_level l L1)), HA, <- app_assoc; done).
  apply chain_join; [done|]. specialize (Hfw _ Hbn). destruct (decide (l <= eht e)%nat) as [Hl|Hl].
  - rewrite decide_True in Hfw by done. simpl. split; [done|].
    specialize (Hnew Hl). destruct (at_level l L2 ++ [STail t]) as [|q qs] eqn:E; [done|].
    split; done.
  - rewrite decide_False in Hfw by tauto.
    destruct (at_level l L2 ++ [STail t]) as [|q qs] eqn:E; [done|].
    simpl in *. split; [|done]. rewrite Hfw. tauto.
Qed.

Lemma go_add_mono key a b :
  comp asc a b = true -> negb (comp asc key b) = true -> negb (comp asc key a) = true.
Proof. rewrite !negb_true_iff. apply comp_false_trans. Qed.

Lemma go_del_mono key a b : comp asc a b = true -> comp asc b key = true -> comp asc a key = true.
Proof. apply comp_trans. Qed.

Lemma max_key_comp key : comp asc key (max_key asc) = true -> comp asc (max_key asc) key = false.
Proof. apply comp_asym. Qed.

(** The invariant of the list with the new node linked in. *)
Lemma sl_inv_insert t t' L1 L2 free new e :
  sl_inv t (L1 ++ L2) (free ++ [new]) ->
  eptr e = new -> (eht e <= MaxLevel)%nat ->
  key_lt asc (min_key asc) (ekey e) -> key_lt asc (ekey e) (max_key asc) ->
  Forall (fun e' => key_lt asc (ekey e') (ekey e)) L1 ->
  Forall (fun e' => key_lt asc (ekey e) (ekey e')) L2 ->
  SHead t' = SHead t -> STail t' = STail t -> pool_rep PoolSize (NodesPool t') free ->
  (forall p, p <> new -> Key (snode t' p) = Key (snode t p) /\
     Value (snode t' p) = Value (snode t p) /\ Height (snode t' p) = Height (snode t p)) ->
  Key (snode t' new) = ekey e /\ Value (snode t' new) = Some (evalue e) /\
    Height (snode t' new) = eht e ->
  full_arrays t' ->
  (forall p l, (l <= MaxLevel)%nat -> p <> new ->
     forward t' p l = if decide (l <= eht e /\ p = before t L1 l)%nat
                      then Some new else forward t p l) ->
  (forall l, (l <= eht e)%nat -> forward t' new l = head (at_level l L2 ++ [STail t])) ->
  sl_inv t' (L1 ++ e :: L2) free.
Proof.
  intros HI <- Hh Hmin Hmax H1 H2 HH HT HP Hold Hnew Hlen Hfw Hfn.
  pose proof (si_nodup _ _ _ _ _ _ HI) as Hnd.
  assert (Hnd' : NoDup (eptr e :: SHead t :: STail t :: (eptr <$> (L1 ++ L2)))).
  { rewrite <- app_assoc in Hnd. by apply NoDup_app in Hnd as (_ & _ & Hnd). }
  assert (Hperm : eptr <$> (L1 ++ e :: L2) ≡ₚ eptr e :: (eptr <$> (L1 ++ L2))).
  { rewrite !fmap_app. simpl. by rewrite Permutation_middle. }
  pose proof (si_nodes _ _ _ _ _ _ HI) as Hn. rewrite Forall_app in Hn.
  assert (Hne : forall e', e' ∈ L1 ++ L2 -> eptr e' <> eptr e).
  { intros e' He' Heq. apply NoDup_cons in Hnd' as [Hni _]. apply Hni.
    rewrite <- Heq. do 2 right. by apply list_elem_of_fmap_2. }
  assert (Hkeep : forall L', L' ⊆ L1 ++ L2 ->
     Forall (fun e0 => Key (snode t (eptr e0)) = ekey e0 /\
       Value (snode t (eptr e0)) = Some (evalue e0) /\ Height (snode t (eptr e0)) = eht e0) L' ->
     Forall (fun e0 => Key (snode t' (eptr e0)) = ekey e0 /\
       Value (snode t' (eptr e0)) = Some (evalue e0) /\ Height (snode t' (eptr e0)) = eht e0) L').
  { intros L' Hsub HF. rewrite Forall_forall in HF |- *. intros e' He'.
    destruct (Hold (eptr e')) as (-> & -> & ->); [apply Hne; set_solver|]. auto. }
  pose proof (si_range _ _ _ _ _ _ HI) as Hr. rewrite Forall_app in Hr.
  pose proof (si_height _ _ _ _ _ _ HI) as Hht. rewrite Forall_app in Hht.
  apply NoDup_cons in Hnd' as [Hni Hnd'].
  split.
  - apply sorted_insert; [apply (si_sorted _ _ _ _ _ _ HI)|done|done].
  - apply Forall_app. split; [tauto|]. constructor; [done|tauto].
  - apply Forall_app. split; [tauto|]. constructor; [done|tauto].
  - apply Forall_app. split; [apply Hkeep; [set_solver|tauto]|].
    constructor; [done|]. apply Hkeep; [set_solver|tauto].
  - rewrite HH. destruct (Hold (SHead t)) as (-> & _); [set_solver|].
    apply (si_head _ _ _ _ _ _ HI).
  - rewrite HT. destruct (Hold (STail t)) as (-> & -> & _); [set_solver|].
    apply (si_tail _ _ _ _ _ _ HI).
  - done.
  - done.
  - rewrite HH, HT, Hperm. rewrite <- app_assoc in Hnd. simpl in Hnd.
    replace (SHead t :: STail t :: eptr e :: (eptr <$> L1 ++ L2))
      with ([SHead t; STail t] ++ eptr e :: (eptr <$> L1 ++ L2)) by done.
    rewrite <- Permutation_middle. done.
  - rewrite HH, HT, Hperm. pose proof (si_bound _ _ _ _ _ _ HI) as Hb.
    apply Forall_cons in Hb as [? Hb]. apply Forall_cons in Hb as [? Hb].
    repeat constructor; try done.
    pose proof (pool_bound _ _ _ (si_pool _ _ _ _ _ _ HI)) as Hp.
    apply Forall_app in Hp as [_ Hp]. by apply Forall_cons in Hp as [? _].
  - intros l Hl. destruct (before_split t L1 l) as [A HA].
    eapply (insert_chain t t' L1 L2 (eptr e) (eht e) l A); try done.
    + by constructor.
    + by apply (si_chain _ _ _ _ _ _ HI).
    + intros p Hp. by apply Hfw.
    + intros. by apply Hfn.
Qed.

Lemma AddNode_ok t L free new key val :
  sl_inv t L (free ++ [new]) ->
  key_lt asc (min_key asc) key -> key_lt asc key (max_key asc) -> key ∉ (ekey <$> L) ->
  exists t' L',
    AddNode asc PoolSize MaxLevel key val t = Ret t' /\ sl_inv t' L' free /\
    kv <$> L' = insert_sorted asc key val (kv <$> L).
Proof.
  intros HI Hmin Hmax Hni.
  destruct (split_go (fun k => negb (comp asc key k)) L (si_sorted _ _ _ _ _ _ HI)
    (go_add_mono key)) as (L1 & L2 & -> & H1 & H2).
  assert (Hgot : negb (comp asc key (max_key asc)) = false) by (by rewrite Hmax).
  assert (Hc1 : Forall (fun e => comp asc key (ekey e) = false) L1).
  { eapply Forall_impl; [exact H1|]. simpl. intros e. by rewrite negb_true_iff. }
  assert (Hc2 : Forall (fun e => comp asc key (ekey e) = true) L2).
  { eapply Forall_impl; [exact H2|]. simpl. intros e. by rewrite negb_false_iff. }
  unfold AddNode.
  rewrite (descend_ok t _ _ HI _ L1 L2 eq_refl H1 H2 Hgot MaxLevel (SHead t))
    by (try left; lia).
  cbn [mbind result_bind]. rewrite nth_before by lia.
  destruct (Z.eqb_spec (Key (snode t (before t L1 0))) key) as [Hk|_].
  { exfalso. pose proof (before_elem t L1 0) as [Hb|Hb]%elem_of_cons.
    - rewrite Hb, (si_head _ _ _ _ _ _ HI) in Hk. rewrite Hk in Hmin. unfold key_lt in Hmin.
      by rewrite comp_irrefl in Hmin.
    - apply elem_at_level in Hb as (e & He & Hp & _). rewrite <- Hp in Hk.
      rewrite (entry_key t _ _ HI) in Hk by set_solver. apply Hni. rewrite <- Hk.
      apply list_elem_of_fmap_2. set_solver. }
  destruct (nextLevel_ok t) as (lv & st & -> & Hlv). cbn [NodesPool Nodes SHead STail GenState CurMax].
  destruct (acquire_snoc _ _ _ _ (si_pool _ _ _ _ _ _ HI)) as (po & -> & HP).
  set (t1 := MkSkipList _ _ _ po st _).
  pose proof (si_nodup _ _ _ _ _ _ HI) as Hnd.
  assert (Hnewni : new ∉ SHead t :: STail t :: (eptr <$> L1 ++ L2)).
  { rewrite <- app_assoc in Hnd. apply NoDup_app in Hnd as (_ & _ & Hnd).
    by apply NoDup_cons in Hnd as [? _]. }
  assert (Hs1 : forall p, p <> new -> snode t1 p = snode t p).
  { intros p Hp. unfold SkipList.snode, t1. simpl. by rewrite lookup_insert_ne. }
  assert (Hn1 : snode t1 new = MkSkipNode key (Some val) lv (Forward (snode t new))).
  { unfold SkipList.snode, t1. simpl. by rewrite lookup_insert_eq. }
  assert (Hf1 : forall p l, forward t1 p l = forward t p l).
  { intros p l. unfold SkipList.forward. destruct (decide (p = new)) as [->|Hp];
      [by rewrite Hn1 | by rewrite Hs1]. }
  assert (Ha1 : full_arrays t1).
  { intros p. destruct (decide (p = new)) as [->|Hp]; [rewrite Hn1|rewrite Hs1 by done];
      apply (si_len _ _ _ _ _ _ HI). }
  destruct (link_levels_ok (lv + 1) new (before t L1 <$> seq 0 (MaxLevel + 1)) t1 Ha1)
    as [Hs2 Hf2]; [lia| |].
  { intros i Hi. rewrite nth_before by lia. apply (before_ne t (L1 ++ L2) L1 L2 eq_refl). set_solver. }
  set (t2 := link_levels MaxLevel (lv + 1) new _ t1) in *.
  pose proof (full_arrays_same _ _ Hs2 Ha1) as Ha2.
  destruct (fill_levels_ok new t2 (seq (lv + 1) (MaxLevel - lv)) Ha2) as [Hs3 Hf3].
  { apply Forall_forall. intros i Hi%elem_of_seq. lia. }
  set (t3 := foldl _ t2 _) in *. cbn zeta.
  pose proof (same_fields_trans _ _ _ Hs2 Hs3) as Hs13.
  pose proof (full_arrays_same _ _ Hs3 Ha2) as Ha3.
  destruct Hs13 as (HH & HT & HPo & Hfd). simpl in HH, HT, HPo.
  exists t3, (L1 ++ MkEntry key val new lv :: L2). split; [done|]. split.
  - eapply (sl_inv_insert t t3 L1 L2 free new (MkEntry key val new lv)); try done.
    + rewrite Forall_forall in Hc1 |- *. intros e He. apply comp_total; [by apply Hc1|].
      cbn [ekey]. intros Hk. apply Hni. rewrite Hk. apply list_elem_of_fmap_2. set_solver.
    + by rewrite HPo.
    + intros p Hp. destruct (Hfd p) as (-> & -> & -> & _). by rewrite Hs1.
    + destruct (Hfd new) as (-> & -> & -> & _). by rewrite Hn1.
    + intros p l Hl Hp. rewrite Hf3 by (by left). rewrite Hf2. simpl.
      rewrite nth_before by lia. rewrite !Hf1. repeat case_decide; naive_solver lia.
    + intros l Hl. simpl in Hl. rewrite Hf3 by (right; rewrite elem_of_seq; lia).
      rewrite Hf2, decide_True, decide_True by lia || done.
      rewrite nth_before, Hf1 by lia. by apply (before_next t (L1 ++ L2) _ HI L1 L2 eq_refl); lia.
  - rewrite fmap_app. simpl. by rewrite insert_sorted_split.
Qed.

(** *** Deletion *)

(** The chains after unlinking the node of [e]. *)
Lemma delete_chain t t' L1 L2 e l A :
  SHead t' = SHead t -> STail t' = STail t ->
  SHead t :: at_level l L1 = A ++ [before t L1 l] ->
  NoDup (SHead t :: STail t :: (eptr <$> (L1 ++ e :: L2))) ->
  chain t l (SHead t :: at_level l (L1 ++ e :: L2) ++ [STail t]) ->
  (forall p, forward t' p l = if decide (l <= eht e /\ p = before t L1 l)%nat
                              then forward t (eptr e) l else forward t p l) ->
  chain t' l (SHead t' :: at_level l (L1 ++ L2) ++ [STail t']).
Proof.
  intros HH HT HA Hnd Hc Hfw. rewrite HH, HT.
  rewrite at_level_app in *. rewrite at_level_cons in Hc.
  rewrite fmap_app in Hnd. cbn [fmap list_fmap] in Hnd.
  apply NoDup_cons in Hnd as [HndH Hnd]. apply NoDup_cons in Hnd as [HndT Hnd].
  assert (Hin1 : forall p, p ∈ at_level l L1 -> p ∈ eptr <$> L1)
    by (intros; eapply elem_of_sublist; [done|apply at_level_sub]).
  assert (Hin2 : forall p, p ∈ at_level l L2 -> p ∈ eptr <$> L2)
    by (intros; eapply elem_of_sublist; [done|apply at_level_sub]).
  apply NoDup_app in Hnd as (Hnd1 & Hdis & Hnd2).
  assert (HndA : NoDup (A ++ [before t L1 l])).
  { rewrite <- HA. constructor; [intros ?%Hin1; set_solver|].
    eapply sublist_NoDup; [exact Hnd1|apply at_level_sub]. }
  assert (HbA : before t L1 l ∉ A) by (apply NoDup_app in HndA as (_ & Hd & _); set_solver).
  assert (Hb_in : before t L1 l ∈ SHead t :: at_level l L1) by apply before_elem.
  assert (Hb2 : before t L1 l ∉ at_level l L2).
  { intros Hx%Hin2. apply elem_of_cons in Hb_in as [Hb_in|Hb_in%Hin1].
    - rewrite Hb_in in Hx. set_solver.
    - apply (Hdis _ Hb_in). set_solver. }
  assert (Hfr : forall p, p ∈ A \/ p ∈ at_level l L2 -> forward t' p l = forward t p l).
  { intros p Hp. rewrite Hfw. rewrite decide_False; [done|]. intros [_ ->]. tauto. }
  rewrite <- app_assoc in Hc |- *. rewrite app_comm_cons, HA, <- app_assoc in Hc |- *. simpl in *.
  apply chain_split in Hc as [HcA HcB]. apply chain_join.
  { eapply chain_frame; [|exact HcA]. auto. }
  specialize (Hfw (before t L1 l)).
  destruct (decide (l <= eht e)%nat) as [Hl|Hl].
  - rewrite decide_True in Hfw by done. simpl in HcB. destruct HcB as [_ HcB].
    assert (HcB' : chain t' l (at_level l L2 ++ [STail t])).
    { eapply chain_frame; [intros; apply Hfr; by right|].
      destruct (at_level l L2); [done|]. simpl in HcB. tauto. }
    destruct (at_level l L2 ++ [STail t]) as [|q qs] eqn:E; [done|].
    simpl in *. split; [|done]. rewrite Hfw. tauto.
  - rewrite decide_False in Hfw by tauto.
    assert (HcB' : chain t' l (at_level l L2 ++ [STail t])).
    { eapply chain_frame; [intros; apply Hfr; by right|].
      destruct (at_level l L2); [done|]. simpl in HcB. tauto. }
    destruct (at_level l L2 ++ [STail t]) as [|q qs] eqn:E; [done|].
    simpl in *. split; [|done]. rewrite Hfw. tauto.
Qed.

Lemma sl_inv_remove t t' L1 L2 free e :
  sl_inv t (L1 ++ e :: L2) free ->
  same_fields t (set_pool (NodesPool t) t') ->
  pool_rep PoolSize (NodesPool t') (free ++ [eptr e]) ->
  (forall p l, (l <= MaxLevel)%nat ->
     forward t' p l = if decide (l <= eht e /\ p = before t L1 l)%nat
                      then forward t (eptr e) l else forward t p l) ->
  sl_inv t' (L1 ++ L2) (free ++ [eptr e]).
Proof.
  intros HI (HH & HT & _ & Hfd) HP Hfw. simpl in HH, HT.
  change (forall p, Key (snode t' p) = Key (snode t p) /\ Value (snode t' p) = Value (snode t p) /\
    Height (snode t' p) = Height (snode t p) /\
    length (Forward (snode t' p)) = length (Forward (snode t p))) in Hfd.
  destruct HI as [Hs Hr Hh Hn Hhd Htl Hlen Hpool Hnd Hb Hc].
  assert (Hperm : eptr <$> (L1 ++ e :: L2) ≡ₚ eptr e :: (eptr <$> (L1 ++ L2))).
  { rewrite !fmap_app. simpl. by rewrite Permutation_middle. }
  assert (Hsub : forall P, Forall P (L1 ++ e :: L2) -> Forall P (L1 ++ L2)).
  { intros P. rewrite !Forall_app, Forall_cons. tauto. }
  split; eauto using sorted_remove.
  - apply Hsub in Hn. eapply Forall_impl; [exact Hn|]. simpl. intros e' He'.
    by destruct (Hfd (eptr e')) as (-> & -> & -> & _).
  - rewrite HH. by destruct (Hfd (SHead t)) as (-> & _).
  - rewrite HT. by destruct (Hfd (STail t)) as (-> & -> & _).
  - intros p. by destruct (Hfd p) as (_ & _ & _ & ->).
  - rewrite HH, HT, <- app_assoc. simpl. rewrite Hperm in Hnd.
    replace (SHead t :: STail t :: eptr e :: (eptr <$> L1 ++ L2))
      with ([SHead t; STail t] ++ eptr e :: (eptr <$> L1 ++ L2)) in Hnd by done.
    rewrite <- Permutation_middle in Hnd. done.
  - rewrite HH, HT. rewrite Hperm in Hb. apply Forall_cons in Hb as [? Hb].
    apply Forall_cons in Hb as [? Hb]. apply Forall_cons in Hb as [? Hb]. by repeat constructor.
  - intros l Hl. destruct (before_split t L1 l) as [A HA].
    eapply (delete_chain t t' L1 L2 e l A); try done.
    + by apply NoDup_app in Hnd as (_ & _ & Hnd).
    + by apply Hc.
    + intros p. by apply Hfw.
Qed.

(** Splits the entries at [key] for a search by [comp]. *)
Lemma split_key t L free key :
  sl_inv t L free ->
  exists L1 L2, L = L1 ++ L2 /\
    Forall (fun e => comp asc (ekey e) key = true) L1 /\
    Forall (fun e => comp asc (ekey e) key = false) L2.
Proof.
  intros HI. apply (split_go (fun k => comp asc k key)); [apply (si_sorted _ _ _ _ _ _ HI)|].
  intros a b. apply go_del_mono.
Qed.

(** The node after the split point: that of the first entry of [L2], or the tail. *)
Lemma next_key t L1 L2 free :
  sl_inv t (L1 ++ L2) free ->
  exists nx, forward t (before t L1 0) 0 = Some nx /\
    Key (snode t nx) = match L2 with e :: _ => ekey e | [] => max_key asc end /\
    Value (snode t nx) = match L2 with e :: _ => Some (evalue e) | [] => None end /\
    match L2 with e :: _ => nx = eptr e /\ Height (snode t nx) = eht e | [] => True end.
Proof.
  intros HI. rewrite (before_next t (L1 ++ L2) free HI L1 L2 eq_refl 0) by lia.
  rewrite at_level_0. destruct L2 as [|e L2]; simpl.
  - exists (STail t). destruct (si_tail _ _ _ _ _ _ HI). done.
  - exists (eptr e). pose proof (si_nodes _ _ _ _ _ _ HI) as Hn.
    apply Forall_app in Hn as [_ Hn]. apply Forall_cons in Hn as [Hn _]. naive_solver.
Qed.

Lemma DeleteNode_ok t L1 e L2 free :
  sl_inv t (L1 ++ e :: L2) free ->
  exists t', DeleteNode asc PoolSize MaxLevel (ekey e) t = Ret t' /\
             sl_inv t' (L1 ++ L2) (free ++ [eptr e]).
Proof.
  intros HI. pose proof HI as [Hs Hr Hh Hn _ _ Hlen Hpool Hnd Hb _].
  destruct (sorted_mid _ _ _ Hs) as [H1 H2].
  assert (Hg2 : Forall (fun e' => comp asc (ekey e') (ekey e) = false) (e :: L2)).
  { constructor; [apply comp_irrefl|]. eapply Forall_impl; [exact H2|]. intros e' He'.
    by apply comp_asym. }
  assert (Hgot : comp asc (max_key asc) (ekey e) = false).
  { apply Forall_app in Hr as [_ Hr]. apply Forall_cons in Hr as [[_ Hr] _].
    by apply max_key_comp. }
  apply Forall_app in Hh as [_ [Hhe _]%Forall_cons].
  unfold DeleteNode.
  rewrite (descend_ok t _ _ HI (fun k => comp asc k (ekey e)) L1 (e :: L2) eq_refl H1 Hg2 Hgot)
    by (try left; lia). cbn [mbind result_bind].
  destruct (next_key _ _ _ _ HI) as (nx & -> & Hk & _ & -> & Hht). cbn [deref mbind result_bind].
  rewrite Hk, Z.eqb_refl, Hht.
  destruct (unlink_levels_ok (eht e + 1) (eptr e) (before t L1 <$> seq 0 (MaxLevel + 1)) t Hlen)
    as [Hs2 Hf2]; [lia| |].
  { intros i Hi. rewrite nth_before by lia. rewrite fmap_app in Hnd. simpl in Hnd.
    apply NoDup_app in Hnd as (_ & _ & Hnd). apply NoDup_cons in Hnd as [HndH Hnd].
    apply NoDup_cons in Hnd as [_ Hnd]. apply NoDup_app in Hnd as (_ & Hd & _).
    intros Heq. pose proof (before_elem t L1 i) as [Hx|Hx]%elem_of_cons.
    { apply HndH. rewrite <- Hx, Heq. set_solver. }
    rewrite Heq in Hx. apply (Hd (eptr e)); [|set_solver].
    eapply elem_of_sublist; [exact Hx|apply at_level_sub]. }
  set (t2 := unlink_levels MaxLevel (eht e + 1) (eptr e) _ t) in *.
  assert (Hpo : NodesPool t2 = NodesPool t) by (by destruct Hs2 as (_ & _ & -> & _)).
  rewrite Hpo. destruct (release_rep _ _ _ (eptr e) Hpool) as (po & -> & HP).
  { apply NoDup_app in Hnd as (_ & Hd & _). intros Hx. apply (Hd _ Hx). rewrite fmap_app. set_solver. }
  { rewrite Forall_forall in Hb. apply Hb. rewrite fmap_app. set_solver. }
  eexists. split; [done|].
  eapply (sl_inv_remove t); [done| |done|].
  - destruct Hs2 as (? & ? & ? & ?). by split_and!.
  - intros p l Hl. change (forward (set_pool po t2) p l) with (forward t2 p l).
    rewrite Hf2, nth_before by lia. repeat case_decide; naive_solver lia.
Qed.

Lemma key_not_in_split key L1 L2 :
  keys_sorted asc (L1 ++ L2) -> key ∉ (ekey <$> (L1 ++ L2)) ->
  match L2 with e :: _ => ekey e | [] => max_key asc end = key -> key = max_key asc.
Proof.
  intros _ Hni. destruct L2 as [|e L2]; [done|]. intros <-. exfalso. apply Hni.
  apply list_elem_of_fmap_2. set_solver.
Qed.

Lemma key_lt_ne a b : key_lt asc a b -> a <> b.
Proof. intros Hab ->. unfold key_lt in Hab. by rewrite comp_irrefl in Hab. Qed.

(** A key that is present is left with its value. *)
Lemma AddNode_present t L free key val :
  sl_inv t L free -> key_lt asc key (max_key asc) -> key ∈ (ekey <$> L) ->
  AddNode asc PoolSize MaxLevel key val t = Ret t.
Proof.
  intros HI Hmax Hin. pose proof (si_sorted _ _ _ _ _ _ HI) as Hs.
  destruct (split_go (fun k => negb (comp asc key k)) L Hs (go_add_mono key)) as (L1 & L2 & -> & H1 & H2).
  assert (Hgot : negb (comp asc key (max_key asc)) = false) by (by rewrite Hmax).
  unfold AddNode.
  rewrite (descend_ok t _ _ HI _ L1 L2 eq_refl H1 H2 Hgot MaxLevel (SHead t)) by (try left; lia).
  cbn [mbind result_bind]. rewrite nth_before by lia.
  apply list_elem_of_fmap in Hin as (e & -> & He). apply elem_of_app in He as [He|He].
  2: { rewrite Forall_forall in H2. specialize (H2 _ He). simpl in H2. by rewrite comp_irrefl in H2. }
  destruct L1 as [|e' L1 _] using rev_ind; [by apply elem_of_nil in He|].
  unfold before. rewrite at_level_0, fmap_app. cbn [fmap list_fmap]. rewrite last_snoc. cbn [default from_option id].
  rewrite (entry_key t _ _ HI) by set_solver.
  apply elem_of_app in He as [He| ->%list_elem_of_singleton]; [|by rewrite Z.eqb_refl].
  exfalso. apply list_elem_of_split in He as (A & B & ->).
  rewrite <- !app_assoc in Hs. cbn [app] in Hs. apply sorted_mid in Hs as [_ Hs].
  rewrite !Forall_app, Forall_cons in Hs. destruct Hs as (_ & Hlt & _).
  rewrite Forall_app, Forall_singleton in H1. destruct H1 as [_ H1]. unfold key_lt in Hlt.
  by rewrite Hlt in H1.
Qed.

(** An absent key leaves the list as it is. *)
Lemma DeleteNode_absent t L free key :
  sl_inv t L free -> key_lt asc key (max_key asc) -> key ∉ (ekey <$> L) ->
  DeleteNode asc PoolSize MaxLevel key t = Ret t.
Proof.
  intros HI Hk Hni. destruct (split_key _ _ _ key HI) as (L1 & L2 & -> & H1 & H2).
  unfold DeleteNode.
  rewrite (descend_ok t _ _ HI (fun k => comp asc k key) L1 L2 eq_refl H1 H2 (max_key_comp _ Hk))
    by (try left; lia). cbn [mbind result_bind].
  destruct (next_key _ _ _ _ HI) as (nx & -> & Hnx & _). cbn [deref mbind result_bind].
  destruct (Z.eqb_spec (Key (snode t nx)) key) as [Heq|]; [|done]. exfalso.
  rewrite Hnx in Heq. apply (key_not_in_split _ _ _ (si_sorted _ _ _ _ _ _ HI) Hni) in Heq.
  by apply key_lt_ne in Hk.
Qed.

Lemma sorted_kv_inj e L v :
  keys_sorted asc L -> e ∈ L -> (ekey e, v) ∈ (kv <$> L) -> v = evalue e.
Proof.
  intros Hs He (e' & Heq & He')%list_elem_of_fmap. unfold kv in Heq. injection Heq as Hk ->.
  f_equal. apply list_elem_of_split in He as (A & B & ->).
  destruct (sorted_mid _ _ _ Hs) as [H1 H2]. rewrite Forall_forall in H1, H2.
  apply elem_of_app in He' as [He'|[->|He']%elem_of_cons]; [|done|].
  - specialize (H1 _ He'). by apply key_lt_ne in H1.
  - specialize (H2 _ He'). by apply key_lt_ne in H2.
Qed.

(** Search returns the value of the key, and reports an absent key. *)
Lemma GetVal_ok t L free key :
  sl_inv t L free -> key_lt asc key (max_key asc) ->
  exists r, GetVal asc PoolSize MaxLevel key t = Ret r /\
    (forall v, (key, v) ∈ (kv <$> L) <-> r = Some (Some v)) /\
    (r = None <-> key ∉ (ekey <$> L)).
Proof.
  intros HI Hk. pose proof (si_sorted _ _ _ _ _ _ HI) as Hs.
  destruct (split_key _ _ _ key HI) as (L1 & L2 & -> & H1 & H2).
  unfold GetVal.
  rewrite (descend_ok t _ _ HI (fun k => comp asc k key) L1 L2 eq_refl H1 H2 (max_key_comp _ Hk))
    by (try left; lia). cbn [mbind result_bind].
  destruct (next_key _ _ _ _ HI) as (nx & -> & Hnx & Hv & _). cbn [deref mbind result_bind].
  eexists. split; [done|]. destruct (Z.eqb_spec (Key (snode t nx)) key) as [Heq|Hne].
  - destruct L2 as [|e L2].
    { rewrite <- Heq, Hnx in Hk. unfold key_lt in Hk. by rewrite comp_irrefl in Hk. }
    rewrite Hv. subst key. rewrite Hnx.
    assert (He : e ∈ L1 ++ e :: L2) by set_solver. split.
    + intros v. split; [intros Hin; by rewrite (sorted_kv_inj _ _ _ Hs He Hin)|].
      intros [= <-]. by apply (list_elem_of_fmap_2 kv).
    + split; [done|]. intros []. by apply list_elem_of_fmap_2.
  - assert (Hni : key ∉ ekey <$> L1 ++ L2).
    { intros (e & -> & He)%list_elem_of_fmap. apply elem_of_app in He as [He|He].
      - rewrite Forall_forall in H1. specialize (H1 _ He). by rewrite comp_irrefl in H1.
      - destruct L2 as [|e0 L2]; [by apply elem_of_nil in He|].
        rewrite Hnx in Hne. apply elem_of_cons in He as [->|He]; [done|].
        apply (list_elem_of_split) in He as (B & C & ->).
        apply (sorted_mid e0) in Hs as [_ Hs]. rewrite Forall_app, Forall_cons in Hs.
        destruct Hs as (_ & Hlt & _). apply Forall_cons in H2 as [H2 _].
        unfold key_lt in Hlt. congruence. }
    split; [|done]. intros v. split; [|done]. intros Hin. exfalso. apply Hni.
    rewrite <- fmap_kv_keys. by apply (list_elem_of_fmap_2 fst) in Hin.
Qed.

Lemma GetHead_ok t L free :
  sl_inv t L free -> GetHead MaxLevel t = Ret (evalue <$> head L).
Proof.
  intros HI. unfold GetHead.
  destruct (next_key t [] L free HI) as (nx & Hf & _ & Hv & _).
  unfold before in Hf. simpl in Hf. rewrite Hf. cbn [deref mbind result_bind]. rewrite Hv.
  by destruct L.
Qed.

(** ** The sorted association list a skip list implements *)

Abbreviation sl_rep := (sl_rep asc PoolSize MaxLevel).

Lemma skiplist_init_rep seed :
  (2 <= PoolSize)%nat ->
  exists t, skiplist_init asc PoolSize MaxLevel seed = Ret t /\ sl_rep t [] (PoolSize - 2).
Proof.
  intros HP. pose proof (pool_init_rep PoolSize) as H0.
  replace PoolSize with (S (S (PoolSize - 2))) in H0 at 3 by lia.
  rewrite !seq_S in H0. simpl in H0.
  unfold skiplist_init.
  destruct (acquire_snoc _ _ _ _ H0) as (p1 & -> & H1). cbn [deref mbind result_bind].
  destruct (acquire_snoc _ _ _ _ H1) as (p2 & -> & H2). cbn [deref mbind result_bind].
  eexists. split; [done|]. exists [], (seq 0 (PoolSize - 2)).
  split; [|by rewrite length_seq]. set (t := MkSkipList _ _ _ _ _ _).
  assert (Hhd : snode t (PoolSize - 2) = MkSkipNode (min_key asc) None MaxLevel
     (replicate (MaxLevel + 1) (Some (S (PoolSize - 2))))).
  { unfold SkipList.snode, t. simpl. by rewrite lookup_insert_eq. }
  assert (Htl : snode t (S (PoolSize - 2)) = MkSkipNode (max_key asc) None MaxLevel
     (replicate (MaxLevel + 1) None)).
  { unfold SkipList.snode, t. simpl. rewrite lookup_insert_ne by lia. by rewrite lookup_singleton_eq. }
  split; try done.
  - constructor.
  - simpl. by rewrite Hhd.
  - simpl. by rewrite Htl.
  - intros p. unfold SkipList.snode, t. simpl.
    destruct (decide (p = PoolSize - 2)%nat) as [->|Hp];
      [rewrite lookup_insert_eq; simpl; by rewrite length_replicate|].
    rewrite lookup_insert_ne by done.
    destruct (decide (p = S (PoolSize - 2))%nat) as [->|Hp'].
    + rewrite lookup_singleton_eq. simpl. by rewrite length_replicate.
    + rewrite lookup_singleton_ne by done. simpl. by rewrite length_replicate.
  - simpl. replace (seq 0 (PoolSize - 2) ++ [PoolSize - 2; S (PoolSize - 2)])%nat
      with (seq 0 PoolSize); [apply NoDup_seq|].
    replace PoolSize with (S (S (PoolSize - 2))) at 1 by lia. rewrite !seq_S. simpl.
    by rewrite <- app_assoc.
  - simpl. repeat constructor; lia.
  - intros l Hl. simpl. unfold SkipList.forward. rewrite Hhd. simpl.
    by rewrite lookup_replicate_2 by lia.
Qed.

Definition interior (key : Z) : Prop := key_lt asc (min_key asc) key /\ key_lt asc key (max_key asc).

Lemma sl_rep_GetHead t kvs room :
  sl_rep t kvs room -> GetHead MaxLevel t = Ret (snd <$> head kvs).
Proof.
  intros (L & free & HI & -> & _). rewrite (GetHead_ok _ _ _ HI). by destruct L.
Qed.

Lemma sl_rep_AddNode t kvs room key val :
  sl_rep t kvs (S room) -> interior key -> key ∉ kvs.*1 ->
  exists t', AddNode asc PoolSize MaxLevel key val t = Ret t' /\
             sl_rep t' (insert_sorted asc key val kvs) room.
Proof.
  intros (L & free & HI & -> & Hr) [Hmin Hmax] Hni.
  destruct free as [|new free _] using rev_ind; [done|].
  rewrite length_app in Hr. simpl in Hr. change (key ∉ (kv <$> L).*1) in Hni.
  rewrite fmap_kv_keys in Hni.
  destruct (AddNode_ok t L free new key val HI Hmin Hmax Hni) as (t' & L' & HA & HI' & Hk).
  exists t'. split; [done|]. exists L', free. split_and!; [done|symmetry; exact Hk|lia].
Qed.

Lemma sl_rep_DeleteNode t kvs room key val :
  sl_rep t kvs room -> (key, val) ∈ kvs ->
  exists t', DeleteNode asc PoolSize MaxLevel key t = Ret t' /\
             sl_rep t' (remove_key key kvs) (S room).
Proof.
  intros (L & free & HI & -> & ->) (e & Heq & He)%list_elem_of_fmap. injection Heq as -> ->.
  apply list_elem_of_split in He as (L1 & L2 & ->).
  destruct (DeleteNode_ok t L1 e L2 free HI) as (t' & HD & HI').
  exists t'. split; [done|]. exists (L1 ++ L2), (free ++ [eptr e]).
  split_and!; [done| |rewrite length_app; simpl; lia].
  apply remove_key_split, (si_sorted _ _ _ _ _ _ HI).
Qed.

Lemma sl_rep_GetVal t kvs room key :
  sl_rep t kvs room -> key_lt asc key (max_key asc) ->
  exists r, GetVal asc PoolSize MaxLevel key t = Ret r /\
    (forall v, (key, v) ∈ kvs <-> r = Some (Some v)) /\ (r = None <-> key ∉ kvs.*1).
Proof.
  intros (L & free & HI & -> & _) Hk.
  change ((λ e : entry, (ekey e, evalue e)) <$> L) with (kv <$> L). rewrite fmap_kv_keys.
  by eapply GetVal_ok.
Qed.

Lemma sl_rep_sorted t kvs room :
  sl_rep t kvs room ->
  StronglySorted (fun a b => comp asc a.1 b.1 = true) kvs /\ Forall (fun a => interior a.1) kvs.
Proof.
  intros (L & free & [Hs Hr _ _ _ _ _ _ _ _ _] & -> & _). split.
  - clear Hr. induction Hs as [|e L Hs IH He]; simpl; constructor; [done|].
    apply Forall_fmap. exact He.
  - apply Forall_fmap. exact Hr.
Qed.

End Proofs.

(** The keys of the sentinels are outside the contract of the skip list: on
    the ask side a search for the greatest 64-bit price dereferences the null
    successor of the tail when it is inserted, and an insertion of the least one
    is ignored. *)
Theorem skiplist_sentinel_keys seed :
  (t0 ← skiplist_init true 8 3 seed; AddNode true 8 3 INT64_MAX 1 t0) = Crash NullDeref /\
  (t0 ← skiplist_init true 8 3 seed; t ← AddNode true 8 3 INT64_MIN 1 t0; GetHead 3 t)
  = Ret (None : option Z).
Proof. split; vm_compute; reflexivity. Qed.
