(* ===== verification/Containers.v ===== *)
(** The containers under sequences of calls: what a client of [FlatHashMap],
    [SkipList] and [PriceLevel] observes, compared with a finite map, a sorted
    association list and a queue.  The last section has an input on which the
    hash map leaves its contract. *)

From S2P Require Import Prelude SingleThreadedPool WireTypes.
From S2P Require FlatHashMap SkipList PriceLevel.

(** ** Hash map *)

Inductive map_op (V : Type) := MPut (key : Z) (val : V) | MGet (key : Z) | MDel (key : Z).
Arguments MPut {V}. Arguments MGet {V}. Arguments MDel {V}.

Section Maps.
Context {V : Type} (V0 : V) (s : nat).
Abbreviation Size := (2 ^ s)%nat.

(** The observable answer of a call is the value a lookup finds. *)
Definition fhm_do (op : map_op V) (m : FlatHashMap.FlatHashMap (V := V))
    : result (option V * FlatHashMap.FlatHashMap (V := V)) :=
  match op with
  | MPut k v => m ← FlatHashMap.AddNode V0 Size k v m; Ret (None, m)
  | MGet k => Ret (FlatHashMap.GetVal V0 Size m k, m)
  | MDel k => m ← FlatHashMap.DeleteNode V0 Size k m; Ret (None, m)
  end.

Fixpoint fhm_run (ops : list (map_op V)) (m : FlatHashMap.FlatHashMap (V := V))
    : result (list (option V) * FlatHashMap.FlatHashMap (V := V)) :=
  match ops with
  | [] => Ret ([], m)
  | op :: ops => '(r, m) ← fhm_do op m; '(rs, m) ← fhm_run ops m; Ret (r :: rs, m)
  end.

Definition map_do (op : map_op V) (g : gmap Z V) : option V * gmap Z V :=
  match op with
  | MPut k v => (None, match g !! k with Some _ => g | None => <[k := v]> g end)
  | MGet k => (g !! k, g)
  | MDel k => (None, delete k g)
  end.

Fixpoint map_run (ops : list (map_op V)) (g : gmap Z V) : list (option V) * gmap Z V :=
  match ops with
  | [] => ([], g)
  | op :: ops => let '(r, g) := map_do op g in let '(rs, g) := map_run ops g in (r :: rs, g)
  end.

(** No bucket is ever home to more than 16 live keys. *)
Definition map_op_fits (op : map_op V) (g : gmap Z V) : bool :=
  match op with
  | MPut k _ =>
      match g !! k with
      | Some _ => true
      | None => (FlatHashMap.bucket_load Size g k <? 16)%nat
      end
  | _ => true
  end.

Fixpoint map_fits (ops : list (map_op V)) (g : gmap Z V) : bool :=
  match ops with
  | [] => true
  | op :: ops => map_op_fits op g && map_fits ops (map_do op g).2
  end.

Lemma fhm_do_ok op m g :
  FlatHashMap.fhm_rep V0 Size m g -> map_op_fits op g = true ->
  exists m', fhm_do op m = Ret ((map_do op g).1, m') /\ FlatHashMap.fhm_rep V0 Size m' (map_do op g).2.
Proof.
  intros HR Hf. destruct op as [k v|k|k]; simpl in *.
  - destruct (g !! k) as [v'|] eqn:E.
    + rewrite (FlatHashMap.fhm_AddNode_present V0 Size s eq_refl m g k v v') by done. by exists m.
    + apply Nat.ltb_lt in Hf.
      destruct (FlatHashMap.fhm_AddNode V0 Size s eq_refl m g k v HR E Hf) as (m' & -> & HR'). by exists m'.
  - rewrite (FlatHashMap.fhm_GetVal V0 Size s eq_refl m g k HR). by exists m.
  - destruct (FlatHashMap.fhm_DeleteNode V0 Size s eq_refl m g k HR) as (m' & -> & HR'). by exists m'.
Qed.

Lemma fhm_run_ok ops m g :
  FlatHashMap.fhm_rep V0 Size m g -> map_fits ops g = true ->
  exists m', fhm_run ops m = Ret ((map_run ops g).1, m').
Proof.
  revert m g. induction ops as [|op ops IH]; intros m g HR Hf; [by exists m|]. simpl in *.
  apply andb_true_iff in Hf as [H1 H2]. destruct (fhm_do_ok op m g HR H1) as (m1 & -> & HR1).
  destruct (map_do op g) as [r g']. simpl in *.
  destruct (IH m1 g' HR1 H2) as (m2 & ->). destruct (map_run ops g') as [rs g'']. by exists m2.
Qed.

(** C16: while no bucket is home to more than 16 live keys, every sequence of
    [AddNode], [GetVal] and [DeleteNode] calls on the SIMD robin-hood table
    returns without a fault and answers as a finite map does. *)
Theorem fhm_refines_map ops :
  map_fits ops ∅ = true ->
  exists m, fhm_run ops (FlatHashMap.fhm_empty V0 Size) = Ret ((map_run ops ∅).1, m).
Proof. intros Hf. apply fhm_run_ok; [by apply FlatHashMap.fhm_empty_rep with s|done]. Qed.

End Maps.

Lemma fhm_refines_map_witness :
  exists m, fhm_run 0 1 [MPut 5 50; MPut 7 70; MPut 5 51; MGet 5; MDel 5; MGet 5; MGet 7]
              (FlatHashMap.fhm_empty 0 2)
    = Ret ([None; None; None; Some 50; None; None; Some 70], m).
Proof.
  exact (fhm_refines_map 0 1 [MPut 5 50; MPut 7 70; MPut 5 51; MGet 5; MDel 5; MGet 5; MGet 7] eq_refl).
Defined.

(** ** Skip list *)

Inductive index_op (V : Type) :=
| IAdd (key : Z) (val : V) | IDel (key : Z) | IGet (key : Z) | IHead.
Arguments IAdd {V}. Arguments IDel {V}. Arguments IGet {V}. Arguments IHead {V}.

Section Indexes.
Context {V : Type} (asc : bool) (PoolSize MaxLevel : nat).
Abbreviation SkipList := (SkipList.SkipList V).

Definition sl_do (op : index_op V) (t : SkipList) : result (option V * SkipList) :=
  match op with
  | IAdd k v => t ← SkipList.AddNode asc PoolSize MaxLevel k v t; Ret (None, t)
  | IDel k => t ← SkipList.DeleteNode asc PoolSize MaxLevel k t; Ret (None, t)
  | IGet k => r ← SkipList.GetVal asc PoolSize MaxLevel k t; Ret (match r with Some v => v | None => None end, t)
  | IHead => r ← SkipList.GetHead MaxLevel t; Ret (r, t)
  end.

Fixpoint sl_run (ops : list (index_op V)) (t : SkipList) : result (list (option V) * SkipList) :=
  match ops with
  | [] => Ret ([], t)
  | op :: ops => '(r, t) ← sl_do op t; '(rs, t) ← sl_run ops t; Ret (r :: rs, t)
  end.

Fixpoint assoc (k : Z) (l : list (Z * V)) : option V :=
  match l with
  | [] => None
  | (k', v) :: l => if k' =? k then Some v else assoc k l
  end.

Definition index_do (op : index_op V) (l : list (Z * V)) : option V * list (Z * V) :=
  match op with
  | IAdd k v =>
      (None, match assoc k l with Some _ => l | None => SkipList.insert_sorted asc k v l end)
  | IDel k => (None, SkipList.remove_key k l)
  | IGet k => (assoc k l, l)
  | IHead => (snd <$> head l, l)
  end.

Fixpoint index_run (ops : list (index_op V)) (l : list (Z * V)) : list (option V) * list (Z * V) :=
  match ops with
  | [] => ([], l)
  | op :: ops => let '(r, l) := index_do op l in let '(rs, l) := index_run ops l in (r :: rs, l)
  end.

(** Keys strictly between the sentinels, and a free node for every insertion. *)
Definition index_op_fits (op : index_op V) (l : list (Z * V)) : bool :=
  match op with
  | IAdd k _ =>
      (INT64_MIN <? k) && (k <? INT64_MAX) &&
      match assoc k l with Some _ => true | None => (length l + 2 <? PoolSize)%nat end
  | IDel k | IGet k => (INT64_MIN <? k) && (k <? INT64_MAX)
  | IHead => true
  end.

Fixpoint index_fits (ops : list (index_op V)) (l : list (Z * V)) : bool :=
  match ops with
  | [] => true
  | op :: ops => index_op_fits op l && index_fits ops (index_do op l).2
  end.

Lemma interior_range k : (INT64_MIN <? k) && (k <? INT64_MAX) = true -> SkipList.interior asc k.
Proof.
  intros [H1 H2]%andb_true_iff. unfold SkipList.interior, SkipList.key_lt, SkipList.comp,
    SkipList.min_key, SkipList.max_key. by destruct asc.
Qed.

Lemma assoc_None k l : assoc k l = None -> k ∉ l.*1.
Proof.
  induction l as [|[k' v] l IH]; simpl; [intros _ Hn; by apply elem_of_nil in Hn|].
  destruct (Z.eqb_spec k' k) as [|Hne]; [done|]. intros H [->|Hin]%elem_of_cons; [done|by apply IH].
Qed.

Lemma assoc_Some k v l : assoc k l = Some v -> (k, v) ∈ l.
Proof.
  induction l as [|[k' v'] l IH]; simpl; [done|].
  destruct (Z.eqb_spec k' k) as [->|Hne]; [intros [= ->]; left|intros; right; by apply IH].
Qed.

Lemma remove_absent k (l : list (Z * V)) : k ∉ l.*1 -> SkipList.remove_key k l = l.
Proof.
  intros Hni. apply filter_all, Forall_forall. intros [k' v] Hin Hk. simpl in Hk. subst k'.
  apply Hni. by apply (list_elem_of_fmap_2 fst) in Hin.
Qed.

(** A node of the pool for every entry, two for the sentinels, the others free. *)
Definition sl_holds (t : SkipList) (l : list (Z * V)) : Prop :=
  exists n, SkipList.sl_rep asc PoolSize MaxLevel t l n /\ (n + length l + 2 = PoolSize)%nat.

Lemma insert_sorted_length k v (l : list (Z * V)) :
  length (SkipList.insert_sorted asc k v l) = S (length l).
Proof.
  induction l as [|[k' v'] l IH]; simpl; [done|]. destruct (SkipList.comp asc k k'); simpl; [done|].
  by rewrite IH.
Qed.

Lemma remove_present t l n k (v : V) :
  SkipList.sl_rep asc PoolSize MaxLevel t l n -> (k, v) ∈ l ->
  length l = S (length (SkipList.remove_key k l)).
Proof.
  intros (L & free & HI & -> & _) (e & Heq & He)%list_elem_of_fmap. injection Heq as -> ->.
  apply list_elem_of_split in He as (L1 & L2 & ->).
  pose proof (SkipList.remove_key_split asc e L1 L2 (SkipList.si_sorted _ _ _ _ _ _ HI)) as H.
  unfold SkipList.kv in H. rewrite H, !length_fmap, !length_app. simpl. lia.
Qed.

Lemma sl_do_ok op t l :
  sl_holds t l -> index_op_fits op l = true ->
  exists t', sl_do op t = Ret ((index_do op l).1, t') /\ sl_holds t' (index_do op l).2.
Proof.
  intros (n & HR & Hn) Hf. destruct op as [k v|k|k|]; simpl in *.
  - apply andb_true_iff in Hf as [Hk Hroom]. apply interior_range in Hk.
    destruct (assoc k l) as [v'|] eqn:E.
    + destruct HR as (L & free & HI & -> & Hfree). apply assoc_Some in E.
      rewrite (SkipList.AddNode_present asc PoolSize MaxLevel t L free k v HI);
        [|apply Hk|by apply list_elem_of_fmap in E as (e & [= -> ->] & He); apply list_elem_of_fmap_2].
      exists t. split; [done|]. exists n. split; [by exists L, free|done].
    + apply assoc_None in E. apply Nat.ltb_lt in Hroom.
      replace n with (S (n - 1)) in HR by lia.
      destruct (SkipList.sl_rep_AddNode asc PoolSize MaxLevel t l _ k v HR Hk E) as (t' & -> & HR').
      exists t'. split; [done|]. exists (n - 1)%nat. rewrite insert_sorted_length. split; [done|lia].
  - apply interior_range in Hf. destruct (assoc k l) as [v|] eqn:E.
    + apply assoc_Some in E.
      destruct (SkipList.sl_rep_DeleteNode asc PoolSize MaxLevel t l n k v HR E) as (t' & -> & HR').
      exists t'. split; [done|]. exists (S n). split; [done|].
      pose proof (remove_present t l n k v HR E). lia.
    + apply assoc_None in E. rewrite remove_absent by done.
      pose proof HR as (L & free & HI & Hl & _).
      rewrite (SkipList.DeleteNode_absent asc PoolSize MaxLevel t L free k HI); [|apply Hf|].
      * exists t. split; [done|]. by exists n.
      * subst l. intros Hin. apply E. rewrite <- list_fmap_compose. exact Hin.
  - apply interior_range in Hf.
    destruct (SkipList.sl_rep_GetVal asc PoolSize MaxLevel t l n k HR) as (r & -> & Hv & Hno); [apply Hf|].
    exists t. split; [|by exists n]. simpl. f_equal. f_equal.
    destruct (assoc k l) as [v|] eqn:E.
    + apply assoc_Some, Hv in E. by rewrite E.
    + apply assoc_None, Hno in E. by rewrite E.
  - rewrite (SkipList.sl_rep_GetHead asc PoolSize MaxLevel t l n HR). exists t. split; [done|]. by exists n.
Qed.

Lemma sl_run_ok ops t l :
  sl_holds t l -> index_fits ops l = true ->
  exists t', sl_run ops t = Ret ((index_run ops l).1, t').
Proof.
  revert t l. induction ops as [|op ops IH]; intros t l HR Hf; [by exists t|]. simpl in *.
  apply andb_true_iff in Hf as [H1 H2]. destruct (sl_do_ok op t l HR H1) as (t1 & -> & HR1).
  destruct (index_do op l) as [r l']. simpl in *.
  destruct (IH t1 l' HR1 H2) as (t2 & ->). destruct (index_run ops l') as [rs l'']. by exists t2.
Qed.

(** C17: a skip list of [PoolSize] nodes answers every sequence of [AddNode],
    [DeleteNode], [GetVal] and [GetHead] calls, on keys between its sentinels and
    within its pool, as a sorted association list does; in particular [GetHead]
    is the best price.  The seed of the height generator does not matter. *)
Theorem skiplist_refines_sorted_list seed ops :
  (2 <= PoolSize)%nat -> index_fits ops [] = true ->
  exists t0 t, SkipList.skiplist_init asc PoolSize MaxLevel seed = Ret t0 /\
               sl_run ops t0 = Ret ((index_run ops []).1, t).
Proof.
  intros HP Hf. destruct (SkipList.skiplist_init_rep (V := V) asc PoolSize MaxLevel seed HP) as (t0 & H0 & HR).
  destruct (sl_run_ok ops t0 []) as (t & Ht); [|done|by exists t0, t].
  exists (PoolSize - 2)%nat. split; [done|]. simpl. lia.
Qed.

End Indexes.

Lemma skiplist_refines_sorted_list_witness :
  exists t0 t, SkipList.skiplist_init true 8 3 42 = Ret t0 /\
    sl_run true 8 3 [IAdd 9 90; IAdd 4 40; IHead; IAdd 4 41; IGet 4; IDel 4; IHead; IGet 4] t0
      = Ret ([None; None; Some 40; None; Some 40; None; Some 90; None], t).
Proof.
  apply (skiplist_refines_sorted_list true 8 3 42
    [IAdd 9 90; IAdd 4 40; IHead; IAdd 4 41; IGet 4; IDel 4; IHead; IGet 4]); [lia|reflexivity].
Defined.

(** ** Price level *)

Inductive level_op := LAdd (order : nat) | LDel (order : nat) | LPop | LPeek.
Inductive level_ans := Added | Emptied (b : bool) | Front (order : option nat).

Section Levels.
Import PriceLevel.

Definition level_do (op : level_op) (h : NodeHeap) (l : PriceLevel)
    : result (level_ans * NodeHeap * PriceLevel) :=
  match op with
  | LAdd x => '(h, l) ← AddOrder x h l; Ret (Added, h, l)
  | LDel x => let '(b, h, l) := DeleteOrder x h l in Ret (Emptied b, h, l)
  | LPop => let '(r, h, l) := PopOrder h l in Ret (Front r, h, l)
  | LPeek => Ret (Front (PeekOrder l), h, l)
  end.

Fixpoint level_run (ops : list level_op) (h : NodeHeap) (l : PriceLevel)
    : result (list level_ans * NodeHeap * PriceLevel) :=
  match ops with
  | [] => Ret ([], h, l)
  | op :: ops =>
      '(r, h, l) ← level_do op h l; '(rs, h, l) ← level_run ops h l; Ret (r :: rs, h, l)
  end.

Definition fifo_do (op : level_op) (q : list nat) : level_ans * list nat :=
  match op with
  | LAdd x => (Added, q ++ [x])
  | LDel x => let q' := filter (fun y => y <> x) q in (Emptied (bool_decide (q' = [])), q')
  | LPop => (Front (head q), tail q)
  | LPeek => (Front (head q), q)
  end.

Fixpoint fifo_run (ops : list level_op) (q : list nat) : list level_ans * list nat :=
  match ops with
  | [] => ([], q)
  | op :: ops => let '(r, q) := fifo_do op q in let '(rs, q) := fifo_run ops q in (r :: rs, q)
  end.

(** Only orders that are not in the level are added, and only those in it deleted. *)
Definition fifo_op_fits (op : level_op) (q : list nat) : bool :=
  match op with
  | LAdd x => bool_decide (x ∉ q)
  | LDel x => bool_decide (x ∈ q)
  | _ => true
  end.

Fixpoint fifo_fits (ops : list level_op) (q : list nat) : bool :=
  match ops with
  | [] => true
  | op :: ops => fifo_op_fits op q && fifo_fits ops (fifo_do op q).2
  end.

(** The level holds the queue [q] of orders of [h0]. *)
Record level_holds (h0 h : NodeHeap) (l : PriceLevel) (q : list nat) : Prop := {
  lh_links : level_links h l q;
  lh_total : TotalAmount l = u64 (qty h0 q);
  lh_orders : forall y, NodeOrder (node h y) = NodeOrder (node h0 y)
}.

Lemma filter_mid (a b : list nat) x : NoDup (a ++ x :: b) -> filter (fun y => y <> x) (a ++ x :: b) = a ++ b.
Proof.
  intros (_ & Hd & [Hx _]%NoDup_cons)%NoDup_app.
  rewrite filter_app, filter_cons_False by (intros H; by apply H). f_equal; apply filter_all, Forall_forall.
  - intros y Hy ->. apply (Hd x Hy). left.
  - by intros y Hy ->.
Qed.

Lemma level_do_ok op h0 h l q :
  level_holds h0 h l q -> fifo_op_fits op q = true -> Z.of_nat (length q) + 1 < 2 ^ 64 ->
  exists h' l', level_do op h l = Ret ((fifo_do op q).1, h', l') /\ level_holds h0 h' l' (fifo_do op q).2.
Proof.
  intros [HL HT HO] Hf Hb.
  assert (Ham : forall y, GetAmount h y = GetAmount h0 y) by (intros y; unfold GetAmount; by rewrite HO).
  destruct op as [x|x| |]; cbn [level_do fifo_do fifo_op_fits fst snd] in *.
  - apply bool_decide_eq_true in Hf. destruct (AddOrder_links h l q x HL Hf Hb) as (h' & l' & -> & HL' & _ & HT' & HO' & _).
    exists h', l'. split; [done|]. split; [done| |intros y; by rewrite HO'].
    rewrite HT', HT, Ham, qty_app. autorewrite with wrap. simpl. f_equal. lia.
  - apply bool_decide_eq_true, list_elem_of_split in Hf as (a & b & ->).
    rewrite filter_mid by apply HL.
    destruct (DeleteOrder_links h l a x b HL ltac:(lia)) as (l' & -> & HL' & _ & HT').
    eexists _, l'. split; [done|]. split; [done| |intros y; by rewrite unlink_order].
    rewrite HT', HT, Ham, !qty_app. autorewrite with wrap. simpl. f_equal. lia.
  - destruct q as [|x q].
    + unfold PopOrder. rewrite (ll_head _ _ _ HL). simpl. eexists _, _. by split.
    + destruct (PopOrder_links h l x q HL ltac:(lia)) as (l' & -> & HL' & HT').
      eexists _, l'. split; [done|]. split; [done| |intros y; by rewrite unlink_order].
      rewrite HT', HT, Ham. autorewrite with wrap. simpl. f_equal. lia.
  - unfold PeekOrder. rewrite (ll_head _ _ _ HL). eexists _, _. by split.
Qed.

Lemma fifo_do_length op q : (length (fifo_do op q).2 <= length q + 1)%nat.
Proof.
  destruct op as [x|x| |]; simpl; [rewrite length_app; simpl; lia| |destruct q; simpl; lia|lia].
  pose proof (length_filter (fun y => y <> x) q). lia.
Qed.

Lemma level_run_ok ops h0 h l q :
  level_holds h0 h l q -> fifo_fits ops q = true -> Z.of_nat (length q + length ops) < 2 ^ 64 ->
  exists h' l', level_run ops h l = Ret ((fifo_run ops q).1, h', l') /\ level_holds h0 h' l' (fifo_run ops q).2.
Proof.
  revert h l q. induction ops as [|op ops IH]; intros h l q HL Hf Hb; [by exists h, l|].
  cbn [fifo_fits level_run fifo_run length] in *. apply andb_true_iff in Hf as [H1 H2].
  destruct (level_do_ok op h0 h l q HL H1 ltac:(lia)) as (h1 & l1 & -> & HL1).
  pose proof (fifo_do_length op q). destruct (fifo_do op q) as [r q']. cbn [fst snd] in *.
  destruct (IH h1 l1 q' HL1 H2 ltac:(lia)) as (h2 & l2 & E & HL2).
  destruct (fifo_run ops q') as [rs q'']. exists h2, l2. simpl. by rewrite E.
Qed.

(** A price level is a first-in first-out queue of orders with removal from
    the middle: on any sequence of [AddOrder], [DeleteOrder], [PopOrder] and
    [PeekOrder] calls the intrusive list answers as the queue of the orders
    added, and its counters are the number and the total quantity of the orders
    in it. *)
Theorem price_level_is_fifo ops h0 price :
  fifo_fits ops [] = true -> Z.of_nat (length ops) < 2 ^ 64 ->
  exists h l, level_run ops h0 (SetPrice price level0) = Ret ((fifo_run ops []).1, h, l) /\
    LSize l = Z.of_nat (length (fifo_run ops []).2) /\
    TotalAmount l = u64 (qty h0 (fifo_run ops []).2).
Proof.
  intros Hf Hb. destruct (level_run_ok ops h0 h0 (SetPrice price level0) []) as (h & l & HE & HL); [|done|done|].
  - split; [|done|done]. split; simpl; try done. constructor.
  - exists h, l. split_and!; [done|apply HL|apply HL].
Qed.

Definition ex_order (id amount : Z) : OrderNode := MkNode None None (MkOrder 100 id 1 5 amount 0 LIMIT BUY EXECUTE).
Definition ex_heap : NodeHeap :=
  <[1%nat := ex_order 1 5]> (<[2%nat := ex_order 2 6]> (<[3%nat := ex_order 3 7]> ∅)).

Lemma price_level_is_fifo_witness :
  exists h l, level_run [LAdd 1; LAdd 2; LAdd 3; LDel 2; LPop; LPeek] ex_heap (SetPrice 100 level0)
    = Ret ([Added; Added; Added; Emptied false; Front (Some 1%nat); Front (Some 3%nat)], h, l) /\
    LSize l = 1 /\ TotalAmount l = 7.
Proof.
  exact (price_level_is_fifo [LAdd 1; LAdd 2; LAdd 3; LDel 2; LPop; LPeek] ex_heap 100 eq_refl eq_refl).
Defined.

End Levels.

(** ** Outside the contract *)

(** Even keys all have bucket 0 of a table with two buckets, odd ones bucket 1. *)
Definition crowded (n : nat) : list (map_op Z) :=
  MPut 1 100 :: ((fun i => MPut (2 * Z.of_nat i) (Z.of_nat i)) <$> seq 1 n).

(** The bound on the load of a bucket is needed, and less than the capacity:
    in a table of 32 slots that holds 17 keys, a further key is accepted and then
    not found, since the group search of [AddNode] skips a group whose first slot
    is closer to its home than the key being inserted. *)
Theorem fhm_loses_key_past_bucket :
  fhm_run 0 1 (crowded 17 ++ [MGet 1; MGet 32; MGet 34]) (FlatHashMap.fhm_empty 0 2) ≫=
    (fun '(rs, _) => Ret (drop 18 rs))
  = Ret [Some 100; Some 16; None].
Proof. vm_compute. reflexivity. Qed.
