(* ===== verification/BookSpec.v ===== *)
(** Price-time priority matching, as a specification: a side of the book is the
    list of its price levels, best first, each with its resting orders, oldest
    first.  There are no pointers, pools, cached best prices or counters here.
    [exec_order] and [cancel_order] give the book, the execution reports and the
    book updates that follow from one request; BidAskProofs.v shows that the
    engine implements them. *)

From Stdlib Require Import Sorting.Sorted.
From S2P Require Import Prelude WireTypes.
From S2P Require SkipList.

Abbreviation side := (list (Z * list Order)).

(** ** Matching *)

(** One execution: at [t_price], against the maker [t_maker] (as it rested), for
    [t_qty]; [t_left] is what the taker has left and [t_depth] what the level
    has left. *)
Record Trade := MkTrade {
  t_price : Z; t_maker : Order; t_qty : Z; t_left : Z; t_depth : Z
}.

Definition depth (os : list Order) : Z := foldr (fun o n => Amount o + n) 0 os.

(** A taker of amount [q] against the orders of one level. *)
Fixpoint match_fifo (p q : Z) (os : list Order) : Z * list Order * list Trade :=
  match os with
  | [] => (q, [], [])
  | o :: r =>
      if q <=? 0 then (q, os, [])
      else
        let t := Z.min q (Amount o) in
        let tr := MkTrade p o t (q - t) (Amount o - t + depth r) in
        if Amount o - t =? 0 then
          let '(q', os', ts) := match_fifo p (q - t) r in (q', os', tr :: ts)
        else (q - t, set_Amount (Amount o - t) o :: r, [tr])
  end.

Definition crosses (tk : OrderSide) (limit p : Z) : bool :=
  match tk with BUY => p <=? limit | SELL => limit <=? p end.

(** A taker against the levels it crosses, best first. *)
Fixpoint match_levels (tk : OrderSide) (limit q : Z) (L : side) : Z * side * list Trade :=
  match L with
  | [] => (q, [], [])
  | (p, os) :: rest =>
      if (0 <? q) && crosses tk limit p then
        let '(q', os', ts) := match_fifo p q os in
        match os' with
        | [] => let '(q'', rest', ts') := match_levels tk limit q' rest in (q'', rest', ts ++ ts')
        | _ => (q', (p, os') :: rest, ts)
        end
      else (q, L, [])
  end.

(** An order joins the end of the queue at its price. *)
Fixpoint rest_order (asc : bool) (o : Order) (L : side) : side :=
  match L with
  | [] => [(Price o, [o])]
  | (p, os) :: r =>
      if p =? Price o then (p, os ++ [o]) :: r
      else if SkipList.comp asc (Price o) p then (Price o, [o]) :: L
      else (p, os) :: rest_order asc o r
  end.

(** Removal of the order with (32-bit) id [id]; an empty level disappears. *)
Definition drop_order (id : Z) (os : list Order) : list Order :=
  filter (fun o => u32 (OrderId o) <> id) os.
Definition remove_order (id : Z) (L : side) : side :=
  filter (fun lv => lv.2 <> []) ((fun lv => (lv.1, drop_order id lv.2)) <$> L).

Definition side_orders (L : side) : list Order := L ≫= snd.
Definition depth_at (p : Z) (L : side) : Z :=
  foldr (fun lv n => if lv.1 =? p then depth lv.2 + n else n) 0 L.

(** ** The book and its events *)

Record Book := MkAbsBook { bids : side; asks : side }.
Definition get_side (sd : OrderSide) (b : Book) : side :=
  match sd with BUY => bids b | SELL => asks b end.
Definition put_side (sd : OrderSide) (L : side) (b : Book) : Book :=
  match sd with BUY => MkAbsBook L (asks b) | SELL => MkAbsBook (bids b) L end.

(** Reports and updates carry sequence number 0 here; [number] and [number_up]
    assign the numbers. *)
Section Events.
Context (asset : Z).

Definition status (left : Z) : OrderState := if 0 <? left then PARTIAL_FILL else FILL.

(** What the buyer (seller) of [t] at [p] is told: the asset bought and the cash
    spent (the cash received and the asset sold). *)
Definition buyer_report (p t left : Z) (o : Order) : OrderStateReport :=
  FillReport t (- (t * p)) (- (t * p)) 0 (ClientId o) (OrderId o) 0 asset 0 (status left).
Definition seller_report (p t left : Z) (o : Order) : OrderStateReport :=
  FillReport (t * p) (- t) (- t) 0 (ClientId o) (OrderId o) 0 0 asset (status left).

(** Taker first, then maker. *)
Definition trade_reports (taker : Order) (tr : Trade) : list OrderStateReport :=
  let maker := t_maker tr in
  let mleft := Amount maker - t_qty tr in
  match Side taker with
  | BUY => [buyer_report (t_price tr) (t_qty tr) (t_left tr) taker;
            seller_report (t_price tr) (t_qty tr) mleft maker]
  | SELL => [seller_report (t_price tr) (t_qty tr) (t_left tr) taker;
             buyer_report (t_price tr) (t_qty tr) mleft maker]
  end.

Definition side_code (sd : OrderSide) : Z :=
  match sd with BUY => ORDER_BOOK_UPDATE_BUY | SELL => ORDER_BOOK_UPDATE_SELL end.
Definition depth_update (sd : OrderSide) (p d : Z) : OrderBookUpdate :=
  FillUpdate 0 d p asset (side_code sd).

(** What an order of amount [q] locks when it rests. *)
Definition locked (o : Order) (q : Z) : Z :=
  match Side o with BUY => q * Price o | SELL => q end.
Definition ack_report (o : Order) (attempt : Z) (id : Z) (state : OrderState) : OrderStateReport :=
  match Side o with
  | BUY => FillReport 0 0 attempt 0 (ClientId o) id 0 asset 0 state
  | SELL => FillReport 0 0 attempt 0 (ClientId o) id 0 0 asset state
  end.
Definition reject_report (o : Order) : OrderStateReport :=
  FillReport 0 0 0 0 (ClientId o) (OrderId o) 0 0 0 REJECT.

(** What the trades of a taker have spent of what it locked. *)
Definition spent (o : Order) (ts : list Trade) : Z :=
  foldr (fun tr n => (match Side o with BUY => t_qty tr * t_price tr | SELL => t_qty tr end) + n) 0 ts.

Definition exec_order (o : Order) (b : Book) : Book * list OrderStateReport * list OrderBookUpdate :=
  let sd := Side o in
  let '(q, opp, ts) := match_levels sd (Price o) (Amount o) (get_side (opposite sd) b) in
  let b := put_side (opposite sd) opp b in
  let reps := ts ≫= trade_reports o in
  let ups := (fun tr => depth_update (opposite sd) (t_price tr) (t_depth tr)) <$> ts in
  if 0 <? q then
    match Type_ o with
    | LIMIT =>
        let own := rest_order (side_asc sd) (set_Amount q o) (get_side sd b) in
        (put_side sd own b, reps ++ [ack_report o (locked o q) (OrderId o) ADD],
         ups ++ [depth_update sd (Price o) (depth_at (Price o) own)])
    | MARKET =>
        (b, reps ++ [ack_report o (spent o ts - locked o (Amount o)) (OrderId o) CANCEL], ups)
    end
  else (b, reps, ups).

(** A cancel request names the order in [Amount]; only its owner may cancel. *)
Definition find_order (id : Z) (L : side) : option Order :=
  head (filter (fun o => u32 (OrderId o) = id) (side_orders L)).

Definition cancel_order (o : Order) (b : Book) : Book * list OrderStateReport * list OrderBookUpdate :=
  let sd := Side o in
  match find_order (Amount o) (get_side sd b) with
  | Some r =>
      if ClientId r =? ClientId o then
        let own := remove_order (Amount o) (get_side sd b) in
        (put_side sd own b, [ack_report r (locked r (Amount r)) (OrderId r) CANCEL],
         [depth_update sd (Price r) (depth_at (Price r) own)])
      else (b, [reject_report o], [])
  | None => (b, [reject_report o], [])
  end.

Definition request (o : Order) (b : Book) : Book * list OrderStateReport * list OrderBookUpdate :=
  match Action o with EXECUTE => exec_order o b | CANCEL_ORDER => cancel_order o b end.
End Events.

Definition set_RSequenceId (n : Z) (r : OrderStateReport) : OrderStateReport :=
  MkReport (BoughtDelta r) (SoldDelta r) (SoldAttemptDelta r) n (RClientId r) (ROrderId r)
    (TradeId r) (BoughtAssetId r) (SoldAssetId r) (State r).
Definition set_USequenceId (n : Z) (u : OrderBookUpdate) : OrderBookUpdate :=
  MkUpdate (UPrice u) n (Depth u) (UAssetId u) (USide u).

Fixpoint number (n : Z) (rs : list OrderStateReport) : list OrderStateReport :=
  match rs with [] => [] | r :: rs => set_RSequenceId (u32 n) r :: number (n + 1) rs end.
Fixpoint number_up (n : Z) (us : list OrderBookUpdate) : list OrderBookUpdate :=
  match us with [] => [] | u :: us => set_USequenceId (u32 n) u :: number_up (n + 1) us end.

(** ** Properties of matching *)

Definition pos_order (o : Order) : Prop := 0 < Amount o.
Definition traded_qty (ts : list Trade) : Z := foldr (fun tr n => t_qty tr + n) 0 ts.

Lemma traded_qty_app ts ts' : traded_qty (ts ++ ts') = traded_qty ts + traded_qty ts'.
Proof. induction ts as [|tr ts IH]; simpl; [done|]. rewrite IH. lia. Qed.
Lemma depth_app a b : depth (a ++ b) = depth a + depth b.
Proof. induction a as [|o a IH]; simpl; [done|]. rewrite IH. lia. Qed.
Lemma spent_app o ts ts' : spent o (ts ++ ts') = spent o ts + spent o ts'.
Proof. induction ts as [|tr ts IH]; simpl; [done|]. rewrite IH. lia. Qed.

(** What one level gives: quantities balance, every trade is positive, and an
    order is left over only if the taker is filled. *)
Lemma match_fifo_ok p q os :
  0 <= q -> Forall pos_order os ->
  let '(q', os', ts) := match_fifo p q os in
  0 <= q' /\ q' + traded_qty ts = q /\ depth os' + traded_qty ts = depth os /\
  (os' <> [] -> q' = 0) /\ Forall pos_order os' /\
  Forall (fun tr => t_price tr = p /\ 0 < t_qty tr <= Amount (t_maker tr)) ts.
Proof.
  revert q. induction os as [|o r IH]; intros q Hq Hp; [simpl; split_and!; try done; lia|].
  cbn [match_fifo]. destruct (Z.leb_spec q 0) as [Hq0|Hq0].
  { simpl. split_and!; try done; lia. }
  apply Forall_cons in Hp as [Ho Hr]. unfold pos_order in Ho.
  set (t := Z.min q (Amount o)). assert (Ht : 0 < t <= Amount o /\ t <= q) by lia.
  destruct (Z.eqb_spec (Amount o - t) 0) as [Hz|Hz].
  - specialize (IH (q - t) ltac:(lia) Hr). destruct (match_fifo p (q - t) r) as [[q' os'] ts].
    destruct IH as (H1 & H2 & H3 & H4 & H5 & H6). simpl. split_and!; try done; try lia.
    constructor; [|done]. simpl. lia.
  - simpl. split_and!; try lia.
    + constructor; [|done]. unfold pos_order. simpl. lia.
    + constructor; [|constructor]. simpl. lia.
Qed.

Definition pos_side (L : side) : Prop := Forall pos_order (side_orders L).
Definition order_key (o : Order) : Z := u32 (OrderId o).
Definition side_ids (L : side) : list Z := order_key <$> side_orders L.
Definition side_depth (L : side) : Z := depth (side_orders L).

Lemma side_orders_cons p os L : side_orders ((p, os) :: L) = os ++ side_orders L.
Proof. done. Qed.

(** An execution removes orders from the front of the level and changes only the
    amount of the order it stops at. *)
Lemma match_fifo_ids p q os :
  let '(q', os', ts) := match_fifo p q os in
  exists front, order_key <$> os = front ++ (order_key <$> os') /\
                order_key <$> (t_maker <$> ts) `prefix_of` order_key <$> os.
Proof.
  revert q. induction os as [|o r IH]; intros q; cbn [match_fifo].
  { exists []. split; [done|]. apply prefix_nil. }
  destruct (q <=? 0); [exists []; split; [done|apply prefix_nil]|].
  destruct (Amount o - Z.min q (Amount o) =? 0).
  - specialize (IH (q - Z.min q (Amount o))).
    destruct (match_fifo p (q - Z.min q (Amount o)) r) as [[q' os'] ts].
    destruct IH as (front & Hf & Hp). exists (order_key o :: front). split.
    + cbn [fmap list_fmap]. by rewrite Hf.
    + cbn [fmap list_fmap t_maker]. by apply prefix_cons.
  - exists []. split; [done|]. cbn [fmap list_fmap t_maker]. apply prefix_cons, prefix_nil.
Qed.

(** A level that is emptied has traded with each of its orders. *)
Lemma match_fifo_all p q os :
  let '(q', os', ts) := match_fifo p q os in
  os' = [] -> order_key <$> (t_maker <$> ts) = order_key <$> os.
Proof.
  revert q. induction os as [|o r IH]; intros q; cbn [match_fifo]; [done|].
  destruct (q <=? 0); [done|]. destruct (Amount o - Z.min q (Amount o) =? 0); [|done].
  specialize (IH (q - Z.min q (Amount o))).
  destruct (match_fifo p (q - Z.min q (Amount o)) r) as [[q' os'] ts].
  intros Hos. cbn [fmap list_fmap t_maker]. by rewrite (IH Hos).
Qed.

(** The quantities of a match over all levels. *)
Lemma match_levels_ok tk limit q L :
  0 <= q -> pos_side L ->
  let '(q', L', ts) := match_levels tk limit q L in
  0 <= q' <= q /\ q' + traded_qty ts = q /\ side_depth L' + traded_qty ts = side_depth L /\
  pos_side L' /\
  Forall (fun tr => crosses tk limit (t_price tr) = true /\ 0 < t_qty tr <= Amount (t_maker tr)) ts.
Proof.
  unfold pos_side, side_depth. revert q. induction L as [|[p os] L IH]; intros q Hq Hp; cbn [match_levels].
  { simpl. split_and!; try done; lia. }
  destruct ((0 <? q) && crosses tk limit p) eqn:E; [|simpl; split_and!; try done; lia].
  apply andb_true_iff in E as [E1 E2]. apply Z.ltb_lt in E1.
  rewrite side_orders_cons in *. apply Forall_app in Hp as [Hos HpL].
  pose proof (match_fifo_ok p q os Hq Hos) as HM. destruct (match_fifo p q os) as [[q1 os1] ts1].
  destruct HM as (H1 & H2 & H3 & H4 & H5 & H6).
  assert (Hts : Forall (fun tr => crosses tk limit (t_price tr) = true /\ 0 < t_qty tr <= Amount (t_maker tr)) ts1).
  { eapply Forall_impl; [exact H6|]. by intros tr [-> ?]. }
  assert (Hnn : 0 <= traded_qty ts1).
  { clear -H6. induction H6 as [|tr ts [_ Ht] _ IHt]; simpl; lia. }
  destruct os1 as [|o1 os1].
  - specialize (IH q1 H1 HpL). destruct (match_levels tk limit q1 L) as [[q2 L2] ts2].
    destruct IH as (G1 & G2 & G3 & G4 & G5). rewrite traded_qty_app, depth_app. simpl in H3.
    split_and!; try done; try lia. by apply Forall_app.
  - rewrite side_orders_cons, !depth_app. split_and!; try done; try lia. by apply Forall_app.
Qed.

(** Matching never adds an order, and takes whole levels before partial ones. *)
Lemma match_levels_ids tk limit q L :
  let '(q', L', ts) := match_levels tk limit q L in
  (exists front, side_ids L = front ++ side_ids L') /\
  order_key <$> (t_maker <$> ts) `prefix_of` side_ids L /\
  L'.*1 `suffix_of` L.*1.
Proof.
  unfold side_ids. revert q. induction L as [|[p os] L IH]; intros q; cbn [match_levels].
  { split_and!; [by exists []|apply prefix_nil|done]. }
  destruct ((0 <? q) && crosses tk limit p); [|split_and!; [by exists []|apply prefix_nil|done]].
  pose proof (match_fifo_ids p q os) as HF. pose proof (match_fifo_all p q os) as HA.
  destruct (match_fifo p q os) as [[q1 os1] ts1].
  destruct HF as (fr & Hf & Hp). destruct os1 as [|o1 os1].
  - specialize (IH q1). destruct (match_levels tk limit q1 L) as [[q2 L2] ts2].
    destruct IH as ((fr2 & Hf2) & Hp2 & Hs2). rewrite side_orders_cons, fmap_app, Hf2. split_and!.
    + exists ((order_key <$> os) ++ fr2). by rewrite <- app_assoc.
    + rewrite !fmap_app. rewrite <- Hf2. rewrite HA by done. by apply prefix_app.
    + by apply suffix_cons_r.
  - rewrite !side_orders_cons, !fmap_app. split_and!; [|by apply prefix_app_r|done].
    exists fr. by rewrite Hf, <- app_assoc.
Qed.

Lemma get_put_same sd L b : get_side sd (put_side sd L b) = L.
Proof. by destruct sd. Qed.
Lemma get_put_opp sd L b : get_side (opposite sd) (put_side sd L b) = get_side (opposite sd) b.
Proof. by destruct sd. Qed.
Lemma get_put_opp' sd L b : get_side sd (put_side (opposite sd) L b) = get_side sd b.
Proof. by destruct sd. Qed.


(** ** Order of the levels *)

Definition sorted_side (asc : bool) (L : side) : Prop :=
  StronglySorted (fun a b => SkipList.comp asc a b = true) L.*1.

(** No bid reaches an ask. *)
Definition uncrossed (b : Book) : Prop :=
  forall p p', p ∈ (bids b).*1 -> p' ∈ (asks b).*1 -> p < p'.

Record book_wf (b : Book) : Prop := {
  wf_bids : sorted_side false (bids b);
  wf_asks : sorted_side true (asks b);
  wf_pos : pos_side (bids b) /\ pos_side (asks b);
  wf_uncrossed : uncrossed b
}.

Lemma wf_side sd b : book_wf b -> sorted_side (side_asc sd) (get_side sd b) /\ pos_side (get_side sd b).
Proof. intros [? ? [? ?] ?]. by destruct sd. Qed.

Lemma sorted_sublist (R : Z -> Z -> Prop) l l' :
  l' `sublist_of` l -> StronglySorted R l -> StronglySorted R l'.
Proof.
  induction 1 as [|x l1 l2 Hs IH|x l1 l2 Hs IH]; [done| |]; intros [HS HF]%StronglySorted_inv.
  - constructor; [by apply IH|]. rewrite Forall_forall in HF |- *. intros y Hy.
    apply HF. by eapply elem_of_sublist.
  - by apply IH.
Qed.

Lemma rest_order_prices asc o L p :
  p ∈ (rest_order asc o L).*1 <-> p = Price o \/ p ∈ L.*1.
Proof.
  induction L as [|[p' os] L IH]; cbn [rest_order]; [set_solver|].
  destruct (Z.eqb_spec p' (Price o)) as [->|]; [set_solver|].
  destruct (SkipList.comp asc (Price o) p'); [set_solver|]. cbn [fmap list_fmap fst].
  rewrite elem_of_cons, IH. set_solver.
Qed.

Lemma rest_order_sorted asc o L : sorted_side asc L -> sorted_side asc (rest_order asc o L).
Proof.
  unfold sorted_side. induction L as [|[p os] L IH]; intros Hs; [repeat constructor|].
  cbn [rest_order]. pose proof Hs as [HS HF]%StronglySorted_inv.
  destruct (Z.eqb_spec p (Price o)) as [->|Hne]; [done|].
  destruct (SkipList.comp asc (Price o) p) eqn:Ec.
  - constructor; [done|]. cbn [fmap list_fmap fst]. constructor; [done|].
    eapply Forall_impl; [exact HF|]. intros q Hq. by eapply SkipList.comp_trans.
  - constructor; [by apply IH|]. apply Forall_forall. intros q [->|Hq]%rest_order_prices.
    + by apply SkipList.comp_total.
    + rewrite Forall_forall in HF. by apply HF.
Qed.

Lemma rest_order_orders asc o L : side_orders (rest_order asc o L) ≡ₚ o :: side_orders L.
Proof.
  induction L as [|[p os] L IH]; [done|]. cbn [rest_order]. destruct (p =? Price o).
  - rewrite !side_orders_cons. by rewrite <- app_assoc, Permutation_middle.
  - destruct (SkipList.comp asc (Price o) p); [done|]. rewrite !side_orders_cons, IH.
    by rewrite Permutation_middle.
Qed.

(** A taker that is not filled has exhausted everything it crosses. *)
Lemma match_levels_stop tk limit q L :
  0 <= q -> pos_side L -> sorted_side (side_asc (opposite tk)) L ->
  let '(q', L', ts) := match_levels tk limit q L in
  0 < q' -> Forall (fun p => crosses tk limit p = false) L'.*1.
Proof.
  unfold pos_side, sorted_side. revert q. induction L as [|[p os] L IH]; intros q Hq Hp Hs; cbn [match_levels].
  { intros _. constructor. }
  pose proof Hs as [HS HF]%StronglySorted_inv. rewrite side_orders_cons in Hp. apply Forall_app in Hp as [Hos HpL].
  destruct ((0 <? q) && crosses tk limit p) eqn:E.
  - pose proof (match_fifo_ok p q os Hq Hos) as HM. destruct (match_fifo p q os) as [[q1 os1] ts1].
    destruct HM as (H1 & _ & _ & H4 & _). destruct os1 as [|o1 os1].
    + specialize (IH q1 H1 HpL HS). by destruct (match_levels tk limit q1 L) as [[q2 L2] ts2].
    + intros Hq1. rewrite H4 in Hq1 by done. lia.
  - intros Hq0. destruct (Z.ltb_spec 0 q); [|lia]. cbn [andb] in E. constructor; [done|].
    eapply Forall_impl; [exact HF|]. intros p' Hp'. destruct tk; unfold SkipList.comp in *; simpl in *;
      apply Z.leb_gt in E; apply Z.ltb_lt in Hp'; apply Z.leb_gt; lia.
Qed.

Lemma put_side_wf sd L b :
  book_wf b -> sorted_side (side_asc sd) L -> pos_side L ->
  (forall p p', p ∈ L.*1 -> p' ∈ (get_side (opposite sd) b).*1 ->
     match sd with BUY => p < p' | SELL => p' < p end) ->
  book_wf (put_side sd L b).
Proof.
  intros [Hb Ha [Hpb Hpa] Hu] Hs Hp Hc.
  destruct sd; (split; simpl in *; [done|done|done|]); intros p p' H1 H2.
  - by apply Hc.
  - by apply (Hc p' p).
Qed.

Lemma wf_cross sd b p p' :
  book_wf b -> p ∈ (get_side sd b).*1 -> p' ∈ (get_side (opposite sd) b).*1 ->
  match sd with BUY => p < p' | SELL => p' < p end.
Proof. intros [_ _ _ Hu] H1 H2. destruct sd; simpl in *; by apply Hu. Qed.

(** Matching leaves a sub-list of the levels. *)
Lemma match_levels_wf b o q :
  book_wf b -> 0 <= q ->
  let '(q', L', ts) := match_levels (Side o) (Price o) q (get_side (opposite (Side o)) b) in
  book_wf (put_side (opposite (Side o)) L' b).
Proof.
  intros Hwf Hq. destruct (wf_side (opposite (Side o)) b Hwf) as [Hs Hp].
  pose proof (match_levels_ok (Side o) (Price o) q _ Hq Hp) as HM.
  pose proof (match_levels_ids (Side o) (Price o) q (get_side (opposite (Side o)) b)) as HI.
  destruct (match_levels _ _ _ _) as [[q' L'] ts].
  destruct HM as (_ & _ & _ & Hp' & _), HI as (_ & _ & Hsuf).
  assert (Hsub : L'.*1 `sublist_of` (get_side (opposite (Side o)) b).*1).
  { destruct Hsuf as [k ->]. by apply sublist_inserts_l. }
  apply put_side_wf; try done.
  - by eapply sorted_sublist.
  - intros p p' H1 H2. apply (wf_cross (opposite (Side o)) b); try done. by eapply elem_of_sublist.
Qed.

Lemma exec_order_wf asset o b : book_wf b -> 0 < Amount o -> book_wf (exec_order asset o b).1.1.
Proof.
  intros Hwf Ha. unfold exec_order.
  pose proof (match_levels_wf b o (Amount o) Hwf ltac:(lia)) as HW.
  destruct (wf_side (opposite (Side o)) b Hwf) as [Hs Hp].
  pose proof (match_levels_stop (Side o) (Price o) (Amount o) _ ltac:(lia) Hp Hs) as HS.
  destruct (match_levels _ _ _ _) as [[q L'] ts].
  destruct (Z.ltb_spec 0 q) as [Hq|_]; [|done]. destruct (Type_ o); [|done]. cbn [fst].
  rewrite get_put_opp'. destruct (wf_side (Side o) b Hwf) as [Hso Hpo]. apply put_side_wf; try done.
  - by apply rest_order_sorted.
  - unfold pos_side. rewrite rest_order_orders. by constructor.
  - intros p p' [->|H1]%rest_order_prices; intros H2.
    + rewrite get_put_same in H2. specialize (HS Hq). rewrite Forall_forall in HS. specialize (HS _ H2).
      cbn [Price set_Amount]. destruct (Side o); simpl in HS; apply Z.leb_gt in HS; lia.
    + apply (wf_cross (Side o) (put_side (opposite (Side o)) L' b)); [done| |done]. by rewrite get_put_opp'.
Qed.

Lemma drop_order_pos id os : Forall pos_order os -> Forall pos_order (drop_order id os).
Proof. intros HF. apply Forall_forall. intros o [_ Ho]%list_elem_of_filter. by eapply Forall_forall in HF. Qed.

Lemma remove_order_sub id L : (remove_order id L).*1 `sublist_of` L.*1.
Proof.
  unfold remove_order. transitivity ((fun lv : Z * list Order => (lv.1, drop_order id lv.2)) <$> L).*1.
  - apply fmap_sublist, sublist_filter.
  - rewrite <- list_fmap_compose. done.
Qed.

Lemma remove_order_pos id L : pos_side L -> pos_side (remove_order id L).
Proof.
  unfold pos_side, remove_order. induction L as [|[p os] L IH]; [done|]. rewrite side_orders_cons.
  intros [H1 H2]%Forall_app. cbn [fmap list_fmap fst snd]. rewrite filter_cons.
  case_decide; [|by apply IH]. rewrite side_orders_cons. apply Forall_app.
  split; [by apply drop_order_pos|by apply IH].
Qed.

Lemma cancel_order_wf asset o b : book_wf b -> book_wf (cancel_order asset o b).1.1.
Proof.
  intros Hwf. unfold cancel_order. destruct (find_order _ _) as [r|]; [|done].
  destruct (ClientId r =? ClientId o); [|done]. cbn [fst].
  destruct (wf_side (Side o) b Hwf) as [Hs Hp]. apply put_side_wf; try done.
  - eapply sorted_sublist; [apply remove_order_sub|done].
  - by apply remove_order_pos.
  - intros p p' H1 H2. apply (wf_cross (Side o) b); try done.
    eapply elem_of_sublist; [exact H1|apply remove_order_sub].
Qed.

Lemma request_wf asset o b :
  book_wf b -> (Action o = EXECUTE -> 0 < Amount o) -> book_wf (request asset o b).1.1.
Proof.
  intros Hwf Ha. unfold request. destruct (Action o).
  - apply exec_order_wf; auto.
  - by apply cancel_order_wf.
Qed.

(** ** Conservation

    The change of the holdings of asset [a] that a report announces.  Cash is
    asset 0. *)
Definition flow (a : Z) (r : OrderStateReport) : Z :=
  (if BoughtAssetId r =? a then BoughtDelta r else 0) +
  (if SoldAssetId r =? a then SoldDelta r else 0).
Definition total_flow (a : Z) (rs : list OrderStateReport) : Z :=
  foldr (fun r n => flow a r + n) 0 rs.

Lemma total_flow_app a rs rs' : total_flow a (rs ++ rs') = total_flow a rs + total_flow a rs'.
Proof. induction rs as [|r rs IH]; simpl; [done|]. rewrite IH. lia. Qed.

Definition balanced (a : Z) (rs : list OrderStateReport) : Prop := exists k, total_flow a rs = k * 2 ^ 64.

Lemma balanced_app a rs rs' : balanced a rs -> balanced a rs' -> balanced a (rs ++ rs').
Proof.
  intros [k Hk] [k' Hk']. exists (k + k'). rewrite total_flow_app, Hk, Hk'. lia.
Qed.

Lemma balanced_nil a : balanced a [].
Proof. by exists 0. Qed.

Lemma trade_balanced asset taker tr a : balanced a (trade_reports asset taker tr).
Proof.
  unfold balanced, trade_reports, total_flow, flow, buyer_report, seller_report, FillReport.
  destruct (s64_mult (t_qty tr)) as [k1 H1]. destruct (s64_mult (- t_qty tr)) as [k2 H2].
  destruct (s64_mult (t_qty tr * t_price tr)) as [k3 H3].
  destruct (s64_mult (- (t_qty tr * t_price tr))) as [k4 H4].
  destruct (Side taker); cbn [foldr BoughtAssetId SoldAssetId BoughtDelta SoldDelta];
    rewrite H1, H2, H3, H4; destruct (u16 asset =? a), (u16 0 =? a);
    first [exists 0; lia|exists (k1 + k2); lia|exists (k3 + k4); lia|exists (k1 + k2 + k3 + k4); lia].
Qed.

Lemma ack_balanced asset o att id st a : balanced a [ack_report asset o att id st].
Proof.
  exists 0. unfold ack_report. destruct (Side o); unfold total_flow, flow, FillReport; cbn [foldr BoughtAssetId SoldAssetId BoughtDelta SoldDelta];
    destruct (u16 asset =? a), (u16 0 =? a); done.
Qed.

Lemma exec_order_balanced asset o b a : balanced a (exec_order asset o b).1.2.
Proof.
  unfold exec_order. destruct (match_levels _ _ _ _) as [[q L'] ts].
  assert (Hts : balanced a (ts ≫= trade_reports asset o)).
  { induction ts as [|tr ts IH]; [apply balanced_nil|]. rewrite bind_cons.
    apply balanced_app; [apply trade_balanced|done]. }
  destruct (0 <? q); [|done]. destruct (Type_ o); (apply balanced_app; [done|apply ack_balanced]).
Qed.

(** ** Sequences of requests *)

Definition empty_book : Book := MkAbsBook [] [].

Fixpoint spec_run (asset : Z) (reqs : list Order) (b : Book)
    : Book * list OrderStateReport * list OrderBookUpdate :=
  match reqs with
  | [] => (b, [], [])
  | o :: r =>
      let '(b1, rs1, us1) := request asset o b in
      let '(b2, rs2, us2) := spec_run asset r b1 in
      (b2, rs1 ++ rs2, us1 ++ us2)
  end.

Lemma empty_book_wf : book_wf empty_book.
Proof. split; try constructor; try constructor; intros p p' H; set_solver. Qed.

Lemma spec_run_wf asset reqs b :
  book_wf b -> Forall (fun o => Action o = EXECUTE -> 0 < Amount o) reqs ->
  book_wf (spec_run asset reqs b).1.1.
Proof.
  intros Hwf Hr. revert b Hwf. induction Hr as [|o r Ho _ IH]; intros b Hwf; [done|]. cbn [spec_run].
  pose proof (request_wf asset o b Hwf Ho) as H1. destruct (request asset o b) as [[b1 rs1] us1].
  specialize (IH b1 H1). by destruct (spec_run asset r b1) as [[b2 rs2] us2].
Qed.

Lemma cancel_order_balanced asset o b a : balanced a (cancel_order asset o b).1.2.
Proof.
  assert (Hrej : balanced a [reject_report o]).
  { exists 0. unfold total_flow, flow, reject_report, FillReport.
    cbn [foldr BoughtAssetId SoldAssetId BoughtDelta SoldDelta]. by destruct (u16 0 =? a). }
  unfold cancel_order. destruct (find_order _ _) as [r|]; [|done].
  destruct (ClientId r =? ClientId o); [|done]. apply ack_balanced.
Qed.

Lemma spec_run_balanced asset reqs b a : balanced a (spec_run asset reqs b).1.2.
Proof.
  revert b. induction reqs as [|o r IH]; intros b; cbn [spec_run]; [apply balanced_nil|].
  assert (H1 : balanced a (request asset o b).1.2).
  { unfold request. destruct (Action o); [apply exec_order_balanced|apply cancel_order_balanced]. }
  destruct (request asset o b) as [[b1 rs1] us1]. specialize (IH b1).
  destruct (spec_run asset r b1) as [[b2 rs2] us2]. by apply balanced_app.
Qed.

(** Sequence numbers do not matter for the flows. *)
Lemma number_flow a n rs : total_flow a (number n rs) = total_flow a rs.
Proof. revert n. induction rs as [|r rs IH]; intros n; simpl; [done|]. by rewrite IH. Qed.
