(* ===== verification/Feed.v ===== *)
(** What the two feeds of a matching engine tell about its book and its trades, at
    the level of the specification (BookSpec.v): the depth updates, applied in
    order to a map from prices to depths, give the depth of every level; the
    reports of the buyers give the price and quantity of every trade. *)

From S2P Require Import Prelude WireTypes BookSpec.
From Stdlib Require Import Sorting.Sorted.
From S2P Require SkipList.

(** ** Levels

    An order rests at its own price, a level has an order, and no two orders of a
    side share the 32 bits of the id. *)
Definition level_ok (lv : Z * list Order) : Prop :=
  lv.2 <> [] /\ Forall (fun o => Price o = lv.1 /\ in_s64 (Price o)) lv.2.
Definition side_ok (L : side) : Prop := Forall level_ok L /\ NoDup (side_ids L) /\ NoDup L.*1.

Lemma side_ok_cons p os L :
  side_ok ((p, os) :: L) <-> level_ok (p, os) /\ (p ∉ L.*1) /\ NoDup (order_key <$> os) /\
    (forall k, (k ∈ (order_key <$> os)) -> (k ∉ side_ids L)) /\ side_ok L.
Proof.
  unfold side_ok, side_ids. rewrite side_orders_cons, fmap_app, Forall_cons, NoDup_app. cbn [fmap list_fmap fst].
  rewrite NoDup_cons. split.
  - intros ([H1 H2] & (H3 & H4 & H5) & H6 & H7). tauto.
  - intros (H1 & H2 & H3 & H4 & H5 & H6 & H7). tauto.
Qed.

(** ** Depth maps *)

Definition set_level (p d : Z) (m : gmap Z Z) : gmap Z Z :=
  if u32 d =? 0 then delete p m else <[p := u32 d]> m.
Definition shown (d : Z) : option Z := if u32 d =? 0 then None else Some (u32 d).
Definition mirrors (m : gmap Z Z) (L : side) : Prop := forall p, m !! p = shown (depth_at p L).

Lemma depth_at_cons p q os L : depth_at p ((q, os) :: L) = (if q =? p then depth os else 0) + depth_at p L.
Proof. unfold depth_at. cbn [foldr fst snd]. by destruct (q =? p). Qed.

Lemma depth_at_absent p L : p ∉ L.*1 -> depth_at p L = 0.
Proof.
  induction L as [|[q os] L IH]; [done|]. cbn [fmap list_fmap fst]. intros Hp. rewrite depth_at_cons, IH by set_solver.
  destruct (Z.eqb_spec q p); [set_solver|done].
Qed.

(** One update: the depth of [p] becomes [d], the others stay. *)
Lemma set_level_mirrors p d m L L' :
  mirrors m L -> depth_at p L' = d -> (forall p', p' <> p -> depth_at p' L' = depth_at p' L) -> mirrors (set_level p d m) L'.
Proof.
  intros Hm Hd Ho p'. unfold set_level. destruct (decide (p' = p)) as [->|Hne].
  - rewrite Hd. unfold shown. destruct (u32 d =? 0); [by rewrite lookup_delete_eq|by rewrite lookup_insert_eq].
  - rewrite Ho, <- Hm by done. destruct (u32 d =? 0); [by rewrite lookup_delete_ne|by rewrite lookup_insert_ne].
Qed.

Definition trade_levels (ts : list Trade) (m : gmap Z Z) : gmap Z Z :=
  foldl (fun m tr => set_level (t_price tr) (t_depth tr) m) m ts.

Lemma match_fifo_mirrors p q os m L :
  mirrors m ((p, os) :: L) -> p ∉ L.*1 ->
  let '(q', os', ts) := match_fifo p q os in mirrors (trade_levels ts m) ((p, os') :: L).
Proof.
  intros Hm Hp. revert q m Hm. induction os as [|o r IH]; intros q m Hm; cbn [match_fifo]; [done|].
  destruct (q <=? 0); [done|]. set (t := Z.min q (Amount o)).
  assert (Hstep : forall os', depth os' = Amount o - t + depth r ->
    mirrors (set_level p (Amount o - t + depth r) m) ((p, os') :: L)).
  { intros os' Hd. eapply set_level_mirrors; [exact Hm| |].
    - by rewrite depth_at_cons, Z.eqb_refl, depth_at_absent, Hd, Z.add_0_r.
    - intros p' Hne. rewrite !depth_at_cons. by rewrite (proj2 (Z.eqb_neq p p')) by done. }
  destruct (Z.eqb_spec (Amount o - t) 0) as [Hz|Hz].
  - specialize (IH (q - t) (set_level p (Amount o - t + depth r) m) ltac:(apply Hstep; lia)).
    destruct (match_fifo p (q - t) r) as [[q' os'] ts]. exact IH.
  - apply Hstep. done.
Qed.

Lemma mirrors_drop_empty m p L : mirrors m ((p, []) :: L) -> mirrors m L.
Proof. intros Hm p'. rewrite Hm, depth_at_cons. by destruct (p =? p'). Qed.

Lemma trade_levels_app ts ts' m : trade_levels (ts ++ ts') m = trade_levels ts' (trade_levels ts m).
Proof. apply foldl_app. Qed.

Lemma match_levels_mirrors tk limit q m L :
  mirrors m L -> NoDup L.*1 ->
  let '(q', L', ts) := match_levels tk limit q L in mirrors (trade_levels ts m) L'.
Proof.
  revert q m. induction L as [|[p os] L IH]; intros q m Hm HN; cbn [match_levels]; [done|].
  destruct ((0 <? q) && crosses tk limit p); [|done]. cbn [fmap list_fmap fst] in HN. apply NoDup_cons in HN as [Hp HN].
  pose proof (match_fifo_mirrors p q os m L Hm Hp) as HF. destruct (match_fifo p q os) as [[q1 os1] ts1].
  destruct os1 as [|o1 os1]; [|done]. apply mirrors_drop_empty in HF. specialize (IH q1 _ HF HN).
  destruct (match_levels tk limit q1 L) as [[q2 L2] ts2]. by rewrite trade_levels_app.
Qed.

Lemma rest_order_depth asc o L p : p <> Price o -> depth_at p (rest_order asc o L) = depth_at p L.
Proof.
  intros Hne. induction L as [|[q os] L IH]; cbn [rest_order].
  - rewrite depth_at_cons. by rewrite (proj2 (Z.eqb_neq (Price o) p)) by done.
  - destruct (Z.eqb_spec q (Price o)) as [->|Hq].
    + rewrite !depth_at_cons. by rewrite (proj2 (Z.eqb_neq (Price o) p)) by done.
    + destruct (SkipList.comp asc (Price o) q).
      * rewrite depth_at_cons. by rewrite (proj2 (Z.eqb_neq (Price o) p)) by done.
      * by rewrite !depth_at_cons, IH.
Qed.

(** The order a cancel request names, and the only one it removes. *)
Lemma find_order_in id L r : find_order id L = Some r -> r ∈ side_orders L /\ order_key r = id.
Proof. intros H%head_Some_elem_of. by apply list_elem_of_filter in H as [? ?]. Qed.

Lemma side_order_price L p os o : side_ok L -> (p, os) ∈ L -> o ∈ os -> Price o = p.
Proof.
  intros (HL & _) Hin Ho. rewrite Forall_forall in HL. destruct (HL _ Hin) as [_ HF].
  rewrite Forall_forall in HF. by destruct (HF _ Ho).
Qed.

Lemma order_key_inj L o o' : side_ok L -> o ∈ side_orders L -> o' ∈ side_orders L -> order_key o = order_key o' -> o = o'.
Proof.
  intros (_ & HN & _) H1 H2 He. apply list_elem_of_lookup in H1 as [i Hi], H2 as [j Hj].
  assert (i = j) as ->; [|congruence]. eapply NoDup_lookup; [exact HN|..]; unfold side_ids; rewrite list_lookup_fmap.
  - by rewrite Hi.
  - by rewrite Hj, He.
Qed.

Lemma remove_order_depth id L p :
  (forall os o, (p, os) ∈ L -> o ∈ os -> order_key o <> id) -> depth_at p (remove_order id L) = depth_at p L.
Proof.
  unfold remove_order. induction L as [|[q os] L IH]; intros H; [done|]. cbn [fmap list_fmap fst snd]. rewrite filter_cons.
  assert (Hd : q = p -> drop_order id os = os).
  { intros ->. apply filter_all, Forall_forall. intros o Ho. apply (H os); [set_solver|done]. }
  specialize (IH ltac:(intros os' o' Ho'; apply (H os'); set_solver)).
  case_decide as He; cbn [snd] in He; rewrite !depth_at_cons.
  - rewrite IH. destruct (Z.eqb_spec q p) as [Hq|]; [by rewrite Hd|done].
  - rewrite IH. destruct (Z.eqb_spec q p) as [Hq|]; [|done]. rewrite Hd in He by done. by rewrite He.
Qed.

(** ** Invariants of a run *)

Lemma match_fifo_keeps p q os (P : Order -> Prop) :
  (forall o n, P o -> P (set_Amount n o)) -> Forall P os ->
  let '(q', os', ts) := match_fifo p q os in Forall P os'.
Proof.
  intros HP. revert q. induction os as [|o r IH]; intros q HF; cbn [match_fifo]; [done|].
  destruct (q <=? 0); [done|]. apply Forall_cons in HF as [Ho HF].
  destruct (Amount o - Z.min q (Amount o) =? 0); [|constructor; auto].
  specialize (IH (q - Z.min q (Amount o)) HF). by destruct (match_fifo p (q - Z.min q (Amount o)) r) as [[q' os'] ts].
Qed.

Lemma match_levels_side_ok tk limit q L :
  side_ok L -> let '(q', L', ts) := match_levels tk limit q L in side_ok L'.
Proof.
  revert q. induction L as [|[p os] L IH]; intros q HL; cbn [match_levels]; [done|].
  destruct ((0 <? q) && crosses tk limit p); [|done]. apply side_ok_cons in HL as (Hl & Hp & Hn & Hd & HL).
  pose proof (match_fifo_keeps p q os (fun o => Price o = p /\ in_s64 (Price o)) ltac:(done) (proj2 Hl)) as HK.
  pose proof (match_fifo_ids p q os) as HI. destruct (match_fifo p q os) as [[q1 os1] ts1]. destruct os1 as [|o1 os1].
  - specialize (IH q1 HL). by destruct (match_levels tk limit q1 L) as [[q2 L2] ts2].
  - destruct HI as (front & Hf & _). apply side_ok_cons. rewrite Hf in Hn, Hd. apply NoDup_app in Hn as (_ & _ & Hn).
    split_and!; try done. intros k Hk. apply Hd. set_solver.
Qed.

Lemma rest_order_side_ok asc o L :
  side_ok L -> sorted_side asc L -> in_s64 (Price o) -> order_key o ∉ side_ids L -> side_ok (rest_order asc o L).
Proof.
  intros (HL & HN & HP) Hs Hr Hk. split_and!.
  - clear HN HP Hs Hk. induction HL as [|[p os] L [Hne HF] HL IH]; cbn [rest_order].
    { constructor; [|done]. split; [done|]. by apply Forall_singleton. }
    destruct (Z.eqb_spec p (Price o)) as [->|Hp]; [|destruct (SkipList.comp asc (Price o) p)].
    + constructor; [|done]. split; [by destruct os|]. apply Forall_app. split; [done|]. by apply Forall_singleton.
    + constructor; [|by constructor]. split; [done|]. by apply Forall_singleton.
    + by constructor.
  - unfold side_ids. rewrite rest_order_orders. cbn [fmap list_fmap]. by constructor.
  - apply rest_order_sorted with (o := o) in Hs. unfold sorted_side in Hs.
    induction Hs as [|p ps Hs IH HF]; constructor; [|done]. intros Hin. rewrite Forall_forall in HF.
    specialize (HF _ Hin). unfold SkipList.comp in HF. destruct asc; apply Z.ltb_lt in HF; lia.
Qed.

Lemma side_orders_remove id L : side_orders (remove_order id L) `sublist_of` side_orders L.
Proof.
  unfold remove_order. induction L as [|[p os] L IH]; [done|]. cbn [fmap list_fmap fst snd]. rewrite filter_cons.
  rewrite side_orders_cons. case_decide.
  - rewrite side_orders_cons. apply sublist_app; [apply sublist_filter|done].
  - by apply sublist_inserts_l.
Qed.

Lemma remove_order_side_ok id L : side_ok L -> side_ok (remove_order id L).
Proof.
  intros (HL & HN & HP). split_and!.
  - apply Forall_forall. intros [p os]. unfold remove_order. intros [Hne Hin]%list_elem_of_filter.
    apply list_elem_of_fmap in Hin as ([p' os'] & [= -> ->] & Hin). split; [done|]. rewrite Forall_forall in HL.
    destruct (HL _ Hin) as [_ HF]. cbn [fst snd] in *. apply Forall_forall. intros o [_ Ho]%list_elem_of_filter.
    rewrite Forall_forall in HF. by apply HF.
  - unfold side_ids. eapply sublist_NoDup; [exact HN|apply fmap_sublist, side_orders_remove].
  - eapply sublist_NoDup; [exact HP|apply remove_order_sub].
Qed.

(** ** The depth feed *)

(** A subscriber keeps one map for each side. *)
Definition get_map (sd : OrderSide) (mm : gmap Z Z * gmap Z Z) : gmap Z Z := match sd with BUY => mm.1 | SELL => mm.2 end.
Definition put_map (sd : OrderSide) (m : gmap Z Z) (mm : gmap Z Z * gmap Z Z) : gmap Z Z * gmap Z Z :=
  match sd with BUY => (m, mm.2) | SELL => (mm.1, m) end.
Definition feed (mm : gmap Z Z * gmap Z Z) (u : OrderBookUpdate) : gmap Z Z * gmap Z Z :=
  let sd := if USide u =? ORDER_BOOK_UPDATE_BUY then BUY else SELL in
  put_map sd (set_level (UPrice u) (Depth u) (get_map sd mm)) mm.
Definition book_mirrors (mm : gmap Z Z * gmap Z Z) (b : Book) : Prop := forall sd, mirrors (get_map sd mm) (get_side sd b).

Lemma set_level_u32 p d m : set_level p (u32 d) m = set_level p d m.
Proof. unfold set_level. by rewrite u32_idem. Qed.

Lemma feed_depth_update asset sd p d mm :
  in_s64 p -> feed mm (depth_update asset sd p d) = put_map sd (set_level p d (get_map sd mm)) mm.
Proof.
  intros Hp. unfold feed, depth_update, FillUpdate. cbn [USide UPrice Depth]. rewrite (s64_small p) by done.
  rewrite set_level_u32. by destruct sd.
Qed.

Lemma put_map_mirrors sd m L mm b :
  book_mirrors mm b -> mirrors m L -> book_mirrors (put_map sd m mm) (put_side sd L b).
Proof. intros Hb Hm sd'. destruct sd, sd'; cbn; try done; [apply (Hb SELL)|apply (Hb BUY)]. Qed.

Lemma feed_trades asset sd ts mm :
  Forall (fun tr => in_s64 (t_price tr)) ts ->
  foldl feed mm ((fun tr => depth_update asset sd (t_price tr) (t_depth tr)) <$> ts) =
  put_map sd (trade_levels ts (get_map sd mm)) mm.
Proof.
  intros HF. revert mm. induction HF as [|tr ts Ht _ IH]; intros mm; [by destruct sd, mm|].
  rewrite fmap_cons. cbn [foldl]. rewrite feed_depth_update, IH by done. by destruct sd, mm.
Qed.

Definition book_ok (b : Book) : Prop := forall sd, side_ok (get_side sd b).
Lemma put_side_ok sd L b : book_ok b -> side_ok L -> book_ok (put_side sd L b).
Proof. intros Hb HL sd'. destruct sd, sd'; cbn; try done; [apply (Hb SELL)|apply (Hb BUY)]. Qed.

Lemma empty_book_ok : book_ok empty_book.
Proof. intros []; (split_and!; constructor). Qed.
Lemma empty_mirrors : book_mirrors (∅, ∅) empty_book.
Proof. by intros [] p. Qed.

(** The prices of the trades are those of levels. *)
Lemma match_fifo_prices p q os : Forall (fun tr => t_price tr = p) (match_fifo p q os).2.
Proof.
  revert q. induction os as [|o r IH]; intros q; cbn [match_fifo]; [constructor|]. destruct (q <=? 0); [constructor|].
  destruct (_ =? 0); [|by repeat constructor]. specialize (IH (q - Z.min q (Amount o))).
  destruct (match_fifo p (q - Z.min q (Amount o)) r) as [[q' os'] ts]. by constructor.
Qed.
Lemma match_levels_prices tk limit q L : Forall (fun tr => t_price tr ∈ L.*1) (match_levels tk limit q L).2.
Proof.
  revert q. induction L as [|[p os] L IH]; intros q; cbn [match_levels]; [constructor|].
  destruct ((0 <? q) && crosses tk limit p); [|constructor].
  pose proof (match_fifo_prices p q os) as HF. destruct (match_fifo p q os) as [[q1 os1] ts1]. cbn [snd] in HF.
  assert (H1 : Forall (fun tr => t_price tr ∈ ((p, os) :: L).*1) ts1).
  { eapply Forall_impl; [exact HF|]. intros tr ->. set_solver. }
  destruct os1; [|done]. specialize (IH q1). destruct (match_levels tk limit q1 L) as [[q2 L2] ts2].
  apply Forall_app. split; [done|]. eapply Forall_impl; [exact IH|]. set_solver.
Qed.

Lemma side_price_range L p : side_ok L -> p ∈ L.*1 -> in_s64 p.
Proof.
  intros (HL & _) ([q os] & -> & Hin)%list_elem_of_fmap. rewrite Forall_forall in HL. destruct (HL _ Hin) as [Hne HF].
  cbn [fst snd] in *. destruct os as [|o os]; [done|]. apply Forall_cons in HF as [[Ho Hr] _]. by rewrite <- Ho.
Qed.

Definition request_ok (b : Book) (o : Order) : Prop :=
  in_s64 (Price o) /\
  (Action o = EXECUTE -> 0 < Amount o /\ (Type_ o = LIMIT -> order_key o ∉ side_ids (get_side (Side o) b))).

Lemma request_feed asset o b mm :
  book_wf b -> book_ok b -> request_ok b o -> book_mirrors mm b ->
  let '(b', rs, us) := request asset o b in book_ok b' /\ book_mirrors (foldl feed mm us) b'.
Proof.
  intros Hwf Hok [Hp Hx] Hm. unfold request. destruct (Action o) eqn:EA.
  - destruct (Hx eq_refl) as [_ Hf]. unfold exec_order. set (opp := opposite (Side o)).
    pose proof (match_levels_side_ok (Side o) (Price o) (Amount o) _ (Hok opp)) as HS.
    pose proof (match_levels_mirrors (Side o) (Price o) (Amount o) _ _ (Hm opp) (proj2 (proj2 (Hok opp)))) as HM.
    pose proof (match_levels_prices (Side o) (Price o) (Amount o) (get_side opp b)) as HP.
    destruct (match_levels _ _ _ _) as [[q L'] ts]. cbn [snd] in HP.
    assert (HF : foldl feed mm ((fun tr => depth_update asset opp (t_price tr) (t_depth tr)) <$> ts) =
                 put_map opp (trade_levels ts (get_map opp mm)) mm).
    { apply feed_trades. eapply Forall_impl; [exact HP|]. intros tr Ht. exact (side_price_range _ _ (Hok opp) Ht). }
    assert (H1 : book_ok (put_side opp L' b)) by by apply put_side_ok.
    assert (H2 : book_mirrors (put_map opp (trade_levels ts (get_map opp mm)) mm) (put_side opp L' b)) by by apply put_map_mirrors.
    destruct (0 <? q); [|by rewrite HF]. destruct (Type_ o); [|by rewrite HF].
    rewrite foldl_app, HF. cbn [foldl]. rewrite feed_depth_update by done. unfold opp. rewrite get_put_opp'.
    destruct (wf_side (Side o) b Hwf) as [Hso _]. split.
    + apply put_side_ok; [done|]. by apply rest_order_side_ok; [apply Hok|done..|apply Hf].
    + apply put_map_mirrors; [done|]. eapply set_level_mirrors; [apply (H2 (Side o))|done|].
      intros p' Hne. unfold opp. rewrite get_put_opp'. by apply rest_order_depth.
  - unfold cancel_order. destruct (find_order _ _) as [r|] eqn:Er; [|done]. destruct (_ =? _); [|done].
    apply find_order_in in Er as [Hr Hk]. cbn [foldl].
    assert (Hpr : in_s64 (Price r)).
    { apply list_elem_of_bind in Hr as ([p os] & Ho & Hin). rewrite (side_order_price _ _ _ _ (Hok _) Hin Ho).
      eapply side_price_range; [apply Hok|]. by apply (list_elem_of_fmap_2 fst _ (p, os)). }
    rewrite feed_depth_update by done. split; [by apply put_side_ok, remove_order_side_ok|].
    apply put_map_mirrors; [done|]. eapply set_level_mirrors; [apply Hm|done|].
    intros p' Hne. apply remove_order_depth. intros os o' Hin Ho' He. apply Hne.
    rewrite <- (side_order_price _ _ _ _ (Hok (Side o)) Hin Ho'). f_equal.
    eapply order_key_inj; [apply Hok| |exact Hr|by rewrite He]. apply list_elem_of_bind. by exists (p', os).
Qed.

(** The requests of a run, each acceptable when its turn comes. *)
Fixpoint requests_ok (asset : Z) (reqs : list Order) (b : Book) : Prop :=
  match reqs with
  | [] => True
  | o :: r => request_ok b o /\ requests_ok asset r (request asset o b).1.1
  end.

(** The depth feed of a run mirrors the book, whatever updates went before. *)
Lemma spec_run_feed asset reqs b mm :
  book_wf b -> book_ok b -> requests_ok asset reqs b -> book_mirrors mm b ->
  let '(b', rs, us) := spec_run asset reqs b in book_ok b' /\ book_mirrors (foldl feed mm us) b'.
Proof.
  revert b mm. induction reqs as [|o r IH]; intros b mm Hwf Hok Hr Hm; cbn [spec_run]; [done|]. destruct Hr as [Ho Hr].
  pose proof (request_feed asset o b mm Hwf Hok Ho Hm) as H1.
  pose proof (request_wf asset o b Hwf (fun E => proj1 (proj2 Ho E))) as Hwf1.
  destruct (request asset o b) as [[b1 rs1] us1]. cbn [fst] in *. destruct H1 as [Hok1 Hm1].
  specialize (IH b1 _ Hwf1 Hok1 Hr Hm1). destruct (spec_run asset r b1) as [[b2 rs2] us2]. by rewrite foldl_app.
Qed.

(** Sequence numbers do not matter for the feed. *)
Lemma feed_number n us mm : foldl feed mm (number_up n us) = foldl feed mm us.
Proof. revert n mm. induction us as [|u us IH]; intros n mm; [done|]. cbn [number_up foldl]. by rewrite IH. Qed.

(** ** The trades in the reports *)

(** The executions of a request and of a run. *)
Definition request_trades (o : Order) (b : Book) : list Trade :=
  match Action o with
  | EXECUTE => (match_levels (Side o) (Price o) (Amount o) (get_side (opposite (Side o)) b)).2
  | CANCEL_ORDER => []
  end.
Fixpoint run_trades (asset : Z) (reqs : list Order) (b : Book) : list Trade :=
  match reqs with
  | [] => []
  | o :: r => request_trades o b ++ run_trades asset r (request asset o b).1.1
  end.

(** An order whose price is positive and whose value fits in the fields. *)
Definition priced (o : Order) : Prop := 0 < Price o /\ Amount o * Price o < 2 ^ 63 /\ Amount o < 2 ^ 32.
Definition trade_priced (tr : Trade) : Prop :=
  0 < t_qty tr < 2 ^ 32 /\ 0 < t_price tr /\ t_qty tr * t_price tr < 2 ^ 63.

Lemma priced_smaller o n : priced o -> 0 <= n <= Amount o -> priced (set_Amount n o).
Proof. intros (H1 & H2 & H3) Hn. unfold priced. cbn [Price Amount set_Amount]. split_and!; [done|nia|lia]. Qed.

Lemma match_fifo_priced p q os :
  0 < q -> Forall pos_order os -> Forall (fun o => Price o = p /\ priced o) os ->
  let '(q', os', ts) := match_fifo p q os in
  Forall (fun o => Price o = p /\ priced o) os' /\ Forall trade_priced ts.
Proof.
  revert q. induction os as [|o r IH]; intros q Hq Hpos HF; cbn [match_fifo]; [done|].
  apply Forall_cons in HF as [[Hp Ho] HF], Hpos as [Hpo Hpos]. unfold pos_order in Hpo.
  destruct (Z.leb_spec q 0); [lia|]. pose proof Ho as (P1 & P2 & P3). rewrite Hp in P1, P2.
  assert (Htr : forall l d, trade_priced (MkTrade p o (Z.min q (Amount o)) l d)).
  { intros l d. unfold trade_priced. cbn [t_qty t_price]. split_and!; [lia..|nia]. }
  destruct (Z.eqb_spec (Amount o - Z.min q (Amount o)) 0) as [Hz|Hz].
  - destruct (Z.ltb_spec 0 (q - Z.min q (Amount o))) as [Hl|Hl].
    + specialize (IH _ Hl Hpos HF). destruct (match_fifo p (q - Z.min q (Amount o)) r) as [[q' os'] ts].
      destruct IH as [I1 I2]. split; [done|]. by constructor.
    + destruct r as [|o' r]; cbn [match_fifo]; [split; [done|by apply Forall_singleton]|].
      destruct (Z.leb_spec (q - Z.min q (Amount o)) 0); [|lia]. split; [done|by apply Forall_singleton].
  - split; [|by apply Forall_singleton]. constructor; [|done]. split; [done|]. apply priced_smaller; [done|lia].
Qed.

Definition side_priced (L : side) : Prop := Forall (fun lv => Forall (fun o => Price o = lv.1 /\ priced o) lv.2) L.

Lemma match_levels_priced tk limit q L :
  0 <= q -> pos_side L -> side_priced L ->
  let '(q', L', ts) := match_levels tk limit q L in side_priced L' /\ Forall trade_priced ts.
Proof.
  revert q. induction L as [|[p os] L IH]; intros q Hq Hpos HL; cbn [match_levels]; [done|].
  destruct (Z.ltb_spec 0 q) as [Hq0|]; cbn [andb]; [|done]. destruct (crosses tk limit p); [|done].
  apply Forall_cons in HL as [Hos HL]. unfold pos_side in Hpos. rewrite side_orders_cons in Hpos.
  apply Forall_app in Hpos as [Hpo HpL].
  pose proof (match_fifo_priced p q os Hq0 Hpo Hos) as HF. pose proof (match_fifo_ok p q os Hq Hpo) as HO.
  destruct (match_fifo p q os) as [[q1 os1] ts1]. destruct HF as [F1 F2], HO as (Hq1 & _).
  destruct os1 as [|o1 os1]; [|split; [by constructor|done]].
  specialize (IH q1 Hq1 HpL HL). destruct (match_levels tk limit q1 L) as [[q2 L2] ts2]. destruct IH as [I1 I2].
  split; [done|]. by apply Forall_app.
Qed.

Lemma rest_order_priced asc o L : priced o -> side_priced L -> side_priced (rest_order asc o L).
Proof.
  intros Ho. induction 1 as [|[p os] L HF HL IH]; cbn [rest_order].
  { constructor; [by apply Forall_singleton|constructor]. }
  destruct (Z.eqb_spec p (Price o)) as [->|Hp]; [|destruct (SkipList.comp asc (Price o) p)].
  - constructor; [|done]. apply Forall_app. split; [done|by apply Forall_singleton].
  - constructor; [by apply Forall_singleton|by constructor].
  - by constructor.
Qed.

Lemma remove_order_priced id L : side_priced L -> side_priced (remove_order id L).
Proof.
  intros HL. apply Forall_forall. intros [p os] [_ Hin]%list_elem_of_filter.
  apply list_elem_of_fmap in Hin as ([p' os'] & [= -> ->] & Hin). unfold side_priced in HL. rewrite Forall_forall in HL.
  specialize (HL _ Hin). cbn [fst snd] in *. apply Forall_forall. intros o [_ Ho]%list_elem_of_filter.
  rewrite Forall_forall in HL. by apply HL.
Qed.

Definition book_priced (b : Book) : Prop := forall sd, side_priced (get_side sd b).
Lemma put_side_priced sd L b : book_priced b -> side_priced L -> book_priced (put_side sd L b).
Proof. intros Hb HL sd'. destruct sd, sd'; cbn; try done; [apply (Hb SELL)|apply (Hb BUY)]. Qed.

Lemma request_priced asset o b :
  book_wf b -> book_priced b -> (Action o = EXECUTE -> 0 < Amount o /\ priced o) ->
  book_priced (request asset o b).1.1 /\ Forall trade_priced (request_trades o b).
Proof.
  intros Hwf Hb Ho. unfold request, request_trades. destruct (Action o).
  - destruct (Ho eq_refl) as [Ha Hp]. unfold exec_order. destruct (wf_side (opposite (Side o)) b Hwf) as [_ Hpos].
    pose proof (match_levels_priced (Side o) (Price o) (Amount o) _ ltac:(lia) Hpos (Hb _)) as HM.
    pose proof (match_levels_ok (Side o) (Price o) (Amount o) _ ltac:(lia) Hpos) as HO.
    destruct (match_levels _ _ _ _) as [[q L'] ts]. destruct HM as [M1 M2], HO as (Hq & _). split; [|done].
    assert (H1 : book_priced (put_side (opposite (Side o)) L' b)) by by apply put_side_priced.
    destruct (0 <? q); [|done]. destruct (Type_ o); [|done]. cbn [fst]. apply put_side_priced; [done|].
    apply rest_order_priced; [|apply H1]. apply priced_smaller; [done|lia].
  - split; [|done]. unfold cancel_order. destruct (find_order _ _); [|done]. destruct (_ =? _); [|done]. cbn [fst].
    apply put_side_priced; [done|]. by apply remove_order_priced.
Qed.
