(* ===== verification/Interfaces.v ===== *)
(** What the containers promise to the order book.  [MapOps]/[MapSpec] is the
    hash map from order ids or prices to pointers, [IndexOps]/[IndexSpec] the
    index of the price levels ordered by price.  The book and the matching
    engine are defined and verified against these classes; the instances below
    discharge them with [FlatHashMap] and [SkipList]. *)

From Stdlib Require Import Sorting.Sorted.
From S2P Require Import Prelude SingleThreadedPool.
From S2P Require FlatHashMap SkipList.

Class MapOps (M V : Type) := {
  map_get : M -> Z -> option V;
  map_add : Z -> V -> M -> result M;
  map_del : Z -> M -> result M
}.

(** [map_room ks k]: a map that holds the keys [ks] has a place for the new key [k]. *)
Class MapSpec (M V : Type) {ops : MapOps M V} := {
  map_rep : M -> gmap Z V -> Prop;
  map_room : gset Z -> Z -> Prop;
  map_get_spec m g k : map_rep m g -> map_get m k = g !! k;
  map_add_spec m g k v :
    map_rep m g -> g !! k = None -> map_room (dom g) k ->
    exists m', map_add k v m = Ret m' /\ map_rep m' (<[k := v]> g);
  map_add_present m g k v v' :
    map_rep m g -> g !! k = Some v' -> map_add k v m = Ret m;
  map_del_spec m g k :
    map_rep m g -> exists m', map_del k m = Ret m' /\ map_rep m' (delete k g);
  map_room_mono ks ks' k : ks' ⊆ ks -> map_room ks k -> map_room ks' k
}.

(** The first argument is the direction: ascending for the ask side. *)
Class IndexOps (I V : Type) := {
  idx_head : bool -> I -> result (option V);
  idx_add : bool -> Z -> V -> I -> result I;
  idx_del : bool -> Z -> I -> result I
}.

(** [idx_rep asc t l n]: the index holds the association list [l], sorted in
    direction [asc], and has room for [n] more keys. *)
Class IndexSpec (I V : Type) {ops : IndexOps I V} := {
  idx_rep : bool -> I -> list (Z * V) -> nat -> Prop;
  idx_head_spec asc t l n : idx_rep asc t l n -> idx_head asc t = Ret (snd <$> head l);
  idx_add_spec asc t l n k v :
    idx_rep asc t l (S n) -> SkipList.interior asc k -> k ∉ l.*1 ->
    exists t', idx_add asc k v t = Ret t' /\
               idx_rep asc t' (SkipList.insert_sorted asc k v l) n;
  idx_del_spec asc t l n k v :
    idx_rep asc t l n -> (k, v) ∈ l ->
    exists t', idx_del asc k t = Ret t' /\ idx_rep asc t' (SkipList.remove_key k l) (S n);
  idx_sorted asc t l n :
    idx_rep asc t l n -> StronglySorted (fun a b => SkipList.comp asc a.1 b.1 = true) l
}.

(** ** The hash map *)

Section FlatHashMap.
Context {V : Type} (V0 : V) (s : nat).

Definition fhm_ops : MapOps (FlatHashMap.FlatHashMap (V := V)) V := {|
  map_get := FlatHashMap.GetVal V0 (2 ^ s);
  map_add := FlatHashMap.AddNode V0 (2 ^ s);
  map_del := FlatHashMap.DeleteNode V0 (2 ^ s)
|}.

(** The keys that share the home bucket of [k]. *)
Definition bucket_keys (ks : gset Z) (k : Z) : gset Z :=
  filter (fun k' => FlatHashMap.bucket (2 ^ s) k' = FlatHashMap.bucket (2 ^ s) k) ks.

Lemma bucket_load_keys (g : gmap Z V) k :
  FlatHashMap.bucket_load (2 ^ s) g k = size (bucket_keys (dom g) k).
Proof.
  unfold FlatHashMap.bucket_load, bucket_keys. rewrite <- size_dom. f_equal.
  apply set_eq. intros x. rewrite elem_of_dom, elem_of_filter, elem_of_dom.
  split.
  - intros [v [Hv Hb]%map_lookup_filter_Some]. split; [done|by exists v].
  - intros [Hb [v Hv]]. exists v. by apply map_lookup_filter_Some.
Qed.

Definition fhm_spec : MapSpec (ops := fhm_ops) FlatHashMap.FlatHashMap V.
Proof.
  refine {| map_rep := FlatHashMap.fhm_rep V0 (2 ^ s) : _ -> _ -> Prop;
            map_room := fun ks k => (size (bucket_keys ks k) < 16)%nat |}; simpl.
  - intros. by eapply FlatHashMap.fhm_GetVal.
  - intros m g k v Hr Hn Hl. eapply FlatHashMap.fhm_AddNode; try done. by rewrite bucket_load_keys.
  - intros. by eapply FlatHashMap.fhm_AddNode_present.
  - intros. by eapply FlatHashMap.fhm_DeleteNode.
  - intros ks ks' k Hsub Hl. eapply Nat.le_lt_trans; [|exact Hl]. apply subseteq_size.
    unfold bucket_keys. set_solver.
Defined.
End FlatHashMap.

(** ** The skip list *)

Section SkipList.
Context {V : Type} (PoolSize MaxLevel : nat).

#[export] Instance sl_ops : IndexOps (SkipList.SkipList V) V := {|
  idx_head _ := SkipList.GetHead MaxLevel;
  idx_add asc := SkipList.AddNode asc PoolSize MaxLevel;
  idx_del asc := SkipList.DeleteNode asc PoolSize MaxLevel
|}.

#[export] Instance sl_spec : IndexSpec (SkipList.SkipList V) V.
Proof.
  refine {| idx_rep asc := SkipList.sl_rep asc PoolSize MaxLevel |}; simpl.
  - intros. by eapply SkipList.sl_rep_GetHead.
  - intros. by eapply SkipList.sl_rep_AddNode.
  - intros. by eapply SkipList.sl_rep_DeleteNode.
  - intros asc t l n Hr. by apply SkipList.sl_rep_sorted in Hr as [? _].
Defined.
End SkipList.
