(* ===== verification/OrderBook.v ===== *)
(** [OrderBook] (src/market_server/matching_engine/include/order_book.hpp): one
    side of the book.  The two sides share by reference the node pool, the level
    pool and the map of resting orders; the record [Store] is that shared state
    together with the storage of the pools.  Each side owns its map from prices
    to levels and its index of the levels.

    [side_ok] and [store_ok] relate this state to the list of levels of each
    side, each with its pointer and the pointers of its orders in time order. *)

From Stdlib Require Import Sorting.Sorted.
From S2P Require Import Prelude WireTypes SingleThreadedPool PriceLevel Interfaces.
From S2P Require SkipList.

Section OrderBook.
Context {OM FM IX : Type} {om_ops : MapOps OM nat} {fm_ops : MapOps FM nat} {ix_ops : IndexOps IX nat}.
Context (NodePoolSize LevelPoolSize : nat).

Record Store := MkStore {
  heap : NodeHeap;                  (* storage of OrderNodePool *)
  levels : gmap nat PriceLevel;     (* storage of PriceLevelPool *)
  OrderNodePool : StackPool;
  PriceLevelPool : StackPool;
  OrderMap : OM
}.

Record OrderBook := MkBook {
  FastMap : FM;
  BestPricesMap : IX
}.

Definition level (st : Store) (p : nat) : PriceLevel := default level0 (levels st !! p).
Definition set_heap (h : NodeHeap) (st : Store) : Store :=
  MkStore h (levels st) (OrderNodePool st) (PriceLevelPool st) (OrderMap st).
Definition set_level (p : nat) (l : PriceLevel) (st : Store) : Store :=
  MkStore (heap st) (<[p := l]> (levels st)) (OrderNodePool st) (PriceLevelPool st) (OrderMap st).
Definition set_node_pool (po : StackPool) (st : Store) : Store :=
  MkStore (heap st) (levels st) po (PriceLevelPool st) (OrderMap st).
Definition set_level_pool (po : StackPool) (st : Store) : Store :=
  MkStore (heap st) (levels st) (OrderNodePool st) po (OrderMap st).
Definition set_order_map (om : OM) (st : Store) : Store :=
  MkStore (heap st) (levels st) (OrderNodePool st) (PriceLevelPool st) om.

Definition GetBestLevel (asc : bool) (b : OrderBook) : result (option nat) :=
  idx_head asc (BestPricesMap b).

Definition GetBestOffer (asc : bool) (st : Store) (b : OrderBook) : result (option nat) :=
  bestPrice ← idx_head asc (BestPricesMap b);
  match bestPrice with
  | None => Ret None
  | Some bestPrice => Ret (PeekOrder (level st bestPrice))
  end.

(** Returns the level the order was appended to. *)
Definition AddLimitOrder (asc : bool) (order : nat) (st : Store) (b : OrderBook)
    : result (nat * Store * OrderBook) :=
  let key := GetPrice (heap st) order in
  '(curPrice, st, b) ←
    match map_get (FastMap b) key with
    | Some curPrice => Ret (curPrice, st, b)
    | None =>
        let '(acquired, po) := Acquire (PriceLevelPool st) in
        match acquired with
        | None => Crash Terminate
        | Some curPrice =>
            let st := set_level_pool po st in
            '(l, np) ← ClearPriceLevel NodePoolSize (heap st) (level st curPrice) (OrderNodePool st);
            let st := set_level curPrice (SetPrice key l) (set_node_pool np st) in
            fm ← map_add key curPrice (FastMap b);
            bp ← idx_add asc key curPrice (BestPricesMap b);
            Ret (curPrice, st, MkBook fm bp)
        end
    end;
  '(h, l) ← AddOrder order (heap st) (level st curPrice);
  Ret (curPrice, set_level curPrice l (set_heap h st), b).

(** A refused release is only logged.  Returns the level when it still holds
    orders. *)
Definition release_node (order : nat) (st : Store) : Store :=
  set_node_pool (snd (Release NodePoolSize (Some order) (OrderNodePool st))) st.
Definition release_level (p : nat) (st : Store) : Store :=
  set_level_pool (snd (Release LevelPoolSize (Some p) (PriceLevelPool st))) st.

Definition DeleteOrder (asc : bool) (order : nat) (st : Store) (b : OrderBook)
    : result (option nat * Store * OrderBook) :=
  let key := GetPrice (heap st) order in
  om ← map_del (GetId (heap st) order) (OrderMap st);
  let st := set_order_map om st in
  match map_get (FastMap b) key with
  | None => Ret (None, release_node order st, b)
  | Some curPrice =>
      let '(emptied, h, l) := PriceLevel.DeleteOrder order (heap st) (level st curPrice) in
      let st := set_level curPrice l (set_heap h st) in
      if emptied then
        fm ← map_del key (FastMap b);
        bp ← idx_del asc key (BestPricesMap b);
        Ret (None, release_node order (release_level curPrice st), MkBook fm bp)
      else Ret (Some curPrice, release_node order st, b)
  end.

End OrderBook.

Arguments Store : clear implicits.
Arguments OrderBook : clear implicits.

(** ** Representation *)

(** A level of one side: its price, its pointer and the pointers of its orders,
    oldest first. *)
Record Level := MkLV { lprice : Z; lptr : nat; lids : list nat }.

Definition lv_kv (lv : Level) : Z * nat := (lprice lv, lptr lv).
Definition all_ids (L : list Level) : list nat := L ≫= lids.
Definition levels_map (L : list Level) : gmap Z nat := list_to_map (lv_kv <$> L).

(** Append the order [x] of price [p] to its level; [ptr] is the pointer of the
    level if it is new. *)
Fixpoint add_level (asc : bool) (p : Z) (ptr x : nat) (L : list Level) : list Level :=
  match L with
  | [] => [MkLV p ptr [x]]
  | lv :: r =>
      if lprice lv =? p then MkLV p (lptr lv) (lids lv ++ [x]) :: r
      else if SkipList.comp asc p (lprice lv) then MkLV p ptr [x] :: L
      else lv :: add_level asc p ptr x r
  end.

(** The order resting in a node, with what the book requires of it. *)
Definition resting (h : NodeHeap) (x : nat) : Order := NodeOrder (node h x).
Definition id_map (h : NodeHeap) (ids : list nat) : gmap Z nat :=
  list_to_map ((fun x => (GetId h x, x)) <$> ids).

Definition sorted_levels (asc : bool) (L : list Level) : Prop :=
  StronglySorted (fun a b => SkipList.comp asc a.1 b.1 = true) (lv_kv <$> L).

Section Lists.
Context (asc : bool).

Lemma sorted_split L1 lv L2 :
  sorted_levels asc (L1 ++ lv :: L2) ->
  Forall (fun lv' => SkipList.comp asc (lprice lv') (lprice lv) = true) L1 /\
  Forall (fun lv' => SkipList.comp asc (lprice lv) (lprice lv') = true) L2.
Proof.
  unfold sorted_levels. induction L1 as [|a L1 IH]; simpl; intros [Hs Ha]%StronglySorted_inv.
  - split; [done|]. by apply Forall_fmap in Ha.
  - destruct (IH Hs) as [H1 H2]. split; [|done]. constructor; [|done].
    rewrite fmap_app in Ha. apply Forall_app in Ha as [_ [? _]%Forall_cons]. done.
Qed.

Lemma add_level_present p ptr x L1 lv L2 :
  sorted_levels asc (L1 ++ lv :: L2) -> lprice lv = p ->
  add_level asc p ptr x (L1 ++ lv :: L2) = L1 ++ MkLV p (lptr lv) (lids lv ++ [x]) :: L2.
Proof.
  intros Hs <-. destruct (sorted_split _ _ _ Hs) as [H1 _]. clear Hs.
  induction L1 as [|a L1 IH]; simpl; [by rewrite Z.eqb_refl|].
  apply Forall_cons in H1 as [Ha H1]. rewrite IH by done.
  rewrite (SkipList.comp_asym _ _ _ Ha). destruct (Z.eqb_spec (lprice a) (lprice lv)) as [He|]; [|done].
  by rewrite He, SkipList.comp_irrefl in Ha.
Qed.

Lemma add_level_absent p ptr x L :
  p ∉ lprice <$> L ->
  lv_kv <$> add_level asc p ptr x L = SkipList.insert_sorted asc p ptr (lv_kv <$> L) /\
  exists L1 L2, L = L1 ++ L2 /\ add_level asc p ptr x L = L1 ++ MkLV p ptr [x] :: L2.
Proof.
  induction L as [|lv L IH]; simpl; intros Hni.
  { split; [done|]. by exists [], []. }
  destruct (Z.eqb_spec (lprice lv) p); [set_solver|].
  destruct (SkipList.comp asc p (lprice lv)).
  - split; [done|]. by exists [], (lv :: L).
  - destruct IH as (Hk & L1 & L2 & -> & Ha); [set_solver|]. split; [exact (f_equal (cons (lv_kv lv)) Hk)|].
    exists (lv :: L1), L2. by rewrite Ha.
Qed.

Lemma lv_kv_keys L : (lv_kv <$> L).*1 = lprice <$> L.
Proof. rewrite <- list_fmap_compose. done. Qed.

Lemma sorted_nodup L : sorted_levels asc L -> NoDup (lprice <$> L).
Proof.
  unfold sorted_levels. induction L as [|lv L IH]; simpl; intros Hs; [constructor|].
  apply StronglySorted_inv in Hs as [Hs Ha]. constructor; [|by apply IH].
  intros (lv' & He & Hin)%list_elem_of_fmap. rewrite Forall_fmap, Forall_forall in Ha.
  specialize (Ha _ Hin). simpl in Ha. by rewrite He, SkipList.comp_irrefl in Ha.
Qed.

Lemma levels_map_lookup L1 lv L2 :
  NoDup (lprice <$> (L1 ++ lv :: L2)) ->
  levels_map (L1 ++ lv :: L2) !! lprice lv = Some (lptr lv).
Proof.
  intros Hnd. unfold levels_map. apply elem_of_list_to_map_1.
  - by rewrite lv_kv_keys.
  - apply list_elem_of_fmap. exists lv. split; [done|set_solver].
Qed.

Lemma levels_map_none L p : p ∉ lprice <$> L -> levels_map L !! p = None.
Proof. intros Hp. unfold levels_map. apply not_elem_of_list_to_map_1. by rewrite lv_kv_keys. Qed.

Lemma levels_map_remove L1 lv L2 :
  NoDup (lprice <$> (L1 ++ lv :: L2)) ->
  delete (lprice lv) (levels_map (L1 ++ lv :: L2)) = levels_map (L1 ++ L2).
Proof.
  intros Hnd. unfold levels_map. rewrite <- lv_kv_keys in Hnd.
  assert (Hp : lv_kv <$> (L1 ++ lv :: L2) ≡ₚ lv_kv lv :: (lv_kv <$> (L1 ++ L2)))
    by (by rewrite <- Permutation_middle).
  rewrite (list_to_map_proper _ _ Hnd Hp). cbn [list_to_map foldr].
  apply delete_insert_id, not_elem_of_list_to_map_1.
  rewrite Hp in Hnd. by apply NoDup_cons in Hnd as [? _].
Qed.

Lemma all_ids_app L1 L2 : all_ids (L1 ++ L2) = all_ids L1 ++ all_ids L2.
Proof. unfold all_ids. apply bind_app. Qed.
Lemma all_ids_cons lv L : all_ids (lv :: L) = lids lv ++ all_ids L.
Proof. done. Qed.

Lemma elem_all_ids lv L x : lv ∈ L -> x ∈ lids lv -> x ∈ all_ids L.
Proof. intros. unfold all_ids. apply list_elem_of_bind. eauto. Qed.

Lemma elem_all_ids_inv L x : x ∈ all_ids L -> exists lv, lv ∈ L /\ x ∈ lids lv.
Proof. unfold all_ids. rewrite list_elem_of_bind. naive_solver. Qed.

(** Adding an order changes the pointers in use by one order and, for a new
    price, one level. *)
Lemma add_level_ids p ptr x L : all_ids (add_level asc p ptr x L) ≡ₚ x :: all_ids L.
Proof.
  induction L as [|lv L IH]; simpl; [done|].
  destruct (lprice lv =? p); [|destruct (SkipList.comp asc p (lprice lv)); [done|]].
  - rewrite !all_ids_cons. simpl. by rewrite <- app_assoc, Permutation_middle.
  - rewrite !all_ids_cons, IH. by rewrite Permutation_middle.
Qed.
End Lists.

Lemma id_map_proper h ids ids' :
  NoDup (GetId h <$> ids) -> ids ≡ₚ ids' -> id_map h ids = id_map h ids'.
Proof.
  intros Hnd Hp. unfold id_map. apply list_to_map_proper.
  - rewrite <- list_fmap_compose. done.
  - by rewrite Hp.
Qed.

Lemma id_map_ext h h' ids :
  (forall x, GetId h' x = GetId h x) -> id_map h' ids = id_map h ids.
Proof.
  intros He. unfold id_map. f_equal. apply list_fmap_ext. intros i x Hx. by rewrite He.
Qed.

Lemma id_map_lookup h ids k x :
  NoDup (GetId h <$> ids) -> id_map h ids !! k = Some x <-> x ∈ ids /\ GetId h x = k.
Proof.
  intros Hnd. unfold id_map. rewrite <- elem_of_list_to_map.
  - rewrite list_elem_of_fmap. naive_solver.
  - rewrite <- list_fmap_compose. done.
Qed.

Lemma id_map_none h ids k : k ∉ GetId h <$> ids -> id_map h ids !! k = None.
Proof.
  intros Hk. unfold id_map. apply not_elem_of_list_to_map_1. rewrite <- list_fmap_compose. done.
Qed.

(** ** The invariant *)

Section Proofs.
Context {OM FM IX : Type} {om_ops : MapOps OM nat} {fm_ops : MapOps FM nat} {ix_ops : IndexOps IX nat}.
Context {om_spec : MapSpec OM nat} {fm_spec : MapSpec FM nat} {ix_spec : IndexSpec IX nat}.
Context (NodePoolSize LevelPoolSize IxSize : nat) (HNP : Z.of_nat NodePoolSize < 2 ^ 63).
Abbreviation Store := (Store OM).
Abbreviation OrderBook := (OrderBook FM IX).
Implicit Types (st : Store) (b : OrderBook) (L R : list Level).

Definition order_ok (p : Z) (o : Order) : Prop := Price o = p /\ in_u32 (Amount o).

Record lv_ok (st : Store) (lv : Level) : Prop := {
  lo_nonempty : lids lv <> [];
  lo_links : level_links (heap st) (level st (lptr lv)) (lids lv);
  lo_depth : level_depth (heap st) (level st (lptr lv)) (lids lv);
  lo_price : LPrice (level st (lptr lv)) = lprice lv;
  lo_orders : Forall (fun x => order_ok (lprice lv) (resting (heap st) x)) (lids lv)
}.

(** The maps of one side. *)
Definition book_ok (asc : bool) (b : OrderBook) (L : list Level) : Prop :=
  (exists n, idx_rep asc (BestPricesMap b) (lv_kv <$> L) n /\ (n + length L = IxSize)%nat) /\
  map_rep (FastMap b) (levels_map L).

(** The shared state: [ids] are the nodes in use and [ptrs] the levels in use. *)
Record store_ok (st : Store) (ids ptrs freeN freeL : list nat) : Prop := {
  so_nodes : pool_rep NodePoolSize (OrderNodePool st) freeN;
  so_nperm : freeN ++ ids ≡ₚ seq 0 NodePoolSize;
  so_levels : pool_rep LevelPoolSize (PriceLevelPool st) freeL;
  so_lperm : freeL ++ ptrs ≡ₚ seq 0 LevelPoolSize;
  so_empty : Forall (fun p => LHead (level st p) = None) freeL;
  so_ids : NoDup (GetId (heap st) <$> ids);
  so_map : map_rep (OrderMap st) (id_map (heap st) ids)
}.

Lemma book_sorted asc b L : book_ok asc b L -> sorted_levels asc L.
Proof. intros [(n & Hi & _) _]. by eapply idx_sorted. Qed.

Lemma store_perm st ids ids' ptrs ptrs' freeN freeL :
  ids ≡ₚ ids' -> ptrs ≡ₚ ptrs' ->
  store_ok st ids ptrs freeN freeL -> store_ok st ids' ptrs' freeN freeL.
Proof.
  intros Hi Hp [? Hn ? Hl ? Hnd ?]. split; try done.
  - by rewrite <- Hi.
  - by rewrite <- Hp.
  - by rewrite <- Hi.
  - by rewrite <- (id_map_proper _ _ _ Hnd Hi).
Qed.

Lemma store_nodup st ids ptrs freeN freeL :
  store_ok st ids ptrs freeN freeL -> NoDup (freeN ++ ids) /\ NoDup (freeL ++ ptrs).
Proof. intros [? Hn ? Hl ? ? ?]. rewrite Hn, Hl. split; apply NoDup_seq. Qed.

Lemma store_ids_length st ids ptrs freeN freeL :
  store_ok st ids ptrs freeN freeL -> (length ids <= NodePoolSize)%nat.
Proof.
  clear HNP. intros [? Hn ? ? ? ? ?]. apply Permutation_length in Hn.
  rewrite length_app, length_seq in Hn. lia.
Qed.

Lemma store_bound st ids ptrs freeN freeL :
  store_ok st ids ptrs freeN freeL ->
  (forall x, x ∈ ids -> (x < NodePoolSize)%nat /\ x ∉ freeN) /\
  (forall p, p ∈ ptrs -> (p < LevelPoolSize)%nat /\ p ∉ freeL).
Proof.
  clear HNP. intros Hs. destruct (store_nodup _ _ _ _ _ Hs) as [Hn Hl]. destruct Hs as [? Hnp ? Hlp ? ? ?].
  apply NoDup_app in Hn as (_ & Hn & _). apply NoDup_app in Hl as (_ & Hl & _). split.
  - intros x Hx. split; [|intros ?; by apply (Hn x)].
    assert (Hin : x ∈ seq 0 NodePoolSize) by (rewrite <- Hnp; set_solver).
    apply elem_of_seq in Hin. lia.
  - intros x Hx. split; [|intros ?; by apply (Hl x)].
    assert (Hin : x ∈ seq 0 LevelPoolSize) by (rewrite <- Hlp; set_solver).
    apply elem_of_seq in Hin. lia.
Qed.

(** A level depends on its own nodes and its own record only. *)
Lemma lv_ok_frame st st' lv :
  (forall x, x ∈ lids lv -> node (heap st') x = node (heap st) x) ->
  level st' (lptr lv) = level st (lptr lv) -> lv_ok st lv -> lv_ok st' lv.
Proof.
  intros Hn Hl [Hne [Hh Ht Hs Hd Hnd] Hdep Hp Ho]. split; try done.
  - rewrite Hl. split; try done. eapply dll_frame; [|exact Hd]. intros x Hx. by rewrite Hn.
  - unfold level_depth in *. rewrite Hl, Hdep. f_equal. symmetry. apply qty_ext.
    intros x Hx. unfold GetAmount. by rewrite Hn.
  - by rewrite Hl.
  - rewrite Forall_forall in Ho |- *. intros x Hx. unfold resting. rewrite Hn by done. by apply Ho.
Qed.

Lemma lvs_frame st st' L :
  (forall x, x ∈ all_ids L -> node (heap st') x = node (heap st) x) ->
  (forall p, p ∈ lptr <$> L -> level st' p = level st p) ->
  Forall (lv_ok st) L -> Forall (lv_ok st') L.
Proof.
  intros Hn Hl HF. rewrite Forall_forall in HF |- *. intros lv Hlv. eapply lv_ok_frame.
  - intros x Hx. apply Hn. by eapply elem_all_ids.
  - apply Hl. by apply list_elem_of_fmap_2.
  - by apply HF.
Qed.

Lemma level_set_eq p l st : level (set_level p l st) p = l.
Proof. unfold level, set_level. simpl. by rewrite lookup_insert_eq. Qed.
Lemma level_set_ne p q l st : p <> q -> level (set_level p l st) q = level st q.
Proof. intros. unfold level, set_level. simpl. by rewrite lookup_insert_ne. Qed.

(** Appending [x] to the level at [ptr]. *)
Lemma append_ok st ptr ids x p :
  level_links (heap st) (level st ptr) ids -> level_depth (heap st) (level st ptr) ids ->
  LPrice (level st ptr) = p -> Forall (fun y => order_ok p (resting (heap st) y)) ids ->
  x ∉ ids -> order_ok p (resting (heap st) x) -> (length ids < NodePoolSize)%nat ->
  exists h l, AddOrder x (heap st) (level st ptr) = Ret (h, l) /\
    let st' := set_level ptr l (set_heap h st) in
    lv_ok st' (MkLV p ptr (ids ++ [x])) /\
    (forall y, resting h y = resting (heap st) y) /\
    (forall y, y ∉ ids -> y <> x -> node h y = node (heap st) y).
Proof.
  intros Hl Hd Hp Ho Hx Hxo Hlen.
  destruct (AddOrder_links _ _ _ x Hl Hx) as (h & l & HA & Hl' & HP & HT & Hord & Hfr); [lia|].
  exists h, l. split; [done|]. cbn zeta. split; [|split; [exact Hord|exact Hfr]].
  split; cbn [lids lptr lprice]; rewrite ?level_set_eq; try done.
  - by destruct ids.
  - unfold level_depth in *. simpl. rewrite HT, u32_u64, qty_app. simpl. rewrite Z.add_0_r.
    rewrite (u32_add_cong _ _ _ Hd). f_equal. unfold GetAmount. rewrite Hord. f_equal.
    symmetry. apply qty_ext. intros y _. unfold GetAmount. by rewrite Hord.
  - by rewrite HP.
  - simpl. apply Forall_app. split; [|constructor; [|done]].
    + eapply Forall_impl; [exact Ho|]. simpl. intros y Hy. unfold resting. by rewrite Hord.
    + unfold resting. by rewrite Hord.
Qed.

Lemma store_heap_ext st h l ptr ids ptrs freeN freeL :
  (forall y, GetId h y = GetId (heap st) y) -> ptr ∉ freeL ->
  store_ok st ids ptrs freeN freeL ->
  store_ok (set_level ptr l (set_heap h st)) ids ptrs freeN freeL.
Proof.
  intros Hh Hp [? ? ? ? He Hnd Hm]. split; simpl; try done.
  - rewrite Forall_forall in He |- *. intros q Hq. rewrite level_set_ne by set_solver. by apply He.
  - erewrite list_fmap_ext; [exact Hnd|]. intros i y _. apply Hh.
  - by rewrite (id_map_ext (heap st)).
Qed.

Lemma resting_id h h' : (forall y, resting h y = resting h' y) -> forall y, GetId h y = GetId h' y.
Proof. intros Hr y. unfold GetId. unfold resting in Hr. by rewrite Hr. Qed.

Lemma book_ok_same_keys asc b L L' :
  lv_kv <$> L' = lv_kv <$> L -> book_ok asc b L -> book_ok asc b L'.
Proof.
  intros Hk [(n & Hi & Hn) Hm]. unfold book_ok, levels_map. rewrite Hk. split; [|done].
  exists n. split; [done|]. apply (f_equal length) in Hk. rewrite !length_fmap in Hk. lia.
Qed.

(** A pointer list without duplicates identifies the level. *)
Lemma lptr_ne L1 lv L2 q : NoDup (lptr <$> (L1 ++ lv :: L2)) -> q ∈ lptr <$> (L1 ++ L2) -> q <> lptr lv.
Proof.
  rewrite fmap_app. simpl. rewrite <- Permutation_middle. intros [Hni _]%NoDup_cons Hq ->.
  apply Hni. by rewrite <- fmap_app.
Qed.

Lemma AddLimitOrder_existing asc st b L1 lv L2 R freeN freeL x :
  book_ok asc b (L1 ++ lv :: L2) -> Forall (lv_ok st) ((L1 ++ lv :: L2) ++ R) ->
  store_ok st (x :: all_ids ((L1 ++ lv :: L2) ++ R)) (lptr <$> ((L1 ++ lv :: L2) ++ R)) freeN freeL ->
  GetPrice (heap st) x = lprice lv -> in_u32 (Amount (resting (heap st) x)) ->
  exists st', AddLimitOrder NodePoolSize asc x st b = Ret (lptr lv, st', b) /\
    let L' := L1 ++ MkLV (lprice lv) (lptr lv) (lids lv ++ [x]) :: L2 in
    book_ok asc b L' /\ Forall (lv_ok st') (L' ++ R) /\
    store_ok st' (all_ids (L' ++ R)) (lptr <$> (L' ++ R)) freeN freeL /\
    (forall y, resting (heap st') y = resting (heap st) y).
Proof.
  intros Hb HF Hs Hp Ha.
  pose proof (sorted_nodup _ _ (book_sorted _ _ _ Hb)) as Hnd.
  unfold AddLimitOrder. rewrite Hp, (map_get_spec _ _ _ (proj2 Hb)), levels_map_lookup by done.
  cbn [mbind result_bind].
  destruct (store_nodup _ _ _ _ _ Hs) as [Hn Hl].
  apply NoDup_app in Hn as (_ & _ & Hn). apply NoDup_cons in Hn as [Hx Hids].
  apply NoDup_app in Hl as (_ & _ & Hptr).
  destruct (store_bound _ _ _ _ _ Hs) as [_ Hbnd].
  assert (Hperm : (L1 ++ lv :: L2) ++ R ≡ₚ lv :: (L1 ++ L2) ++ R).
  { rewrite <- (Permutation_middle L1). done. }
  assert (Hx' : x ∉ lids lv).
  { intros Hin. apply Hx. eapply elem_all_ids; [|exact Hin]. set_solver. }
  assert (Hlv : lv_ok st lv) by (rewrite Forall_forall in HF; apply HF; set_solver).
  destruct Hlv as [_ Hll Hld Hlp Hlo].
  pose proof (store_ids_length _ _ _ _ _ Hs) as Hlen.
  destruct (append_ok st (lptr lv) (lids lv) x (lprice lv) Hll Hld Hlp Hlo Hx')
    as (h & l & HA & Hlv' & Hord & Hfr); [done| |].
  { simpl in Hlen. rewrite !all_ids_app, all_ids_cons, !length_app in Hlen. lia. }
  rewrite HA. cbn [mbind result_bind]. eexists. split; [done|]. cbn zeta in *.
  assert (Hidp : all_ids ((L1 ++ lv :: L2) ++ R) ≡ₚ lids lv ++ all_ids ((L1 ++ L2) ++ R)).
  { unfold all_ids at 1. rewrite Hperm. done. }
  rewrite Hidp in Hids, Hx. rewrite Hperm in Hptr. apply NoDup_app in Hids as (_ & Hids & _).
  split_and!.
  - eapply book_ok_same_keys; [|exact Hb]. by rewrite !fmap_app.
  - assert (Hrest : Forall (lv_ok (set_level (lptr lv) l (set_heap h st))) ((L1 ++ L2) ++ R)).
    { eapply (lvs_frame st).
      - intros y Hy. apply Hfr; [|set_solver]. intros Hin. by apply (Hids y).
      - intros q Hq. rewrite level_set_ne; [done|]. intros <-. by apply NoDup_cons in Hptr as [? _].
      - rewrite Hperm in HF. by apply Forall_cons in HF as [_ HF]. }
    rewrite !Forall_app, ?Forall_cons in *. naive_solver.
  - eapply store_perm; [| |apply store_heap_ext; [apply resting_id; exact Hord| |exact Hs]].
    + rewrite Hidp. rewrite !all_ids_app, all_ids_cons. simpl. solve_Permutation.
    + by rewrite !fmap_app.
    + destruct (Hbnd (lptr lv)) as [_ ?]; [|done]. apply list_elem_of_fmap_2. set_solver.
  - done.
Qed.

Lemma store_acquire_level st ids ptrs freeN freeL q po l :
  store_ok st ids ptrs freeN (freeL ++ [q]) -> pool_rep LevelPoolSize po freeL ->
  store_ok (set_level q l (set_node_pool (OrderNodePool st) (set_level_pool po st)))
    ids (q :: ptrs) freeN freeL.
Proof.
  intros Hs Hpo. destruct (store_nodup _ _ _ _ _ Hs) as [_ Hl].
  destruct Hs as [? ? ? Hlp He ? ?]. split; simpl; try done.
  - rewrite <- Hlp, <- app_assoc. done.
  - apply Forall_app in He as [He _]. rewrite Forall_forall in He |- *. intros p Hp.
    rewrite level_set_ne; [by apply He|]. intros <-. rewrite <- app_assoc in Hl.
    apply NoDup_app in Hl as (_ & Hd & _). apply (Hd _ Hp). set_solver.
Qed.

Lemma AddLimitOrder_new asc st b L R freeN freeL q x :
  let p := GetPrice (heap st) x in
  book_ok asc b L -> Forall (lv_ok st) (L ++ R) ->
  store_ok st (x :: all_ids (L ++ R)) (lptr <$> (L ++ R)) freeN (freeL ++ [q]) ->
  p ∉ lprice <$> L -> SkipList.interior asc p -> in_u32 (Amount (resting (heap st) x)) ->
  (length L < IxSize)%nat -> map_room (dom (levels_map L)) p ->
  exists st' b', AddLimitOrder NodePoolSize asc x st b = Ret (q, st', b') /\
    let L' := add_level asc p q x L in
    book_ok asc b' L' /\ Forall (lv_ok st') (L' ++ R) /\
    store_ok st' (all_ids (L' ++ R)) (lptr <$> (L' ++ R)) freeN freeL /\
    (forall y, resting (heap st') y = resting (heap st) y).
Proof.
  intros p [(n & Hi & Hn) Hm] HF Hs Hni Hint Ha Hlen Hroom.
  unfold AddLimitOrder. fold p. rewrite (map_get_spec _ _ _ Hm), levels_map_none by done.
  destruct (acquire_snoc _ _ _ _ (so_levels _ _ _ _ _ Hs)) as (po & -> & Hpo).
  assert (HH : LHead (level st q) = None).
  { pose proof (so_empty _ _ _ _ _ Hs) as He. apply Forall_app in He as [_ He].
    by apply Forall_cons in He as [? _]. }
  unfold ClearPriceLevel. change (level (set_level_pool po st) q) with (level st q). rewrite HH.
  assert (Hrc : forall fu h pl, release_chain fu NodePoolSize h None pl = Ret pl) by (by intros []).
  rewrite Hrc. cbn [mbind result_bind].
  destruct (map_add_spec _ _ p q Hm) as (fm & -> & Hm'); [by apply levels_map_none|done|].
  cbn [mbind result_bind].
  destruct n as [|n]; [lia|].
  destruct (idx_add_spec asc _ _ n p q Hi Hint) as (bp & -> & Hi'); [by rewrite lv_kv_keys|].
  cbn [mbind result_bind]. unfold SetPrice. cbn [LPrice LSize TotalAmount LHead LTail].
  set (l0 := MkLevel p 0 0 None None).
  pose proof (store_acquire_level _ _ _ _ _ q po l0 Hs Hpo) as Hs1.
  change (OrderNodePool st) with (OrderNodePool (set_level_pool po st)) in Hs1.
  set (st1 := set_level q l0 _) in *.
  destruct (store_nodup _ _ _ _ _ Hs1) as [Hn1 Hl1].
  apply NoDup_app in Hn1 as (_ & _ & Hn1). apply NoDup_cons in Hn1 as [Hx _].
  apply NoDup_app in Hl1 as (_ & Hdq & Hl1). apply NoDup_cons in Hl1 as [Hq _].
  assert (Hlq : level st1 q = l0) by apply level_set_eq.
  pose proof (store_ids_length _ _ _ _ _ Hs) as Hln. simpl in Hln.
  destruct (append_ok st1 q [] x p) as (h & l & HA & Hlv' & Hord & Hfr).
  { rewrite Hlq. split; simpl; try done. constructor. }
  { by rewrite Hlq. } { by rewrite Hlq. } { constructor. } { set_solver. } { done. } { simpl; lia. }
  rewrite HA. cbn [mbind result_bind]. do 2 eexists. split; [done|]. cbn zeta in *.
  set (st2 := set_level q l (set_heap h st1)) in *.
  assert (HF2 : Forall (lv_ok st2) (L ++ R)).
  { eapply (lvs_frame st); [| |done].
    - intros y Hy. unfold st2. simpl. rewrite Hfr; [done|set_solver|]. intros ->. by apply Hx.
    - intros r Hr. unfold st2, st1. rewrite level_set_ne by (intros <-; by apply Hq).
      change (level st1 r = level st r). unfold st1. rewrite level_set_ne by (intros <-; by apply Hq). done. }
  destruct (add_level_absent asc p q x L Hni) as (Hkv & L1 & L2 & HL & Hadd).
  split_and!.
  - unfold book_ok. simpl. rewrite Hkv. split.
    + exists n. split; [done|]. apply (f_equal length) in Hadd. rewrite HL in Hadd at 1. rewrite <- HL in Hadd.
      rewrite Hadd. rewrite HL in Hn. rewrite !length_app in *. simpl. lia.
    + unfold levels_map. rewrite Hkv. rewrite (list_to_map_proper _ ((p, q) :: (lv_kv <$> L))).
      * exact Hm'.
      * rewrite <- Hkv, Hadd, lv_kv_keys. rewrite fmap_app. simpl.
        rewrite <- Permutation_middle, <- fmap_app, <- HL. constructor; [done|].
        apply (sorted_nodup asc). eapply idx_sorted, Hi.
      * rewrite <- Hkv, Hadd. rewrite fmap_app. simpl.
        rewrite <- Permutation_middle, <- fmap_app, <- HL. done.
  - rewrite Hadd. rewrite HL in HF2. rewrite !Forall_app, ?Forall_cons in *. naive_solver.
  - eapply store_perm; [| |apply store_heap_ext; [apply resting_id; exact Hord| |exact Hs1]].
    + rewrite !all_ids_app, add_level_ids. done.
    + rewrite Hadd. rewrite HL. rewrite !fmap_app. simpl. solve_Permutation.
    + intros Hin. apply (Hdq _ Hin). set_solver.
  - exact Hord.
Qed.

(** [AddLimitOrder] appends the order at the end of its price level, creating
    the level when the price is new. *)
Lemma AddLimitOrder_ok asc st b L R freeN freeL x :
  let p := GetPrice (heap st) x in
  book_ok asc b L -> Forall (lv_ok st) (L ++ R) ->
  store_ok st (x :: all_ids (L ++ R)) (lptr <$> (L ++ R)) freeN freeL ->
  SkipList.interior asc p -> in_u32 (Amount (resting (heap st) x)) ->
  (p ∉ lprice <$> L -> freeL <> [] /\ (length L < IxSize)%nat /\ map_room (dom (levels_map L)) p) ->
  exists ptr st' b' freeL', AddLimitOrder NodePoolSize asc x st b = Ret (ptr, st', b') /\
    let L' := add_level asc p ptr x L in
    book_ok asc b' L' /\ Forall (lv_ok st') (L' ++ R) /\
    store_ok st' (all_ids (L' ++ R)) (lptr <$> (L' ++ R)) freeN freeL' /\
    (forall y, resting (heap st') y = resting (heap st) y) /\
    (exists lv, lv ∈ L' /\ lptr lv = ptr /\ lprice lv = p).
Proof.
  intros p Hb HF Hs Hint Ha Hroom. destruct (decide (p ∈ lprice <$> L)) as [Hin|Hni].
  - apply list_elem_of_fmap in Hin as (lv & Hp & (L1 & L2 & ->)%list_elem_of_split).
    destruct (AddLimitOrder_existing _ _ _ _ _ _ _ _ _ _ Hb HF Hs Hp Ha)
      as (st' & HA & Hb' & HF' & Hs' & Hord).
    exists (lptr lv), st', b, freeL. rewrite Hp.
    rewrite (add_level_present asc _ _ _ _ _ _ (book_sorted _ _ _ Hb) eq_refl).
    cbn zeta. split_and!; try done. eexists. split; [apply elem_of_app; right; apply elem_of_cons; by left|done].
  - destruct (Hroom Hni) as (Hfl & Hlen & Hr).
    destruct freeL as [|q freeL _] using rev_ind; [done|].
    destruct (AddLimitOrder_new _ _ _ _ _ _ _ _ _ Hb HF Hs Hni Hint Ha Hlen Hr)
      as (st' & b' & HA & Hb' & HF' & Hs' & Hord).
    exists q, st', b', freeL. cbn zeta. split_and!; try done.
    destruct (add_level_absent asc p q x L Hni) as (_ & L1 & L2 & _ & Hadd). fold p. rewrite Hadd.
    eexists. split; [apply elem_of_app; right; apply elem_of_cons; by left|done].
Qed.

(** ** Deletion *)

Definition shrink (lv : Level) (ids : list nat) : list Level :=
  match ids with [] => [] | _ => [MkLV (lprice lv) (lptr lv) ids] end.

Lemma store_release_node st ids ptrs freeN freeL x :
  store_ok st (x :: ids) ptrs freeN freeL ->
  forall om, map_rep om (delete (GetId (heap st) x) (id_map (heap st) (x :: ids))) ->
  store_ok (release_node NodePoolSize x (set_order_map om st)) ids ptrs (freeN ++ [x]) freeL.
Proof.
  intros Hs om Hom. destruct (store_bound _ _ _ _ _ Hs) as [Hbn _].
  destruct (Hbn x) as [Hx1 Hx2]; [set_solver|]. destruct Hs as [Hn Hnp Hl Hlp He Hnd Hm].
  destruct (release_rep _ _ _ _ Hn Hx2 Hx1) as (po & Hr & Hpo).
  unfold release_node, set_order_map. cbn [OrderNodePool]. rewrite Hr. simpl in Hnd. apply NoDup_cons in Hnd as [Hni Hnd].
  split; simpl; try done.
  - rewrite <- Hnp, <- app_assoc. done.
  - unfold id_map in Hom. simpl in Hom. rewrite delete_insert_id in Hom; [done|].
    by apply id_map_none.
Qed.

Lemma unlink_resting x h y : resting (unlink x h) y = resting h y.
Proof. apply unlink_order. Qed.

(** The level of [x] after it is unlinked. *)
Lemma delete_level st lv a x c :
  lv_ok st lv -> lids lv = a ++ x :: c -> (length (lids lv) <= NodePoolSize)%nat ->
  exists l, PriceLevel.DeleteOrder x (heap st) (level st (lptr lv)) =
              (bool_decide (a ++ c = []), unlink x (heap st), l) /\
    Forall (lv_ok (set_level (lptr lv) l (set_heap (unlink x (heap st)) st))) (shrink lv (a ++ c)) /\
    (a ++ c = [] -> LHead l = None) /\
    (forall y, y ∉ lids lv -> node (unlink x (heap st)) y = node (heap st) y) /\
    LPrice l = lprice lv.
Proof.
  intros [_ Hl Hd Hp Ho] Hids Hlen. rewrite Hids in *.
  destruct (DeleteOrder_links _ _ _ _ _ Hl) as (l & HD & Hl' & HP & HT); [lia|].
  exists l. split; [done|].
  destruct (unlink_dll _ _ _ _ (ll_dll _ _ _ Hl) (ll_nodup _ _ _ Hl)) as (_ & Hfr & _).
  split_and!; [| |exact Hfr|congruence].
  - unfold shrink. destruct (a ++ c) as [|y ys] eqn:E; [constructor|]. constructor; [|constructor].
    split; cbn [lids lptr lprice]; rewrite ?level_set_eq; try done.
    + unfold level_depth in *. simpl heap. rewrite HT, u32_u64.
      rewrite (u32_sub_cong _ _ _ Hd). f_equal. rewrite <- E. rewrite !qty_app. simpl.
      assert (Hq : forall l0, qty (unlink x (heap st)) l0 = qty (heap st) l0).
      { intros l0. apply qty_ext. intros z _. unfold GetAmount. by rewrite unlink_order. }
      rewrite !Hq. lia.
    + by rewrite HP.
    + simpl heap. rewrite <- E. rewrite Forall_app, Forall_cons in Ho. apply Forall_app.
      split; (eapply Forall_impl; [apply Ho|]); simpl; intros z; by rewrite unlink_resting.
  - intros E. rewrite (ll_head _ _ _ Hl'), E. done.
Qed.

Lemma store_release_level st ids p ptrs freeN freeL :
  store_ok st ids (p :: ptrs) freeN freeL -> LHead (level st p) = None ->
  store_ok (release_level LevelPoolSize p st) ids ptrs freeN (freeL ++ [p]).
Proof.
  intros Hs HH. destruct (store_bound _ _ _ _ _ Hs) as [_ Hbl].
  destruct (Hbl p) as [Hp1 Hp2]; [set_solver|]. destruct Hs as [Hn Hnp Hl Hlp He Hnd Hm].
  destruct (release_rep _ _ _ _ Hl Hp2 Hp1) as (po & Hr & Hpo).
  unfold release_level. rewrite Hr. split; simpl; try done.
  - rewrite <- Hlp, <- app_assoc. done.
  - apply Forall_app. split; [done|]. by constructor.
Qed.

Lemma remove_key_level L1 lv L2 :
  NoDup (lprice <$> (L1 ++ lv :: L2)) ->
  SkipList.remove_key (lprice lv) (lv_kv <$> (L1 ++ lv :: L2)) = lv_kv <$> (L1 ++ L2).
Proof.
  intros Hnd. rewrite fmap_app in Hnd. simpl in Hnd. rewrite <- Permutation_middle in Hnd.
  apply NoDup_cons in Hnd as [Hni _].
  rewrite !fmap_app. unfold SkipList.remove_key. rewrite filter_app. cbn [fmap list_fmap].
  rewrite filter_cons_False by (simpl; tauto).
  f_equal; apply SkipList.remove_key_id; rewrite lv_kv_keys; set_solver.
Qed.

(** [DeleteOrder] removes exactly the given order, and its level with the last
    order; the node, and the level if emptied, go back to their pools. *)
Lemma DeleteOrder_ok asc st b L1 lv L2 R freeN freeL a x c :
  lids lv = a ++ x :: c ->
  book_ok asc b (L1 ++ lv :: L2) -> Forall (lv_ok st) ((L1 ++ lv :: L2) ++ R) ->
  store_ok st (all_ids ((L1 ++ lv :: L2) ++ R)) (lptr <$> ((L1 ++ lv :: L2) ++ R)) freeN freeL ->
  exists r st' b' freeL',
    DeleteOrder NodePoolSize LevelPoolSize asc x st b = Ret (r, st', b') /\
    let L' := L1 ++ shrink lv (a ++ c) ++ L2 in
    book_ok asc b' L' /\ Forall (lv_ok st') (L' ++ R) /\
    store_ok st' (all_ids (L' ++ R)) (lptr <$> (L' ++ R)) (freeN ++ [x]) freeL' /\
    (forall y, resting (heap st') y = resting (heap st) y) /\
    r = (if decide (a ++ c = []) then None else Some (lptr lv)) /\
    (length freeL <= length freeL')%nat.
Proof.
  intros Hids Hb HF Hs.
  pose proof (sorted_nodup _ _ (book_sorted _ _ _ Hb)) as Hnd.
  assert (Hperm : (L1 ++ lv :: L2) ++ R ≡ₚ lv :: (L1 ++ L2) ++ R).
  { rewrite <- (Permutation_middle L1). done. }
  assert (Hidp : all_ids ((L1 ++ lv :: L2) ++ R) ≡ₚ x :: (a ++ c) ++ all_ids ((L1 ++ L2) ++ R)).
  { unfold all_ids at 1. rewrite Hperm. simpl. rewrite Hids, <- !app_assoc. simpl.
    by rewrite <- Permutation_middle. }
  pose proof HF as HF0. rewrite Hperm in HF0. apply Forall_cons in HF0 as [Hlv HF0].
  assert (Hp : GetPrice (heap st) x = lprice lv).
  { pose proof (lo_orders _ _ Hlv) as Ho. rewrite Hids in Ho.
    apply Forall_app in Ho as [_ [[? _] _]%Forall_cons]. done. }
  pose proof (store_ids_length _ _ _ _ _ Hs) as Hlen.
  destruct (delete_level st lv a x c Hlv Hids) as (l & HD & Hsh & Hemp & Hfr & HP).
  { rewrite !all_ids_app, all_ids_cons, !length_app in Hlen. lia. }
  assert (Hpp : lptr <$> (L1 ++ lv :: L2) ++ R ≡ₚ lptr lv :: (lptr <$> (L1 ++ L2) ++ R))
    by (by rewrite Hperm).
  pose proof (store_perm _ _ _ _ _ _ _ Hidp Hpp Hs) as Hs1.
  destruct (store_nodup _ _ _ _ _ Hs1) as [Hn1 Hl1].
  apply NoDup_app in Hn1 as (_ & _ & Hn1).
  destruct (store_bound _ _ _ _ _ Hs1) as [_ Hbnd]. destruct (Hbnd (lptr lv)) as [Hlb Hlf]; [left|].
  apply NoDup_app in Hl1 as (_ & _ & Hl1). apply NoDup_cons in Hl1 as [Hlp _].
  destruct (map_del_spec _ _ (GetId (heap st) x) (so_map _ _ _ _ _ Hs1)) as (om & Hom & Hrom).
  pose proof (store_release_node _ _ _ _ _ _ Hs1 om Hrom) as Hs2.
  set (st1 := set_level (lptr lv) l (set_heap (unlink x (heap st)) st)) in *.
  unfold DeleteOrder. rewrite Hom. cbn [mbind result_bind].
  rewrite Hp, (map_get_spec _ _ _ (proj2 Hb)), levels_map_lookup by done.
  change (heap (set_order_map om st)) with (heap st).
  change (level (set_order_map om st) (lptr lv)) with (level st (lptr lv)). rewrite HD.
  assert (Hrest : Forall (lv_ok st1) ((L1 ++ L2) ++ R)).
  { eapply (lvs_frame st); [| |exact HF0].
    - intros y Hy. apply Hfr. intros Hin. rewrite Hids in Hin.
      apply (NoDup_app (x :: a ++ c)) in Hn1 as (_ & Hd & _). apply (Hd y); [|done].
      rewrite Permutation_middle. done.
    - intros q Hq. unfold st1. rewrite level_set_ne; [done|]. intros <-. by apply Hlp. }
  assert (Hwf : Forall (lv_ok st1) ((L1 ++ shrink lv (a ++ c) ++ L2) ++ R)).
  { rewrite !Forall_app in *. naive_solver. }
  pose proof (store_heap_ext (release_node NodePoolSize x (set_order_map om st)) _ l
    (lptr lv) _ _ _ _ (resting_id _ _ (unlink_resting x (heap st))) Hlf Hs2) as Hs3.
  destruct (decide (a ++ c = [])) as [E|E].
  - rewrite bool_decide_true by done.
    destruct (map_del_spec _ _ (lprice lv) (proj2 Hb)) as (fm & -> & Hfm).
    cbn [mbind result_bind]. rewrite levels_map_remove in Hfm by done.
    destruct Hb as [(n & Hi & Hlen') _].
    destruct (idx_del_spec asc _ _ _ (lprice lv) (lptr lv) Hi) as (bp & -> & Hbp).
    { apply list_elem_of_fmap. exists lv. split; [done|set_solver]. }
    cbn [mbind result_bind]. rewrite remove_key_level in Hbp by done.
    do 3 eexists. exists (freeL ++ [lptr lv]). split; [done|]. cbn zeta.
    rewrite E in *. simpl shrink in *. rewrite app_nil_l in *.
    split_and!; try done.
    + split; [|done]. exists (S n). split; [done|]. rewrite !length_app in *. simpl in *. lia.
    + eapply (lvs_frame st1); [done| |done]. intros q _. done.
    + rewrite all_ids_app in *. simpl in Hs3.
      eapply (store_release_level _ _ _ _ _ _ Hs3). rewrite level_set_eq. by apply Hemp.
    + intros y. apply unlink_resting.
    + rewrite length_app. lia.
  - rewrite bool_decide_false by done. do 4 eexists. split; [done|]. cbn zeta.
    assert (Hsh' : shrink lv (a ++ c) = [MkLV (lprice lv) (lptr lv) (a ++ c)])
      by (unfold shrink; by destruct (a ++ c)).
    rewrite Hsh' in *. split_and!; try done.
    + eapply book_ok_same_keys; [|exact Hb]. by rewrite !fmap_app.
    + eapply (lvs_frame st1); [done| |done]. intros q _. done.
    + eapply store_perm; [| |exact Hs3].
      * rewrite !all_ids_app, all_ids_cons. cbn [lids all_ids mbind list_bind]. solve_Permutation.
      * rewrite !fmap_app. simpl. solve_Permutation.
    + intros y. apply unlink_resting.
Qed.

End Proofs.
