(* ===== verification/BidAsk.v ===== *)
(** [BidAsk] (src/market_server/matching_engine/include/bid_ask.hpp): the
    matching engine of one asset.  The state is the class's; the incoming
    queue is the argument of [MarketExecutionLoop]'s body.

    The outgoing queues and their pools are shared with the emitter threads,
    so what a call of them answers is not a function of the engine's state: it
    is read from an environment, a stream of answers, one per object the engine
    tries to send.  Every sequence of answers is allowed. *)

From S2P Require Import Prelude WireTypes SingleThreadedPool PriceLevel Interfaces OrderBook.

(** ** Outgoing channels *)

(** [NoObject]: the pool is empty and [Acquire] returns null.  [NoRoom]: the
    queue is full, for ever in the case of the spinning [Push].  [Accepted]: the
    object is queued. *)
Inductive Answer := NoObject | NoRoom | Accepted.

Record Chan (A : Type) := MkChan {
  Sent : list A;      (* queued, in order *)
  Lost : list A;      (* acquired and filled, but refused by TryPush *)
  Asked : nat         (* number of Acquire calls *)
}.
Arguments MkChan {A}.
Arguments Sent {A}.
Arguments Lost {A}.
Arguments Asked {A}.

Definition chan0 {A} : Chan A := MkChan [] [] 0.

Section Chan.
Context {A : Type} (env : nat -> Answer).

(** [Acquire], [Fill...], [(void)TryPush]. *)
Definition send_try (r : A) (c : Chan A) : result (Chan A) :=
  match env (Asked c) with
  | NoObject => Crash NullDeref
  | NoRoom => Ret (MkChan (Sent c) (Lost c ++ [r]) (S (Asked c)))
  | Accepted => Ret (MkChan (Sent c ++ [r]) (Lost c) (S (Asked c)))
  end.

(** [Acquire], [Fill...], [Push]. *)
Definition send_push (r : A) (c : Chan A) : result (Chan A) :=
  match env (Asked c) with
  | NoObject => Crash NullDeref
  | NoRoom => Crash Blocked
  | Accepted => Ret (MkChan (Sent c ++ [r]) (Lost c) (S (Asked c)))
  end.

(** [if (p = Acquire()) { Fill...; (void)TryPush(p); }]: whether the object was
    filled. *)
Definition send_guarded (r : A) (c : Chan A) : bool * Chan A :=
  match env (Asked c) with
  | NoObject => (false, MkChan (Sent c) (Lost c) (S (Asked c)))
  | NoRoom => (true, MkChan (Sent c) (Lost c ++ [r]) (S (Asked c)))
  | Accepted => (true, MkChan (Sent c ++ [r]) (Lost c) (S (Asked c)))
  end.
End Chan.

Section BidAsk.
Context {OM FM IX : Type} {om_ops : MapOps OM nat} {fm_ops : MapOps FM nat} {ix_ops : IndexOps IX nat}.
Context (NodePoolSize LevelPoolSize : nat).
Context (reports_env book_env : nat -> Answer).

Record BidAsk := MkBidAsk {
  MarketAssetId : Z;          (* uint32_t *)
  MarketPrice : Z;            (* int64_t *)
  BestAskPrice : Z;           (* int64_t *)
  BestBidPrice : Z;           (* int64_t *)
  ReportSequenceId : Z;       (* uint32_t *)
  OrderBookSequenceId : Z;    (* uint32_t *)
  OutgoingOrders : Chan OrderStateReport;
  OutgoingBook : Chan OrderBookUpdate;
  store : Store OM;           (* OrderNodePool, PriceLevelPool, OrderMap *)
  Bid : OrderBook FM IX;
  Ask : OrderBook FM IX
}.

Implicit Type s : BidAsk.

Definition set_prices (mp ask bid : Z) (s : BidAsk) : BidAsk :=
  MkBidAsk (MarketAssetId s) mp ask bid (ReportSequenceId s) (OrderBookSequenceId s)
    (OutgoingOrders s) (OutgoingBook s) (store s) (Bid s) (Ask s).
Definition set_MarketPrice (p : Z) s : BidAsk := set_prices p (BestAskPrice s) (BestBidPrice s) s.
Definition set_BestAsk (p : Z) s : BidAsk := set_prices (MarketPrice s) p (BestBidPrice s) s.
Definition set_BestBid (p : Z) s : BidAsk := set_prices (MarketPrice s) (BestAskPrice s) p s.
Definition set_reports (seq : Z) (c : Chan OrderStateReport) s : BidAsk :=
  MkBidAsk (MarketAssetId s) (MarketPrice s) (BestAskPrice s) (BestBidPrice s) seq
    (OrderBookSequenceId s) c (OutgoingBook s) (store s) (Bid s) (Ask s).
Definition set_updates (seq : Z) (c : Chan OrderBookUpdate) s : BidAsk :=
  MkBidAsk (MarketAssetId s) (MarketPrice s) (BestAskPrice s) (BestBidPrice s) (ReportSequenceId s)
    seq (OutgoingOrders s) c (store s) (Bid s) (Ask s).
Definition set_store (st : Store OM) s : BidAsk :=
  MkBidAsk (MarketAssetId s) (MarketPrice s) (BestAskPrice s) (BestBidPrice s) (ReportSequenceId s)
    (OrderBookSequenceId s) (OutgoingOrders s) (OutgoingBook s) st (Bid s) (Ask s).

(** The side of the book orders of [sd] rest on. *)
Definition side_book (sd : OrderSide) s : OrderBook FM IX := match sd with BUY => Bid s | SELL => Ask s end.
Definition set_side (sd : OrderSide) (st : Store OM) (b : OrderBook FM IX) s : BidAsk :=
  MkBidAsk (MarketAssetId s) (MarketPrice s) (BestAskPrice s) (BestBidPrice s) (ReportSequenceId s)
    (OrderBookSequenceId s) (OutgoingOrders s) (OutgoingBook s) st
    (match sd with BUY => b | SELL => Bid s end) (match sd with BUY => Ask s | SELL => b end).
Definition update_side (sd : OrderSide) : Z :=
  match sd with BUY => ORDER_BOOK_UPDATE_BUY | SELL => ORDER_BOOK_UPDATE_SELL end.

(** The constructor; the maps and indices are those of the two sides' members. *)
Definition bidask_init (assetId initialPrice reportSeq bookSeq : Z)
    (om : OM) (fmBid fmAsk : FM) (ixBid ixAsk : IX) : BidAsk :=
  MkBidAsk (u32 assetId) initialPrice INT64_MAX INT64_MIN (u32 reportSeq) (u32 bookSeq) chan0 chan0
    (MkStore ∅ ∅ (pool_init NodePoolSize) (pool_init LevelPoolSize) om)
    (MkBook fmBid ixBid) (MkBook fmAsk ixAsk).

(** The statements that fill and send one report or one book update. *)
Definition report_try (bought sold attempt client id ba sa : Z) (state : OrderState) s : result BidAsk :=
  c ← send_try reports_env
        (FillReport bought sold attempt (ReportSequenceId s) client id 0 ba sa state) (OutgoingOrders s);
  Ret (set_reports (u32 (ReportSequenceId s + 1)) c s).
Definition report_push (bought sold attempt client id ba sa : Z) (state : OrderState) s : result BidAsk :=
  c ← send_push reports_env
        (FillReport bought sold attempt (ReportSequenceId s) client id 0 ba sa state) (OutgoingOrders s);
  Ret (set_reports (u32 (ReportSequenceId s + 1)) c s).
Definition report_guarded (bought sold attempt client id ba sa : Z) (state : OrderState) s : BidAsk :=
  let '(filled, c) := send_guarded reports_env
        (FillReport bought sold attempt (ReportSequenceId s) client id 0 ba sa state) (OutgoingOrders s) in
  set_reports (if filled then u32 (ReportSequenceId s + 1) else ReportSequenceId s) c s.
Definition update_try (depth price side : Z) s : result BidAsk :=
  c ← send_try book_env
        (FillUpdate (OrderBookSequenceId s) depth price (MarketAssetId s) side) (OutgoingBook s);
  Ret (set_updates (u32 (OrderBookSequenceId s + 1)) c s).
Definition update_push (depth price side : Z) s : result BidAsk :=
  c ← send_push book_env
        (FillUpdate (OrderBookSequenceId s) depth price (MarketAssetId s) side) (OutgoingBook s);
  Ret (set_updates (u32 (OrderBookSequenceId s + 1)) c s).
Definition update_guarded (depth price side : Z) s : BidAsk :=
  let '(filled, c) := send_guarded book_env
        (FillUpdate (OrderBookSequenceId s) depth price (MarketAssetId s) side) (OutgoingBook s) in
  set_updates (if filled then u32 (OrderBookSequenceId s + 1) else OrderBookSequenceId s) c s.

Definition IsMarketable (order : Order) s : bool :=
  let is_market := bool_decide (Type_ order = MARKET) in
  let limit_marketable :=
    match Side order with
    | BUY => BestAskPrice s <=? Price order
    | SELL => Price order <=? BestBidPrice s
    end in
  is_market || limit_marketable.

(** ** Cancels

    The depth after a deletion: that of the level, or 0 when it is gone. *)
Definition level_total (st : Store OM) (curLevel : option nat) : Z :=
  match curLevel with Some p => GetTotalAmount (level st p) | None => 0 end.

(** [CancelOrder<side>]; the request's [Amount] is the id of the order. *)
Definition CancelOrder (side : OrderSide) (order : Order) s : result BidAsk :=
  match map_get (OrderMap (store s)) (Amount order) with
  | None => report_try 0 0 0 (ClientId order) (OrderId order) 0 0 REJECT s
  | Some toCancel =>
      let h := heap (store s) in
      if negb (GetClientId h toCancel =? ClientId order)
      then report_try 0 0 0 (ClientId order) (OrderId order) 0 0 REJECT s
      else
        let curPrice := GetPrice h toCancel in
        let attempt :=
          match side with
          | BUY => s64 (GetAmount h toCancel * GetPrice h toCancel)
          | SELL => GetAmount h toCancel
          end in
        s ← report_push 0 0 attempt (GetClientId h toCancel) (GetId h toCancel)
              (match side with BUY => MarketAssetId s | SELL => 0 end)
              (match side with BUY => 0 | SELL => MarketAssetId s end) CANCEL s;
        '(curLevel, st, b) ←
          OrderBook.DeleteOrder NodePoolSize LevelPoolSize (side_asc side) toCancel
            (store s) (side_book side s);
        let s := set_side side st b s in
        update_push (level_total st curLevel) curPrice (update_side side) s
  end.

(** ** Resting an order

    [AddBuyLimitOrder] and [AddSellLimitOrder].  The identifier of a node is
    read back from it. *)
Definition AddSideLimitOrder (sd : OrderSide) (order : Order) s : result BidAsk :=
  let '(acquired, np) := Acquire (OrderNodePool (store s)) in
  match acquired with
  | None => Ret s
  | Some toAdd =>
      let st := set_heap (SetOrder toAdd order (heap (store s))) (set_node_pool np (store s)) in
      let s :=
        match sd with
        | BUY => set_BestBid (Z.max (BestBidPrice s) (Price order)) s
        | SELL => set_BestAsk (Z.min (BestAskPrice s) (Price order)) s
        end in
      om ← map_add (GetId (heap st) toAdd) toAdd (OrderMap st);
      '(curLevel, st, b) ←
        OrderBook.AddLimitOrder NodePoolSize (side_asc sd) toAdd (set_order_map om st) (side_book sd s);
      let s := set_side sd st b s in
      let s :=
        report_guarded 0 0
          (match sd with BUY => s64 (Amount order * Price order) | SELL => Amount order end)
          (ClientId order) (OrderId order)
          (match sd with BUY => MarketAssetId s | SELL => 0 end)
          (match sd with BUY => 0 | SELL => MarketAssetId s end) ADD s in
      Ret (update_guarded (GetTotalAmount (level st curLevel)) (GetKey (level st curLevel))
             (update_side sd) s)
  end.

Definition AddBuyLimitOrder : Order -> BidAsk -> result BidAsk := AddSideLimitOrder BUY.
Definition AddSellLimitOrder : Order -> BidAsk -> result BidAsk := AddSideLimitOrder SELL.

Definition AddLimitOrder (order : Order) s : result BidAsk :=
  match Side order with
  | BUY => AddBuyLimitOrder order s
  | SELL => AddSellLimitOrder order s
  end.

(** ** Filling an order

    One iteration of the inner loop of [FillBuyOrder] ([tk = BUY]) or
    [FillSellOrder] ([tk = SELL]): the taker against the offer [off] of the best
    level [lvl] of the other side.  Returns the taker, [totalLocked], the next
    offer and the state. *)
Definition best_price (tk : OrderSide) s : Z :=
  match tk with BUY => BestAskPrice s | SELL => BestBidPrice s end.
Definition set_best (tk : OrderSide) (p : Z) s : BidAsk :=
  match tk with BUY => set_BestAsk p s | SELL => set_BestBid p s end.
Definition fill_state (a : Z) : OrderState := if 0 <? a then PARTIAL_FILL else FILL.

Definition fill_step (tk : OrderSide) (lvl off : nat) (order : Order) (totalLocked : Z) s
    : result (Order * Z * option nat * BidAsk) :=
  let h := heap (store s) in
  let best := best_price tk s in
  let curOrderAmount := Amount order in
  let curOfferAmount := GetAmount h off in
  let tradedAmount := if curOrderAmount <? curOfferAmount then curOrderAmount else curOfferAmount in
  let orderAmount := u32 (curOrderAmount - tradedAmount) in
  let offerAmount := u32 (curOfferAmount - tradedAmount) in
  let s := set_MarketPrice (if 0 <? tradedAmount then GetPrice h off else MarketPrice s) s in
  let order := set_Amount orderAmount order in
  let st := set_heap (SetAmount off offerAmount h) (store s) in
  let soldDelta := - tradedAmount in
  (* -tradedAmount is an unsigned negation, then converted to int64_t *)
  let st := set_level lvl (IncTotalAmount (u32 (- tradedAmount)) (level st lvl)) st in
  let totalLocked :=
    s64 (totalLocked + match tk with BUY => s64 (soldDelta * best) | SELL => soldDelta end) in
  let s := set_store st s in
  s ← match tk with
      | BUY => report_try tradedAmount (s64 (soldDelta * best)) (s64 (soldDelta * best))
                 (ClientId order) (OrderId order) (MarketAssetId s) 0 (fill_state (Amount order)) s
      | SELL => report_try (s64 (tradedAmount * best)) soldDelta soldDelta
                 (ClientId order) (OrderId order) 0 (MarketAssetId s) (fill_state (Amount order)) s
      end;
  let h := heap (store s) in
  s ← match tk with
      | BUY => report_try (s64 (tradedAmount * best)) soldDelta soldDelta
                 (GetClientId h off) (GetId h off) 0 (MarketAssetId s) (fill_state (GetAmount h off)) s
      | SELL => report_try tradedAmount (s64 (soldDelta * best)) (s64 (soldDelta * best))
                 (GetClientId h off) (GetId h off) (MarketAssetId s) 0 (fill_state (GetAmount h off)) s
      end;
  s ← update_try (GetTotalAmount (level (store s) lvl)) best (update_side (opposite tk)) s;
  if GetAmount (heap (store s)) off =? 0 then
    let next := GetNext (heap (store s)) off in
    '(_, st, b) ←
      OrderBook.DeleteOrder NodePoolSize LevelPoolSize (side_asc (opposite tk)) off
        (store s) (side_book (opposite tk) s);
    Ret (order, totalLocked, next, set_side (opposite tk) st b s)
  else Ret (order, totalLocked, Some off, s).

(** [while (order.Amount > 0 && IsMarketable(order) && bestOffer)] *)
Fixpoint fill_level (fuel : nat) (tk : OrderSide) (lvl : nat) (off : option nat)
    (order : Order) (totalLocked : Z) s : result (Order * Z * BidAsk) :=
  match off with
  | Some o =>
      if (0 <? Amount order) && IsMarketable order s then
        match fuel with
        | O => Crash OutOfFuel
        | S fuel =>
            '(order, totalLocked, off, s) ← fill_step tk lvl o order totalLocked s;
            fill_level fuel tk lvl off order totalLocked s
        end
      else Ret (order, totalLocked, s)
  | None => Ret (order, totalLocked, s)
  end.

(** The outer loop.  An iteration of the inner loop fills the taker or removes
    an order of the level, one of the outer loop fills the taker or empties a
    level, so the sizes of the pools bound both. *)
Fixpoint fill_loop (fuel : nat) (tk : OrderSide) (order : Order) (totalLocked : Z) s
    : result (Order * Z * BidAsk) :=
  if (0 <? Amount order) && IsMarketable order s then
    match fuel with
    | O => Crash OutOfFuel
    | S fuel =>
        bestLevel ← GetBestLevel (side_asc (opposite tk)) (side_book (opposite tk) s);
        match bestLevel with
        | None => Ret (order, totalLocked, s)
        | Some lvl =>
            match PeekOrder (level (store s) lvl) with
            | None => Ret (order, totalLocked, s)
            | Some off =>
                let s := set_best tk (GetKey (level (store s) lvl)) s in
                if (match tk with
                    | BUY => Price order <? BestAskPrice s
                    | SELL => BestBidPrice s <? Price order
                    end)
                then Ret (order, totalLocked, s)
                else
                  '(order, totalLocked, s) ←
                    fill_level (S NodePoolSize) tk lvl (Some off) order totalLocked s;
                  fill_loop fuel tk order totalLocked s
            end
        end
    end
  else Ret (order, totalLocked, s).

(** The end of [FillBuyOrder] and [FillSellOrder]: a limit remainder rests, a
    market remainder is cancelled. *)
Definition fill_rest (tk : OrderSide) (order : Order) (totalLocked : Z) s : result BidAsk :=
  if 0 <? Amount order then
    match Type_ order with
    | LIMIT => AddSideLimitOrder tk order s
    | MARKET =>
        report_push 0 0 (s64 (- totalLocked)) (ClientId order) (OrderId order)
          (match tk with BUY => MarketAssetId s | SELL => 0 end)
          (match tk with BUY => 0 | SELL => MarketAssetId s end) CANCEL s
    end
  else Ret s.

Definition FillBuyOrder (order : Order) s : result BidAsk :=
  '(order, totalLocked, s) ←
    fill_loop (S LevelPoolSize) BUY order (s64 (Amount order * Price order)) s;
  fill_rest BUY order totalLocked s.

Definition FillSellOrder (order : Order) s : result BidAsk :=
  '(order, totalLocked, s) ← fill_loop (S LevelPoolSize) SELL order (Amount order) s;
  fill_rest SELL order totalLocked s.

Definition ExecuteMarketableOrder (order : Order) s : result BidAsk :=
  match Side order with
  | BUY => FillBuyOrder order s
  | SELL => FillSellOrder order s
  end.

Definition executeOrder (order : Order) s : result BidAsk :=
  if IsMarketable order s then ExecuteMarketableOrder order s else AddLimitOrder order s.

(** ** The execution loop *)

(** One order of a batch. *)
Definition handle_order (curOrder : Order) s : result BidAsk :=
  match Action curOrder with
  | EXECUTE => executeOrder curOrder s
  | CANCEL_ORDER => CancelOrder (Side curOrder) curOrder s
  end.

(** The loop over one batch. *)
Fixpoint run_batch (batch : list Order) s : result BidAsk :=
  match batch with
  | [] => Ret s
  | o :: r => s ← handle_order o s; run_batch r s
  end.

Lemma run_batch_app l1 l2 s : run_batch (l1 ++ l2) s = (s ← run_batch l1 s; run_batch l2 s).
Proof.
  revert s. induction l1 as [|o l1 IH]; intros s; [done|]. cbn [app run_batch].
  destruct (handle_order o s); [|done]. cbn [mbind result_bind]. apply IH.
Qed.

(** One iteration of [MarketExecutionLoop]: the batch popped from the incoming
    queue, if any, and whether the pool took it back. *)
Definition MarketExecutionLoop (popped : option (list Order)) (released : bool) s : result BidAsk :=
  match popped with
  | None => Ret s
  | Some batch => s ← run_batch batch s; if released then Ret s else Crash Terminate
  end.

End BidAsk.

Arguments BidAsk : clear implicits.
