(* ===== verification/BidAskProofs.v ===== *)
(** The matching engine implements the specification of BookSpec.v.  [inv] is
    the invariant of the engine's state; [emits] describes what a run appends to
    the outgoing channels.  The main results are at the end of the file. *)

From Stdlib Require Import Sorting.Sorted.
From S2P Require Import Prelude WireTypes SingleThreadedPool PriceLevel BookSpec Interfaces OrderBook BidAsk.
From S2P Require SkipList.

(** ** Emitted events *)

Definition deliver1 {A} (env : nat -> Answer) (c : Chan A) (r : A) : Chan A :=
  match env (Asked c) with
  | NoObject => MkChan (Sent c) (Lost c) (S (Asked c))
  | NoRoom => MkChan (Sent c) (Lost c ++ [r]) (S (Asked c))
  | Accepted => MkChan (Sent c ++ [r]) (Lost c) (S (Asked c))
  end.
Definition deliver {A} (env : nat -> Answer) (c : Chan A) (rs : list A) : Chan A :=
  foldl (deliver1 env) c rs.

(** With an environment that accepts everything, delivery appends. *)
Lemma deliver_accepted {A} env (c : Chan A) rs :
  (forall n, env n = Accepted) ->
  deliver env c rs = MkChan (Sent c ++ rs) (Lost c) (length rs + Asked c).
Proof.
  intros He. unfold deliver. revert c. induction rs as [|r rs IH]; intros c; simpl.
  - rewrite app_nil_r. by destruct c.
  - rewrite IH. unfold deliver1. rewrite He. simpl. rewrite <- app_assoc. simpl. f_equal. lia.
Qed.

Lemma number_app n rs rs' : number n (rs ++ rs') = number n rs ++ number (n + Z.of_nat (length rs)) rs'.
Proof.
  revert n. induction rs as [|r rs IH]; intros n; simpl; [by rewrite Z.add_0_r|].
  rewrite IH. do 3 f_equal. lia.
Qed.
Lemma number_up_app n rs rs' :
  number_up n (rs ++ rs') = number_up n rs ++ number_up (n + Z.of_nat (length rs)) rs'.
Proof.
  revert n. induction rs as [|r rs IH]; intros n; simpl; [by rewrite Z.add_0_r|].
  rewrite IH. do 3 f_equal. lia.
Qed.
Lemma number_cong n n' rs : u32 n = u32 n' -> number n rs = number n' rs.
Proof.
  revert n n'. induction rs as [|r rs IH]; intros n n' H; simpl; [done|].
  rewrite H. f_equal. apply IH. by apply u32_add_cong.
Qed.
Lemma number_up_cong n n' rs : u32 n = u32 n' -> number_up n rs = number_up n' rs.
Proof.
  revert n n'. induction rs as [|r rs IH]; intros n n' H; simpl; [done|].
  rewrite H. f_equal. apply IH. by apply u32_add_cong.
Qed.

Section Engine.
Context {OM FM IX : Type} {om_ops : MapOps OM nat} {fm_ops : MapOps FM nat} {ix_ops : IndexOps IX nat}.
Context {om_spec : MapSpec OM nat} {fm_spec : MapSpec FM nat} {ix_spec : IndexSpec IX nat}.
Context (NodePoolSize LevelPoolSize IxSize : nat) (HNP : Z.of_nat NodePoolSize < 2 ^ 63).
Context (reports_env book_env : nat -> Answer).
Abbreviation BidAsk := (BidAsk OM FM IX).
Abbreviation lv_ok := (lv_ok (OM := OM)).
Abbreviation store_ok := (store_ok NodePoolSize LevelPoolSize).
Abbreviation book_ok := (book_ok (FM := FM) IxSize).
Abbreviation report_try := (report_try reports_env).
Abbreviation report_push := (report_push reports_env).
Abbreviation report_guarded := (report_guarded reports_env).
Abbreviation update_try := (update_try book_env).
Abbreviation update_push := (update_push book_env).
Abbreviation update_guarded := (update_guarded book_env).
Implicit Types (s : BidAsk) (L R : list Level).

Record emits s s' (rs : list OrderStateReport) (us : list OrderBookUpdate) : Prop := {
  em_reports : OutgoingOrders s' =
    deliver reports_env (OutgoingOrders s) (number (ReportSequenceId s) rs);
  em_rseq : u32 (ReportSequenceId s') = u32 (ReportSequenceId s + Z.of_nat (length rs));
  em_updates : OutgoingBook s' =
    deliver book_env (OutgoingBook s) (number_up (OrderBookSequenceId s) us);
  em_useq : u32 (OrderBookSequenceId s') = u32 (OrderBookSequenceId s + Z.of_nat (length us));
  em_asset : MarketAssetId s' = MarketAssetId s
}.

(** Everything but the channels and the sequence numbers is the same. *)
Definition same_core s s' : Prop :=
  store s' = store s /\ Bid s' = Bid s /\ Ask s' = Ask s /\ MarketPrice s' = MarketPrice s /\
  BestAskPrice s' = BestAskPrice s /\ BestBidPrice s' = BestBidPrice s.

(** The channels and the sequence numbers are the same. *)
Definition same_out s s' : Prop :=
  OutgoingOrders s' = OutgoingOrders s /\ ReportSequenceId s' = ReportSequenceId s /\
  OutgoingBook s' = OutgoingBook s /\ OrderBookSequenceId s' = OrderBookSequenceId s /\
  MarketAssetId s' = MarketAssetId s.

Lemma emits_same s s' : same_out s s' -> emits s s' [] [].
Proof. intros (Ho & Hr & Hb & Hq & Ha). split; simpl; rewrite ?Z.add_0_r; congruence. Qed.

Lemma emits_trans s1 s2 s3 rs us rs' us' :
  emits s1 s2 rs us -> emits s2 s3 rs' us' -> emits s1 s3 (rs ++ rs') (us ++ us').
Proof.
  intros [r1 q1 u1 n1 a1] [r2 q2 u2 n2 a2]. split.
  - rewrite r2, r1, number_app. unfold deliver. rewrite foldl_app. f_equal. by apply number_cong.
  - rewrite q2, (u32_add_cong _ _ _ q1), length_app. f_equal. lia.
  - rewrite u2, u1, number_up_app. unfold deliver. rewrite foldl_app. f_equal. by apply number_up_cong.
  - rewrite n2, (u32_add_cong _ _ _ n1), length_app. f_equal. lia.
  - congruence.
Qed.

Lemma emits_trans_l s1 s2 s3 rs us : same_out s1 s2 -> emits s2 s3 rs us -> emits s1 s3 rs us.
Proof. intros H1 H2. by apply (emits_trans _ _ _ [] [] _ _ (emits_same _ _ H1)). Qed.

Lemma emits_trans_r s1 s2 s3 rs us : emits s1 s2 rs us -> same_out s2 s3 -> emits s1 s3 rs us.
Proof.
  intros H1 H2. rewrite <- (app_nil_r rs), <- (app_nil_r us).
  eapply emits_trans; [done|]. by apply emits_same.
Qed.

Lemma emits_report s c b sd a cl id ba sa st seq :
  c = deliver1 reports_env (OutgoingOrders s)
        (FillReport b sd a (ReportSequenceId s) cl id 0 ba sa st) ->
  u32 seq = u32 (ReportSequenceId s + 1) ->
  emits s (set_reports seq c s) [FillReport b sd a 0 cl id 0 ba sa st] [].
Proof. intros -> Hs. split; simpl; rewrite ?Z.add_0_r; done. Qed.

Lemma emits_update s c d p a sd seq :
  MarketAssetId s = a ->
  c = deliver1 book_env (OutgoingBook s) (FillUpdate (OrderBookSequenceId s) d p a sd) ->
  u32 seq = u32 (OrderBookSequenceId s + 1) ->
  emits s (set_updates seq c s) [] [FillUpdate 0 d p a sd].
Proof. intros <- -> Hs. split; simpl; rewrite ?Z.add_0_r; done. Qed.

Context (Hrep : forall n, reports_env n <> NoObject) (Hbook : forall n, book_env n <> NoObject).

Lemma report_try_ok b sd a cl id ba sa st s :
  exists s', report_try b sd a cl id ba sa st s = Ret s' /\ same_core s s' /\
             emits s s' [FillReport b sd a 0 cl id 0 ba sa st] [].
Proof.
  unfold BidAsk.report_try, send_try. specialize (Hrep (Asked (OutgoingOrders s))) as Hn.
  destruct (reports_env (Asked (OutgoingOrders s))) eqn:E; [done| |];
    (eexists; split; [done|]; split; [done|]; apply emits_report; [|apply u32_idem];
     unfold deliver1; by rewrite E).
Qed.

Lemma report_push_ok b sd a cl id ba sa st s :
  (forall n, reports_env n = Accepted) ->
  exists s', report_push b sd a cl id ba sa st s = Ret s' /\ same_core s s' /\
             emits s s' [FillReport b sd a 0 cl id 0 ba sa st] [].
Proof.
  intros HA. unfold BidAsk.report_push, send_push. rewrite HA.
  eexists; split; [done|]; split; [done|]; apply emits_report; [|apply u32_idem].
  unfold deliver1. by rewrite HA.
Qed.

Lemma report_guarded_ok b sd a cl id ba sa st s :
  same_core s (report_guarded b sd a cl id ba sa st s) /\
  emits s (report_guarded b sd a cl id ba sa st s) [FillReport b sd a 0 cl id 0 ba sa st] [].
Proof.
  unfold BidAsk.report_guarded, send_guarded. specialize (Hrep (Asked (OutgoingOrders s))) as Hn.
  destruct (reports_env (Asked (OutgoingOrders s))) eqn:E; [done| |];
    (split; [done|]; apply emits_report; [|apply u32_idem]; unfold deliver1; by rewrite E).
Qed.

Lemma update_try_ok d p sd s :
  exists s', update_try d p sd s = Ret s' /\ same_core s s' /\
             emits s s' [] [FillUpdate 0 d p (MarketAssetId s) sd].
Proof.
  unfold BidAsk.update_try, send_try. specialize (Hbook (Asked (OutgoingBook s))) as Hn.
  destruct (book_env (Asked (OutgoingBook s))) eqn:E; [done| |];
    (eexists; split; [done|]; split; [done|]; apply emits_update; [done| |apply u32_idem];
     unfold deliver1; by rewrite E).
Qed.

Lemma update_push_ok d p sd s :
  (forall n, book_env n = Accepted) ->
  exists s', update_push d p sd s = Ret s' /\ same_core s s' /\
             emits s s' [] [FillUpdate 0 d p (MarketAssetId s) sd].
Proof.
  intros HA. unfold BidAsk.update_push, send_push. rewrite HA.
  eexists; split; [done|]; split; [done|]; apply emits_update; [done| |apply u32_idem].
  unfold deliver1. by rewrite HA.
Qed.

Lemma update_guarded_ok d p sd s :
  same_core s (update_guarded d p sd s) /\
  emits s (update_guarded d p sd s) [] [FillUpdate 0 d p (MarketAssetId s) sd].
Proof.
  unfold BidAsk.update_guarded, send_guarded. specialize (Hbook (Asked (OutgoingBook s))) as Hn.
  destruct (book_env (Asked (OutgoingBook s))) eqn:E; [done| |];
    (split; [done|]; apply emits_update; [done| |apply u32_idem]; unfold deliver1; by rewrite E).
Qed.

(** ** The invariant *)

Definition sided (sd : OrderSide) (o : Order) : Prop := Side o = sd /\ 0 < Amount o.

(** [L] are the levels of side [sd], [R] those of the other side. *)
Record inv (sd : OrderSide) s L R (freeN freeL : list nat) : Prop := {
  iv_own : book_ok (side_asc sd) (side_book sd s) L;
  iv_opp : book_ok (side_asc (opposite sd)) (side_book (opposite sd) s) R;
  iv_lv : Forall (lv_ok (store s)) (L ++ R);
  iv_store : store_ok (store s) (all_ids (L ++ R)) (lptr <$> (L ++ R)) freeN freeL;
  iv_own_orders : Forall (fun x => sided sd (resting (heap (store s)) x)) (all_ids L);
  iv_opp_orders : Forall (fun x => sided (opposite sd) (resting (heap (store s)) x)) (all_ids R);
  iv_own_best : Forall (fun lv => SkipList.comp (side_asc sd) (lprice lv)
                                    (best_price (opposite sd) s) = false) L;
  iv_opp_best : Forall (fun lv => SkipList.comp (side_asc (opposite sd)) (lprice lv)
                                    (best_price sd s) = false) R
}.

Lemma opposite_invol sd : opposite (opposite sd) = sd.
Proof. by destruct sd. Qed.

Lemma inv_swap sd s L R freeN freeL :
  inv sd s L R freeN freeL -> inv (opposite sd) s R L freeN freeL.
Proof.
  intros []. split; rewrite ?opposite_invol; try done.
  - by rewrite Permutation_app_comm.
  - eapply store_perm; [| |done].
    + rewrite !all_ids_app. apply Permutation_app_comm.
    + rewrite !fmap_app. apply Permutation_app_comm.
Qed.

Lemma inv_same_core sd s s' L R freeN freeL :
  same_core s s' -> inv sd s L R freeN freeL -> inv sd s' L R freeN freeL.
Proof.
  intros (Hs & Hb & Ha & _ & Hba & Hbb) [].
  assert (Hbk : forall d, side_book d s' = side_book d s) by (intros []; simpl; congruence).
  assert (Hbp : forall d, best_price d s' = best_price d s) by (intros []; simpl; congruence).
  split; rewrite ?Hbk, ?Hbp, ?Hs; done.
Qed.

Definition abs_side (h : NodeHeap) (L : list Level) : side :=
  (fun lv => (lprice lv, resting h <$> lids lv)) <$> L.

Lemma abs_side_ext h h' L :
  (forall x, x ∈ all_ids L -> resting h' x = resting h x) -> abs_side h' L = abs_side h L.
Proof.
  intros He. unfold abs_side. apply list_fmap_ext. intros i lv Hlv. f_equal.
  apply list_fmap_ext. intros j x Hx. apply He. eapply elem_all_ids; by eapply list_elem_of_lookup_2.
Qed.

Lemma abs_orders h L : side_orders (abs_side h L) = resting h <$> all_ids L.
Proof.
  induction L as [|lv L IH]; [done|]. rewrite all_ids_cons, fmap_app, <- IH. done.
Qed.

Lemma qty_depth h ids : qty h ids = depth (resting h <$> ids).
Proof. induction ids as [|x ids IH]; simpl; [done|]. by rewrite IH. Qed.

(** *** A partial execution of the oldest order of a level *)

Lemma resting_SetAmount x a h y :
  resting (SetAmount x a h) y = if decide (y = x) then set_Amount (u32 a) (resting h x) else resting h y.
Proof.
  unfold resting. destruct (decide (y = x)) as [->|Hne].
  - unfold SetAmount. by rewrite node_insert_eq.
  - by rewrite node_SetAmount_ne.
Qed.

Lemma links_SetAmount x a h y :
  Prev (node (SetAmount x a h) y) = Prev (node h y) /\ Next (node (SetAmount x a h) y) = Next (node h y).
Proof.
  destruct (decide (x = y)) as [->|Hne]; [|by rewrite node_SetAmount_ne].
  unfold SetAmount. by rewrite node_insert_eq.
Qed.

(** The shared state after the offer [x] has traded [t]. *)
Definition traded (lvl x : nat) (a t : Z) (st : Store OM) : Store OM :=
  let st := set_heap (SetAmount x (u32 (a - t)) (heap st)) st in
  set_level lvl (IncTotalAmount (u32 (- t)) (level st lvl)) st.

Lemma traded_ok st p lvl x c L2 R freeN freeL t :
  let L := MkLV p lvl (x :: c) :: L2 in
  let a := Amount (resting (heap st) x) in
  Forall (lv_ok st) (L ++ R) -> store_ok st (all_ids (L ++ R)) (lptr <$> (L ++ R)) freeN freeL ->
  0 <= t <= a ->
  let st' := traded lvl x a t st in
  Forall (lv_ok st') (L ++ R) /\ store_ok st' (all_ids (L ++ R)) (lptr <$> (L ++ R)) freeN freeL /\
  (forall y, y <> x -> resting (heap st') y = resting (heap st) y) /\
  resting (heap st') x = set_Amount (a - t) (resting (heap st) x) /\
  u32 (TotalAmount (level st' lvl)) = u32 (a - t + depth (resting (heap st) <$> c)).
Proof.
  intros L a HF Hs Ht st'.
  pose proof HF as HF0. apply Forall_cons in HF0 as [Hlv HF0].
  destruct Hlv as [_ [Hh Htl Hsz Hd Hnd] Hdep Hp Ho]. cbn [lids lptr lprice] in *.
  apply Forall_cons in Ho as [[Hxp Hxa] Ho]. fold a in Hxa. unfold in_u32 in Hxa.
  pose proof Hs as [Hn Hl]%store_nodup.
  apply NoDup_app in Hn as (_ & _ & Hn). unfold L in Hn.
  change (all_ids ((MkLV p lvl (x :: c) :: L2) ++ R)) with ((x :: c) ++ all_ids (L2 ++ R)) in Hn.
  apply NoDup_app in Hn as (Hxc & Hdis & _). apply NoDup_cons in Hxc as [Hxc _].
  pose proof Hs as [_ Hbnd]%store_bound.
  destruct (Hbnd lvl) as [_ Hlf]; [unfold L; left|].
  apply NoDup_app in Hl as (_ & _ & Hl). apply NoDup_cons in Hl as [Hlp _].
  assert (Hr : forall y, resting (heap st') y =
     if decide (y = x) then set_Amount (a - t) (resting (heap st) x) else resting (heap st) y).
  { intros y. unfold st', traded. simpl. rewrite resting_SetAmount, u32_idem, u32_small by lia. done. }
  assert (Hlvl : level st' lvl = IncTotalAmount (u32 (- t)) (level st lvl)).
  { unfold st', traded. by rewrite level_set_eq. }
  assert (Hc : resting (heap st') <$> c = resting (heap st) <$> c).
  { apply list_fmap_ext. intros i y Hy. rewrite Hr, decide_False; [done|].
    intros ->. by apply Hxc, (list_elem_of_lookup_2 _ i). }
  assert (Hdep' : u32 (TotalAmount (level st' lvl)) = u32 (a - t + depth (resting (heap st) <$> c))).
  { rewrite Hlvl. simpl. rewrite u32_u64. unfold level_depth in Hdep. simpl in Hdep.
    unfold u32 at 2. replace ((- t) mod 2 ^ 32) with (- t + (- (- t / 2 ^ 32)) * 2 ^ 32)
      by (pose proof (Z.div_mod (- t) (2 ^ 32)); lia).
    rewrite Z.add_assoc, u32_add_pow, Z.add_opp_r, (u32_sub_cong _ _ _ Hdep), qty_depth.
    f_equal. unfold a, GetAmount, resting. lia. }
  split_and!.
  - constructor.
    + split; cbn [lids lptr lprice]; rewrite ?Hlvl; try done.
      * split; try done. eapply dll_frame; [|exact Hd]. intros y _. apply links_SetAmount.
      * unfold level_depth. rewrite <- Hlvl, Hdep'. cbn [qty]. rewrite qty_depth, Hc. f_equal. f_equal.
        unfold GetAmount. change (NodeOrder (node (heap st') x)) with (resting (heap st') x).
        by rewrite Hr, decide_True.
      * constructor.
        -- rewrite Hr, decide_True by done. split; [done|]. unfold in_u32. simpl. lia.
        -- rewrite Forall_forall in Ho |- *. intros y Hy. rewrite Hr, decide_False; [by apply Ho|].
           intros ->. by apply Hxc.
    + eapply lvs_frame; [| |exact HF0].
      * intros y Hy. apply node_SetAmount_ne. intros <-. apply (Hdis x); [left|done].
      * intros q Hq. unfold st', traded. rewrite level_set_ne; [done|]. intros <-. by apply Hlp.
  - apply store_heap_ext; try done. intros y. unfold GetId.
    pose proof (Hr y) as Hy. unfold resting in Hy. simpl in Hy. simpl. rewrite Hy.
    case_decide; [by subst|done].
  - intros y Hy. by rewrite Hr, decide_False.
  - by rewrite Hr, decide_True.
  - exact Hdep'.
Qed.

Lemma FillReport_wrap b sd a b' sd' a' cl id id' ba sa st :
  s64 b = s64 b' -> s64 sd = s64 sd' -> s64 a = s64 a' -> u32 id = u32 id' ->
  FillReport b sd a 0 cl id 0 ba sa st = FillReport b' sd' a' 0 cl id' 0 ba sa st.
Proof. intros H1 H2 H3 H4. unfold FillReport. by rewrite H1, H2, H3, H4. Qed.

Lemma FillUpdate_wrap d d' p a sd : u32 d = u32 d' -> FillUpdate 0 d p a sd = FillUpdate 0 d' p a sd.
Proof. intros H. unfold FillUpdate. by rewrite H. Qed.

Lemma emits_eq s s' rs us rs' us' : emits s s' rs us -> rs = rs' -> us = us' -> emits s s' rs' us'.
Proof. by intros H <- <-. Qed.

(** The three objects one execution sends. *)
Lemma fill_reports_ok tk (order o : Order) p t left mleft total h off s :
  Side order = tk -> resting h off = set_Amount mleft o -> mleft = Amount o - t ->
  u32 (GetTotalAmount total) = u32 left ->
  exists s1 s2 s3,
    match tk with
    | BUY => report_try t (s64 (- t * p)) (s64 (- t * p)) (ClientId order) (OrderId order)
               (MarketAssetId s) 0 (fill_state (Amount order)) s
    | SELL => report_try (s64 (t * p)) (- t) (- t) (ClientId order) (OrderId order)
               0 (MarketAssetId s) (fill_state (Amount order)) s
    end = Ret s1 /\
    match tk with
    | BUY => report_try (s64 (t * p)) (- t) (- t) (GetClientId h off) (GetId h off)
               0 (MarketAssetId s1) (fill_state (GetAmount h off)) s1
    | SELL => report_try t (s64 (- t * p)) (s64 (- t * p)) (GetClientId h off) (GetId h off)
               (MarketAssetId s1) 0 (fill_state (GetAmount h off)) s1
    end = Ret s2 /\
    update_try (GetTotalAmount total) p (update_side (opposite tk)) s2 = Ret s3 /\
    same_core s s1 /\ same_core s s2 /\ same_core s s3 /\
    emits s s3 (trade_reports (MarketAssetId s) order (MkTrade p o t (Amount order) left))
      [depth_update (MarketAssetId s) (opposite tk) p left].
Proof.
  intros Hsd Hoff Hm Hd.
  assert (Hcl : GetClientId h off = ClientId o /\ GetId h off = u32 (OrderId o) /\ GetAmount h off = mleft).
  { unfold GetClientId, GetId, GetAmount. unfold resting in Hoff. rewrite Hoff. done. }
  destruct Hcl as (-> & -> & ->).
  assert (Htrans : forall s0 s1 s2 : BidAsk, same_core s0 s1 -> same_core s1 s2 -> same_core s0 s2).
  { intros ? ? ? (?&?&?&?&?&?) (?&?&?&?&?&?). split_and!; congruence. }
  destruct tk.
  - edestruct (report_try_ok t (s64 (- t * p)) (s64 (- t * p)) (ClientId order) (OrderId order)
      (MarketAssetId s) 0 (fill_state (Amount order)) s) as (s1 & H1 & C1 & E1).
    edestruct (report_try_ok (s64 (t * p)) (- t) (- t) (ClientId o) (u32 (OrderId o)) 0
      (MarketAssetId s1) (fill_state mleft) s1) as (s2 & H2 & C2 & E2).
    destruct (update_try_ok (GetTotalAmount total) p (update_side (opposite BUY)) s2) as (s3 & H3 & C3 & E3).
    exists s1, s2, s3. split_and!; eauto.
    pose proof (emits_trans _ _ _ _ _ _ _ E1 (emits_trans _ _ _ _ _ _ _ E2 E3)) as E.
    rewrite (em_asset _ _ _ _ E2), (em_asset _ _ _ _ E1) in E.
    eapply emits_eq; [exact E| |simpl; f_equal; by apply FillUpdate_wrap].
    unfold trade_reports. rewrite Hsd. simpl. rewrite <- Hm.
    f_equal; [|f_equal]; apply FillReport_wrap; rewrite ?s64_idem, ?u32_idem, ?Z.mul_opp_l; done.
  - edestruct (report_try_ok (s64 (t * p)) (- t) (- t) (ClientId order) (OrderId order)
      0 (MarketAssetId s) (fill_state (Amount order)) s) as (s1 & H1 & C1 & E1).
    edestruct (report_try_ok t (s64 (- t * p)) (s64 (- t * p)) (ClientId o) (u32 (OrderId o))
      (MarketAssetId s1) 0 (fill_state mleft) s1) as (s2 & H2 & C2 & E2).
    destruct (update_try_ok (GetTotalAmount total) p (update_side (opposite SELL)) s2) as (s3 & H3 & C3 & E3).
    exists s1, s2, s3. split_and!; eauto.
    pose proof (emits_trans _ _ _ _ _ _ _ E1 (emits_trans _ _ _ _ _ _ _ E2 E3)) as E.
    rewrite (em_asset _ _ _ _ E2), (em_asset _ _ _ _ E1) in E.
    eapply emits_eq; [exact E| |simpl; f_equal; by apply FillUpdate_wrap].
    unfold trade_reports. rewrite Hsd. simpl. rewrite <- Hm.
    f_equal; [|f_equal]; apply FillReport_wrap; rewrite ?s64_idem, ?u32_idem, ?Z.mul_opp_l; done.
Qed.

Lemma side_book_set sd st (b : OrderBook FM IX) s : side_book sd (set_side sd st b s) = b.
Proof. by destruct sd. Qed.
Lemma side_book_set_opp sd st (b : OrderBook FM IX) s :
  side_book (opposite sd) (set_side sd st b s) = side_book (opposite sd) s.
Proof. by destruct sd. Qed.
Lemma best_price_set sd sd' st (b : OrderBook FM IX) s :
  best_price sd' (set_side sd st b s) = best_price sd' s.
Proof. by destruct sd'. Qed.

Lemma shrink_prices (P : Z -> Prop) lv ids :
  P (lprice lv) -> Forall (fun lv => P (lprice lv)) (shrink lv ids).
Proof. intros HP. destruct ids; repeat constructor. done. Qed.
Lemma shrink_ids lv ids : all_ids (shrink lv ids) = ids.
Proof. destruct ids; [done|]. unfold all_ids. simpl. by rewrite app_nil_r. Qed.

Lemma fill_step_ok tk s p lvl x c L2 R freeN freeL order tl :
  let L := MkLV p lvl (x :: c) :: L2 in
  inv (opposite tk) s L R freeN freeL ->
  best_price tk s = p -> Side order = tk -> 0 < Amount order < 2 ^ 32 ->
  let h := heap (store s) in
  let o := resting h x in
  let t := Z.min (Amount order) (Amount o) in
  let gone := Amount o - t =? 0 in
  exists s' freeN' freeL',
    fill_step NodePoolSize LevelPoolSize reports_env book_env tk lvl x order tl s =
      Ret (set_Amount (Amount order - t) order,
           s64 (tl - match tk with BUY => t * p | SELL => t end),
           (if gone then head c else Some x), s') /\
    inv (opposite tk) s' (if gone then shrink (MkLV p lvl (x :: c)) c ++ L2 else L) R freeN' freeL' /\
    best_price tk s' = p /\ best_price (opposite tk) s' = best_price (opposite tk) s /\
    MarketPrice s' = p /\
    (forall y, y <> x -> resting (heap (store s')) y = resting h y) /\
    (gone = false -> resting (heap (store s')) x = set_Amount (Amount o - t) o) /\
    emits s s' (trade_reports (MarketAssetId s) order
                  (MkTrade p o t (Amount order - t) (Amount o - t + depth (resting h <$> c))))
      [depth_update (MarketAssetId s) (opposite tk) p (Amount o - t + depth (resting h <$> c))] /\
    (length freeN <= length freeN')%nat /\ (length freeL <= length freeL')%nat.
Proof.
  intros L HI Hbest Hside Hq h o t gone.
  pose proof HI as [Hown Hopp HF Hs Hoo Hpo Hob Hpb].
  assert (Ho : sided (opposite tk) o) by (by apply Forall_cons in Hoo as [? _]).
  assert (Hop : Price o = p /\ in_u32 (Amount o)).
  { apply Forall_cons in HF as [[_ _ _ _ Hlo] _]. by apply Forall_cons in Hlo as [? _]. }
  destruct Ho as [Hosd Hoa], Hop as [Hopr Hou]. unfold in_u32 in Hou.
  assert (Ht : 0 < t <= Amount o /\ t <= Amount order) by lia.
  destruct (traded_ok (store s) p lvl x c L2 R freeN freeL t HF Hs) as (HF1 & Hs1 & Hr1 & Hrx & Hd1).
  { fold h o. lia. }
  fold h o in HF1, Hs1, Hr1, Hrx, Hd1.
  unfold fill_step. fold h. change (GetAmount h x) with (Amount o). rewrite Hbest.
  assert (Htd : (if Amount order <? Amount o then Amount order else Amount o) = t).
  { unfold t. zcase; lia. }
  rewrite Htd. clear Htd. change (GetPrice h x) with (Price o). rewrite Hopr.
  destruct (Z.ltb_spec 0 t); [|lia].
  rewrite (u32_small (Amount order - t)) by lia.
  set (s1 := set_store _ (set_MarketPrice p s)).
  assert (Hst1 : store s1 = traded lvl x (Amount o) t (store s)) by done.
  destruct (fill_reports_ok tk (set_Amount (Amount order - t) order) o p t
    (Amount o - t + depth (resting h <$> c)) (Amount o - t) (level (store s1) lvl)
    (heap (store s1)) x s1 Hside) as (sa & sb & s3 & Ha & Hb & Hc & Ca & Cb & C3 & E3);
    [rewrite Hst1; exact Hrx|done|rewrite Hst1; exact Hd1|].
  change (MarketAssetId s1) with (MarketAssetId s) in E3.
  rewrite Ha. cbn [mbind result_bind]. rewrite (proj1 Ca), Hb. cbn [mbind result_bind].
  rewrite (proj1 Cb), Hc. cbn [mbind result_bind]. rewrite (proj1 C3).
  assert (Hxa : GetAmount (heap (store s1)) x = Amount o - t).
  { unfold GetAmount. change (NodeOrder (node (heap (store s1)) x)) with (resting (heap (store s1)) x).
    by rewrite Hst1, Hrx. }
  assert (Hxn : GetNext (heap (store s1)) x = head c).
  { unfold GetNext. rewrite Hst1. unfold traded. simpl. destruct (links_SetAmount x (u32 (Amount o - t)) (heap (store s)) x) as [_ ->].
    apply Forall_cons in HF as [[_ [_ _ _ Hd _] _ _ _] _]. simpl in Hd. rewrite hd_or_None in Hd. tauto. }
  rewrite Hxa, Hxn.
  assert (Htl : s64 (tl + match tk with BUY => s64 (- t * p) | SELL => - t end) =
                s64 (tl - match tk with BUY => t * p | SELL => t end)).
  { destruct tk; rewrite ?s64_add_r; f_equal; lia. }
  rewrite Htl. clear Htl.
  assert (E3' : emits s s3 (trade_reports (MarketAssetId s) order
                  (MkTrade p o t (Amount order - t) (Amount o - t + depth (resting h <$> c))))
      [depth_update (MarketAssetId s) (opposite tk) p (Amount o - t + depth (resting h <$> c))]).
  { eapply emits_trans_l; [|exact E3]. done. }
  assert (Hbk : forall sd, side_book sd s3 = side_book sd s)
    by (destruct C3 as (_ & Hb3 & Ha3 & _); intros []; [exact Hb3|exact Ha3]).
  assert (Hbp : forall sd, best_price sd s3 = best_price sd s)
    by (destruct C3 as (_ & _ & _ & _ & Hb3 & Ha3); intros []; [exact Hb3|exact Ha3]).
  assert (Hmp : MarketPrice s3 = p) by (by destruct C3 as (_ & _ & _ & -> & _)).
  assert (Hndx : forall y, y ∈ c ++ all_ids (L2 ++ R) -> y <> x).
  { intros y Hy ->. pose proof Hs as [Hn _]%store_nodup. apply NoDup_app in Hn as (_ & _ & Hn).
    change (all_ids (L ++ R)) with (x :: c ++ all_ids (L2 ++ R)) in Hn. by apply NoDup_cons in Hn as [? _]. }
  assert (Hpo1 : Forall (fun y => sided (opposite (opposite tk)) (resting (heap (store s1)) y)) (all_ids R)).
  { rewrite Forall_forall in Hpo |- *. intros y Hy. rewrite Hst1, Hr1; [by apply Hpo|].
    apply Hndx. rewrite all_ids_app. set_solver. }
  assert (Hoo1 : Forall (fun y => sided (opposite tk) (resting (heap (store s1)) y)) (c ++ all_ids L2)).
  { rewrite Forall_forall in Hoo |- *. intros y Hy. rewrite Hst1, Hr1.
    - apply Hoo. change (all_ids L) with (x :: c ++ all_ids L2). set_solver.
    - apply Hndx. rewrite all_ids_app. set_solver. }
  destruct gone eqn:Eg; unfold gone in Eg; rewrite Eg.
  - edestruct (DeleteOrder_ok NodePoolSize LevelPoolSize IxSize HNP (side_asc (opposite tk))
      (store s1) (side_book (opposite tk) s3) [] (MkLV p lvl (x :: c)) L2 R freeN freeL [] x c)
      as (r & st' & b' & freeL' & HD & Hb' & HF' & Hs' & Hord & _ & Hlen).
    { done. } { by rewrite Hbk. } { rewrite Hst1. exact HF1. } { rewrite Hst1. exact Hs1. }
    cbn zeta in *. rewrite app_nil_l in *. rewrite HD. cbn [mbind result_bind].
    exists (set_side (opposite tk) st' b' s3), (freeN ++ [x]), freeL'.
    split; [done|]. split_and!; try done.
    + split; rewrite ?side_book_set, ?side_book_set_opp, ?best_price_set, ?Hbk, ?Hbp; try done.
      * rewrite all_ids_app, shrink_ids. simpl. eapply Forall_impl; [exact Hoo1|]. simpl. intros y. by rewrite Hord.
      * simpl. eapply Forall_impl; [exact Hpo1|]. simpl. intros y. by rewrite Hord.
      * apply Forall_cons in Hob as [Hob1 Hob2]. apply Forall_app. split; [|done].
        apply (shrink_prices (fun z => SkipList.comp (side_asc (opposite tk)) z _ = false)). done.
    + by rewrite best_price_set, Hbp.
    + by rewrite best_price_set, Hbp.
    + intros y Hy. simpl. rewrite Hord, Hst1. by apply Hr1.
    + eapply emits_trans_r; [exact E3'|]. done.
    + rewrite length_app. lia.
  - exists s3, freeN, freeL. split; [done|]. rewrite !Hbp, (proj1 C3). split_and!; try done.
    split; rewrite ?Hbk, ?Hbp, ?(proj1 C3); try done.
    change (all_ids L) with (x :: c ++ all_ids L2). constructor; [|done].
    rewrite Hst1, Hrx. split; [done|]. simpl. apply Z.eqb_neq in Eg. lia.
Qed.

(** *** The inner loop *)

Lemma marketable_crosses tk order s :
  Side order = tk -> crosses tk (Price order) (best_price tk s) = true -> IsMarketable order s = true.
Proof.
  intros <- Hc. unfold IsMarketable. apply orb_true_iff. right. by destruct (Side order).
Qed.

Lemma set_Amount_id o : set_Amount (Amount o) o = o.
Proof. by destruct o. Qed.

Abbreviation fill_level := (fill_level NodePoolSize LevelPoolSize reports_env book_env).
Abbreviation fill_loop := (fill_loop NodePoolSize LevelPoolSize reports_env book_env).

Definition trade_updates (asset : Z) (tk : OrderSide) (ts : list Trade) : list OrderBookUpdate :=
  (fun tr => depth_update asset (opposite tk) (t_price tr) (t_depth tr)) <$> ts.
Definition last_price (d : Z) (ts : list Trade) : Z := default d (t_price <$> last ts).

Lemma last_price_app d ts ts' : last_price d (ts ++ ts') = last_price (last_price d ts) ts'.
Proof.
  unfold last_price. rewrite last_app. by destruct (last ts').
Qed.

Lemma shrink_irrel p lvl ids ids0 : shrink (MkLV p lvl ids0) ids = shrink (MkLV p lvl []) ids.
Proof. done. Qed.

Lemma inv_pos sd s L R freeN freeL x :
  inv sd s L R freeN freeL -> x ∈ all_ids L -> pos_order (resting (heap (store s)) x).
Proof.
  intros HI Hx. pose proof (iv_own_orders _ _ _ _ _ _ HI) as Ho. rewrite Forall_forall in Ho.
  by apply Ho.
Qed.

(** What a run of the loops leaves: [ids0] are the makers it may have touched. *)
Record filled tk (order : Order) s s' (ids0 : list nat) (ts : list Trade) : Prop := {
  fd_frame : forall y, y ∉ ids0 -> resting (heap (store s')) y = resting (heap (store s)) y;
  fd_best : best_price (opposite tk) s' = best_price (opposite tk) s;
  fd_market : MarketPrice s' = last_price (MarketPrice s) ts;
  fd_emits : emits s s' (ts ≫= trade_reports (MarketAssetId s) order)
               (trade_updates (MarketAssetId s) tk ts)
}.

Lemma filled_trans tk order order' s1 s2 s3 ids0 ids1 ts ts' :
  ClientId order' = ClientId order -> OrderId order' = OrderId order -> Side order' = Side order ->
  filled tk order s1 s2 ids0 ts -> filled tk order' s2 s3 ids1 ts' -> ids1 ⊆ ids0 ->
  filled tk order s1 s3 ids0 (ts ++ ts').
Proof.
  intros Hc Hi Hsd [f1 b1 m1 e1] [f2 b2 m2 e2] Hsub. split.
  - intros y Hy. rewrite f2, f1; set_solver.
  - congruence.
  - by rewrite m2, m1, last_price_app.
  - assert (Htr : forall a tr, trade_reports a order' tr = trade_reports a order tr).
    { intros. unfold trade_reports, buyer_report, seller_report. by rewrite Hc, Hi, Hsd. }
    rewrite (em_asset _ _ _ _ e1) in e2. rewrite bind_app. unfold trade_updates. rewrite fmap_app.
    eapply emits_trans; [exact e1|]. erewrite list_bind_ext in e2; [exact e2| |done].
    intros. apply Htr.
Qed.

Lemma filled_refl tk order s : filled tk order s s [] [].
Proof. split; try done. by apply emits_same. Qed.

Lemma fill_level_ok tk p lvl L2 R ids :
  forall fuel s order tl freeN freeL,
  (length ids < fuel)%nat ->
  inv (opposite tk) s (shrink (MkLV p lvl []) ids ++ L2) R freeN freeL ->
  best_price tk s = p -> Side order = tk -> 0 <= Amount order < 2 ^ 32 ->
  crosses tk (Price order) p = true -> in_s64 tl ->
  let '(q', os', ts) := match_fifo p (Amount order) (resting (heap (store s)) <$> ids) in
  exists s' ids' freeN' freeL',
    fill_level fuel tk lvl (head ids) order tl s =
      Ret (set_Amount q' order, s64 (tl - spent order ts), s') /\
    inv (opposite tk) s' (shrink (MkLV p lvl []) ids' ++ L2) R freeN' freeL' /\
    best_price tk s' = p /\ resting (heap (store s')) <$> ids' = os' /\ ids' ⊆ ids /\
    filled tk order s s' ids ts /\
    (length freeN <= length freeN')%nat /\ (length freeL <= length freeL')%nat.
Proof.
  induction ids as [|x c IH]; intros fuel s order tl freeN freeL Hfuel HI Hb Hsd Hq Hcr Htl.
  - cbn [match_fifo fmap list_fmap head]. exists s, [], freeN, freeL.
    split; [destruct fuel; simpl; by rewrite set_Amount_id, Z.sub_0_r, s64_small|].
    split_and!; try done. apply filled_refl.
  - destruct fuel as [|fuel]; [lia|].
    pose proof (inv_pos _ _ _ _ _ _ x HI ltac:(rewrite all_ids_app, shrink_ids; set_solver)) as Hpos.
    unfold pos_order in Hpos.
    cbn [fmap list_fmap head]. cbn [match_fifo BidAsk.fill_level].
    rewrite (marketable_crosses tk) by (rewrite ?Hb; done).
    destruct (Z.leb_spec (Amount order) 0) as [Hz|Hz].
    { destruct (Z.ltb_spec 0 (Amount order)); [lia|]. simpl.
      exists s, (x :: c), freeN, freeL. rewrite set_Amount_id, Z.sub_0_r, s64_small by done.
      split_and!; try done. destruct (filled_refl tk order s). by split. }
    destruct (Z.ltb_spec 0 (Amount order)); [|lia]. cbn [andb].
    destruct (fill_step_ok tk s p lvl x c L2 R freeN freeL order tl HI Hb Hsd)
      as (s1 & fN1 & fL1 & HS & HI1 & Hb1 & Hbo1 & Hm1 & Hfr1 & Hx1 & E1 & Hl1 & Hl1'); [lia|].
    set (o := resting (heap (store s)) x) in *.
    set (t := Z.min (Amount order) (Amount o)) in *. rewrite HS. cbn [mbind result_bind].
    set (tr := MkTrade p o t (Amount order - t) (Amount o - t + depth (resting (heap (store s)) <$> c))) in *.
    assert (Hsp : match tk with BUY => t * p | SELL => t end =
                  match Side order with BUY => t_qty tr * t_price tr | SELL => t_qty tr end)
      by (rewrite Hsd; by destruct tk).
    assert (Hf1 : filled tk order s s1 [x] [tr]).
    { split; try done; [intros y Hy; apply Hfr1; set_solver|].
      eapply emits_eq; [exact E1| |done]. by rewrite bind_singleton. }
    destruct (Amount o - t =? 0) eqn:Eg.
    + rewrite shrink_irrel in HI1.
      assert (Hxc : x ∉ c).
      { pose proof (iv_store _ _ _ _ _ _ HI) as [Hn _]%store_nodup.
        apply NoDup_app in Hn as (_ & _ & Hn). rewrite all_ids_app in Hn. rewrite all_ids_app, shrink_ids in Hn.
        apply NoDup_app in Hn as (Hn & _ & _). apply NoDup_app in Hn as (Hn & _ & _).
        by apply NoDup_cons in Hn as [? _]. }
      assert (Hc1 : resting (heap (store s1)) <$> c = resting (heap (store s)) <$> c).
      { apply list_fmap_ext. intros i y Hy. apply Hfr1. intros ->. by apply Hxc, (list_elem_of_lookup_2 _ i). }
      specialize (IH fuel s1 (set_Amount (Amount order - t) order)
        (s64 (tl - match tk with BUY => t * p | SELL => t end)) fN1 fL1).
      cbn [Amount set_Amount Price Side] in IH. rewrite Hc1 in IH.
      fold (set_Amount (Amount order - t) order) in IH.
      destruct (match_fifo p (Amount order - t) (resting (heap (store s)) <$> c)) as [[q' os'] ts].
      destruct IH as (s' & ids' & fN' & fL' & HL & HI' & Hb' & Hab & Hsub & Hf & Hl2 & Hl2');
        [simpl in Hfuel; lia|done|done|done|lia|done|apply s64_range|].
      exists s', ids', fN', fL'. split.
      { rewrite HL, s64_sub_l. cbn [spent foldr]. rewrite <- Hsp, Z.sub_add_distr. done. }
      split_and!; try done; try lia; [set_solver|].
      change (tr :: ts) with ([tr] ++ ts). eapply (filled_trans tk order (set_Amount (Amount order - t) order)); try done.
      * destruct Hf1. split; try done. intros y Hy. apply fd_frame0. set_solver.
      * set_solver.
    + assert (Hq0 : Amount order - t = 0) by (apply Z.eqb_neq in Eg; lia).
      exists s1, (x :: c), fN1, fL1. rewrite Hq0 in *. split.
      { destruct fuel; simpl; by rewrite Z.add_0_r, Hsp. }
      split_and!; try done.
      * cbn [fmap list_fmap]. rewrite Hx1 by done. f_equal. apply list_fmap_ext. intros i y Hy. apply Hfr1.
        intros ->. pose proof (iv_store _ _ _ _ _ _ HI) as [Hn _]%store_nodup.
        apply NoDup_app in Hn as (_ & _ & Hn). rewrite all_ids_app in Hn. rewrite all_ids_app, shrink_ids in Hn.
        apply NoDup_app in Hn as (Hn & _ & _). apply NoDup_app in Hn as (Hn & _ & _).
        apply NoDup_cons in Hn as [Hni _]. by apply Hni, (list_elem_of_lookup_2 _ i).
      * destruct Hf1. split; try done. intros y Hy. apply fd_frame0. set_solver.
Qed.

(** *** The outer loop *)

Lemma best_set_best tk p s : best_price tk (set_best tk p s) = p.
Proof. by destruct tk. Qed.
Lemma best_set_best_opp tk p s : best_price (opposite tk) (set_best tk p s) = best_price (opposite tk) s.
Proof. by destruct tk. Qed.
Lemma set_best_rest tk p s :
  store (set_best tk p s) = store s /\ (forall sd, side_book sd (set_best tk p s) = side_book sd s) /\
  MarketPrice (set_best tk p s) = MarketPrice s /\ same_out s (set_best tk p s).
Proof. destruct tk; (split_and!; [done|intros []; done|done..]). Qed.

(** Caching the price of the best level keeps the invariant. *)
Lemma inv_set_best tk s lv L2 R freeN freeL :
  inv (opposite tk) s (lv :: L2) R freeN freeL ->
  inv (opposite tk) (set_best tk (lprice lv) s) (lv :: L2) R freeN freeL.
Proof.
  intros [Hown Hopp HF Hs Hoo Hpo Hob Hpb]. pose proof (set_best_rest tk (lprice lv) s) as (Hst & Hbk & _ & _).
  split; rewrite ?Hst, ?Hbk; try done.
  - rewrite opposite_invol, best_set_best.
    pose proof (sorted_split _ [] lv L2 (book_sorted _ _ _ _ Hown)) as [_ H2].
    constructor; [apply SkipList.comp_irrefl|]. eapply Forall_impl; [exact H2|]. simpl.
    intros lv' Hlv'. by apply SkipList.comp_asym.
  - by rewrite best_set_best_opp.
Qed.

Lemma crosses_break tk order s :
  (match tk with
   | BUY => Price order <? BestAskPrice s
   | SELL => BestBidPrice s <? Price order
   end) = negb (crosses tk (Price order) (best_price tk s)).
Proof. destruct tk; simpl; by rewrite Z.ltb_antisym. Qed.

Lemma filled_set_best tk order p s s' ids0 ts :
  filled tk order (set_best tk p s) s' ids0 ts -> filled tk order s s' ids0 ts.
Proof.
  pose proof (set_best_rest tk p s) as (Hst & _ & Hm & Ho). intros [f b m e]. split.
  - intros y Hy. by rewrite f, Hst.
  - by rewrite b, best_set_best_opp.
  - by rewrite m, Hm.
  - assert (Ha : MarketAssetId (set_best tk p s) = MarketAssetId s) by apply Ho.
    rewrite Ha in e. by eapply emits_trans_l.
Qed.

Lemma fill_loop_exit fuel tk order tl s :
  Amount order <= 0 -> fill_loop fuel tk order tl s = Ret (order, tl, s).
Proof. intros Ha. destruct fuel; simpl; destruct (Z.ltb_spec 0 (Amount order)); done || lia. Qed.

Lemma fill_loop_ok tk R L :
  forall fuel s order tl freeN freeL,
  (length L < fuel)%nat ->
  inv (opposite tk) s L R freeN freeL ->
  Side order = tk -> 0 <= Amount order < 2 ^ 32 -> in_s64 tl -> IsMarketable order s = true ->
  let '(q', L', ts) := match_levels tk (Price order) (Amount order) (abs_side (heap (store s)) L) in
  exists s' Lc freeN' freeL',
    fill_loop fuel tk order tl s = Ret (set_Amount q' order, s64 (tl - spent order ts), s') /\
    inv (opposite tk) s' Lc R freeN' freeL' /\ abs_side (heap (store s')) Lc = L' /\
    filled tk order s s' (all_ids L) ts /\
    (length freeN <= length freeN')%nat /\ (length freeL <= length freeL')%nat.
Proof.
  induction L as [|lv L2 IH]; intros fuel s order tl freeN freeL Hfuel HI Hsd Hq Htl Hmk;
    (destruct fuel as [|fuel]; [lia|]); cbn [match_levels abs_side fmap list_fmap];
    cbn [BidAsk.fill_loop]; rewrite Hmk.
  - assert (Hret : Ret (order, tl, s) = Ret (set_Amount (Amount order) order, s64 (tl - spent order []), s)).
    { simpl. by rewrite set_Amount_id, Z.sub_0_r, s64_small. }
    exists s, [], freeN, freeL. split; [|split_and!; try done; apply filled_refl].
    destruct (0 <? Amount order); cbn [andb]; [|exact Hret].
    unfold GetBestLevel. destruct (iv_own _ _ _ _ _ _ HI) as [(n & Hi & _) _].
    rewrite (idx_head_spec _ _ _ _ Hi). exact Hret.
  - assert (Hret : forall s0 : BidAsk, Ret (order, tl, s0) = Ret (set_Amount (Amount order) order, s64 (tl - spent order []), s0)).
    { intros s0. simpl. by rewrite set_Amount_id, Z.sub_0_r, s64_small. }
    destruct (Z.ltb_spec 0 (Amount order)) as [Hpos|Hz]; cbn [andb].
    2:{ exists s, (lv :: L2), freeN, freeL. split; [apply Hret|]. split_and!; try done.
        destruct (filled_refl tk order s). by split. }
    unfold GetBestLevel. pose proof (iv_own _ _ _ _ _ _ HI) as [(n & Hi & _) _].
    rewrite (idx_head_spec _ _ _ _ Hi). cbn [mbind result_bind fmap list_fmap head option_fmap option_map snd lv_kv].
    pose proof (iv_lv _ _ _ _ _ _ HI) as HF. apply Forall_cons in HF as [Hlv _].
    destruct Hlv as [Hne Hll _ Hpr _]. unfold PeekOrder, GetKey. rewrite (ll_head _ _ _ Hll).
    destruct lv as [p lvl ids]. cbn [lprice lptr lids] in *. destruct ids as [|x c]; [done|].
    cbn [head]. rewrite Hpr.
    pose proof (inv_set_best _ _ _ _ _ _ _ HI) as HI1. cbn [lprice] in HI1.
    pose proof (set_best_rest tk p s) as (Hst1 & _ & _ & _).
    pose proof (best_set_best tk p s) as Hb1.
    rewrite crosses_break, Hb1.
    destruct (crosses tk (Price order) p) eqn:Hcr; cbn [negb andb].
    2:{ exists (set_best tk p s), (MkLV p lvl (x :: c) :: L2), freeN, freeL. split; [apply Hret|].
        split_and!; try done; [by rewrite Hst1|].
        eapply filled_set_best. destruct (filled_refl tk order (set_best tk p s)). by split. }
    set (s1 := set_best tk p s) in *.
    assert (Hlen : (length (x :: c) <= NodePoolSize)%nat).
    { pose proof (iv_store _ _ _ _ _ _ HI) as Hl%store_ids_length.
      rewrite !all_ids_app, all_ids_cons, !length_app in Hl. simpl in *. lia. }
    pose proof (fill_level_ok tk p lvl L2 R (x :: c) (S NodePoolSize) s1 order tl freeN freeL
      ltac:(lia) HI1 Hb1 Hsd Hq Hcr Htl) as HFL.
    rewrite Hst1 in HFL.
    pose proof (match_fifo_ok p (Amount order) (resting (heap (store s)) <$> (x :: c)) ltac:(lia)) as HM.
    destruct (match_fifo p (Amount order) (resting (heap (store s)) <$> (x :: c))) as [[q1 os1] ts1].
    destruct HFL as (s2 & ids2 & fN2 & fL2 & HL & HI2 & Hb2 & Hab2 & Hsub & Hf2 & Hl2 & Hl2').
    destruct HM as (Hq1 & Hqs & _ & Hos & _ & Htr1).
    { apply Forall_fmap, Forall_forall. intros y Hy. eapply inv_pos; [exact HI|].
      rewrite all_ids_cons. set_solver. }
    assert (Hts1 : 0 <= traded_qty ts1).
    { clear -Htr1. induction Htr1 as [|tr ts [_ Ht] _ IHt]; simpl; lia. }
    cbn [head] in HL. rewrite HL. cbn [mbind result_bind].
    assert (Hf2s : filled tk order s s2 (x :: c) ts1) by (by eapply filled_set_best).
    assert (HL2 : abs_side (heap (store s2)) L2 = abs_side (heap (store s)) L2).
    { apply abs_side_ext. intros y Hy. apply (fd_frame _ _ _ _ _ _ Hf2s). intros Hin.
      pose proof (iv_store _ _ _ _ _ _ HI) as [Hn _]%store_nodup.
      apply NoDup_app in Hn as (_ & _ & Hn). rewrite all_ids_app, all_ids_cons in Hn.
      apply NoDup_app in Hn as (Hn & _ & _). apply NoDup_app in Hn as (_ & Hd & _). by apply (Hd y). }
    assert (Hfx : forall ids0, x :: c ⊆ ids0 -> filled tk order s s2 ids0 ts1).
    { intros ids0 Hi0. destruct Hf2s as [f ? ? ?]. split; try done. intros y Hy. apply f. set_solver. }
    destruct ids2 as [|y ys].
    + simpl in Hab2. rewrite <- Hab2. simpl in HI2.
      specialize (IH fuel s2 (set_Amount q1 order) (s64 (tl - spent order ts1)) fN2 fL2).
      cbn [Amount set_Amount Price Side] in IH. rewrite HL2 in IH.
      fold (abs_side (heap (store s)) L2).
      destruct (match_levels tk (Price order) q1 (abs_side (heap (store s)) L2)) as [[q' L'] ts'].
      destruct IH as (s' & Lc & fN' & fL' & HLp & HI' & Hab & Hf & Hl3 & Hl3');
        [simpl in Hfuel; lia|done|done|lia|apply s64_range| |].
      { eapply (marketable_crosses tk); [done|]. by rewrite Hb2. }
      exists s', Lc, fN', fL'. split.
      { rewrite HLp, s64_sub_l, spent_app, Z.sub_add_distr. done. }
      split_and!; try done; try lia.
      eapply (filled_trans tk order (set_Amount q1 order)); try done.
      * apply Hfx. rewrite all_ids_cons. set_solver.
      * rewrite all_ids_cons. set_solver.
    + assert (Hos1 : os1 <> []) by (rewrite <- Hab2; done). rewrite (Hos Hos1) in *.
      destruct os1 as [|o1 os1]; [done|].
      exists s2, (shrink (MkLV p lvl []) (y :: ys) ++ L2), fN2, fL2. split.
      { by apply fill_loop_exit. }
      split_and!; try done.
      * cbn [shrink app abs_side fmap list_fmap lprice lptr lids]. f_equal; [f_equal; exact Hab2|exact HL2].
      * apply Hfx. rewrite all_ids_cons. set_solver.
Qed.

(** *** Resting an order *)

Lemma abs_add_level h asc p ptr x L :
  Price (resting h x) = p ->
  abs_side h (add_level asc p ptr x L) = rest_order asc (resting h x) (abs_side h L).
Proof.
  intros Hp. induction L as [|lv L IH].
  - unfold abs_side. simpl. by rewrite Hp.
  - cbn [add_level abs_side fmap list_fmap rest_order]. fold (abs_side h L). rewrite Hp.
    destruct (Z.eqb_spec (lprice lv) p) as [<-|Hne].
    + unfold abs_side. cbn [fmap list_fmap lprice lids]. by rewrite fmap_app.
    + destruct (SkipList.comp asc p (lprice lv)); [done|].
      unfold abs_side at 1. cbn [fmap list_fmap]. f_equal. exact IH.
Qed.

Lemma depth_at_none h p L : p ∉ lprice <$> L -> depth_at p (abs_side h L) = 0.
Proof.
  induction L as [|lv L IH]; [done|]. cbn [fmap list_fmap]. intros Hni.
  unfold depth_at, abs_side. cbn [fmap list_fmap foldr fst]. destruct (Z.eqb_spec (lprice lv) p); [set_solver|].
  apply IH. set_solver.
Qed.

Lemma depth_at_abs h lv L :
  NoDup (lprice <$> L) -> lv ∈ L -> depth_at (lprice lv) (abs_side h L) = qty h (lids lv).
Proof.
  induction L as [|lv' L IH]; [set_solver|]. cbn [fmap list_fmap]. intros [Hni Hnd]%NoDup_cons.
  unfold depth_at, abs_side. cbn [fmap list_fmap foldr fst snd]. intros [->|Hin]%elem_of_cons.
  - rewrite Z.eqb_refl. fold (abs_side h L). fold (depth_at (lprice lv') (abs_side h L)).
    rewrite depth_at_none by done. rewrite qty_depth. lia.
  - destruct (Z.eqb_spec (lprice lv') (lprice lv)) as [He|_]; [|by apply IH].
    exfalso. apply Hni. rewrite He. by apply list_elem_of_fmap_2.
Qed.

(** The shared state with the node [x] taken from the pool, filled and entered in
    the map of orders. *)
Lemma store_acquire_node (st : Store OM) ids ptrs freeN freeL x np (om : OM) order :
  store_ok st ids ptrs (freeN ++ [x]) freeL -> pool_rep NodePoolSize np freeN ->
  u32 (OrderId order) ∉ GetId (heap st) <$> ids ->
  map_rep om (<[u32 (OrderId order) := x]> (id_map (heap st) ids)) ->
  store_ok (set_order_map om (set_heap (SetOrder x order (heap st)) (set_node_pool np st)))
    (x :: ids) ptrs freeN freeL /\ x ∉ ids.
Proof.
  intros Hs Hnp Hfresh Hom. pose proof Hs as [Hn _]%store_nodup. rewrite <- app_assoc in Hn.
  apply NoDup_app in Hn as (_ & _ & Hn). apply NoDup_cons in Hn as [Hx _].
  assert (Hid : forall y, y ∈ ids -> GetId (SetOrder x order (heap st)) y = GetId (heap st) y).
  { intros y Hy. unfold GetId. rewrite node_SetOrder_ne; [done|]. intros ->. by apply Hx. }
  assert (Hmap : GetId (SetOrder x order (heap st)) <$> ids = GetId (heap st) <$> ids).
  { apply list_fmap_ext. intros i y Hy. apply Hid. by eapply list_elem_of_lookup_2. }
  assert (Hidx : GetId (SetOrder x order (heap st)) x = u32 (OrderId order)).
  { unfold GetId, SetOrder. by rewrite node_insert_eq. }
  destruct Hs as [? Hp ? ? ? Hnd Hm]. split; [|set_solver]. split; simpl; try done.
  - rewrite <- Hp, <- app_assoc. done.
  - rewrite Hidx. change (list_fmap nat Z (GetId (SetOrder x order (heap st))) ids)
      with (GetId (SetOrder x order (heap st)) <$> ids). rewrite Hmap. by constructor.
  - unfold id_map. simpl. rewrite Hidx.
    assert (He : id_map (SetOrder x order (heap st)) ids = id_map (heap st) ids).
    { unfold id_map. f_equal. apply list_fmap_ext. intros i y Hy. rewrite Hid; [done|].
      by eapply list_elem_of_lookup_2. }
    unfold id_map in He, Hom. simpl in He. setoid_rewrite He. exact Hom.
Qed.

Lemma add_level_prices asc p ptr x L lv :
  lv ∈ add_level asc p ptr x L -> lprice lv = p \/ exists lv', lv' ∈ L /\ lprice lv' = lprice lv.
Proof.
  induction L as [|a L IH]; cbn [add_level].
  - intros ->%list_elem_of_singleton. by left.
  - destruct (lprice a =? p); [|destruct (SkipList.comp asc p (lprice a))].
    + intros [->|Hin]%elem_of_cons; [by left|]. right. exists lv. set_solver.
    + intros [->|Hin]%elem_of_cons; [by left|]. right. by exists lv.
    + intros [->|Hin]%elem_of_cons; [right; exists a; set_solver|].
      destruct (IH Hin) as [?|(lv' & ? & ?)]; [by left|]. right. exists lv'. set_solver.
Qed.

(** What [AddSideLimitOrder] needs of the pools and maps. *)
Definition rest_room s L R (freeN freeL : list nat) (order : Order) : Prop :=
  freeN <> [] /\
  (u32 (OrderId order) ∉ GetId (heap (store s)) <$> all_ids (L ++ R)) /\
  map_room (M := OM) (dom (id_map (heap (store s)) (all_ids (L ++ R)))) (u32 (OrderId order)) /\
  (Price order ∉ (lprice <$> L) ->
   freeL <> [] /\ (length L < IxSize)%nat /\ map_room (M := FM) (dom (levels_map L)) (Price order)).

Lemma AddSideLimitOrder_ok sd s L R freeN freeL order :
  inv sd s L R freeN freeL -> Side order = sd -> 0 < Amount order < 2 ^ 32 ->
  SkipList.interior (side_asc sd) (Price order) -> rest_room s L R freeN freeL order ->
  exists s' L' freeN' freeL',
    AddSideLimitOrder NodePoolSize reports_env book_env sd order s = Ret s' /\
    inv sd s' L' R freeN' freeL' /\
    abs_side (heap (store s')) L' = rest_order (side_asc sd) order (abs_side (heap (store s)) L) /\
    abs_side (heap (store s')) R = abs_side (heap (store s)) R /\
    MarketPrice s' = MarketPrice s /\
    emits s s' [ack_report (MarketAssetId s) order (locked order (Amount order)) (OrderId order) ADD]
      [depth_update (MarketAssetId s) sd (Price order)
         (depth_at (Price order) (abs_side (heap (store s')) L'))].
Proof.
  intros HI Hsd Ha Hint (HfN & Hfresh & Hroom & Hlv).
  destruct freeN as [|x freeN _] using rev_ind; [done|]. clear HfN.
  pose proof HI as [Hown Hopp HF Hs Hoo Hpo Hob Hpb].
  unfold AddSideLimitOrder.
  destruct (acquire_snoc _ _ _ _ (so_nodes _ _ _ _ _ _ _ Hs)) as (np & -> & Hnp).
  assert (Hid : GetId (SetOrder x order (heap (store s))) x = u32 (OrderId order)).
  { unfold GetId, SetOrder. by rewrite node_insert_eq. }
  cbn [heap set_heap OrderMap set_node_pool]. rewrite Hid.
  destruct (map_add_spec _ _ (u32 (OrderId order)) x (so_map _ _ _ _ _ _ _ Hs)) as (om & -> & Hom);
    [by apply id_map_none|done|].
  cbn [mbind result_bind].
  destruct (store_acquire_node _ _ _ _ _ _ np om order Hs Hnp Hfresh Hom) as [Hs1 Hx].
  set (st1 := set_order_map om _) in *.
  set (s1 := match sd with BUY => set_BestBid _ s | SELL => set_BestAsk _ s end).
  assert (Hbk1 : forall d, side_book d s1 = side_book d s) by (intros []; unfold s1; by destruct sd).
  assert (Hr1 : resting (heap st1) x = order).
  { unfold resting, st1, SetOrder. simpl. by rewrite node_insert_eq. }
  assert (Hn1 : forall y, y ∈ all_ids (L ++ R) -> node (heap st1) y = node (heap (store s)) y).
  { intros y Hy. apply node_SetOrder_ne. intros ->. by apply Hx. }
  assert (HF1 : Forall (lv_ok st1) (L ++ R)) by (eapply lvs_frame; [exact Hn1|done|exact HF]).
  assert (Hp1 : GetPrice (heap st1) x = Price order) by (unfold GetPrice; unfold resting in Hr1; by rewrite Hr1).
  destruct (AddLimitOrder_ok NodePoolSize LevelPoolSize IxSize HNP (side_asc sd) st1 (side_book sd s1) L R
    freeN freeL x) as (ptr & st' & b' & freeL' & HA & Hb' & HF' & Hs' & Hord & lv & Hlvin & Hptr & Hlvp);
    rewrite ?Hp1, ?Hbk1, ?Hr1; try done; [unfold in_u32; lia|].
  cbn zeta in *. rewrite Hbk1 in HA. rewrite HA. cbn [mbind result_bind]. rewrite Hp1 in *.
  set (L' := add_level (side_asc sd) (Price order) ptr x L) in *.
  set (s2 := set_side sd st' b' s1).
  assert (Hin : forall y, y ∈ all_ids (L ++ R) -> resting (heap st') y = resting (heap (store s)) y).
  { intros y Hy. rewrite Hord. unfold resting. by rewrite Hn1. }
  assert (Hlvok : lv_ok st' lv).
  { rewrite Forall_forall in HF'. apply HF'. apply elem_of_app. by left. }
  match goal with |- context [report_guarded ?a ?b ?c ?d ?e ?f ?g ?h s2] =>
    destruct (report_guarded_ok a b c d e f g h s2) as [C3 E3];
    set (s3 := report_guarded a b c d e f g h s2) in * end.
  match goal with |- context [update_guarded ?a ?b ?c s3] =>
    destruct (update_guarded_ok a b c s3) as [C4 E4]; set (s4 := update_guarded a b c s3) in * end.
  assert (Hst4 : store s4 = st') by (destruct C4 as [-> _], C3 as [-> _]; done).
  assert (Hbk4 : forall d, side_book d s4 = side_book d s2).
  { destruct C4 as (_ & B4 & A4 & _), C3 as (_ & B3 & A3 & _).
    intros []; [exact (eq_trans B4 B3)|exact (eq_trans A4 A3)]. }
  assert (Hbp4 : forall d, best_price d s4 = best_price d s1).
  { destruct C4 as (_ & _ & _ & _ & B4 & A4), C3 as (_ & _ & _ & _ & B3 & A3).
    intros []; unfold best_price; rewrite ?B4, ?A4, ?B3, ?A3; by destruct sd. }
  exists s4, L', freeN, freeL'. split; [done|]. rewrite Hst4.
  assert (HabsL : abs_side (heap st') L' = rest_order (side_asc sd) order (abs_side (heap (store s)) L)).
  { unfold L'. rewrite abs_add_level by (rewrite Hord, Hr1; done). rewrite Hord, Hr1. f_equal.
    apply abs_side_ext. intros y Hy. apply Hin. rewrite all_ids_app. set_solver. }
  assert (HabsR : abs_side (heap st') R = abs_side (heap (store s)) R).
  { apply abs_side_ext. intros y Hy. apply Hin. rewrite all_ids_app. set_solver. }
  assert (Hbest : best_price sd s1 = best_price sd s /\
    best_price (opposite sd) s1 = match sd with BUY => Z.max (BestBidPrice s) (Price order)
                                  | SELL => Z.min (BestAskPrice s) (Price order) end)
    by (unfold s1; by destruct sd).
  destruct Hbest as [Hbest1 Hbest2].
  split_and!; try done.
  - split; rewrite ?Hbk4, ?Hbp4, ?Hst4; unfold s2; rewrite ?side_book_set, ?side_book_set_opp, ?Hbk1; try done.
    + unfold L'. rewrite add_level_ids. constructor; [rewrite Hord, Hr1; split; [done|lia]|].
      rewrite Forall_forall in Hoo |- *. intros y Hy. rewrite Hin by (rewrite all_ids_app; set_solver).
      by apply Hoo.
    + rewrite Forall_forall in Hpo |- *. intros y Hy. rewrite Hin by (rewrite all_ids_app; set_solver).
      by apply Hpo.
    + rewrite Hbest2. rewrite Forall_forall in Hob |- *. intros lv0 Hlv0.
      unfold L' in Hlv0. apply add_level_prices in Hlv0 as [->|(lv1 & Hlv1 & <-)];
        [|specialize (Hob _ Hlv1)]; destruct sd; unfold SkipList.comp in *; simpl in *;
        apply Z.ltb_ge; try lia; apply Z.ltb_ge in Hob; lia.
    + by rewrite Hbest1.
  - destruct C4 as (_ & _ & _ & -> & _), C3 as (_ & _ & _ & -> & _). by destruct sd.
  - assert (Hos : same_out s s2) by (unfold s2, s1; by destruct sd).
    assert (Hasset : MarketAssetId s2 = MarketAssetId s) by apply Hos.
    rewrite (em_asset _ _ _ _ E3), Hasset in E4. rewrite Hasset in E3.
    eapply emits_trans_l; [exact Hos|].
    eapply emits_eq; [exact (emits_trans _ _ _ _ _ _ _ E3 E4)| |]; cbn [app].
    + f_equal. unfold ack_report, locked. rewrite Hsd.
      destruct sd; apply FillReport_wrap; rewrite ?s64_idem; done.
    + f_equal. unfold depth_update. unfold GetKey. rewrite <- Hptr, (lo_price _ _ Hlvok), Hlvp.
      apply FillUpdate_wrap. rewrite <- Hlvp, depth_at_abs;
        [apply (lo_depth _ _ Hlvok)| |done].
      eapply sorted_nodup, book_sorted, Hb'.
Qed.

(** ** Refinement *)

Definition view sd s L R freeN freeL (b : Book) : Prop :=
  inv sd s L R freeN freeL /\ get_side sd b = abs_side (heap (store s)) L /\
  get_side (opposite sd) b = abs_side (heap (store s)) R.

(** The engine in state [s] holds the book [b]. *)
Definition repr s (b : Book) : Prop := exists L R freeN freeL, view BUY s L R freeN freeL b.

Lemma repr_view sd s b : repr s b -> exists L R freeN freeL, view sd s L R freeN freeL b.
Proof.
  intros (L & R & fN & fL & HI & H1 & H2). destruct sd; [by exists L, R, fN, fL|].
  exists R, L, fN, fL. split; [by apply (inv_swap BUY)|done].
Qed.

Lemma view_repr sd s L R freeN freeL b : view sd s L R freeN freeL b -> repr s b.
Proof.
  intros (HI & H1 & H2). destruct sd; [by exists L, R, freeN, freeL|].
  exists R, L, freeN, freeL. split; [by apply (inv_swap SELL)|done].
Qed.

Definition book_orders (b : Book) : list Order := side_orders (bids b) ++ side_orders (asks b).

(** Room in the engine's pools and maps for one more order of the book; its id
    must not be in use and its price must not be a sentinel of the index. *)
Definition book_room (b : Book) (o : Order) : Prop :=
  let own := get_side (Side o) b in
  (length (book_orders b) < NodePoolSize)%nat /\
  (order_key o ∉ order_key <$> book_orders b) /\
  map_room (M := OM) (list_to_set (order_key <$> book_orders b)) (order_key o) /\
  SkipList.interior (side_asc (Side o)) (Price o) /\
  ((Price o ∉ own.*1) ->
   (length (bids b) + length (asks b) < LevelPoolSize)%nat /\ (length own < IxSize)%nat /\
   map_room (M := FM) (list_to_set own.*1) (Price o)).

Lemma abs_prices h L : (abs_side h L).*1 = lprice <$> L.
Proof. unfold abs_side. rewrite <- list_fmap_compose. done. Qed.
Lemma abs_length h L : length (abs_side h L) = length L.
Proof. unfold abs_side. apply length_fmap. Qed.

Lemma view_orders sd s L R freeN freeL b :
  view sd s L R freeN freeL b -> resting (heap (store s)) <$> all_ids (L ++ R) ≡ₚ book_orders b.
Proof.
  intros (_ & H1 & H2). unfold book_orders. rewrite all_ids_app, fmap_app, <- !abs_orders, <- H1, <- H2.
  destruct sd; [done|]. apply Permutation_app_comm.
Qed.

Lemma view_ids sd s L R freeN freeL b :
  view sd s L R freeN freeL b ->
  GetId (heap (store s)) <$> all_ids (L ++ R) ≡ₚ order_key <$> book_orders b.
Proof. intros Hv. by rewrite <- (view_orders _ _ _ _ _ _ _ Hv), <- list_fmap_compose. Qed.

Lemma view_room sd s L R freeN freeL b o :
  view sd s L R freeN freeL b -> Side o = sd -> book_room b o -> rest_room s L R freeN freeL o.
Proof.
  intros Hv Hsd (Hn & Hf & Hr & _ & Hl). pose proof (view_ids _ _ _ _ _ _ _ Hv) as Hids.
  destruct Hv as (HI & H1 & H2). pose proof (iv_store _ _ _ _ _ _ HI) as Hs.
  assert (Hlen : length (all_ids (L ++ R)) = length (book_orders b)).
  { apply Permutation_length in Hids. by rewrite !length_fmap in Hids. }
  split_and!.
  - intros ->. pose proof (Permutation_length (so_nperm _ _ _ _ _ _ _ Hs)) as Hp.
    rewrite app_nil_l, length_seq in Hp. lia.
  - by rewrite Hids.
  - eapply map_room_mono; [|exact Hr]. unfold id_map. rewrite dom_list_to_map, <- list_fmap_compose.
    change (compose fst (λ x, (GetId (heap (store s)) x, x))) with (GetId (heap (store s))).
    intros k. rewrite !elem_of_list_to_set. by rewrite Hids.
  - rewrite Hsd, H1, abs_prices in Hl. intros Hni. destruct (Hl Hni) as (G1 & G2 & G3). split_and!.
    + intros ->. pose proof (Permutation_length (so_lperm _ _ _ _ _ _ _ Hs)) as Hp.
      rewrite app_nil_l, length_seq, length_fmap, length_app in Hp.
      apply (f_equal length) in H1, H2. rewrite abs_length in H1, H2. destruct sd; simpl in *; lia.
    + by rewrite abs_length in G2.
    + eapply map_room_mono; [|exact G3]. unfold levels_map. by rewrite dom_list_to_map, lv_kv_keys.
Qed.

(** Nothing crosses when the cached best price does not. *)
Lemma not_marketable tk order s L R freeN freeL :
  inv (opposite tk) s L R freeN freeL -> Side order = tk -> IsMarketable order s = false ->
  forall q, match_levels tk (Price order) q (abs_side (heap (store s)) L) = (q, abs_side (heap (store s)) L, []).
Proof.
  intros HI Hsd Hm q. destruct L as [|lv L]; [done|].
  pose proof (iv_own_best _ _ _ _ _ _ HI) as Hb. apply Forall_cons in Hb as [Hb _].
  rewrite opposite_invol in Hb. unfold abs_side. cbn [fmap list_fmap match_levels].
  replace (crosses tk (Price order) (lprice lv)) with false; [by rewrite andb_false_r|].
  symmetry. unfold IsMarketable in Hm. apply orb_false_iff in Hm as [_ Hm]. rewrite Hsd in Hm.
  destruct tk; simpl in *; unfold SkipList.comp in *; simpl in *; apply Z.leb_gt in Hm;
    apply Z.ltb_ge in Hb; apply Z.leb_gt; lia.
Qed.

Definition init_locked (o : Order) : Z := s64 (locked o (Amount o)).

(** [ExecuteMarketableOrder] in terms of the two loops. *)
Lemma ExecuteMarketableOrder_eq order s :
  0 <= Amount order < 2 ^ 32 ->
  ExecuteMarketableOrder NodePoolSize LevelPoolSize reports_env book_env order s =
  ('(order', tl, s') ← fill_loop (S LevelPoolSize) (Side order) order (init_locked order) s;
   fill_rest NodePoolSize reports_env book_env (Side order) order' tl s').
Proof.
  intros Ha. unfold ExecuteMarketableOrder, FillBuyOrder, FillSellOrder, init_locked, locked.
  destruct (Side order); [done|]. rewrite (s64_small (Amount order)); [done|]. unfold in_s64. lia.
Qed.

Lemma inv_levels sd s L R freeN freeL : inv sd s L R freeN freeL -> (length L <= LevelPoolSize)%nat.
Proof.
  intros HI. pose proof (Permutation_length (so_lperm _ _ _ _ _ _ _ (iv_store _ _ _ _ _ _ HI))) as Hp.
  rewrite length_seq, length_app, length_fmap, length_app in Hp. lia.
Qed.

(** Matching against the other side only makes room. *)
Lemma book_room_match b o q :
  book_room b o ->
  let '(_, L', _) := match_levels (Side o) (Price o) q (get_side (opposite (Side o)) b) in
  book_room (put_side (opposite (Side o)) L' b) o.
Proof.
  pose proof (match_levels_ids (Side o) (Price o) q (get_side (opposite (Side o)) b)) as HM.
  destruct (match_levels _ _ _ _) as [[q' L'] ts]. destruct HM as ((front & Hids) & _ & Hsuf).
  set (b' := put_side (opposite (Side o)) L' b).
  assert (Hsub : order_key <$> book_orders b ≡ₚ front ++ (order_key <$> book_orders b')).
  { unfold book_orders, b', side_ids in *. rewrite !fmap_app. destruct (Side o); simpl in *; rewrite Hids.
    - solve_Permutation.
    - by rewrite <- app_assoc. }
  assert (Hlen : (length (bids b') + length (asks b') <= length (bids b) + length (asks b))%nat).
  { apply suffix_length in Hsuf. rewrite !length_fmap in Hsuf. unfold b'.
    destruct (Side o); simpl in *; lia. }
  assert (Hin : forall k, k ∈ order_key <$> book_orders b' -> k ∈ order_key <$> book_orders b)
    by (intros k Hk; rewrite Hsub; set_solver).
  intros (H1 & H2 & H3 & H4 & H5).
  assert (Hown : get_side (Side o) b' = get_side (Side o) b) by (unfold b'; by rewrite get_put_opp').
  unfold book_room. rewrite Hown. split_and!; try done.
  - apply Permutation_length in Hsub. rewrite length_app, !length_fmap in Hsub. lia.
  - intros Hk. by apply H2, Hin.
  - eapply map_room_mono; [|exact H3]. intros k. rewrite !elem_of_list_to_set. apply Hin.
  - intros Hni. destruct (H5 Hni) as (? & ? & ?). split_and!; [lia|done|done].
Qed.

Abbreviation executeOrder := (executeOrder NodePoolSize LevelPoolSize reports_env book_env).
Abbreviation CancelOrder := (CancelOrder NodePoolSize LevelPoolSize reports_env book_env).

Lemma view_emits_asset s s' rs us : emits s s' rs us -> MarketAssetId s' = MarketAssetId s.
Proof. apply em_asset. Qed.

(** The end of a fill, from the state the loops left. *)
Lemma fill_rest_ok s L R freeN freeL b order q tl sp :
  view (Side order) s L R freeN freeL b -> 0 < q < 2 ^ 32 ->
  tl = s64 (init_locked order - sp) ->
  (Type_ order = LIMIT -> book_room b order) ->
  (Type_ order = MARKET -> forall n, reports_env n = Accepted) ->
  exists s', fill_rest NodePoolSize reports_env book_env (Side order) (set_Amount q order) tl s = Ret s' /\
    MarketPrice s' = MarketPrice s /\
    match Type_ order with
    | LIMIT =>
        let own := rest_order (side_asc (Side order)) (set_Amount q order) (get_side (Side order) b) in
        repr s' (put_side (Side order) own b) /\
        emits s s' [ack_report (MarketAssetId s) order (locked order q) (OrderId order) ADD]
          [depth_update (MarketAssetId s) (Side order) (Price order) (depth_at (Price order) own)]
    | MARKET =>
        repr s' b /\
        emits s s' [ack_report (MarketAssetId s) order (sp - locked order (Amount order)) (OrderId order) CANCEL] []
    end.
Proof.
  intros Hv Hq Htl Hroom Hacc. unfold fill_rest. cbn [Amount set_Amount Type_].
  destruct (Z.ltb_spec 0 q); [|lia]. destruct (Type_ order) eqn:Ety.
  - specialize (Hroom eq_refl). pose proof Hroom as (_ & _ & _ & Hint & _).
    pose proof (view_room _ _ _ _ _ _ _ (set_Amount q order) Hv eq_refl Hroom) as Hrr.
    destruct Hv as (HI & H1 & H2).
    destruct (AddSideLimitOrder_ok (Side order) s L R freeN freeL (set_Amount q order) HI eq_refl Hq Hint Hrr)
      as (s' & L' & fN' & fL' & HA & HI' & HL & HR & HM & HE).
    exists s'. split; [exact HA|]. split; [done|]. rewrite <- H1 in HL. rewrite HL in HE. cbn zeta. split.
    + eapply view_repr. split; [exact HI'|]. rewrite get_put_same, get_put_opp. split; [done|congruence].
    + exact HE.
  - destruct (report_push_ok 0 0 (s64 (- tl)) (ClientId order) (OrderId order)
      (match Side order with BUY => MarketAssetId s | SELL => 0 end)
      (match Side order with BUY => 0 | SELL => MarketAssetId s end) CANCEL s (Hacc eq_refl))
      as (s' & HP & C & E).
    exists s'. split; [exact HP|]. split; [by destruct C as (_ & _ & _ & -> & _)|]. split.
    + destruct Hv as (HI & H1 & H2). eapply view_repr. split; [by eapply inv_same_core|].
      destruct C as [-> _]. done.
    + eapply emits_eq; [exact E| |done]. f_equal. unfold ack_report.
      assert (Hs : s64 (s64 (- tl)) = s64 (sp - locked order (Amount order))).
      { rewrite s64_idem, Htl. unfold init_locked. rewrite s64_sub_l, s64_opp. f_equal. lia. }
      destruct (Side order); by apply FillReport_wrap.
Qed.

(** [executeOrder] implements [exec_order]. *)
Lemma executeOrder_ok s b order :
  repr s b -> 0 < Amount order < 2 ^ 32 ->
  (Type_ order = LIMIT -> book_room b order) ->
  (Type_ order = MARKET -> forall n, reports_env n = Accepted) ->
  let '(b', rs, us) := exec_order (MarketAssetId s) order b in
  exists s', executeOrder order s = Ret s' /\ repr s' b' /\ emits s s' rs us.
Proof.
  intros Hr Ha Hroom Hacc. unfold exec_order.
  destruct (repr_view (opposite (Side order)) s b Hr) as (L & R & fN & fL & HI & HL & HR).
  rewrite opposite_invol in HR.
  pose proof (fun H => book_room_match b order (Amount order) (Hroom H)) as Hroom'.
  assert (HposL : pos_side (get_side (opposite (Side order)) b)).
  { rewrite HL. unfold pos_side. rewrite abs_orders. apply Forall_fmap, Forall_forall.
    intros y Hy. by eapply inv_pos. }
  pose proof (match_levels_ok (Side order) (Price order) (Amount order) _ ltac:(lia) HposL) as HM.
  unfold BidAsk.executeOrder. destruct (IsMarketable order s) eqn:Emk.
  - rewrite ExecuteMarketableOrder_eq by lia.
    pose proof (inv_levels _ _ _ _ _ _ HI) as HLn.
    pose proof (fill_loop_ok (Side order) R L (S LevelPoolSize) s order (init_locked order) fN fL
      ltac:(lia) HI eq_refl ltac:(lia) ltac:(apply s64_range) Emk) as HF.
    rewrite <- HL in HF.
    destruct (match_levels (Side order) (Price order) (Amount order) (get_side (opposite (Side order)) b))
      as [[q L'] ts].
    destruct HF as (s1 & Lc & fN1 & fL1 & -> & HI1 & Hab & Hfd & _ & _). cbn [mbind result_bind].
    destruct HM as (Hq & _ & _ & _ & _). pose proof (fd_emits _ _ _ _ _ _ Hfd) as HE.
    assert (Hasset := em_asset _ _ _ _ HE).
    assert (HRk : abs_side (heap (store s1)) R = abs_side (heap (store s)) R).
    { apply abs_side_ext. intros y Hy. apply (fd_frame _ _ _ _ _ _ Hfd). intros Hin.
      pose proof (iv_store _ _ _ _ _ _ HI) as [Hn _]%store_nodup.
      apply NoDup_app in Hn as (_ & _ & Hn). rewrite all_ids_app in Hn.
      apply NoDup_app in Hn as (_ & Hd & _). by apply (Hd y). }
    assert (Hv1 : view (Side order) s1 R Lc fN1 fL1 (put_side (opposite (Side order)) L' b)).
    { split; [|rewrite get_put_same, get_put_opp', Hab; split; congruence].
      apply inv_swap in HI1. by rewrite opposite_invol in HI1. }
    destruct (Z.ltb_spec 0 q) as [Hq0|Hq0].
    + destruct (fill_rest_ok s1 R Lc fN1 fL1 _ order q _ (spent order ts) Hv1 ltac:(lia) eq_refl Hroom' Hacc)
        as (s2 & HR2 & _ & Hfin). rewrite Hasset in Hfin.
      destruct (Type_ order); destruct Hfin as [Hrep2 HE2]; (exists s2; split; [done|]; split; [done|]).
      * by eapply emits_trans.
      * rewrite <- (app_nil_r (fmap _ ts)). by eapply emits_trans.
    + exists s1. unfold fill_rest. cbn [Amount set_Amount]. destruct (Z.ltb_spec 0 q); [lia|].
      split; [done|]. split; [by eapply view_repr|done].
  - pose proof (not_marketable (Side order) order s L R fN fL HI eq_refl Emk (Amount order)) as Hnm.
    rewrite <- HL in Hnm. rewrite Hnm in *. cbn [mbind list_bind fmap list_fmap app].
    destruct (Z.ltb_spec 0 (Amount order)); [|lia].
    assert (Hty : Type_ order = LIMIT).
    { unfold IsMarketable in Emk. apply orb_false_iff in Emk as [Emk _].
      by destruct (Type_ order); [|rewrite bool_decide_true in Emk]. }
    assert (Hb : put_side (opposite (Side order)) (get_side (opposite (Side order)) b) b = b)
      by (destruct b; by destruct (Side order)).
    rewrite Hb, Hty. rewrite set_Amount_id. specialize (Hroom Hty). pose proof Hroom as (_ & _ & _ & Hint & _).
    apply inv_swap in HI. rewrite opposite_invol in HI.
    assert (Hv : view (Side order) s R L fN fL b) by done.
    pose proof (view_room _ _ _ _ _ _ _ order Hv eq_refl Hroom) as Hrr.
    destruct (AddSideLimitOrder_ok (Side order) s R L fN fL order HI eq_refl Ha Hint Hrr)
      as (s' & L' & fN' & fL' & HA & HI' & HL' & HR' & _ & HE).
    exists s'. split; [unfold AddLimitOrder; by destruct (Side order)|]. rewrite <- HR in HL'. rewrite HL' in HE.
    split; [|exact HE]. eapply view_repr. split; [exact HI'|]. rewrite get_put_same, get_put_opp.
    split; [done|congruence].
Qed.

(** *** Cancels *)

Lemma find_order_none h k L : k ∉ GetId h <$> all_ids L -> find_order k (abs_side h L) = None.
Proof.
  intros Hni. unfold find_order. rewrite abs_orders.
  destruct (filter _ (resting h <$> all_ids L)) as [|o os] eqn:E; [done|]. exfalso.
  assert (Ho : o ∈ filter (fun o => u32 (OrderId o) = k) (resting h <$> all_ids L)) by (rewrite E; left).
  apply list_elem_of_filter in Ho as [Hk (x & -> & Hx)%list_elem_of_fmap].
  apply Hni. rewrite <- Hk. by apply (list_elem_of_fmap_2 (GetId h)).
Qed.

Lemma find_order_some h x L :
  NoDup (GetId h <$> all_ids L) -> x ∈ all_ids L -> find_order (GetId h x) (abs_side h L) = Some (resting h x).
Proof.
  intros Hnd Hx. unfold find_order. rewrite abs_orders.
  apply list_elem_of_split in Hx as (A & B & HAB). rewrite HAB in *. rewrite !fmap_app, filter_app in *.
  cbn [fmap list_fmap] in *. apply NoDup_app in Hnd as (_ & Hd & _).
  replace (filter _ (resting h <$> A)) with (@nil Order).
  - rewrite filter_cons_True by done. done.
  - symmetry. apply filter_none, Forall_fmap, Forall_forall. intros y Hy Hk.
    apply (Hd (GetId h y)); [by apply list_elem_of_fmap_2|]. unfold compose, resting in Hk.
    change (u32 (OrderId (NodeOrder (node h y)))) with (GetId h y) in Hk. rewrite Hk. left.
Qed.

Lemma drop_order_id h k ids : k ∉ GetId h <$> ids -> drop_order k (resting h <$> ids) = resting h <$> ids.
Proof.
  intros Hni. unfold drop_order. apply filter_all, Forall_fmap, Forall_forall. intros y Hy Hk.
  apply Hni. rewrite <- Hk. by apply (list_elem_of_fmap_2 (GetId h)).
Qed.

Lemma remove_order_id h k L :
  Forall (fun lv => lids lv <> []) L -> k ∉ GetId h <$> all_ids L ->
  remove_order k (abs_side h L) = abs_side h L.
Proof.
  intros Hne. unfold remove_order. induction L as [|lv L IH]; [done|].
  apply Forall_cons in Hne as [Hlv Hne]. rewrite all_ids_cons, fmap_app. intros Hni.
  unfold abs_side. cbn [fmap list_fmap fst snd]. rewrite drop_order_id by set_solver.
  rewrite filter_cons_True by (simpl; by destruct (lids lv)). f_equal. apply IH; set_solver.
Qed.

Lemma remove_order_mid h L1 lv L2 a x c :
  lids lv = a ++ x :: c -> NoDup (GetId h <$> all_ids (L1 ++ lv :: L2)) ->
  Forall (fun lv => lids lv <> []) (L1 ++ L2) ->
  remove_order (GetId h x) (abs_side h (L1 ++ lv :: L2)) = abs_side h (L1 ++ shrink lv (a ++ c) ++ L2).
Proof.
  intros Hids Hnd Hne. rewrite all_ids_app, all_ids_cons, Hids in Hnd. rewrite !fmap_app in Hnd.
  cbn [fmap list_fmap] in Hnd.
  assert (Hni : GetId h x ∉ (GetId h <$> all_ids L1) ++ (GetId h <$> a) ++ (GetId h <$> c) ++ (GetId h <$> all_ids L2)).
  { rewrite <- app_assoc in Hnd. cbn [app] in Hnd. rewrite <- Permutation_middle in Hnd.
    rewrite <- Permutation_middle in Hnd. by apply NoDup_cons in Hnd as [? _]. }
  rewrite !not_elem_of_app in Hni. destruct Hni as (Hn1 & Hn2 & Hn3 & Hn4). clear Hnd.
  apply Forall_app in Hne as [Hne1 Hne2].
  assert (Happ : forall A B, remove_order (GetId h x) (abs_side h (A ++ B)) =
    remove_order (GetId h x) (abs_side h A) ++ remove_order (GetId h x) (abs_side h B)).
  { intros A B. unfold remove_order, abs_side. by rewrite !fmap_app, filter_app. }
  change (lv :: L2) with ([lv] ++ L2). rewrite !Happ.
  rewrite (remove_order_id h _ L1), (remove_order_id h _ L2) by done.
  unfold abs_side at 4. rewrite !fmap_app.
  f_equal. f_equal. unfold remove_order, abs_side. cbn [fmap list_fmap fst snd]. rewrite Hids.
  assert (Hdrop : drop_order (GetId h x) (resting h <$> a ++ x :: c) = resting h <$> (a ++ c)).
  { rewrite !fmap_app. cbn [fmap list_fmap]. unfold drop_order. rewrite filter_app.
    rewrite filter_cons_False by (intros Hf; by apply Hf).
    fold (drop_order (GetId h x) (resting h <$> a)). fold (drop_order (GetId h x) (resting h <$> c)).
    rewrite !drop_order_id by done. done. }
  rewrite Hdrop. destruct (a ++ c); [by rewrite filter_cons_False by naive_solver|].
  by rewrite filter_cons_True.
Qed.

(** [CancelOrder] implements [cancel_order]: the request must name an order of
    the side it gives, or none. *)
Lemma CancelOrder_ok s b order :
  repr s b -> (forall n, reports_env n = Accepted) -> (forall n, book_env n = Accepted) ->
  find_order (Amount order) (get_side (opposite (Side order)) b) = None ->
  let '(b', rs, us) := cancel_order (MarketAssetId s) order b in
  exists s', CancelOrder (Side order) order s = Ret s' /\ repr s' b' /\ emits s s' rs us.
Proof.
  intros Hr HA1 HA2 Hopp. destruct (repr_view (Side order) s b Hr) as (L & R & fN & fL & HI & HL & HR).
  set (h := heap (store s)) in *. set (k := Amount order) in *. set (sd := Side order) in *.
  pose proof (iv_store _ _ _ _ _ _ HI) as Hs. pose proof (so_ids _ _ _ _ _ _ _ Hs) as Hnd. fold h in Hnd.
  assert (Hreject : exists s', report_try 0 0 0 (ClientId order) (OrderId order) 0 0 REJECT s = Ret s' /\
                      repr s' b /\ emits s s' [reject_report order] []).
  { destruct (report_try_ok 0 0 0 (ClientId order) (OrderId order) 0 0 REJECT s) as (s' & H1 & C & E).
    exists s'. split; [done|]. split; [|exact E].
    eapply view_repr. split; [by eapply inv_same_core|]. destruct C as [-> _]. done. }
  unfold cancel_order, BidAsk.CancelOrder. fold k sd. rewrite HL.
  rewrite (map_get_spec _ _ _ (so_map _ _ _ _ _ _ _ Hs)). fold h.
  assert (Hnd' := Hnd). rewrite all_ids_app, fmap_app in Hnd'. apply NoDup_app in Hnd' as (HndL & _ & HndR).
  destruct (id_map h (all_ids (L ++ R)) !! k) as [x|] eqn:Hg.
  2:{ rewrite find_order_none; [exact Hreject|]. intros (y & Hk & Hy)%list_elem_of_fmap.
      assert (id_map h (all_ids (L ++ R)) !! k = Some y); [|congruence].
      apply id_map_lookup; [done|]. rewrite all_ids_app. split; [set_solver|done]. }
  apply id_map_lookup in Hg as [Hx Hk]; [|done]. rewrite <- Hk.
  assert (HxL : x ∈ all_ids L).
  { rewrite all_ids_app in Hx. apply elem_of_app in Hx as [?|Hx]; [done|]. exfalso.
    rewrite HR, <- Hk, find_order_some in Hopp by done. done. }
  rewrite find_order_some by done. change (ClientId (resting h x)) with (GetClientId h x).
  destruct (GetClientId h x =? ClientId order); [|exact Hreject]. cbn [negb].
  pose proof (iv_own_orders _ _ _ _ _ _ HI) as Hoo. fold h in Hoo.
  assert (Hsx : sided sd (resting h x)) by (rewrite Forall_forall in Hoo; by apply Hoo).
  apply elem_all_ids_inv in HxL as (lv & (L1 & L2 & ->)%list_elem_of_split & (a & c & Hids)%list_elem_of_split).
  match goal with |- context [report_push ?a0 ?b0 ?c0 ?d0 ?e0 ?f0 ?g0 ?h0 s] =>
    destruct (report_push_ok a0 b0 c0 d0 e0 f0 g0 h0 s HA1) as (s1 & -> & C1 & E1) end.
  cbn [mbind result_bind].
  pose proof (inv_same_core _ _ _ _ _ _ _ C1 HI) as HI1. pose proof (proj1 C1) as Hst1.
  destruct HI1 as [Hown Hop HF Hs1 Hoo1 Hpo1 Hob Hpb].
  assert (Hpx : GetPrice h x = lprice lv).
  { rewrite Forall_app, Forall_app, Forall_cons in HF. destruct HF as [(_ & [_ _ _ _ Hlo] & _) _].
    rewrite Hids in Hlo. apply Forall_app in Hlo as [_ [[Hp _] _]%Forall_cons].
    rewrite Hst1 in Hp. exact Hp. }
  destruct (DeleteOrder_ok NodePoolSize LevelPoolSize IxSize HNP (side_asc sd) (store s1) (side_book sd s1)
    L1 lv L2 R fN fL a x c Hids Hown HF Hs1)
    as (r & st' & b' & fL' & HD & Hb' & HF' & Hs' & Hord & Hr' & _).
  cbn zeta in *. rewrite HD. cbn [mbind result_bind]. set (L' := L1 ++ shrink lv (a ++ c) ++ L2) in *.
  set (s2 := set_side sd st' b' s1).
  destruct (update_push_ok (level_total st' r) (GetPrice h x) (update_side sd) s2 HA2) as (s3 & H3 & C3 & E3).
  exists s3. split; [exact H3|].
  assert (Hord' : forall y, resting (heap st') y = resting h y) by (intros y; by rewrite Hord, Hst1).
  assert (Hsub : forall y, y ∈ all_ids L' -> y ∈ all_ids (L1 ++ lv :: L2)).
  { intros y. unfold L'. rewrite !all_ids_app, shrink_ids, all_ids_cons, Hids. set_solver. }
  assert (Hne : Forall (fun lv => lids lv <> []) (L1 ++ L2)).
  { rewrite !Forall_app, Forall_cons in HF. destruct HF as [(HF1 & _ & HF2) _]. apply Forall_app.
    split; (eapply Forall_impl; [eassumption|]); intros lv' Hlv'; apply Hlv'. }
  assert (Habs : abs_side (heap st') L' = remove_order (GetId h x) (abs_side h (L1 ++ lv :: L2))).
  { rewrite (remove_order_mid h L1 lv L2 a x c) by done. apply abs_side_ext. auto. }
  assert (HI2 : inv sd s2 L' R (fN ++ [x]) fL').
  { unfold s2. split; rewrite ?side_book_set, ?side_book_set_opp, ?best_price_set; try done.
    - simpl. apply Forall_forall. intros y Hy. rewrite Hord'. rewrite Forall_forall in Hoo. by apply Hoo, Hsub.
    - simpl. eapply Forall_impl; [exact Hpo1|]. simpl. intros y. by rewrite Hord', Hst1.
    - rewrite Forall_app, Forall_cons in Hob. destruct Hob as (Hob1 & Hob2 & Hob3).
      unfold L'. rewrite !Forall_app. split_and!; try done.
      apply (shrink_prices (fun z => SkipList.comp (side_asc sd) z _ = false)). done. }
  split.
  - eapply view_repr. split; [by eapply inv_same_core|]. rewrite get_put_same, get_put_opp, HR.
    destruct C3 as [-> _]. simpl. split; [by rewrite <- Habs|]. symmetry. apply abs_side_ext. auto.
  - assert (Hos : same_out s1 s2) by (unfold s2; by destruct sd).
    assert (Hasset : MarketAssetId s2 = MarketAssetId s1) by apply Hos.
    rewrite Hasset, (em_asset _ _ _ _ E1) in E3.
    eapply emits_eq; [exact (emits_trans _ _ _ _ _ _ _ E1 (emits_trans_l _ _ _ _ _ Hos E3))| |]; cbn [app].
    + f_equal. unfold ack_report, locked. destruct Hsx as [-> _]. fold h.
      destruct sd; apply FillReport_wrap; rewrite ?s64_idem; try done; apply u32_idem.
    + f_equal. unfold depth_update. apply FillUpdate_wrap. rewrite <- Habs.
      change (Price (resting h x)) with (GetPrice h x). rewrite Hpx.
      pose proof (sorted_nodup _ _ (book_sorted _ _ _ _ Hb')) as Hndp. rewrite Hr'.
      destruct (decide (a ++ c = [])) as [E|E].
      * unfold L'. rewrite E, depth_at_none; [done|]. cbn [shrink app].
        pose proof (sorted_nodup _ _ (book_sorted _ _ _ _ Hown)) as Hndo.
        rewrite fmap_app in Hndo. cbn [fmap list_fmap] in Hndo. rewrite <- Permutation_middle in Hndo.
        apply NoDup_cons in Hndo as [Hndo _]. by rewrite fmap_app.
      * assert (Hin : MkLV (lprice lv) (lptr lv) (a ++ c) ∈ L').
        { unfold L', shrink. destruct (a ++ c); [done|]. set_solver. }
        pose proof (depth_at_abs (heap st') _ L' Hndp Hin) as Hdep. cbn [lprice lids] in Hdep. rewrite Hdep.
        rewrite Forall_forall in HF'. apply (HF' _ ltac:(apply elem_of_app; by left)).
Qed.

(** *** Cancels that name the wrong side

    The id is found whatever the side, and the side of the request is then the one
    the order is taken from. *)

(** What such a cancel of the order [r], in node [x], does: it is reported as
    cancelled, with a depth of 0 on the side of the request and what an order of
    that side would have locked; the books, the levels and the nodes do not change;
    the id is forgotten, and the node is free while it is still linked. *)
Record phantom (sd : OrderSide) s s' (r : Order) (x : nat) : Prop := {
  ph_emits : emits s s'
    [FillReport 0 0 (match sd with BUY => Amount r * Price r | SELL => Amount r end) 0 (ClientId r) (OrderId r) 0
       (match sd with BUY => MarketAssetId s | SELL => 0 end) (match sd with BUY => 0 | SELL => MarketAssetId s end) CANCEL]
    [FillUpdate 0 0 (Price r) (MarketAssetId s) (update_side sd)];
  ph_books : forall d, side_book d s' = side_book d s;
  ph_best : forall d, best_price d s' = best_price d s;
  ph_heap : heap (store s') = heap (store s);
  ph_levels : levels (store s') = levels (store s);
  ph_resting : resting (heap (store s)) x = r;
  ph_forgotten : map_get (OrderMap (store s')) (order_key r) = None;
  ph_free : exists free, pool_rep NodePoolSize (OrderNodePool (store s)) free /\ (x ∉ free) /\
              pool_rep NodePoolSize (OrderNodePool (store s')) (free ++ [x])
}.

Lemma uncrossed_opposite sd b p : book_wf b -> p ∈ (get_side (opposite sd) b).*1 -> ~ p ∈ (get_side sd b).*1.
Proof. intros [_ _ _ Hu] H1 H2. destruct sd; cbn in *; [pose proof (Hu p p H2 H1)|pose proof (Hu p p H1 H2)]; lia. Qed.

Lemma find_order_node h k L r :
  NoDup (GetId h <$> all_ids L) -> find_order k (abs_side h L) = Some r ->
  exists x, x ∈ all_ids L /\ resting h x = r /\ GetId h x = k.
Proof.
  intros Hnd Hf. destruct (decide (k ∈ GetId h <$> all_ids L)) as [(x & Hk & Hx)%list_elem_of_fmap|Hn].
  - exists x. rewrite Hk, find_order_some in Hf by done. injection Hf as <-. done.
  - by rewrite find_order_none in Hf.
Qed.

Lemma level_price_of h st L x :
  Forall (lv_ok st) L -> heap st = h -> x ∈ all_ids L -> Price (resting h x) ∈ (abs_side h L).*1.
Proof.
  intros HF <- Hx. apply elem_all_ids_inv in Hx as (lv & Hlv & Hx). rewrite abs_prices.
  rewrite Forall_forall in HF. pose proof (lo_orders _ _ (HF lv Hlv)) as Ho. rewrite Forall_forall in Ho.
  destruct (Ho x Hx) as [-> _]. by apply list_elem_of_fmap_2.
Qed.

Lemma CancelOrder_other_side s b order r :
  repr s b -> book_wf b -> (forall n, reports_env n = Accepted) -> (forall n, book_env n = Accepted) ->
  find_order (Amount order) (get_side (opposite (Side order)) b) = Some r -> ClientId r = ClientId order ->
  exists s' x, CancelOrder (Side order) order s = Ret s' /\ phantom (Side order) s s' r x.
Proof.
  intros Hr Hwf HA1 HA2 Hf Hcl. destruct (repr_view (Side order) s b Hr) as (L & R & fN & fL & HI & HL & HR).
  set (h := heap (store s)) in *. set (sd := Side order) in *.
  pose proof (iv_store _ _ _ _ _ _ HI) as Hs. pose proof (so_ids _ _ _ _ _ _ _ Hs) as Hnd. fold h in Hnd.
  assert (Hnd' := Hnd). rewrite all_ids_app, fmap_app in Hnd'. apply NoDup_app in Hnd' as (_ & _ & HndR).
  rewrite HR in Hf. destruct (find_order_node h _ R r HndR Hf) as (x & Hx & Hres & Hk).
  assert (Hin : x ∈ all_ids (L ++ R)) by (rewrite all_ids_app; set_solver).
  assert (Hg : id_map h (all_ids (L ++ R)) !! Amount order = Some x) by (by apply id_map_lookup).
  assert (Hnone : levels_map L !! Price r = None).
  { apply levels_map_none. rewrite <- (abs_prices h), <- HL. apply uncrossed_opposite; [done|]. fold sd. rewrite HR, <- Hres.
    apply (level_price_of h (store s)); [|done|done]. pose proof (iv_lv _ _ _ _ _ _ HI) as HF. by apply Forall_app in HF as [_ ?]. }
  assert (Hnode : GetClientId h x = ClientId r /\ GetPrice h x = Price r /\ GetAmount h x = Amount r /\ GetId h x = u32 (OrderId r)).
  { unfold GetClientId, GetPrice, GetAmount, GetId. unfold resting in Hres. by rewrite Hres. }
  destruct Hnode as (N1 & N2 & N3 & N4).
  unfold BidAsk.CancelOrder. rewrite (map_get_spec _ _ _ (so_map _ _ _ _ _ _ _ Hs)). fold h. rewrite Hg.
  rewrite N1, Hcl, Z.eqb_refl, N2, N3, N4. cbn [negb].
  match goal with |- context [report_push ?a0 ?b0 ?c0 ?d0 ?e0 ?f0 ?g0 ?h0 s] =>
    destruct (report_push_ok a0 b0 c0 d0 e0 f0 g0 h0 s HA1) as (s1 & -> & C1 & E1) end.
  cbn [mbind result_bind]. unfold OrderBook.DeleteOrder. destruct C1 as (Cst & Cb & Ca & Cm & Cba & Cbb). rewrite Cst. fold h.
  destruct (map_del_spec _ _ (GetId h x) (so_map _ _ _ _ _ _ _ Hs)) as (om & -> & Hom). cbn [mbind result_bind].
  assert (Hbk : forall d, side_book d s1 = side_book d s) by (intros []; cbn; congruence).
  rewrite Hbk, N2, (map_get_spec _ _ _ (proj2 (iv_own _ _ _ _ _ _ HI))), Hnone. cbn [mbind result_bind].
  destruct (store_bound _ _ _ _ _ _ _ Hs) as [Hb _]. destruct (Hb x Hin) as [Hxb Hxf].
  destruct (release_rep NodePoolSize _ fN x (so_nodes _ _ _ _ _ _ _ Hs) Hxf Hxb) as (np & Hrel & Hnp).
  set (st2 := release_node NodePoolSize x (set_order_map om (store s))). set (s2 := set_side sd st2 (side_book sd s) s1).
  destruct (update_push_ok (level_total st2 None) (Price r) (update_side sd) s2 HA2) as (s3 & H3 & C3 & E3).
  exists s3, x. split; [exact H3|]. destruct C3 as (Dst & Db & Da & Dm & Dba & Dbb).
  assert (Hst : store s3 = st2) by (rewrite Dst; done).
  assert (Hpool : OrderNodePool st2 = np) by (unfold st2, release_node; cbn [OrderNodePool set_order_map set_node_pool]; by rewrite Hrel).
  assert (Hos : same_out s1 s2) by (unfold s2; by destruct sd).
  split.
  - assert (Hasset : MarketAssetId s2 = MarketAssetId s1) by apply Hos.
    rewrite Hasset, (em_asset _ _ _ _ E1) in E3.
    eapply emits_eq; [exact (emits_trans _ _ _ _ _ _ _ E1 (emits_trans_l _ _ _ _ _ Hos E3))| |done]. cbn [app]. f_equal.
    rewrite Hcl. destruct sd; apply FillReport_wrap; rewrite ?s64_idem, ?u32_idem; done.
  - intros []; cbn; [rewrite Db|rewrite Da]; unfold s2; cbn; destruct sd; cbn; congruence.
  - intros []; cbn; [rewrite Dba|rewrite Dbb]; done.
  - by rewrite Hst.
  - by rewrite Hst.
  - exact Hres.
  - rewrite Hst. change (OrderMap st2) with om. rewrite (map_get_spec _ _ _ Hom). unfold order_key. rewrite N4. apply lookup_delete_eq.
  - exists fN. rewrite Hst, Hpool. split; [exact (so_nodes _ _ _ _ _ _ _ Hs)|done].
Qed.

(** A second cancel of a forgotten id is refused. *)
Lemma CancelOrder_forgotten s order :
  map_get (OrderMap (store s)) (Amount order) = None ->
  exists s', CancelOrder (Side order) order s = Ret s' /\ emits s s' [reject_report order] [].
Proof.
  intros Hn. unfold BidAsk.CancelOrder. rewrite Hn.
  destruct (report_try_ok 0 0 0 (ClientId order) (OrderId order) 0 0 REJECT s) as (s' & H1 & _ & E). by exists s'.
Qed.

Lemma fill_level_done fuel tk lvl x order tl s :
  Amount order <= 0 -> fill_level fuel tk lvl (Some x) order tl s = Ret (order, tl, s).
Proof. intros Ha. destruct fuel; cbn [BidAsk.fill_level]; destruct (Z.ltb_spec 0 (Amount order)); done || lia. Qed.

(** An order for less than the oldest order of the best level trades with that
    order, whatever the maps and the pools hold. *)
Lemma partial_fill_ok tk s lvl x o r :
  Side o = tk -> GetBestLevel (side_asc (opposite tk)) (side_book (opposite tk) s) = Ret (Some lvl) ->
  PeekOrder (level (store s) lvl) = Some x -> GetKey (level (store s) lvl) = Price r -> resting (heap (store s)) x = r ->
  0 < Amount o < Amount r -> Amount r < 2 ^ 32 ->
  crosses tk (Price o) (Price r) = true -> crosses tk (Price o) (best_price tk s) = true ->
  exists s' left, executeOrder o s = Ret s' /\
    emits s s' (trade_reports (MarketAssetId s) o (MkTrade (Price r) r (Amount o) 0 left))
      [depth_update (MarketAssetId s) (opposite tk) (Price r) left].
Proof.
  intros Hsd Hbest Hpeek Hkey Hres Hq Hr32 Hc Hmk. unfold BidAsk.executeOrder.
  rewrite (marketable_crosses tk o s Hsd Hmk), ExecuteMarketableOrder_eq by lia. rewrite Hsd. cbn [BidAsk.fill_loop].
  rewrite (marketable_crosses tk o s Hsd Hmk), (proj2 (Z.ltb_lt _ _) (proj1 Hq)). cbn [andb]. rewrite Hbest. cbn [mbind result_bind].
  rewrite Hpeek, Hkey, crosses_break, best_set_best, Hc. cbn [negb BidAsk.fill_level].
  set (s1 := set_best tk (Price r) s). pose proof (set_best_rest tk (Price r) s) as (Hst1 & _ & _ & Ho1). fold s1 in Hst1, Ho1.
  rewrite (marketable_crosses tk o s1 Hsd), (proj2 (Z.ltb_lt _ _) (proj1 Hq)) by (unfold s1; by rewrite best_set_best). cbn [andb].
  unfold fill_step. cbv zeta. rewrite Hst1. assert (Hb1 : best_price tk s1 = Price r) by apply best_set_best. rewrite Hb1.
  assert (Hamt : GetAmount (heap (store s)) x = Amount r) by (unfold GetAmount; unfold resting in Hres; by rewrite Hres).
  assert (Hpr : GetPrice (heap (store s)) x = Price r) by (unfold GetPrice; unfold resting in Hres; by rewrite Hres).
  rewrite Hamt, Hpr, (proj2 (Z.ltb_lt _ _) (proj2 Hq)), (proj2 (Z.ltb_lt _ _) (proj1 Hq)), Z.sub_diag.
  change (u32 0) with 0. rewrite (u32_small (Amount r - Amount o)) by (unfold in_u32; lia).
  set (h1 := SetAmount x (Amount r - Amount o) (heap (store s))).
  set (tot := IncTotalAmount _ _). set (st1 := set_level lvl tot _). set (s2 := set_store st1 _).
  assert (Hh1 : resting h1 x = set_Amount (Amount r - Amount o) r).
  { unfold h1. rewrite resting_SetAmount. case_decide; [|done].
    by rewrite Hres, (u32_small (Amount r - Amount o)) by (unfold in_u32; lia). }
  destruct (fill_reports_ok tk (set_Amount 0 o) r (Price r) (Amount o) (GetTotalAmount tot) (Amount r - Amount o) tot h1 x s2
    Hsd Hh1 eq_refl eq_refl) as (s3 & s4 & s5 & R1 & R2 & R3 & C3 & C4 & C5 & E).
  assert (Hs2 : heap (store s2) = h1 /\ level (store s2) lvl = tot).
  { split; [done|]. change (store s2) with st1. unfold st1. apply level_set_eq. }
  destruct Hs2 as [Hh2 Hl2]. rewrite R1. cbn [mbind result_bind]. rewrite (proj1 C3), Hh2, R2. cbn [mbind result_bind].
  rewrite (proj1 C4), Hl2, R3. cbn [mbind result_bind]. rewrite (proj1 C5), Hh2.
  assert (Hleft : GetAmount h1 x = Amount r - Amount o) by (unfold GetAmount; unfold resting in Hh1; by rewrite Hh1).
  rewrite Hleft. destruct (Z.eqb_spec (Amount r - Amount o) 0) as [|_]; [lia|]. cbn [mbind result_bind].
  rewrite fill_level_done by (cbn; lia). cbn [mbind result_bind].
  rewrite fill_loop_exit by (cbn; lia). cbn [mbind result_bind]. unfold fill_rest. cbn [Amount set_Amount Z.ltb Z.compare].
  exists s5, (GetTotalAmount tot). split; [done|].
  assert (Hos : same_out s s2) by (destruct Ho1 as (?&?&?&?&?); split_and!; done).
  assert (Hasset : MarketAssetId s2 = MarketAssetId s) by apply Hos. rewrite Hasset in E.
  by eapply emits_trans_l.
Qed.


(** The node the best order of a side rests in. *)
Lemma best_offer_node sd s b p r os rest :
  repr s b -> get_side sd b = (p, r :: os) :: rest ->
  exists lvl x, GetBestLevel (side_asc sd) (side_book sd s) = Ret (Some lvl) /\ PeekOrder (level (store s) lvl) = Some x /\
    GetKey (level (store s) lvl) = p /\ resting (heap (store s)) x = r /\ Price r = p /\ in_u32 (Amount r) /\
    SkipList.comp (side_asc sd) p (best_price (opposite sd) s) = false.
Proof.
  intros Hr Hb. destruct (repr_view sd s b Hr) as (L & R & fN & fL & HI & HL & _). rewrite Hb in HL.
  destruct L as [|lv L]; [done|]. injection HL as Hp Hids _. destruct (lids lv) as [|x c] eqn:El; [done|].
  injection Hids as Hrx _. pose proof (iv_lv _ _ _ _ _ _ HI) as HF. apply Forall_cons in HF as [[_ Hll _ Hpr Hord] _].
  rewrite El in Hll, Hord. apply Forall_cons in Hord as [[Hpx Hax] _]. rewrite <- Hrx in Hpx, Hax.
  pose proof (iv_own _ _ _ _ _ _ HI) as [(n & Hi & _) _]. pose proof (iv_own_best _ _ _ _ _ _ HI) as HB. apply Forall_cons in HB as [HB _].
  exists (lptr lv), x. unfold GetBestLevel. rewrite (idx_head_spec _ _ _ _ Hi). split; [done|].
  unfold PeekOrder, GetKey. rewrite (ll_head _ _ _ Hll), Hpr, Hp. split_and!; try done; congruence.
Qed.

(** A cancelled order that still heads the best level is traded with. *)
Lemma phantom_trades sd s s' b r x o os rest :
  repr s b -> phantom sd s s' r x -> get_side (opposite sd) b = (Price r, r :: os) :: rest ->
  Side o = sd -> 0 < Amount o < Amount r -> crosses sd (Price o) (Price r) = true ->
  exists s'' left, executeOrder o s' = Ret s'' /\
    emits s' s'' (trade_reports (MarketAssetId s') o (MkTrade (Price r) r (Amount o) 0 left))
      [depth_update (MarketAssetId s') (opposite sd) (Price r) left].
Proof.
  intros Hr [_ Hbk Hbp Hh Hlv _ _ _] Hb Hsd Hq Hc.
  destruct (best_offer_node (opposite sd) s b (Price r) r os rest Hr Hb) as (lvl & y & H1 & H2 & H3 & H4 & _ & H6 & H7).
  apply (partial_fill_ok sd s' lvl y); try done.
  - by rewrite Hbk.
  - unfold level. rewrite Hlv. exact H2.
  - unfold level. rewrite Hlv. exact H3.
  - by rewrite Hh.
  - apply H6.
  - rewrite Hbp. rewrite opposite_invol in H7. destruct sd; cbn [crosses side_asc opposite SkipList.comp best_price] in *; lia.
Qed.

(** *** Sequences of requests *)

(** What a request needs: an order to execute has a positive amount and, if it
    may rest, room; a cancel names an order of the side it gives, or none. *)
Definition admissible (b : Book) (o : Order) : Prop :=
  match Action o with
  | EXECUTE => 0 < Amount o < 2 ^ 32 /\ (Type_ o = LIMIT -> book_room b o)
  | CANCEL_ORDER => find_order (Amount o) (get_side (opposite (Side o)) b) = None
  end.

Fixpoint admissible_run (asset : Z) (reqs : list Order) (b : Book) : Prop :=
  match reqs with
  | [] => True
  | o :: r => admissible b o /\ admissible_run asset r (request asset o b).1.1
  end.

Lemma admissible_pos asset reqs b :
  admissible_run asset reqs b -> Forall (fun o => Action o = EXECUTE -> 0 < Amount o) reqs.
Proof.
  revert b. induction reqs as [|o r IH]; intros b; [constructor|]. intros [Ha Hr]. constructor; [|by eapply IH].
  intros He. unfold admissible in Ha. rewrite He in Ha. lia.
Qed.

Lemma handle_order_ok s b o :
  repr s b -> (forall n, reports_env n = Accepted) -> (forall n, book_env n = Accepted) ->
  admissible b o ->
  let '(b', rs, us) := request (MarketAssetId s) o b in
  exists s', handle_order NodePoolSize LevelPoolSize reports_env book_env o s = Ret s' /\
             repr s' b' /\ emits s s' rs us.
Proof.
  intros Hr H1 H2 Ha. unfold request, handle_order, admissible in *. destruct (Action o).
  - apply executeOrder_ok; try done; tauto.
  - by apply CancelOrder_ok.
Qed.

Lemma run_batch_ok reqs s b :
  repr s b -> (forall n, reports_env n = Accepted) -> (forall n, book_env n = Accepted) ->
  admissible_run (MarketAssetId s) reqs b ->
  let '(b', rs, us) := spec_run (MarketAssetId s) reqs b in
  exists s', run_batch NodePoolSize LevelPoolSize reports_env book_env reqs s = Ret s' /\
             repr s' b' /\ emits s s' rs us.
Proof.
  intros Hr H1 H2. revert s b Hr. induction reqs as [|o r IH]; intros s b Hr Ha; cbn [spec_run run_batch].
  { exists s. split; [done|]. split; [done|]. by apply emits_same. }
  destruct Ha as [Ha Har]. pose proof (handle_order_ok s b o Hr H1 H2 Ha) as HO.
  destruct (request (MarketAssetId s) o b) as [[b1 rs1] us1]. destruct HO as (s1 & -> & Hr1 & E1).
  cbn [mbind result_bind fst] in *. rewrite <- (em_asset _ _ _ _ E1) in Har |- *.
  specialize (IH s1 b1 Hr1 Har). destruct (spec_run (MarketAssetId s1) r b1) as [[b2 rs2] us2].
  destruct IH as (s2 & -> & Hr2 & E2). exists s2. split; [done|]. split; [done|]. by eapply emits_trans.
Qed.

Lemma emits_accepted s s' rs us :
  (forall n, reports_env n = Accepted) -> (forall n, book_env n = Accepted) -> emits s s' rs us ->
  Sent (OutgoingOrders s') = Sent (OutgoingOrders s) ++ number (ReportSequenceId s) rs /\
  Sent (OutgoingBook s') = Sent (OutgoingBook s) ++ number_up (OrderBookSequenceId s) us.
Proof.
  intros H1 H2 [-> _ -> _ _]. by rewrite !deliver_accepted.
Qed.

Lemma bidask_init_repr a p rs bs om (fmB fmA : FM) (ixB ixA : IX) :
  map_rep om ∅ -> map_rep fmB ∅ -> map_rep fmA ∅ ->
  idx_rep false ixB [] IxSize -> idx_rep true ixA [] IxSize ->
  repr (bidask_init NodePoolSize LevelPoolSize a p rs bs om fmB fmA ixB ixA) empty_book.
Proof.
  intros Hom HfB HfA HiB HiA. exists [], [], (seq 0 NodePoolSize), (seq 0 LevelPoolSize).
  split; [|done]. split; try constructor; simpl; try done.
  - exists IxSize. split; [done|]. simpl. lia.
  - exists IxSize. split; [done|]. simpl. lia.
  - apply pool_init_rep.
  - by rewrite app_nil_r.
  - apply pool_init_rep.
  - by rewrite app_nil_r.
  - apply Forall_forall. done.
  - constructor.
Qed.

End Engine.
