(* ===== verification/Engine.v ===== *)
(** The matching engine as it is built: [BidAsk] over [FlatHashMap] and
    [SkipList] (src/market_server/matching_engine/include/matching_engine_types.hpp).
    The sizes are parameters; the source's are MeOrderNodePoolSize = 32768,
    MePriceLevelPoolSize = 8192, MeSkipListNodePoolSize = 8192,
    MeSkipListMaxLevel = 14, 2^12 buckets for the orders and 2^10 for the prices
    of a side. *)

From S2P Require Import Prelude WireTypes SingleThreadedPool PriceLevel BookSpec Interfaces OrderBook BidAsk BidAskProofs.
From S2P Require FlatHashMap SkipList.

Record Sizes := MkSizes {
  NodePoolSize : nat;
  LevelPoolSize : nat;
  IndexPoolSize : nat;
  IndexMaxLevel : nat;
  OrderMapLog : nat;
  FastMapLog : nat
}.

Definition Map : Type := FlatHashMap.FlatHashMap (V := nat).
Definition Index : Type := SkipList.SkipList nat.
Definition Engine : Type := BidAsk Map Map Index.

Section Engine.
Context (z : Sizes) (reports_env book_env : nat -> Answer).

#[local] Instance om_ops : MapOps Map nat := fhm_ops 0%nat (OrderMapLog z).
Definition fm_ops : MapOps Map nat := fhm_ops 0%nat (FastMapLog z).
#[local] Instance ix_ops : IndexOps Index nat := sl_ops (IndexPoolSize z) (IndexMaxLevel z).
#[local] Instance om_spec : MapSpec (ops := om_ops) Map nat := fhm_spec 0%nat (OrderMapLog z).
Definition fm_spec : MapSpec (ops := fm_ops) Map nat := fhm_spec 0%nat (FastMapLog z).
#[local] Instance ix_spec : IndexSpec Index nat := sl_spec (IndexPoolSize z) (IndexMaxLevel z).

(** Construction; the seeds are those of the two skip lists. *)
Definition engine_init (assetId initialPrice reportSeq bookSeq seedBid seedAsk : Z) : result Engine :=
  ixBid ← SkipList.skiplist_init false (IndexPoolSize z) (IndexMaxLevel z) seedBid;
  ixAsk ← SkipList.skiplist_init true (IndexPoolSize z) (IndexMaxLevel z) seedAsk;
  Ret (bidask_init (NodePoolSize z) (LevelPoolSize z) assetId initialPrice reportSeq bookSeq
         (FlatHashMap.fhm_empty 0%nat (2 ^ OrderMapLog z))
         (FlatHashMap.fhm_empty 0%nat (2 ^ FastMapLog z))
         (FlatHashMap.fhm_empty 0%nat (2 ^ FastMapLog z)) ixBid ixAsk).

Definition engine_execute : Order -> Engine -> result Engine :=
  executeOrder (om_ops := om_ops) (fm_ops := fm_ops) (ix_ops := ix_ops)
    (NodePoolSize z) (LevelPoolSize z) reports_env book_env.
Definition engine_cancel (o : Order) : Engine -> result Engine :=
  CancelOrder (om_ops := om_ops) (fm_ops := fm_ops) (ix_ops := ix_ops)
    (NodePoolSize z) (LevelPoolSize z) reports_env book_env (Side o) o.
Definition engine_run : list Order -> Engine -> result Engine :=
  run_batch (om_ops := om_ops) (fm_ops := fm_ops) (ix_ops := ix_ops)
    (NodePoolSize z) (LevelPoolSize z) reports_env book_env.

(** One iteration of the execution loop. *)
Definition engine_loop : option (list Order) -> bool -> Engine -> result Engine :=
  MarketExecutionLoop (om_ops := om_ops) (fm_ops := fm_ops) (ix_ops := ix_ops)
    (NodePoolSize z) (LevelPoolSize z) reports_env book_env.

(** The engine in state [s] holds the book [b]. *)
Definition holds (s : Engine) (b : Book) : Prop :=
  repr (om_spec := om_spec) (fm_spec := fm_spec) (ix_spec := ix_spec)
    (NodePoolSize z) (LevelPoolSize z) (IndexPoolSize z - 2) s b.
Definition room (b : Book) (o : Order) : Prop :=
  book_room (om_spec := om_spec) (fm_spec := fm_spec)
    (NodePoolSize z) (LevelPoolSize z) (IndexPoolSize z - 2) b o.
(** The sequences of requests the results below are about.  The pools, the index and
    the buckets of the maps have room for what rests at each step; besides, at each
    step, an order to execute has an amount between 1 and 2^32 - 1, a limit order has
    an id that no resting order has and a price that is not a sentinel of the index,
    and a cancel names no resting order of the side opposite to the one it gives.  The
    code takes requests that break any of these; what a cancel that names the wrong
    side does is [engine_other_side]. *)
Definition valid_run (asset : Z) (reqs : list Order) (b : Book) : Prop :=
  admissible_run (om_spec := om_spec) (fm_spec := fm_spec)
    (NodePoolSize z) (LevelPoolSize z) (IndexPoolSize z - 2) asset reqs b.

Definition sizes_ok : Prop := (2 <= IndexPoolSize z)%nat /\ Z.of_nat (NodePoolSize z) < 2 ^ 63.

#[export] Instance room_dec b o : Decision (room b o).
Proof. unfold room, book_room, SkipList.interior, SkipList.key_lt. cbn -[Nat.lt]. apply _. Defined.

#[export] Instance valid_run_dec asset reqs b : Decision (valid_run asset reqs b).
Proof.
  unfold valid_run. revert b. induction reqs as [|o r IH]; intros b; cbn [admissible_run]; [apply _|].
  apply and_dec; [|apply IH]. unfold admissible. destruct (Action o); [|apply _].
  apply and_dec; [apply _|]. apply impl_dec; [apply _|apply room_dec].
Defined.

Lemma engine_init_holds a p rs bs sb sa :
  sizes_ok -> exists s, engine_init a p rs bs sb sa = Ret s /\ holds s empty_book /\
    MarketAssetId s = u32 a /\ ReportSequenceId s = u32 rs /\ OrderBookSequenceId s = u32 bs /\
    OutgoingOrders s = chan0 /\ OutgoingBook s = chan0.
Proof.
  intros [Hp _]. unfold engine_init.
  destruct (SkipList.skiplist_init_rep (V := nat) false (IndexPoolSize z) (IndexMaxLevel z) sb Hp) as (ib & -> & Hib).
  destruct (SkipList.skiplist_init_rep (V := nat) true (IndexPoolSize z) (IndexMaxLevel z) sa Hp) as (ia & -> & Hia).
  cbn [mbind result_bind]. eexists. split; [done|]. split; [|done].
  apply bidask_init_repr; try done; by eapply FlatHashMap.fhm_empty_rep.
Qed.

(** What a run leaves, from any state that holds a book. *)
Lemma engine_run_from s0 b0 reqs :
  sizes_ok -> (forall n, reports_env n = Accepted) -> (forall n, book_env n = Accepted) ->
  holds s0 b0 -> valid_run (MarketAssetId s0) reqs b0 ->
  let '(b, reps, ups) := spec_run (MarketAssetId s0) reqs b0 in
  exists s, engine_run reqs s0 = Ret s /\ holds s b /\
    Sent (OutgoingOrders s) = Sent (OutgoingOrders s0) ++ number (ReportSequenceId s0) reps /\
    Sent (OutgoingBook s) = Sent (OutgoingBook s0) ++ number_up (OrderBookSequenceId s0) ups.
Proof.
  intros Hz H1 H2 Hr Hv.
  pose proof (run_batch_ok (om_spec := om_spec) (fm_spec := fm_spec) (ix_spec := ix_spec)
    (NodePoolSize z) (LevelPoolSize z) (IndexPoolSize z - 2) (proj2 Hz) reports_env book_env
    ltac:(intros n; by rewrite H1) ltac:(intros n; by rewrite H2) reqs s0 b0 Hr H1 H2 Hv) as HR.
  destruct (spec_run (MarketAssetId s0) reqs b0) as [[b reps] ups].
  destruct HR as (s & Hs & Hrep & HE). exists s. split; [done|]. split; [done|].
  by destruct (emits_accepted _ _ _ _ _ _ H1 H2 HE) as [E1 E2].
Qed.

(** What a run from the constructor leaves, in terms of the specification. *)
Lemma engine_run_ok a p rs bs sb sa reqs :
  sizes_ok -> (forall n, reports_env n = Accepted) -> (forall n, book_env n = Accepted) ->
  valid_run (u32 a) reqs empty_book ->
  exists s0 s, engine_init a p rs bs sb sa = Ret s0 /\ engine_run reqs s0 = Ret s /\
    let '(b, reps, ups) := spec_run (u32 a) reqs empty_book in
    holds s b /\ Sent (OutgoingOrders s) = number (u32 rs) reps /\
    Sent (OutgoingBook s) = number_up (u32 bs) ups.
Proof.
  intros Hz H1 H2 Hv. destruct (engine_init_holds a p rs bs sb sa Hz) as (s0 & H0 & Hr & Ha & Hrs & Hbs & Ho & Hb).
  rewrite <- Ha in Hv. pose proof (engine_run_from s0 empty_book reqs Hz H1 H2 Hr Hv) as HR. rewrite Ha in HR.
  destruct (spec_run (u32 a) reqs empty_book) as [[b reps] ups]. destruct HR as (s & Hs & Hh & E1 & E2).
  rewrite Ho, Hrs in E1. rewrite Hb, Hbs in E2. by exists s0, s.
Qed.

Lemma engine_run_asset a p rs bs sb sa reqs s0 s :
  sizes_ok -> (forall n, reports_env n = Accepted) -> (forall n, book_env n = Accepted) ->
  valid_run (u32 a) reqs empty_book ->
  engine_init a p rs bs sb sa = Ret s0 -> engine_run reqs s0 = Ret s -> MarketAssetId s = u32 a.
Proof.
  intros Hz H1 H2 Hv G0 G1. destruct (engine_init_holds a p rs bs sb sa Hz) as (s0' & H0 & Hr & Ha & _).
  assert (s0' = s0) as -> by congruence. rewrite <- Ha in Hv.
  pose proof (run_batch_ok (om_spec := om_spec) (fm_spec := fm_spec) (ix_spec := ix_spec)
    (NodePoolSize z) (LevelPoolSize z) (IndexPoolSize z - 2) (proj2 Hz) reports_env book_env
    ltac:(intros n; by rewrite H1) ltac:(intros n; by rewrite H2) reqs s0 empty_book Hr H1 H2 Hv) as HR.
  destruct (spec_run (MarketAssetId s0) reqs empty_book) as [[b reps] ups]. destruct HR as (s' & Hs & _ & HE).
  unfold engine_run in G1. assert (s' = s) as -> by congruence. rewrite <- Ha. exact (em_asset _ _ _ _ _ _ HE).
Qed.

Lemma engine_execute_ok s b o :
  sizes_ok -> (forall n, reports_env n <> NoObject) -> (forall n, book_env n <> NoObject) ->
  holds s b -> 0 < Amount o < 2 ^ 32 -> (Type_ o = LIMIT -> room b o) ->
  (Type_ o = MARKET -> forall n, reports_env n = Accepted) ->
  let '(b', rs, us) := exec_order (MarketAssetId s) o b in
  exists s', engine_execute o s = Ret s' /\ holds s' b' /\
    emits reports_env book_env s s' rs us.
Proof.
  intros Hz H1 H2 Hr Ha Hroom Hacc.
  by apply (executeOrder_ok (om_spec := om_spec) (fm_spec := fm_spec) (ix_spec := ix_spec)
    (NodePoolSize z) (LevelPoolSize z) (IndexPoolSize z - 2) (proj2 Hz) reports_env book_env H1 H2 s b o Hr Ha Hroom Hacc).
Qed.

(** What is left of an order whose cancel names the wrong side (see [phantom]). *)
Definition phantom_in (sd : OrderSide) (s s' : Engine) (r : Order) (x : nat) : Prop :=
  phantom (om_ops := om_ops) (NodePoolSize z) reports_env book_env sd s s' r x.

Lemma engine_other_side s b order r :
  sizes_ok -> (forall n, reports_env n = Accepted) -> (forall n, book_env n = Accepted) ->
  holds s b -> book_wf b -> Action order = CANCEL_ORDER ->
  find_order (Amount order) (get_side (opposite (Side order)) b) = Some r -> ClientId r = ClientId order ->
  order_key r = Amount order ->
  exists s' x, engine_run [order] s = Ret s' /\ phantom_in (Side order) s s' r x /\
    (exists s'', engine_run [order] s' = Ret s'' /\ emits reports_env book_env s' s'' [reject_report order] []) /\
    (forall o os rest, get_side (opposite (Side order)) b = (Price r, r :: os) :: rest ->
       Action o = EXECUTE -> Side o = Side order -> 0 < Amount o < Amount r -> crosses (Side o) (Price o) (Price r) = true ->
       exists s'' left, engine_run [o] s' = Ret s'' /\
         emits reports_env book_env s' s'' (trade_reports (MarketAssetId s) o (MkTrade (Price r) r (Amount o) 0 left))
           [depth_update (MarketAssetId s) (opposite (Side order)) (Price r) left]).
Proof.
  intros Hz H1 H2 Hr Hwf Hact Hf Hcl Hkey.
  assert (N1 : forall n, reports_env n <> NoObject) by (intros n; by rewrite H1).
  assert (N2 : forall n, book_env n <> NoObject) by (intros n; by rewrite H2).
  destruct (CancelOrder_other_side (om_spec := om_spec) (fm_spec := fm_spec) (ix_spec := ix_spec)
    (NodePoolSize z) (LevelPoolSize z) (IndexPoolSize z - 2) (proj2 Hz) reports_env book_env N1 N2 s b order r Hr Hwf H1 H2 Hf Hcl)
    as (s' & x & HC & HP).
  exists s', x. unfold engine_run. cbn [run_batch]. unfold handle_order. rewrite Hact, HC. split; [done|]. split; [exact HP|].
  assert (Hasset : MarketAssetId s' = MarketAssetId s) by (apply (em_asset _ _ _ _ _ _ (ph_emits _ _ _ _ _ _ _ _ HP))).
  split.
  - pose proof (ph_forgotten _ _ _ _ _ _ _ _ HP) as Hn. rewrite Hkey in Hn.
    destruct (CancelOrder_forgotten (om_ops := om_ops) (fm_ops := fm_ops) (ix_ops := ix_ops) (NodePoolSize z) (LevelPoolSize z)
      reports_env book_env N1 s' order Hn) as (s'' & -> & E).
    by exists s''.
  - intros o os rest Hb Ho Hsd Hq Hc. rewrite Ho. rewrite Hsd in Hc.
    destruct (phantom_trades (om_spec := om_spec) (fm_spec := fm_spec) (ix_spec := ix_spec)
      (NodePoolSize z) (LevelPoolSize z) (IndexPoolSize z - 2) reports_env book_env N1 N2
      (Side order) s s' b r x o os rest Hr HP Hb Hsd Hq Hc) as (s'' & left & -> & E).
    exists s'', left. split; [done|]. by rewrite Hasset in E.
Qed.

End Engine.

(** ** Main results *)

(** The conclusion of C1. *)
Definition implements (z : Sizes) (renv benv : nat -> Answer) (a p rs bs sb sa : Z) (reqs : list Order) : Prop :=
  exists s0 s, engine_init z a p rs bs sb sa = Ret s0 /\ engine_run z renv benv reqs s0 = Ret s /\
    let '(b, reps, ups) := spec_run (u32 a) reqs empty_book in
    holds z s b /\ Sent (OutgoingOrders s) = number (u32 rs) reps /\
    Sent (OutgoingBook s) = number_up (u32 bs) ups.

(** C1: from its constructor, and for every sequence of requests that
    [valid_run] admits, every report and every update being accepted by its pool and
    queue, the engine handles each request without crashing or running out of steps,
    and the book it holds, the execution reports and the depth updates it queues, in
    order and with their sequence numbers, are those of price-time priority matching
    ([spec_run]).  [valid_run] asks at each step for room in the pools and maps, and
    excludes orders of amount 0, ids in use, sentinel prices and cancels that name a
    resting order of the other side, after which the engine does not hold the
    specification's book any more (C40).  Where docs/PROTOCOL.md differs from the code
    [spec_run] follows the code: a CANCEL report carries the reservation with the sign
    of an ADD, and the price of a MARKET sell is a limit. *)
Theorem engine_implements_matching z renv benv a p rs bs sb sa reqs :
  sizes_ok z -> (forall n, renv n = Accepted) -> (forall n, benv n = Accepted) ->
  valid_run z (u32 a) reqs empty_book -> implements z renv benv a p rs bs sb sa reqs.
Proof. intros. by apply engine_run_ok. Qed.

(** C2: the cached best prices, the truncations to 32 bits and the pools never
    let the book cross: after any such run every bid is below every ask, the
    levels of both sides are in strict price order, and every resting order has
    a positive amount. *)
Theorem engine_book_uncrossed z renv benv a p rs bs sb sa reqs :
  sizes_ok z -> (forall n, renv n = Accepted) -> (forall n, benv n = Accepted) ->
  valid_run z (u32 a) reqs empty_book ->
  exists s0 s b, engine_init z a p rs bs sb sa = Ret s0 /\ engine_run z renv benv reqs s0 = Ret s /\
    holds z s b /\ book_wf b.
Proof.
  intros Hz H1 H2 Hv. destruct (engine_run_ok z renv benv a p rs bs sb sa reqs Hz H1 H2 Hv) as (s0 & s & G1 & G2 & G3).
  pose proof (spec_run_wf (u32 a) reqs empty_book empty_book_wf (admissible_pos _ _ _ _ _ _ Hv)) as Hwf.
  destruct (spec_run (u32 a) reqs empty_book) as [[b reps] ups]. destruct G3 as [G3 _]. by exists s0, s, b.
Qed.

(** C3: the reports of a run conserve every asset and cash: over all the reports
    queued, what is bought and what is sold of each asset sum to zero, modulo the
    64 bits of the fields. *)
Theorem engine_conserves_assets z renv benv a p rs bs sb sa reqs asset :
  sizes_ok z -> (forall n, renv n = Accepted) -> (forall n, benv n = Accepted) ->
  valid_run z (u32 a) reqs empty_book ->
  exists s0 s k, engine_init z a p rs bs sb sa = Ret s0 /\ engine_run z renv benv reqs s0 = Ret s /\
    total_flow asset (Sent (OutgoingOrders s)) = k * 2 ^ 64.
Proof.
  intros Hz H1 H2 Hv. destruct (engine_run_ok z renv benv a p rs bs sb sa reqs Hz H1 H2 Hv) as (s0 & s & G1 & G2 & G3).
  pose proof (spec_run_balanced (u32 a) reqs empty_book asset) as [k Hk].
  destruct (spec_run (u32 a) reqs empty_book) as [[b reps] ups]. destruct G3 as (_ & G3 & _).
  exists s0, s, k. by rewrite G3, number_flow.
Qed.

(** A limit order is matched and rested as specified whatever the consumers
    of the outgoing queues do, as long as the pools have objects: a full queue
    loses reports and updates ([deliver]) but never affects the book. *)
Theorem limit_order_despite_full_queues z renv benv s b o :
  sizes_ok z -> (forall n, renv n <> NoObject) -> (forall n, benv n <> NoObject) ->
  holds z s b -> 0 < Amount o < 2 ^ 32 -> Type_ o = LIMIT -> room z b o ->
  let '(b', rs, us) := exec_order (MarketAssetId s) o b in
  exists s', engine_execute z renv benv o s = Ret s' /\ holds z s' b' /\
    OutgoingOrders s' = deliver renv (OutgoingOrders s) (number (ReportSequenceId s) rs) /\
    OutgoingBook s' = deliver benv (OutgoingBook s) (number_up (OrderBookSequenceId s) us).
Proof.
  intros Hz H1 H2 Hr Ha Hl Hroom.
  pose proof (engine_execute_ok z renv benv s b o Hz H1 H2 Hr Ha (fun _ => Hroom)) as HE.
  destruct (exec_order (MarketAssetId s) o b) as [[b' rs] us].
  destruct HE as (s' & G1 & G2 & [G3 _ G4 _ _]); [by rewrite Hl|]. by exists s'.
Qed.

(** A MARKET sell whose price is above every bid trades with nobody and is
    cancelled: the loop stops at [order.Price] for it as for a limit order
    (docs/PROTOCOL.md says that the price of a market sell is ignored). *)
Theorem market_sell_price_is_a_limit z renv benv s b o :
  sizes_ok z -> (forall n, renv n = Accepted) -> (forall n, benv n = Accepted) ->
  holds z s b -> Side o = SELL -> Type_ o = MARKET -> 0 < Amount o < 2 ^ 32 -> Forall (fun lv => lv.1 < Price o) (bids b) ->
  exists s', engine_execute z renv benv o s = Ret s' /\ holds z s' b /\
    emits renv benv s s' [ack_report (MarketAssetId s) o (- Amount o) (OrderId o) CANCEL] [].
Proof.
  intros Hz H1 H2 Hr Hsd Ht Ha Hb.
  pose proof (engine_execute_ok z renv benv s b o Hz ltac:(intros n; by rewrite H1) ltac:(intros n; by rewrite H2)
    Hr Ha ltac:(by rewrite Ht) (fun _ => H1)) as HE.
  assert (HM : match_levels SELL (Price o) (Amount o) (bids b) = (Amount o, bids b, [])).
  { destruct (bids b) as [|[p os] L]; [done|]. apply Forall_cons in Hb as [Hp _]. cbn [fst] in Hp. cbn [match_levels crosses].
    rewrite (proj2 (Z.leb_gt _ _) Hp), andb_false_r. done. }
  unfold exec_order in HE. rewrite Hsd in HE. cbn [opposite get_side] in HE. rewrite HM, (proj2 (Z.ltb_lt _ _) (proj1 Ha)), Ht in HE.
  unfold spent, locked in HE. rewrite Hsd in HE. by destruct b.
Qed.

(** C7: price-time priority of the reports.  The executions of an order are with
    the resting orders of the other side in price-time order, starting from the
    first and skipping none ([prefix_of]); each is at the price of the resting
    order's level, within the limit of the incoming order; the quantities add up;
    and the order has something left only if no level it crosses is left.  The limit
    is [order.Price] for limit and market orders alike, market sells included, which
    is what the code does ([market_sell_price_is_a_limit]) and not what
    docs/PROTOCOL.md says of market sells.  The order has an amount between 1 and
    2^32 - 1 and, if it may rest, room; every report and update is accepted. *)
Theorem execution_price_time_priority z renv benv s b o :
  sizes_ok z -> (forall n, renv n = Accepted) -> (forall n, benv n = Accepted) ->
  holds z s b -> book_wf b -> 0 < Amount o < 2 ^ 32 -> (Type_ o = LIMIT -> room z b o) ->
  exists s' ts tail left opp,
    engine_execute z renv benv o s = Ret s' /\
    Sent (OutgoingOrders s') = Sent (OutgoingOrders s) ++
      number (ReportSequenceId s) ((ts ≫= trade_reports (MarketAssetId s) o) ++ tail) /\
    (length tail <= 1)%nat /\
    order_key <$> (t_maker <$> ts) `prefix_of` side_ids (get_side (opposite (Side o)) b) /\
    Forall (fun tr => crosses (Side o) (Price o) (t_price tr) = true /\ 0 < t_qty tr <= Amount (t_maker tr)) ts /\
    left + traded_qty ts = Amount o /\
    match_levels (Side o) (Price o) (Amount o) (get_side (opposite (Side o)) b) = (left, opp, ts) /\
    (0 < left -> Forall (fun p => crosses (Side o) (Price o) p = false) opp.*1).
Proof.
  intros Hz H1 H2 Hr Hwf Ha Hroom.
  pose proof (engine_execute_ok z renv benv s b o Hz ltac:(intros n; by rewrite H1) ltac:(intros n; by rewrite H2)
    Hr Ha Hroom (fun _ => H1)) as HE.
  unfold exec_order in HE. destruct (wf_side (opposite (Side o)) b Hwf) as [Hso Hp].
  pose proof (match_levels_ok (Side o) (Price o) (Amount o) _ ltac:(lia) Hp) as HM.
  pose proof (match_levels_ids (Side o) (Price o) (Amount o) (get_side (opposite (Side o)) b)) as HI.
  pose proof (match_levels_stop (Side o) (Price o) (Amount o) _ ltac:(lia) Hp Hso) as HS.
  destruct (match_levels (Side o) (Price o) (Amount o) (get_side (opposite (Side o)) b)) as [[q opp] ts].
  destruct HM as (_ & Hq & _ & _ & Htr), HI as (_ & Hpre & _).
  destruct (0 <? q); [destruct (Type_ o)|]; destruct HE as (s' & G1 & G2 & G3);
    destruct (emits_accepted _ _ _ _ _ _ H1 H2 G3) as [E1 _].
  - eexists s', ts, [_], q, opp. split_and!; done.
  - eexists s', ts, [_], q, opp. split_and!; done.
  - eexists s', ts, [], q, opp. rewrite app_nil_r. split_and!; try done; simpl; lia.
Qed.

(** ** Concrete runs *)

Definition demo_sizes : Sizes := MkSizes 8 4 6 2 1 1.
Definition accept_all : nat -> Answer := fun _ => Accepted.
Definition refuse_all : nat -> Answer := fun _ => NoRoom.
Definition demo_buy (id client price amount : Z) : Order :=
  MkOrder price id 1 client amount 3 LIMIT BUY EXECUTE.
Definition demo_sell (id client price amount : Z) : Order :=
  MkOrder price id 1 client amount 3 LIMIT SELL EXECUTE.
Definition demo_cancel (client target : Z) (sd : OrderSide) : Order :=
  MkOrder 0 99 1 client target 3 LIMIT sd CANCEL_ORDER.
Definition demo_market (id client price amount : Z) (sd : OrderSide) : Order :=
  MkOrder price id 1 client amount 3 MARKET sd EXECUTE.

(** Two bids, a sell that sweeps one level and part of the next, a cancel by its
    owner, one by a stranger, and a market order with no counterparty left. *)
Definition demo_requests : list Order :=
  [demo_buy 1 7 100 10; demo_buy 2 8 101 5; demo_sell 3 9 100 12; demo_sell 4 9 103 6;
   demo_cancel 7 4 SELL; demo_cancel 7 1 BUY; demo_market 5 8 200 9 BUY].

Lemma demo_sizes_ok : sizes_ok demo_sizes.
Proof. split; simpl; lia. Qed.
Lemma demo_valid : valid_run demo_sizes (u32 3) demo_requests empty_book.
Proof. refine (bool_decide_unpack _ (dec := valid_run_dec _ _ _ _) _). vm_compute. exact I. Qed.

Lemma engine_implements_matching_witness :
  implements demo_sizes accept_all accept_all 3 100 0 0 1 2 demo_requests.
Proof.
  apply engine_implements_matching; [exact demo_sizes_ok|done|done|exact demo_valid].
Defined.

Lemma engine_book_uncrossed_witness :
  exists s0 s b, engine_init demo_sizes 3 100 0 0 1 2 = Ret s0 /\
    engine_run demo_sizes accept_all accept_all demo_requests s0 = Ret s /\ holds demo_sizes s b /\ book_wf b.
Proof.
  apply (engine_book_uncrossed demo_sizes accept_all accept_all 3 100 0 0 1 2 demo_requests);
    [exact demo_sizes_ok|done|done|exact demo_valid].
Defined.

Lemma engine_conserves_assets_witness :
  exists s0 s k, engine_init demo_sizes 3 100 0 0 1 2 = Ret s0 /\
    engine_run demo_sizes accept_all accept_all demo_requests s0 = Ret s /\
    total_flow 3 (Sent (OutgoingOrders s)) = k * 2 ^ 64.
Proof.
  apply (engine_conserves_assets demo_sizes accept_all accept_all 3 100 0 0 1 2 demo_requests 3);
    [exact demo_sizes_ok|done|done|exact demo_valid].
Defined.

(** Both queues refuse everything: the order rests, the report and the update are
    lost. *)
Lemma limit_order_despite_full_queues_witness :
  exists s s', engine_init demo_sizes 3 100 0 0 1 2 = Ret s /\
    engine_execute demo_sizes refuse_all refuse_all (demo_buy 1 7 100 10) s = Ret s' /\
    holds demo_sizes s' (MkAbsBook [(100, [demo_buy 1 7 100 10])] []) /\
    Sent (OutgoingOrders s') = [] /\ length (Lost (OutgoingOrders s')) = 1%nat.
Proof.
  destruct (engine_init_holds demo_sizes 3 100 0 0 1 2 demo_sizes_ok)
    as (s & H0 & Hh & Ha & _ & _ & Ho & _).
  pose proof (limit_order_despite_full_queues demo_sizes refuse_all refuse_all s empty_book
    (demo_buy 1 7 100 10) demo_sizes_ok ltac:(done) ltac:(done) Hh ltac:(simpl; lia) eq_refl) as HE.
  destruct HE as (s' & G1 & G2 & G3 & _).
  { refine (bool_decide_unpack _ (dec := room_dec _ _ _) _). vm_compute. exact I. }
  exists s, s'. split; [done|]. split; [done|]. split; [exact G2|]. rewrite G3, Ho. done.
Defined.

(** A sell of 12 at 100 against bids of 5 at 101 and 10 at 100. *)
Lemma execution_price_time_priority_witness :
  exists s s' ts tail, engine_execute demo_sizes accept_all accept_all (demo_sell 3 9 100 12) s = Ret s' /\
    order_key <$> (t_maker <$> ts) = [2; 1] /\ traded_qty ts = 12 /\
    Sent (OutgoingOrders s') = Sent (OutgoingOrders s) ++
      number (ReportSequenceId s) ((ts ≫= trade_reports (MarketAssetId s) (demo_sell 3 9 100 12)) ++ tail).
Proof.
  destruct (engine_run_ok demo_sizes accept_all accept_all 3 100 0 0 1 2
    [demo_buy 1 7 100 10; demo_buy 2 8 101 5] demo_sizes_ok) as (s0 & s & _ & _ & Hh & _); try done.
  { refine (bool_decide_unpack _ (dec := valid_run_dec _ _ _ _) _). vm_compute. exact I. }
  pose proof (execution_price_time_priority demo_sizes accept_all accept_all s _ (demo_sell 3 9 100 12)
    demo_sizes_ok ltac:(done) ltac:(done) Hh) as HE.
  destruct HE as (s' & ts & tail & left & opp & G1 & G2 & G3 & G4 & G5 & G6 & G7 & G8).
  { apply (spec_run_wf (u32 3) [demo_buy 1 7 100 10; demo_buy 2 8 101 5] empty_book empty_book_wf).
    repeat constructor. }
  { simpl. lia. }
  { intros _. refine (bool_decide_unpack _ (dec := room_dec _ _ _) _). vm_compute. exact I. }
  vm_compute in G7. injection G7 as _ _ Hts. exists s, s', ts, tail.
  split; [exact G1|]. split; [by rewrite <- Hts|]. split; [by rewrite <- Hts|exact G2].
Defined.

(** The state of the reports a run sends, by order and kind. *)
Definition report_trace (z : Sizes) (reqs : list Order) : option (list (Z * OrderState)) :=
  match engine_init z 3 100 0 0 1 2 with
  | Ret s0 =>
      match engine_run z accept_all accept_all reqs s0 with
      | Ret s => Some ((fun r => (ROrderId r, State r)) <$> Sent (OutgoingOrders s))
      | Crash _ => None
      end
  | Crash _ => None
  end.

(** A cancel that gives the wrong side is acknowledged, but the order stays
    in its level and trades afterwards: order 1, a buy, is cancelled with side
    SELL, reported as cancelled, and then filled by order 3. *)
Theorem wrong_side_cancel_leaves_order_matchable :
  report_trace demo_sizes [demo_buy 1 7 100 10; demo_cancel 7 1 SELL; demo_sell 3 9 100 10] =
  Some [(1, ADD); (1, CANCEL); (3, FILL); (1, FILL)].
Proof. vm_compute. reflexivity. Qed.

(** With the right side the same requests leave the sell resting. *)
Example right_side_cancel :
  report_trace demo_sizes [demo_buy 1 7 100 10; demo_cancel 7 1 BUY; demo_sell 3 9 100 10] =
  Some [(1, ADD); (1, CANCEL); (3, ADD)].
Proof. vm_compute. reflexivity. Qed.
