(* ===== verification/SpscQueue.v ===== *)
(** [SpscQueue], [SpscQueueProducer] and [SpscQueueConsumer]
    (src/market_server/common/include/spsc_queue.hpp): the bounded ring buffer
    between two threads.

    The operations are given twice.  [TryPush], [Push], [TimedPush], [TryPop],
    [Pop], [TimedPop] are the methods, with the values their atomic loads and
    clock readings return as arguments.  [qstep] is the interleaving of a
    producer and a consumer thread at the granularity of their accesses to
    shared memory: refresh of the cached index of the other side, access of a
    slot, publication of the own index.  A refresh may return any value of the
    other index not older than the last one seen, as acquire loads allow.

    Main results: in every interleaving the consumer receives what the producer
    pushed, in order, nothing lost or duplicated; the two threads never access
    the same slot at the same time; the methods are sequences of steps. *)

From Stdlib Require Import Sorted.
From S2P Require Import Prelude.

Section SpscQueue.
Context {T : Type} (T0 : T) (Size : nat).

Record SpscQueue := MkQueue {
  QHead : Z;          (* std::atomic<size_t> *)
  QTail : Z;          (* std::atomic<size_t> *)
  Buffer : list T     (* std::array<T, Size> *)
}.

(** The private members of a producer or a consumer. *)
Record Local := MkLocal { LocalHead : Z; LocalTail : Z }.

Definition queue_init : SpscQueue := MkQueue 0 0 (replicate Size T0).

Definition GetSize (head tail : Z) : Z := u64 (tail - head).

(** Constructors of [SpscQueueProducer] and [SpscQueueConsumer]. *)
Definition attach (q : SpscQueue) : Local := MkLocal (QHead q) (QTail q).

(** *** Shared pieces of the methods *)

Definition slot (idx : Z) : nat := Z.to_nat (Z.land idx (Z.of_nat Size - 1)).
Definition is_full (l : Local) : bool := Z.of_nat Size <=? u64 (LocalTail l - LocalHead l).
Definition is_empty (l : Local) : bool := LocalTail l =? LocalHead l.
Definition write_item (item : T) (l : Local) (q : SpscQueue) : SpscQueue :=
  MkQueue (QHead q) (QTail q) (<[slot (LocalTail l) := item]> (Buffer q)).
Definition bump_tail (l : Local) : Local := MkLocal (LocalHead l) (u64 (LocalTail l + 1)).
Definition store_tail (l : Local) (q : SpscQueue) : SpscQueue := MkQueue (QHead q) (LocalTail l) (Buffer q).
Definition read_item (l : Local) (q : SpscQueue) : T := nth (slot (LocalHead l)) (Buffer q) T0.
Definition bump_head (l : Local) : Local := MkLocal (u64 (LocalHead l + 1)) (LocalTail l).
Definition store_head (l : Local) (q : SpscQueue) : SpscQueue := MkQueue (LocalHead l) (QTail q) (Buffer q).

Definition do_push (item : T) (l : Local) (q : SpscQueue) : Local * SpscQueue :=
  let q := write_item item l q in
  let l := bump_tail l in
  (l, store_tail l q).

Definition do_pop (l : Local) (q : SpscQueue) : T * Local * SpscQueue :=
  let item := read_item l q in
  let l := bump_head l in
  (item, l, store_head l q).

(** *** The methods *)

(** [head] is what [Head.load] returns if it is called. *)
Definition TryPush (item : T) (head : Z) (l : Local) (q : SpscQueue) : bool * Local * SpscQueue :=
  if is_full l then
    let l := MkLocal head (LocalTail l) in
    if is_full l then (false, l, q)
    else let '(l, q) := do_push item l q in (true, l, q)
  else let '(l, q) := do_push item l q in (true, l, q).

(** The spin of [Push]: [heads] are the values the loads return; [None] if the
    queue is still full after them. *)
Fixpoint spin_head (heads : list Z) (l : Local) : option Local :=
  if is_full l then
    match heads with
    | [] => None
    | h :: heads => spin_head heads (MkLocal h (LocalTail l))
    end
  else Some l.

Definition Push (item : T) (heads : list Z) (l : Local) (q : SpscQueue) : option (Local * SpscQueue) :=
  match spin_head heads l with
  | Some l => Some (do_push item l q)
  | None => None
  end.

(** [heads] are the values loaded before the deadline passes. *)
Definition TimedPush (item : T) (heads : list Z) (l : Local) (q : SpscQueue) : bool * Local * SpscQueue :=
  match spin_head heads l with
  | Some l => let '(l, q) := do_push item l q in (true, l, q)
  | None => (false, MkLocal (default (LocalHead l) (last heads)) (LocalTail l), q)
  end.

(** [tail] is what [Tail.load] returns if it is called. *)
Definition TryPop (tail : Z) (l : Local) (q : SpscQueue) : option T * Local * SpscQueue :=
  if is_empty l then
    let l := MkLocal (LocalHead l) tail in
    if is_empty l then (None, l, q)
    else let '(item, l, q) := do_pop l q in (Some item, l, q)
  else let '(item, l, q) := do_pop l q in (Some item, l, q).

Fixpoint spin_tail (tails : list Z) (l : Local) : option Local :=
  if is_empty l then
    match tails with
    | [] => None
    | t :: tails => spin_tail tails (MkLocal (LocalHead l) t)
    end
  else Some l.

Definition Pop (tails : list Z) (l : Local) (q : SpscQueue) : option (T * Local * SpscQueue) :=
  match spin_tail tails l with
  | Some l => Some (do_pop l q)
  | None => None
  end.

Definition TimedPop (tails : list Z) (l : Local) (q : SpscQueue) : option T * Local * SpscQueue :=
  match spin_tail tails l with
  | Some l => let '(item, l, q) := do_pop l q in (Some item, l, q)
  | None => (None, MkLocal (LocalHead l) (default (LocalTail l) (last tails)), q)
  end.

(** ** Interleavings *)

Inductive producer_pc := PIdle | PWrote (item : T).
Inductive consumer_pc := CIdle | CRead (item : T).

(** [pushed] and [popped] are the items whose publication has happened; [pseen]
    and [cseen] are how many pops the producer, and pushes the consumer, have
    observed. *)
Record QState := MkQState {
  queue : SpscQueue;
  prod : Local; ppc : producer_pc; pseen : nat;
  cons : Local; cpc : consumer_pc; cseen : nat;
  pushed : list T; popped : list T
}.

Definition qstate0 : QState :=
  MkQState queue_init (attach queue_init) PIdle 0 (attach queue_init) CIdle 0 [] [].

Inductive qstep : QState -> QState -> Prop :=
| p_refresh q l n lc pc' m ps qs c :
    (n <= c <= length qs)%nat ->
    qstep (MkQState q l PIdle n lc pc' m ps qs)
          (MkQState q (MkLocal (u64 (Z.of_nat c)) (LocalTail l)) PIdle c lc pc' m ps qs)
| p_write q l n lc pc' m ps qs item :
    is_full l = false ->
    qstep (MkQState q l PIdle n lc pc' m ps qs)
          (MkQState (write_item item l q) l (PWrote item) n lc pc' m ps qs)
| p_publish q l n lc pc' m ps qs item :
    qstep (MkQState q l (PWrote item) n lc pc' m ps qs)
          (MkQState (store_tail (bump_tail l) q) (bump_tail l) PIdle n lc pc' m (ps ++ [item]) qs)
| c_refresh q lp pc n l m ps qs c :
    (m <= c <= length ps)%nat ->
    qstep (MkQState q lp pc n l CIdle m ps qs)
          (MkQState q lp pc n (MkLocal (LocalHead l) (u64 (Z.of_nat c))) CIdle c ps qs)
| c_read q lp pc n l m ps qs :
    is_empty l = false ->
    qstep (MkQState q lp pc n l CIdle m ps qs)
          (MkQState q lp pc n l (CRead (read_item l q)) m ps qs)
| c_publish q lp pc n l m ps qs item :
    qstep (MkQState q lp pc n l (CRead item) m ps qs)
          (MkQState (store_head (bump_head l) q) lp pc n (bump_head l) CIdle m ps (qs ++ [item])).

(** ** The invariant *)

Definition cnt (n : nat) : Z := u64 (Z.of_nat n).

Record qinv (s : QState) : Prop := {
  qi_len : length (Buffer (queue s)) = Size;
  qi_tail : QTail (queue s) = cnt (length (pushed s));
  qi_head : QHead (queue s) = cnt (length (popped s));
  qi_prod : prod s = MkLocal (cnt (pseen s)) (cnt (length (pushed s)));
  qi_cons : cons s = MkLocal (cnt (length (popped s))) (cnt (cseen s));
  qi_pseen : (pseen s <= length (popped s))%nat;
  qi_cseen : (length (popped s) <= cseen s <= length (pushed s))%nat;
  qi_room : (length (pushed s) <= pseen s + Size)%nat;
  qi_fifo : exists rest, pushed s = popped s ++ rest;
  qi_slots : forall i x, (length (popped s) <= i)%nat -> pushed s !! i = Some x ->
               Buffer (queue s) !! (i mod Size)%nat = Some x;
  qi_wrote : forall item, ppc s = PWrote item ->
               (length (pushed s) < pseen s + Size)%nat /\
               Buffer (queue s) !! (length (pushed s) mod Size)%nat = Some item;
  qi_read : forall item, cpc s = CRead item ->
               (length (popped s) < cseen s)%nat /\ pushed s !! length (popped s) = Some item
}.

Inductive qreach : QState -> Prop :=
| qreach_init : qreach qstate0
| qreach_step s s' : qreach s -> qstep s s' -> qreach s'.

End SpscQueue.

(** ** Proofs *)

Section Proofs.
Context {T : Type} (T0 : T) (Size k : nat) (HSize : Size = (2 ^ k)%nat) (Hk : (k <= 62)%nat).
Abbreviation QState := (QState (T := T)).
Implicit Type s : QState.

Lemma queue_size_pos : (0 < Size)%nat.
Proof. rewrite HSize. apply Nat.neq_0_lt_0, Nat.pow_nonzero. lia. Qed.

Lemma Size_bound : Z.of_nat Size <= 2 ^ 62.
Proof.
  rewrite HSize, Nat2Z.inj_pow. apply Z.pow_le_mono_r; lia.
Qed.

Lemma cnt_S n : u64 (cnt n + 1) = cnt (S n).
Proof.
  unfold cnt, u64. rewrite Zplus_mod_idemp_l. f_equal. lia.
Qed.

Lemma u64_diff a b : u64 (cnt b - cnt a) = u64 (Z.of_nat b - Z.of_nat a).
Proof. unfold cnt, u64. by rewrite <- Zminus_mod. Qed.

Lemma cnt_diff a b : (a <= b)%nat -> (b <= a + Size)%nat -> u64 (cnt b - cnt a) = Z.of_nat b - Z.of_nat a.
Proof. intros. pose proof Size_bound. rewrite u64_diff, u64_small; lia. Qed.

Lemma cnt_eq a b : (a <= b)%nat -> (b <= a + Size)%nat -> cnt b = cnt a -> a = b.
Proof.
  intros H1 H2 He. pose proof (cnt_diff a b H1 H2) as Hd. rewrite He, Z.sub_diag in Hd.
  change (u64 0) with 0 in Hd. lia.
Qed.

Lemma slot_cnt n : slot Size (cnt n) = (n mod Size)%nat.
Proof.
  unfold slot, cnt, u64. rewrite HSize, Nat2Z.inj_pow.
  replace (Z.of_nat 2 ^ Z.of_nat k - 1) with (Z.ones (Z.of_nat k)) by (rewrite Z.ones_equiv; lia).
  rewrite Z.land_ones by lia.
  rewrite Z.mod_mod_divide.
  - replace (2 ^ Z.of_nat k) with (Z.of_nat (2 ^ k)) by (by rewrite Nat2Z.inj_pow).
    by rewrite <- Nat2Z.inj_mod, Nat2Z.id.
  - exists (2 ^ (64 - Z.of_nat k)). rewrite <- Z.pow_add_r by lia. f_equal. lia.
Qed.

Lemma mod_ne i j : (i < j)%nat -> (j < i + Size)%nat -> (i mod Size)%nat <> (j mod Size)%nat.
Proof.
  intros H1 H2 He. pose proof queue_size_pos as Hp.
  pose proof (Nat.div_mod_eq i Size) as Hi. pose proof (Nat.div_mod_eq j Size) as Hj.
  rewrite He in Hi.
  assert (i / Size = j / Size)%nat by nia. nia.
Qed.

Lemma is_full_cnt a b :
  (a <= b)%nat -> (b <= a + Size)%nat -> is_full Size (MkLocal (cnt a) (cnt b)) = false -> (b < a + Size)%nat.
Proof.
  intros H1 H2 Hf. unfold is_full in Hf. simpl in Hf. rewrite cnt_diff in Hf by done.
  apply Z.leb_gt in Hf. lia.
Qed.

Lemma is_empty_cnt a b :
  (a <= b)%nat -> (b <= a + Size)%nat -> is_empty (MkLocal (cnt a) (cnt b)) = false -> (a < b)%nat.
Proof.
  intros H1 H2 Hf. unfold is_empty in Hf. simpl in Hf. apply Z.eqb_neq in Hf.
  destruct (decide (a = b)) as [->|]; [done|lia].
Qed.

Lemma qinv_init : qinv Size (qstate0 T0 Size).
Proof.
  split; simpl; try done; try lia.
  - apply length_replicate.
  - by exists [].
Qed.

Lemma lookup_popped s : qinv Size s -> forall i, (i < length (popped s))%nat -> popped s !! i = pushed s !! i.
Proof. intros HI i Hi. destruct (qi_fifo _ _ HI) as [rest ->]. by rewrite lookup_app_l. Qed.

Lemma qinv_step s s' : qinv Size s -> qstep T0 Size s s' -> qinv Size s'.
Proof.
  intros HI Hs. pose proof queue_size_pos as HSp.
  destruct Hs as [q l n lc pc' m ps qs c Hc|q l n lc pc' m ps qs item Hf|q l n lc pc' m ps qs item
    |q lp pc n l m ps qs c Hc|q lp pc n l m ps qs He|q lp pc n l m ps qs item];
    destruct HI as [Hlen Ht Hh Hp Hcn Hps Hcs Hr [rest Hfifo] Hsl Hw Hrd]; simpl in *.
  - split; simpl; try done; try lia; [by rewrite Hp|by exists rest].
  - subst l. apply is_full_cnt in Hf; [|lia|lia].
    split; simpl; try done; try lia; [by rewrite length_insert|by exists rest| |].
    + intros i x Hi Hx. rewrite slot_cnt, list_lookup_insert_ne; [by apply Hsl|].
      apply lookup_lt_Some in Hx. apply not_eq_sym, mod_ne; [done|lia].
    + intros it [= <-]. split; [lia|]. rewrite slot_cnt. apply list_lookup_insert_eq.
      rewrite Hlen. apply Nat.mod_upper_bound. lia.
  - destruct (Hw item eq_refl) as [Hw1 Hw2]. subst l.
    split; simpl; rewrite ?length_app; simpl; rewrite ?Nat.add_1_r, ?cnt_S; try done; try lia.
    + unfold bump_tail. simpl. by rewrite cnt_S.
    + exists (rest ++ [item]). by rewrite Hfifo, app_assoc.
    + intros i x Hi [Hx|[Hge Hx]]%lookup_app_Some; [by apply Hsl|].
      destruct (i - length ps)%nat eqn:E; simpl in Hx; [|done]. injection Hx as ->.
      replace i with (length ps) by lia. done.
    + intros it Hit. destruct (Hrd it Hit) as [H1 H2]. split; [done|]. by apply lookup_app_l_Some.
  - split; simpl; try done; try lia; [by rewrite Hcn|by exists rest].
  - subst l. apply is_empty_cnt in He; [|lia|lia].
    split; simpl; try done; try lia; [by exists rest|].
    intros it [= <-]. split; [done|].
    destruct (lookup_lt_is_Some_2 ps (length qs)) as [x Hx]; [lia|]. rewrite Hx. f_equal.
    unfold read_item. simpl. rewrite slot_cnt, nth_lookup, (Hsl _ x) by (done || lia). done.
  - destruct (Hrd item eq_refl) as [Hr1 Hr2]. subst l.
    split; simpl; rewrite ?length_app; simpl; rewrite ?Nat.add_1_r, ?cnt_S; try done; try lia.
    + unfold bump_head. simpl. by rewrite cnt_S.
    + destruct rest as [|x rest].
      { rewrite app_nil_r in Hfifo. subst. apply lookup_lt_Some in Hr2. lia. }
      exists rest. subst ps. rewrite lookup_app_r, Nat.sub_diag in Hr2 by lia. simpl in Hr2.
      injection Hr2 as ->. by rewrite <- app_assoc.
    + intros i x Hi Hx. apply Hsl; [lia|done].
Qed.

Lemma qreach_inv s : qreach T0 Size s -> qinv Size s.
Proof. induction 1 as [|s s' _ IH Hs]; [apply qinv_init|by eapply qinv_step]. Qed.
(** *** The methods are sequences of steps *)

Abbreviation qsteps := (rtc (qstep T0 Size)).

(** The state after the calling thread has pushed [item] (or not). *)
Definition after_push s (l : Local) (q : SpscQueue) (n : nat) (items : list T) : QState :=
  MkQState q l PIdle n (cons s) (cpc s) (cseen s) (pushed s ++ items) (popped s).
Definition after_pop s (l : Local) (q : SpscQueue) (m : nat) (items : list T) : QState :=
  MkQState q (prod s) (ppc s) (pseen s) l CIdle m (pushed s) (popped s ++ items).

Lemma do_push_steps s item :
  ppc s = PIdle -> is_full Size (prod s) = false ->
  qsteps s (after_push s (do_push Size item (prod s) (queue s)).1
                         (do_push Size item (prod s) (queue s)).2 (pseen s) [item]).
Proof.
  destruct s as [q l pc n lc pc' m ps qs]. simpl. intros -> Hf.
  eapply rtc_l; [by apply p_write|]. eapply rtc_l; [apply p_publish|]. apply rtc_refl.
Qed.

Lemma do_pop_steps s :
  cpc s = CIdle -> is_empty (cons s) = false ->
  qsteps s (after_pop s (do_pop T0 Size (cons s) (queue s)).1.2 (do_pop T0 Size (cons s) (queue s)).2
              (cseen s) [(do_pop T0 Size (cons s) (queue s)).1.1]).
Proof.
  destruct s as [q lp pc n l pc' m ps qs]. simpl. intros -> He.
  eapply rtc_l; [by apply c_read|]. eapply rtc_l; [apply c_publish|]. apply rtc_refl.
Qed.

Lemma refresh_prod s c :
  ppc s = PIdle -> (pseen s <= c <= length (popped s))%nat ->
  qstep T0 Size s (after_push s (MkLocal (cnt c) (LocalTail (prod s))) (queue s) c []).
Proof.
  destruct s as [q l pc n lc pc' m ps qs]. simpl. intros -> Hc. unfold after_push. simpl.
  rewrite app_nil_r. by apply p_refresh.
Qed.

Lemma refresh_cons s c :
  cpc s = CIdle -> (cseen s <= c <= length (pushed s))%nat ->
  qstep T0 Size s (after_pop s (MkLocal (LocalHead (cons s)) (cnt c)) (queue s) c []).
Proof.
  destruct s as [q lp pc n l pc' m ps qs]. simpl. intros -> Hc. unfold after_pop. simpl.
  rewrite app_nil_r. by apply c_refresh.
Qed.

Lemma after_push_push s l q n l' q' n' items items' :
  after_push (after_push s l q n items) l' q' n' items' = after_push s l' q' n' (items ++ items').
Proof. unfold after_push. simpl. by rewrite app_assoc. Qed.
Lemma after_pop_pop s l q n l' q' n' items items' :
  after_pop (after_pop s l q n items) l' q' n' items' = after_pop s l' q' n' (items ++ items').
Proof. unfold after_pop. simpl. by rewrite app_assoc. Qed.

(** A full queue, as the producer sees it. *)
Lemma full_prod s : qinv Size s -> is_full Size (prod s) = true -> length (pushed s) = (pseen s + Size)%nat.
Proof.
  intros HI Hf. destruct HI as [_ _ _ Hp _ H1 H2 H3 _ _ _ _]. rewrite Hp in Hf. unfold is_full in Hf. simpl in Hf.
  rewrite cnt_diff in Hf by lia. apply Z.leb_le in Hf. lia.
Qed.

Lemma empty_cons s : qinv Size s -> is_empty (cons s) = true -> length (popped s) = cseen s.
Proof.
  intros HI He. destruct HI as [_ _ _ _ Hc H1 H2 H3 _ _ _ _]. rewrite Hc in He. unfold is_empty in He. simpl in He.
  apply Z.eqb_eq in He. apply cnt_eq in He; lia.
Qed.

Lemma TryPush_steps s item c :
  qinv Size s -> ppc s = PIdle -> (pseen s <= c <= length (popped s))%nat ->
  let '(r, l, q) := TryPush Size item (cnt c) (prod s) (queue s) in
  exists n, qsteps s (after_push s l q n (if r then [item] else [])) /\
            (r = false -> length (pushed s) = (c + Size)%nat) /\ (n = pseen s \/ n = c).
Proof.
  intros HI Hpc Hc. unfold TryPush. destruct (is_full Size (prod s)) eqn:Ef.
  - pose proof (refresh_prod s c Hpc Hc) as Hst. pose proof (qinv_step _ _ HI Hst) as HI1.
    set (s1 := after_push s _ _ c []) in Hst, HI1.
    change (MkLocal (cnt c) (LocalTail (prod s))) with (prod s1).
    destruct (is_full Size (prod s1)) eqn:Ef1.
    + exists c. split; [by apply rtc_once|]. split; [|by right]. intros _. apply full_prod in Ef1; [|done].
      unfold s1 in Ef1. simpl in Ef1. by rewrite app_nil_r in Ef1.
    + pose proof (do_push_steps s1 item eq_refl Ef1) as Hp. change (queue s1) with (queue s) in Hp.
      destruct (do_push Size item (prod s1) (queue s)) as [l q]. exists c. split; [|by split; [|right]].
      eapply rtc_l; [exact Hst|]. unfold s1 in Hp. rewrite after_push_push in Hp. exact Hp.
  - pose proof (do_push_steps s item Hpc Ef) as Hp. destruct (do_push Size item (prod s) (queue s)) as [l q].
    exists (pseen s). split; [done|]. by split; [|left].
Qed.

(** The item the consumer is about to take. *)
Lemma do_pop_item s :
  qinv Size s -> is_empty (cons s) = false ->
  pushed s !! length (popped s) = Some (do_pop T0 Size (cons s) (queue s)).1.1.
Proof.
  intros HI He. pose proof HI as [_ _ _ _ Hc H1 H2 H3 _ Hsl _ _]. rewrite Hc in *. simpl.
  apply is_empty_cnt in He; [|lia|lia].
  destruct (lookup_lt_is_Some_2 (pushed s) (length (popped s))) as [x Hx]; [lia|]. rewrite Hx. f_equal.
  unfold read_item. simpl. rewrite slot_cnt, nth_lookup, (Hsl _ x) by (done || lia). done.
Qed.

Lemma TryPop_steps s c :
  qinv Size s -> cpc s = CIdle -> (cseen s <= c <= length (pushed s))%nat ->
  let '(r, l, q) := TryPop T0 Size (cnt c) (cons s) (queue s) in
  exists m, qsteps s (after_pop s l q m (option_list r)) /\
    match r with
    | Some x => pushed s !! length (popped s) = Some x
    | None => length (popped s) = c
    end /\ (m = cseen s \/ m = c).
Proof.
  intros HI Hpc Hc. unfold TryPop. destruct (is_empty (cons s)) eqn:Ef.
  - pose proof (refresh_cons s c Hpc Hc) as Hst. pose proof (qinv_step _ _ HI Hst) as HI1.
    set (s1 := after_pop s _ _ c []) in Hst, HI1.
    change (MkLocal (LocalHead (cons s)) (cnt c)) with (cons s1).
    destruct (is_empty (cons s1)) eqn:Ef1.
    + exists c. split; [by apply rtc_once|]. split; [|by right]. apply empty_cons in Ef1; [|done].
      unfold s1 in Ef1. simpl in Ef1. by rewrite app_nil_r in Ef1.
    + pose proof (do_pop_steps s1 eq_refl Ef1) as Hp. pose proof (do_pop_item s1 HI1 Ef1) as Hx.
      change (queue s1) with (queue s) in Hp, Hx.
      destruct (do_pop T0 Size (cons s1) (queue s)) as [[x l] q]. exists c. split.
      * eapply rtc_l; [exact Hst|]. unfold s1 in Hp. rewrite after_pop_pop in Hp. exact Hp.
      * split; [|by right]. unfold s1 in Hx. simpl in Hx. by rewrite app_nil_r in Hx.
  - pose proof (do_pop_steps s Hpc Ef) as Hp. pose proof (do_pop_item s HI Ef) as Hx.
    destruct (do_pop T0 Size (cons s) (queue s)) as [[x l] q]. exists (cseen s). split; [done|]. by split; [|left].
Qed.

(** What the invariant says of the items and of the slots. *)
Lemma qinv_in_flight s :
  qinv Size s -> exists rest, pushed s = popped s ++ rest /\ (length rest <= Size)%nat.
Proof.
  intros [_ _ _ _ _ H1 H2 H3 [rest Hf] _ _ _]. exists rest. split; [done|]. rewrite Hf, length_app in *. lia.
Qed.

Lemma qinv_slots_apart s :
  qinv Size s ->
  (ppc s = PIdle /\ is_full Size (prod s) = false) \/ (exists item, ppc s = PWrote item) ->
  is_empty (cons s) = false ->
  slot Size (LocalTail (prod s)) <> slot Size (LocalHead (cons s)).
Proof.
  intros [_ _ _ Hpr Hcn H1 H2 H3 _ _ Hw _] Hp He.
  rewrite Hpr, Hcn in *. simpl. rewrite !slot_cnt. apply is_empty_cnt in He; [|lia|lia].
  assert (Hroom : (length (pushed s) < pseen s + Size)%nat).
  { destruct Hp as [[_ Hf]|[item Hi]]; [apply is_full_cnt in Hf; lia|by destruct (Hw item Hi)]. }
  apply not_eq_sym, mod_ne; lia.
Qed.

(** *** Main results *)

(** C12: in every interleaving of a producer and a consumer, with stale loads, the
    items received are a prefix of the items sent, in order, with no loss or
    duplication, and at most [Size] items are in flight. *)
Theorem spsc_fifo s :
  qreach T0 Size s -> exists rest, pushed s = popped s ++ rest /\ (length rest <= Size)%nat.
Proof. intros HR. by apply qinv_in_flight, qreach_inv. Qed.

(** C13: the slot the producer writes, from the moment it finds room to the
    publication of its index, is never the slot the consumer reads: the two
    threads do not race on the buffer. *)
Theorem spsc_no_race s :
  qreach T0 Size s ->
  (ppc s = PIdle /\ is_full Size (prod s) = false) \/ (exists item, ppc s = PWrote item) ->
  is_empty (cons s) = false ->
  slot Size (LocalTail (prod s)) <> slot Size (LocalHead (cons s)).
Proof. intros HR. by apply qinv_slots_apart, qreach_inv. Qed.

(** A call of [TryPush], interrupted by nothing, is a run of the producer:
    it appends the item and returns true, or returns false having observed
    [Size] items in flight, and changes nothing else. *)
Theorem TryPush_correct s item c :
  qreach T0 Size s -> ppc s = PIdle -> (pseen s <= c <= length (popped s))%nat ->
  let '(r, l, q) := TryPush Size item (cnt c) (prod s) (queue s) in
  exists n, qsteps s (after_push s l q n (if r then [item] else [])) /\
            (r = false -> length (pushed s) = (c + Size)%nat).
Proof.
  intros HR Hpc Hc. pose proof (TryPush_steps s item c (qreach_inv s HR) Hpc Hc) as HT.
  destruct (TryPush Size item (cnt c) (prod s) (queue s)) as [[r l] q]. destruct HT as (n & Hs & Hf & _). by exists n.
Qed.

(** A call of [TryPop] is a run of the consumer: it returns the oldest item
    not yet received, or nothing when every push it observed is received. *)
Theorem TryPop_correct s c :
  qreach T0 Size s -> cpc s = CIdle -> (cseen s <= c <= length (pushed s))%nat ->
  let '(r, l, q) := TryPop T0 Size (cnt c) (cons s) (queue s) in
  exists m, qsteps s (after_pop s l q m (option_list r)) /\
    match r with
    | Some x => pushed s !! length (popped s) = Some x
    | None => length (popped s) = c
    end.
Proof.
  intros HR Hpc Hc. pose proof (TryPop_steps s c (qreach_inv s HR) Hpc Hc) as HT.
  destruct (TryPop T0 Size (cnt c) (cons s) (queue s)) as [[r l] q]. destruct HT as (m & Hs & Hf & _). by exists m.
Qed.

(** What a successful push leaves in the shared fields. *)
Lemma do_push_shared s item :
  qinv Size s ->
  let q := (do_push Size item (prod s) (queue s)).2 in
  QTail q = cnt (S (length (pushed s))) /\ QHead q = QHead (queue s) /\
  Buffer q = <[(length (pushed s) mod Size)%nat := item]> (Buffer (queue s)).
Proof.
  intros [_ _ _ Hp _ _ _ _ _ _ _ _]. rewrite Hp. cbn [do_push fst snd store_tail write_item bump_tail QTail QHead Buffer LocalTail].
  rewrite slot_cnt. split; [|done]. unfold cnt. rewrite u64_add_l. f_equal. lia.
Qed.

Lemma Push_steps cs s item :
  qinv Size s -> ppc s = PIdle -> StronglySorted le (pseen s :: cs) -> Forall (fun c => c <= length (popped s))%nat cs ->
  Exists (fun c => length (pushed s) < c + Size)%nat (pseen s :: cs) ->
  exists l q n, Push Size item (cnt <$> cs) (prod s) (queue s) = Some (l, q) /\ n ∈ pseen s :: cs /\
    qsteps s (after_push s l q n [item]) /\
    QTail q = cnt (S (length (pushed s))) /\ QHead q = QHead (queue s) /\
    Buffer q = <[(length (pushed s) mod Size)%nat := item]> (Buffer (queue s)).
Proof.
  revert s. induction cs as [|c cs IH]; intros s HI Hpc Hs Hc Hex; (destruct (is_full Size (prod s)) eqn:Ef;
    [pose proof (full_prod s HI Ef) as Hfull; apply Exists_cons in Hex as [Hex|Hex]; [lia|]|]).
  - by apply Exists_nil in Hex.
  - unfold Push. cbn [fmap list_fmap spin_head]. rewrite Ef.
    pose proof (do_push_steps s item Hpc Ef) as Hp. pose proof (do_push_shared s item HI) as Hsh.
    destruct (do_push Size item (prod s) (queue s)) as [l q]. exists l, q, (pseen s). repeat split; (done || apply Hsh || left).
  - apply Forall_cons in Hc as [Hc0 Hc]. apply StronglySorted_inv in Hs as [Hs Hle]. apply Forall_cons in Hle as [Hle _].
    pose proof (refresh_prod s c Hpc (conj Hle Hc0)) as Hst. pose proof (qinv_step _ _ HI Hst) as HI1.
    set (s1 := after_push s _ _ c []) in Hst, HI1.
    assert (Hpu : pushed s1 = pushed s) by apply app_nil_r.
    destruct (IH s1 HI1 eq_refl Hs Hc) as (l & q & n & E & Hn & Hsteps & Hsh); [by rewrite Hpu|]. rewrite Hpu in Hsh.
    exists l, q, n. split; [|split; [by right|split; [|exact Hsh]]].
    + unfold Push in E |- *. cbn [fmap list_fmap spin_head]. rewrite Ef. exact E.
    + eapply rtc_l; [exact Hst|]. unfold s1 in Hsteps. by rewrite after_push_push in Hsteps.
  - unfold Push. cbn [fmap list_fmap spin_head]. rewrite Ef.
    pose proof (do_push_steps s item Hpc Ef) as Hp. pose proof (do_push_shared s item HI) as Hsh.
    destruct (do_push Size item (prod s) (queue s)) as [l q]. exists l, q, (pseen s). repeat split; (done || apply Hsh || left).
Qed.

(** C39: [Push] stores its item and returns once a load of [Head] shows room.  Let
    [s] be the state at the last load and [cs] what the loads return: counts of
    pops that never decrease and may lag behind the pops that happened.  If one of
    them leaves fewer than [Size] items in flight, the call returns; it is a run of
    the producer's steps that appends the item, and exactly that, to what was
    pushed: the item is in the slot after the last one, [Tail] counts it and
    [Head] is not touched. *)
Theorem Push_returns s item cs :
  qreach T0 Size s -> ppc s = PIdle ->
  StronglySorted le (pseen s :: cs) -> Forall (fun c => c <= length (popped s))%nat cs ->
  Exists (fun c => length (pushed s) < c + Size)%nat cs ->
  exists l q n, Push Size item (cnt <$> cs) (prod s) (queue s) = Some (l, q) /\
    qsteps s (after_push s l q n [item]) /\
    QTail q = cnt (S (length (pushed s))) /\ QHead q = QHead (queue s) /\
    Buffer q = <[(length (pushed s) mod Size)%nat := item]> (Buffer (queue s)).
Proof.
  intros HR Hpc Hs Hc Hex.
  destruct (Push_steps cs s item (qreach_inv s HR) Hpc Hs Hc) as (l & q & n & E & _ & H); [by right|]. by exists l, q, n.
Qed.

End Proofs.

(** ** Concrete runs *)

Section Examples.

(** A queue of two slots in which 7 and 8 were pushed and 7 was received. *)
Definition ex_q : SpscQueue := MkQueue 1 2 [7; 8].
Definition ex_state : QState := MkQState ex_q (MkLocal 0 2) PIdle 0 (MkLocal 1 1) CIdle 1 [7; 8] [7].

Lemma ex_state_reach : qreach 0 2 ex_state.
Proof.
  eapply qreach_step; [|apply (p_publish 0 2 (MkQueue 1 1 [7; 8]) (MkLocal 0 1) 0 (MkLocal 1 1) CIdle 1 [7] [7] 8)].
  eapply qreach_step; [|apply (p_write 0 2 (MkQueue 1 1 [7; 0]) (MkLocal 0 1) 0 (MkLocal 1 1) CIdle 1 [7] [7] 8); reflexivity].
  eapply qreach_step; [|apply (c_publish 0 2 (MkQueue 0 1 [7; 0]) (MkLocal 0 1) PIdle 0 (MkLocal 0 1) 1 [7] [] 7)].
  eapply qreach_step; [|apply (c_read 0 2 (MkQueue 0 1 [7; 0]) (MkLocal 0 1) PIdle 0 (MkLocal 0 1) 1 [7] []); reflexivity].
  eapply qreach_step; [|apply (c_refresh 0 2 (MkQueue 0 1 [7; 0]) (MkLocal 0 1) PIdle 0 (MkLocal 0 0) 0 [7] [] 1); simpl; lia].
  eapply qreach_step; [|apply (p_publish 0 2 (MkQueue 0 0 [7; 0]) (MkLocal 0 0) 0 (MkLocal 0 0) CIdle 0 [] [] 7)].
  eapply qreach_step; [|apply (p_write 0 2 (MkQueue 0 0 [0; 0]) (MkLocal 0 0) 0 (MkLocal 0 0) CIdle 0 [] [] 7); reflexivity].
  exact (qreach_init 0 2).
Qed.

(** The same queue when the producer has refreshed its view and written 9 into
    the slot it found free, and the consumer has seen both pushes. *)
Definition ex_race : QState :=
  MkQState (MkQueue 1 2 [9; 8]) (MkLocal 1 2) (PWrote 9) 1 (MkLocal 1 2) CIdle 2 [7; 8] [7].

Lemma ex_race_reach : qreach 0 2 ex_race.
Proof.
  eapply qreach_step; [|apply (p_write 0 2 ex_q (MkLocal 1 2) 1 (MkLocal 1 2) CIdle 2 [7; 8] [7] 9); reflexivity].
  eapply qreach_step; [|apply (p_refresh 0 2 ex_q (MkLocal 0 2) 0 (MkLocal 1 2) CIdle 2 [7; 8] [7] 1); simpl; lia].
  eapply qreach_step; [|apply (c_refresh 0 2 ex_q (MkLocal 0 2) PIdle 0 (MkLocal 1 1) 1 [7; 8] [7] 2); simpl; lia].
  exact ex_state_reach.
Qed.

Lemma spsc_fifo_witness :
  exists rest, pushed ex_state = popped ex_state ++ rest /\ (length rest <= 2)%nat.
Proof. apply (spsc_fifo 0 2 1); [reflexivity|lia|exact ex_state_reach]. Defined.

Lemma spsc_no_race_witness :
  slot 2 (LocalTail (prod ex_race)) <> slot 2 (LocalHead (cons ex_race)).
Proof.
  apply (spsc_no_race 0 2 1); [reflexivity|lia|exact ex_race_reach| |reflexivity].
  right. exists 9. reflexivity.
Defined.

Lemma TryPush_correct_witness :
  let '(r, l, q) := TryPush 2 9 (cnt 1) (prod ex_state) (queue ex_state) in
  exists n, rtc (qstep 0 2) ex_state (after_push ex_state l q n (if r then [9] else [])) /\
            (r = false -> length (pushed ex_state) = (1 + 2)%nat).
Proof.
  apply (TryPush_correct 0 2 1); [reflexivity|lia|exact ex_state_reach|reflexivity|simpl; lia].
Defined.

Lemma TryPop_correct_witness :
  let '(r, l, q) := TryPop 0 2 (cnt 2) (cons ex_state) (queue ex_state) in
  exists m, rtc (qstep 0 2) ex_state (after_pop ex_state l q m (option_list r)) /\
    match r with
    | Some x => pushed ex_state !! length (popped ex_state) = Some x
    | None => length (popped ex_state) = 2%nat
    end.
Proof.
  apply (TryPop_correct 0 2 1); [reflexivity|lia|exact ex_state_reach|reflexivity|simpl; lia].
Defined.

Lemma Push_returns_witness :
  exists l q n, Push 2 9 [0; 0; 1] (prod ex_state) (queue ex_state) = Some (l, q) /\
    rtc (qstep 0 2) ex_state (after_push ex_state l q n [9]) /\ QTail q = 3 /\ QHead q = 1 /\ Buffer q = [9; 8].
Proof.
  apply (Push_returns 0 2 1 eq_refl ltac:(lia) ex_state 9 [0; 0; 1]%nat);
    [exact ex_state_reach|reflexivity|repeat constructor|cbn; repeat constructor|].
  do 2 right. left. cbn. lia.
Defined.

End Examples.
