(* ===== verification/StoragePool.v ===== *)
(** [StoragePool] (src/market_server/common/include/storage_pool.hpp): a pool of
    objects one thread acquires and another releases.  Its free list is an
    [SpscQueue] of pointers whose consumer is the acquiring thread and whose
    producer the releasing one; the acquiring thread may also put an object
    back into a private stack.  A [T*] is the index of the object in [Storage].

    Main result: through any sequence of calls the objects in the free list, in
    the private stack and in use are all the objects, each exactly once, and a
    release of an object in use is never refused. *)

From S2P Require Import Prelude SpscQueue.

Section StoragePool.
Context (Size : nat).

Record StoragePool := MkPool {
  Free : SpscQueue (T := nat);
  Consumer : Local;
  Producer : Local;
  LocalReuseBuffer : list (option nat);   (* std::array<T *, Size> *)
  LocalReuseSize : nat
}.

(** The loop of the constructor; [None] is the exception it throws. *)
Fixpoint populate (n : nat) (p : StoragePool) : option StoragePool :=
  match n with
  | O => Some p
  | S i =>
      match populate i p with
      | None => None
      | Some p =>
          match TryPush Size i (QHead (Free p)) (Producer p) (Free p) with
          | (true, l, q) =>
              Some (MkPool q (Consumer p) l (<[i := None]> (LocalReuseBuffer p)) (LocalReuseSize p))
          | (false, _, _) => None
          end
      end
  end.

Definition storage_init : option StoragePool :=
  let q := queue_init 0%nat Size in
  if (Size =? 0)%nat then None
  else populate Size (MkPool q (attach q) (attach q) (replicate Size None) 0).

(** [tail] and [head] are the values the atomic loads return. *)
Definition Acquire (tail : Z) (p : StoragePool) : option nat * StoragePool :=
  match LocalReuseSize p with
  | S n => (mjoin (LocalReuseBuffer p !! n),
            MkPool (Free p) (Consumer p) (Producer p) (LocalReuseBuffer p) n)
  | O =>
      let '(res, l, q) := TryPop 0%nat Size tail (Consumer p) (Free p) in
      (res, MkPool q l (Producer p) (LocalReuseBuffer p) (LocalReuseSize p))
  end.

Definition LocalRelease (element : nat) (p : StoragePool) : bool * StoragePool :=
  let released := (LocalReuseSize p <? Size)%nat in
  (released,
   if released then
     MkPool (Free p) (Consumer p) (Producer p)
       (<[LocalReuseSize p := Some element]> (LocalReuseBuffer p)) (S (LocalReuseSize p))
   else p).

Definition GetAvailable (head tail : Z) (p : StoragePool) : bool :=
  (0 <? LocalReuseSize p)%nat || negb (GetSize head tail =? 0).

Definition Release (head : Z) (element : option nat) (p : StoragePool) : bool * StoragePool :=
  match element with
  | None => (false, p)
  | Some e =>
      let '(r, l, q) := TryPush Size e head (Producer p) (Free p) in
      (r, MkPool q (Consumer p) l (LocalReuseBuffer p) (LocalReuseSize p))
  end.

Definition ReleaseCritical (head : Z) (element : option nat) (p : StoragePool) : result StoragePool :=
  match Release head element p with
  | (true, p) => Ret p
  | (false, _) => Crash Terminate
  end.

(** ** Use of a pool *)

(** The queue part of a pool, as a state of the queue's threads between calls. *)
Definition pool_queue (p : StoragePool) (n m : nat) (ps qs : list nat) : QState :=
  MkQState (Free p) (Producer p) PIdle n (Consumer p) CIdle m ps qs.

(** [ps] and [qs] are the histories of the free list, [held] the objects in use. *)
Record pool_ok (p : StoragePool) (n m : nat) (ps qs held : list nat) : Prop := {
  po_queue : qreach 0%nat Size (pool_queue p n m ps qs);
  po_len : length (LocalReuseBuffer p) = Size;
  po_size : (LocalReuseSize p <= Size)%nat;
  po_part : exists rest reuse,
      ps = qs ++ rest /\ take (LocalReuseSize p) (LocalReuseBuffer p) = Some <$> reuse /\
      rest ++ reuse ++ held ≡ₚ seq 0 Size
}.

(** Calls of the two threads on the objects they own, [held] being the objects in
    use; here a load returns the current value of the index. *)
Inductive pool_call : StoragePool * list nat -> StoragePool * list nat -> Prop :=
| call_acquire p held x p' :
    Acquire (QTail (Free p)) p = (Some x, p') -> pool_call (p, held) (p', x :: held)
| call_acquire_null p held p' :
    Acquire (QTail (Free p)) p = (None, p') -> pool_call (p, held) (p', held)
| call_local_release p h1 x h2 r p' :
    LocalRelease x p = (r, p') -> pool_call (p, h1 ++ x :: h2) (p', h1 ++ h2)
| call_release p h1 x h2 r p' :
    Release (QHead (Free p)) (Some x) p = (r, p') -> pool_call (p, h1 ++ x :: h2) (p', h1 ++ h2).

Definition pool_objects (s : StoragePool * list nat) (free reuse : list nat) : Prop :=
  exists n m qs, pool_ok s.1 n m (qs ++ free) qs s.2 /\
    take (LocalReuseSize s.1) (LocalReuseBuffer s.1) = Some <$> reuse /\
    free ++ reuse ++ s.2 ≡ₚ seq 0 Size.

End StoragePool.

Section Proofs.
Context (Size k : nat) (HSize : Size = (2 ^ k)%nat) (Hk : (k <= 62)%nat).

Lemma qreach_rtc s s' : qreach 0%nat Size s -> rtc (qstep 0%nat Size) s s' -> qreach 0%nat Size s'.
Proof. intros HR Hs. induction Hs; [done|]. eauto using qreach_step. Qed.

Lemma populate_ok n :
  (n <= Size)%nat ->
  let q := queue_init 0%nat Size in
  exists p, populate Size n (MkPool q (attach q) (attach q) (replicate Size None) 0) = Some p /\
    qreach 0%nat Size (pool_queue p 0 0 (seq 0 n) []) /\ QHead (Free p) = 0 /\
    length (LocalReuseBuffer p) = Size /\ LocalReuseSize p = 0%nat.
Proof.
  intros Hn q. induction n as [|n IH].
  { eexists. split; [done|]. split_and!; try done; [apply qreach_init|apply length_replicate]. }
  destruct IH as (p & HP & HR & HH & HL & HZ); [lia|]. cbn [populate]. rewrite HP.
  pose proof (TryPush_steps 0%nat Size k HSize Hk _ n 0 (qreach_inv 0%nat Size k HSize Hk _ HR) eq_refl) as HT.
  simpl in HT. rewrite HH. change (cnt 0) with 0 in HT.
  destruct (TryPush Size n 0 (Producer p) (Free p)) as [[r l] q1].
  destruct HT as (n1 & Hs & Hf & _); [lia|]. destruct r; [|rewrite length_seq in Hf; specialize (Hf eq_refl); lia].
  pose proof (qreach_rtc _ _ HR Hs) as HR1. unfold after_push in HR1. simpl in HR1.
  eexists. split; [done|]. cbn [Free LocalReuseBuffer LocalReuseSize]. 
  pose proof (qreach_inv 0%nat Size k HSize Hk _ HR1) as HI.
  assert (n1 = 0%nat) as -> by (pose proof (qi_pseen _ _ HI) as Hx; simpl in Hx; lia).
  split_and!; try done.
  - rewrite seq_S. exact HR1.
  - exact (qi_head _ _ HI).
  - by rewrite length_insert.
Qed.

Lemma storage_init_ok :
  exists p, storage_init Size = Some p /\ pool_ok Size p 0 0 (seq 0 Size) [] [].
Proof.
  pose proof (queue_size_pos Size k HSize) as Hp. unfold storage_init.
  destruct (Nat.eqb_spec Size 0); [lia|].
  destruct (populate_ok Size (Nat.le_refl _)) as (p & HP & HR & _ & HL & HZ).
  exists p. split; [done|]. split; try done; [lia|]. exists (seq 0 Size), [].
  rewrite HZ, take_0. split_and!; try done. by rewrite !app_nil_r.
Qed.

Lemma Acquire_ok p n m ps qs held c :
  pool_ok Size p n m ps qs held -> (m <= c <= length ps)%nat ->
  let '(r, p') := Acquire Size (cnt c) p in
  exists m' qs' held', pool_ok Size p' n m' ps qs' held' /\
    match r with
    | Some x => held' = x :: held
    | None => held' = held /\ qs' = qs /\ LocalReuseSize p = 0%nat /\ length qs = c
    end.
Proof.
  intros [HR HL HZ (rest & reuse & Hps & Hre & Hpart)] Hc. unfold Acquire.
  destruct (LocalReuseSize p) as [|z] eqn:Ez.
  - pose proof (TryPop_steps 0%nat Size k HSize Hk _ c (qreach_inv 0%nat Size k HSize Hk _ HR) eq_refl Hc) as HT.
    simpl in HT. destruct (TryPop 0%nat Size (cnt c) (Consumer p) (Free p)) as [[r l] q].
    destruct HT as (m' & Hs & Hr & _). pose proof (qreach_rtc _ _ HR Hs) as HR1. unfold after_pop in HR1. simpl in HR1.
    destruct r as [x|]; simpl in HR1.
    + exists m', (qs ++ [x]), (x :: held). split; [|done]. split; try done; try (simpl; lia).
      subst ps. rewrite lookup_app_r, Nat.sub_diag in Hr by lia.
      destruct rest as [|y rest]; simpl in Hr; [done|]. injection Hr as ->.
      exists rest, reuse. split; [by rewrite <- app_assoc|]. split; [done|].
      rewrite <- Hpart. simpl. rewrite !app_assoc. by rewrite <- Permutation_middle.
    + exists m', qs, held. rewrite app_nil_r in HR1. split; [|done]. split; try done; try (simpl; lia).
      by exists rest, reuse.
  - assert (Hz : (z < length (LocalReuseBuffer p))%nat) by lia.
    destruct (lookup_lt_is_Some_2 _ _ Hz) as [w Hw]. rewrite (take_S_r _ _ _ Hw) in Hre.
    destruct reuse as [|x reuse _] using rev_ind.
    { simpl in Hre. by destruct (take z (LocalReuseBuffer p)). }
    rewrite fmap_app in Hre. simpl in Hre. apply app_inj_2 in Hre as [Hre [= ->]]; [|done].
    rewrite Hw. simpl. exists m, qs, (x :: held). split; [|done]. split; try done; try (simpl; lia).
    exists rest, reuse. split_and!; try done. rewrite <- Hpart, <- app_assoc. done.
Qed.

Lemma LocalRelease_ok p n m ps qs h1 x h2 :
  pool_ok Size p n m ps qs (h1 ++ x :: h2) ->
  exists p', LocalRelease Size x p = (true, p') /\ pool_ok Size p' n m ps qs (h1 ++ h2).
Proof.
  intros [HR HL HZ (rest & reuse & Hps & Hre & Hpart)]. unfold LocalRelease.
  assert (Hlen : length reuse = LocalReuseSize p).
  { apply (f_equal length) in Hre. rewrite length_fmap, length_take in Hre. lia. }
  assert (Hlt : (LocalReuseSize p < Size)%nat).
  { apply Permutation_length in Hpart. rewrite !length_app, length_seq in Hpart. simpl in Hpart. lia. }
  destruct (Nat.ltb_spec (LocalReuseSize p) Size); [|lia]. eexists. split; [done|].
  split; simpl; try done; [by rewrite length_insert|].
  exists rest, (reuse ++ [x]). split; [done|]. split.
  - rewrite (take_S_r _ _ (Some x)) by (apply list_lookup_insert_eq; lia).
    rewrite take_insert_ge by lia. by rewrite Hre, fmap_app.
  - rewrite <- Hpart. apply Permutation_app_head. rewrite <- app_assoc. apply Permutation_app_head. simpl.
    by rewrite Permutation_middle.
Qed.

(** The releasing thread got the object from the acquiring one after its pop, and
    so it observes more pops than there have been releases. *)
Lemma Release_ok p n m ps qs h1 x h2 c :
  pool_ok Size p n m ps qs (h1 ++ x :: h2) ->
  (n <= c <= length qs)%nat -> (length ps < c + Size)%nat ->
  exists p' n', Release Size (cnt c) (Some x) p = (true, p') /\
    pool_ok Size p' n' m (ps ++ [x]) qs (h1 ++ h2).
Proof.
  intros [HR HL HZ (rest & reuse & Hps & Hre & Hpart)] Hc Hlt. unfold Release.
  pose proof (TryPush_steps 0%nat Size k HSize Hk _ x c (qreach_inv 0%nat Size k HSize Hk _ HR) eq_refl Hc) as HT.
  simpl in HT. destruct (TryPush Size x (cnt c) (Producer p) (Free p)) as [[r l] q].
  destruct HT as (n' & Hs & Hr & _). destruct r; [|specialize (Hr eq_refl); lia].
  pose proof (qreach_rtc _ _ HR Hs) as HR1. unfold after_push in HR1. simpl in HR1.
  eexists _, n'. split; [done|]. split; simpl; try done.
  exists (rest ++ [x]), reuse. split; [by rewrite Hps, app_assoc|]. split; [done|].
  rewrite <- Hpart. solve_Permutation.
Qed.

Lemma pool_ok_objects p n m ps qs held :
  pool_ok Size p n m ps qs held -> exists free reuse, pool_objects Size (p, held) free reuse.
Proof.
  intros HO. pose proof HO as [_ _ _ (rest & reuse & -> & H1 & H2)]. exists rest, reuse, n, m, qs. done.
Qed.

Lemma pool_call_inv s s' :
  (exists free reuse, pool_objects Size s free reuse) -> pool_call Size s s' ->
  exists free reuse, pool_objects Size s' free reuse.
Proof.
  intros (free & reuse & n & m & qs & HO & Hre & Hpart) Hc.
  assert (Hhead : QHead (Free s.1) = cnt (length qs))
    by exact (qi_head _ _ (qreach_inv 0%nat Size k HSize Hk _ (po_queue _ _ _ _ _ _ _ HO))).
  assert (Htail : QTail (Free s.1) = cnt (length (qs ++ free)))
    by exact (qi_tail _ _ (qreach_inv 0%nat Size k HSize Hk _ (po_queue _ _ _ _ _ _ _ HO))).
  assert (Hcs := qi_cseen _ _ (qreach_inv 0%nat Size k HSize Hk _ (po_queue _ _ _ _ _ _ _ HO))).
  assert (Hps := qi_pseen _ _ (qreach_inv 0%nat Size k HSize Hk _ (po_queue _ _ _ _ _ _ _ HO))).
  simpl in Hcs, Hps.
  destruct Hc as [p held x p' HA|p held p' HA|p h1 x h2 r p' HL|p h1 x h2 r p' HR]; cbn [fst snd] in *.
  - pose proof (Acquire_ok p n m _ qs held (length (qs ++ free)) HO ltac:(lia)) as H.
    rewrite <- Htail, HA in H. destruct H as (m' & qs' & held' & HO' & ->). by eapply pool_ok_objects.
  - pose proof (Acquire_ok p n m _ qs held (length (qs ++ free)) HO ltac:(lia)) as H.
    rewrite <- Htail, HA in H. destruct H as (m' & qs' & held' & HO' & -> & _). by eapply pool_ok_objects.
  - destruct (LocalRelease_ok p n m _ qs h1 x h2 HO) as (p'' & HL' & HO'). rewrite HL in HL'.
    injection HL' as _ ->. by eapply pool_ok_objects.
  - destruct (Release_ok p n m _ qs h1 x h2 (length qs) HO) as (p'' & n' & HR' & HO').
    { lia. }
    { apply Permutation_length in Hpart. rewrite !length_app, length_seq in *. simpl in *. lia. }
    rewrite <- Hhead, HR in HR'. injection HR' as _ ->. by eapply pool_ok_objects.
Qed.

(** C15: from the constructor, through any sequence of calls on owned objects,
    the free list, the private stack and the objects in use partition the
    storage: no object is handed out twice and none is lost. *)
Theorem storage_pool_partition p0 s :
  storage_init Size = Some p0 -> rtc (pool_call Size) (p0, []) s ->
  exists free reuse, pool_objects Size s free reuse.
Proof.
  intros H0 Hs. destruct storage_init_ok as (p & Hp & HO). rewrite H0 in Hp. injection Hp as <-.
  apply pool_ok_objects in HO. remember (p0, []) as s0 eqn:E. clear E H0.
  induction Hs as [|s0 s1 s2 Hc _ IH]; [done|]. apply IH. by eapply pool_call_inv.
Qed.

(** Releasing an object in use always succeeds, so [ReleaseCritical] never
    terminates the process on one. *)
Theorem release_held_object_succeeds p0 p h1 x h2 :
  storage_init Size = Some p0 -> rtc (pool_call Size) (p0, []) (p, h1 ++ x :: h2) ->
  exists p', ReleaseCritical Size (QHead (Free p)) (Some x) p = Ret p'.
Proof.
  intros H0 Hs. destruct storage_init_ok as (p1 & Hp & HO). rewrite H0 in Hp. injection Hp as <-.
  assert (Hinv : exists free reuse, pool_objects Size (p, h1 ++ x :: h2) free reuse).
  { apply pool_ok_objects in HO. remember (p0, []) as s0 eqn:E. clear E H0.
    induction Hs as [|s0 s1 s2 Hc _ IH]; [done|]. apply IH. by eapply pool_call_inv. }
  destruct Hinv as (free & reuse & n & m & qs & HO' & _ & Hpart). cbn [fst snd] in *.
  assert (HI := qreach_inv 0%nat Size k HSize Hk _ (po_queue _ _ _ _ _ _ _ HO')).
  assert (Hps := qi_pseen _ _ HI). pose proof (qi_head _ _ HI) as Hh. simpl in Hps, Hh.
  destruct (Release_ok p n m _ qs h1 x h2 (length qs) HO') as (p' & n' & HR & _); [lia| |].
  { apply Permutation_length in Hpart. rewrite !length_app, length_seq in *. simpl in *. lia. }
  exists p'. unfold ReleaseCritical. rewrite Hh, HR. done.
Qed.

End Proofs.

(** ** Concrete runs *)

Section Examples.

Definition ex_pool0 : StoragePool :=
  MkPool (MkQueue 0 2 [0; 1]%nat) (MkLocal 0 0) (MkLocal 0 2) [None; None] 0.
Definition ex_pool1 : StoragePool :=
  MkPool (MkQueue 1 2 [0; 1]%nat) (MkLocal 1 2) (MkLocal 0 2) [None; None] 0.
Definition ex_pool2 : StoragePool :=
  MkPool (MkQueue 2 2 [0; 1]%nat) (MkLocal 2 2) (MkLocal 0 2) [None; None] 0.
Definition ex_pool3 : StoragePool :=
  MkPool (MkQueue 2 2 [0; 1]%nat) (MkLocal 2 2) (MkLocal 0 2) [Some 0%nat; None] 1.

(** Two objects acquired, the first put back privately. *)
Lemma ex_pool_run : rtc (pool_call 2) (ex_pool0, []) (ex_pool3, [1%nat]).
Proof.
  eapply rtc_l; [apply (call_acquire 2 ex_pool0 [] 0 ex_pool1); reflexivity|].
  eapply rtc_l; [apply (call_acquire 2 ex_pool1 [0%nat] 1 ex_pool2); reflexivity|].
  eapply rtc_l; [apply (call_local_release 2 ex_pool2 [1%nat] 0 [] true ex_pool3); reflexivity|].
  apply rtc_refl.
Qed.

Lemma storage_pool_partition_witness :
  exists free reuse, pool_objects 2 (ex_pool3, [1%nat]) free reuse.
Proof.
  apply (storage_pool_partition 2 1 eq_refl ltac:(lia) ex_pool0); [reflexivity|exact ex_pool_run].
Defined.

Lemma release_held_object_succeeds_witness :
  exists p', ReleaseCritical 2 (QHead (Free ex_pool3)) (Some 1%nat) ex_pool3 = Ret p'.
Proof.
  apply (release_held_object_succeeds 2 1 eq_refl ltac:(lia) ex_pool0 ex_pool3 [] 1 []);
    [reflexivity|exact ex_pool_run].
Defined.

End Examples.
