(* ===== verification/Consumer.v ===== *)
(** [Consumer] (src/market_server/common/include/consumer.hpp): the base of the
    components that pop pointers from an [SpscQueue], handle them one by one or
    in batches, and release them to the [StoragePool] they come from.

    [Handle] is the derived class' handler, a parameter over its own state [S];
    a batch is the prefix of the array [Buffer] that was filled.  Atomic loads
    return the current value of the index, i.e. a call runs between the steps of
    the producer.

    Main result: a batched call handles the oldest pending objects, each once and
    in order, gives each back to the pool, and never terminates the process. *)

From S2P Require Import Prelude SpscQueue StoragePool.

Section Consumer.
Context {S : Type} (QueueSize PoolSize BatchSize : nat) (Handle : list nat -> S -> S).
Abbreviation Queue := (SpscQueue (T := nat)).

Definition FreeElement (element : nat) (p : StoragePool) : bool * StoragePool :=
  Release PoolSize (QHead (Free p)) (Some element) p.

(** The loop that releases the batch. *)
Fixpoint free_all (batch : list nat) (p : StoragePool) : result StoragePool :=
  match batch with
  | [] => Ret p
  | x :: batch =>
      match FreeElement x p with
      | (true, p) => free_all batch p
      | (false, _) => Crash Terminate
      end
  end.

(** [while (curSize < BatchSize && Incoming.TryPop(curElement))] *)
Fixpoint try_fill (n : nat) (l : Local) (q : Queue) : list nat * Local * Queue :=
  match n with
  | O => ([], l, q)
  | Datatypes.S n =>
      match TryPop 0%nat QueueSize (QTail q) l q with
      | (Some x, l, q) => let '(xs, l, q) := try_fill n l q in (x :: xs, l, q)
      | (None, l, q) => ([], l, q)
      end
  end.

(** [while (curSize < BatchSize) Incoming.Pop(curElement);]  A pop that finds the
    queue empty waits for the producer. *)
Fixpoint pop_fill (n : nat) (l : Local) (q : Queue) : result (list nat * Local * Queue) :=
  match n with
  | O => Ret ([], l, q)
  | Datatypes.S n =>
      match Pop 0%nat QueueSize [QTail q] l q with
      | Some (x, l, q) => '(xs, l, q) ← pop_fill n l q; Ret (x :: xs, l, q)
      | None => Crash Blocked
      end
  end.

(** The loop of [ConsumeTimed]: stops at the first pop that times out. *)
Fixpoint timed_fill (n : nat) (l : Local) (q : Queue) : list nat * Local * Queue :=
  match n with
  | O => ([], l, q)
  | Datatypes.S n =>
      match TimedPop 0%nat QueueSize [QTail q] l q with
      | (Some x, l, q) => let '(xs, l, q) := timed_fill n l q in (x :: xs, l, q)
      | (None, l, q) => ([], l, q)
      end
  end.

(** [BatchSize > 0] *)
Definition TryConsume_batch (l : Local) (q : Queue) (p : StoragePool) (st : S)
    : result (Local * Queue * StoragePool * S) :=
  let '(batch, l, q) := try_fill BatchSize l q in
  if (length batch =? 0)%nat then Ret (l, q, p, st)
  else
    let st := Handle batch st in
    p ← free_all batch p;
    Ret (l, q, p, st).

(** [BatchSize == 0] *)
Definition TryConsume_one (l : Local) (q : Queue) (p : StoragePool) (st : S)
    : result (Local * Queue * StoragePool * S) :=
  match TryPop 0%nat QueueSize (QTail q) l q with
  | (None, l, q) => Ret (l, q, p, st)
  | (Some x, l, q) =>
      let st := Handle [x] st in
      p ← free_all [x] p;
      Ret (l, q, p, st)
  end.

Definition Consume_batch (l : Local) (q : Queue) (p : StoragePool) (st : S)
    : result (Local * Queue * StoragePool * S) :=
  '(batch, l, q) ← pop_fill BatchSize l q;
  let st := Handle batch st in
  p ← free_all batch p;
  Ret (l, q, p, st).

Definition Consume_one (l : Local) (q : Queue) (p : StoragePool) (st : S)
    : result (Local * Queue * StoragePool * S) :=
  '(batch, l, q) ← pop_fill 1 l q;
  let st := Handle batch st in
  p ← free_all batch p;
  Ret (l, q, p, st).

(** The batched handler is called even when the first pop times out. *)
Definition ConsumeTimed_batch (l : Local) (q : Queue) (p : StoragePool) (st : S)
    : result (Local * Queue * StoragePool * S) :=
  let '(batch, l, q) := timed_fill BatchSize l q in
  let st := Handle batch st in
  p ← free_all batch p;
  Ret (l, q, p, st).

Definition ConsumeTimed_one (l : Local) (q : Queue) (p : StoragePool) (st : S)
    : result (Local * Queue * StoragePool * S) :=
  match TimedPop 0%nat QueueSize [QTail q] l q with
  | (None, l, q) => Ret (l, q, p, st)
  | (Some x, l, q) =>
      let st := Handle [x] st in
      p ← free_all [x] p;
      Ret (l, q, p, st)
  end.

(** ** Correctness *)

Context (kq kp : nat) (HQ : QueueSize = (2 ^ kq)%nat) (Hkq : (kq <= 62)%nat).
Context (HP : PoolSize = (2 ^ kp)%nat) (Hkp : (kp <= 62)%nat).

(** Objects pushed and not received yet. *)
Definition pending (s : QState (T := nat)) : list nat := drop (length (popped s)) (pushed s).

(** A pool in which the objects [held] are in use. *)
Definition pool_holds (p : StoragePool) (held : list nat) : Prop :=
  exists n m ps qs held', pool_ok PoolSize p n m ps qs held' /\ held' ≡ₚ held.

#[export] Instance pool_holds_perm p : Proper ((≡ₚ) ==> iff) (pool_holds p).
Proof. intros h1 h2 Hh. split; intros (n & m & ps & qs & h & HO & HP'); exists n, m, ps, qs, h; (split; [exact HO|]);
  [by rewrite HP', Hh|by rewrite HP', <- Hh]. Qed.

(** Nothing of a new pool is in use. *)
Lemma fresh_pool p : storage_init PoolSize = Some p -> pool_holds p [].
Proof.
  clear HQ Hkq. intros H0. destruct (storage_init_ok PoolSize kp HP Hkp) as (p' & Hp & HO). rewrite H0 in Hp. injection Hp as <-.
  by exists 0%nat, 0%nat, (seq 0 PoolSize), [], [].
Qed.

(** A pool with an object left hands out one that is not in use. *)
Lemma acquire_fresh p held :
  pool_holds p held -> (length held < PoolSize)%nat ->
  exists x p', Acquire PoolSize (QTail (Free p)) p = (Some x, p') /\ pool_holds p' (x :: held) /\ x ∉ held.
Proof.
  clear HQ Hkq. intros (n & m & ps & qs & held' & HO & Hperm) Hlt.
  pose proof (qreach_inv 0%nat PoolSize kp HP Hkp _ (po_queue _ _ _ _ _ _ _ HO)) as HI.
  pose proof (qi_tail _ _ HI) as Ht. pose proof (qi_cseen _ _ HI) as Hcs. simpl in Ht, Hcs.
  pose proof (Acquire_ok PoolSize kp HP Hkp p n m ps qs held' (length ps) HO ltac:(lia)) as HA. rewrite <- Ht in HA.
  destruct (Acquire PoolSize (QTail (Free p)) p) as [r p'] eqn:E. destruct HA as (m' & qs' & h' & HO' & Hr).
  destruct r as [x|].
  - subst h'. exists x, p'. split; [done|]. split; [exists n, m', ps, qs', (x :: held'); split; [done|by rewrite Hperm]|].
    destruct (po_part _ _ _ _ _ _ _ HO') as (rest & reuse & _ & _ & Hp).
    assert (Hnd : NoDup (rest ++ reuse ++ x :: held')) by (rewrite Hp; apply NoDup_seq).
    apply NoDup_app in Hnd as (_ & _ & Hnd). apply NoDup_app in Hnd as (_ & _ & Hnd). apply NoDup_cons in Hnd as [Hx _].
    by rewrite <- Hperm.
  - exfalso. destruct Hr as (_ & _ & Hz & Hl).
    destruct (po_part _ _ _ _ _ _ _ HO) as (rest & reuse & Hps & Hre & Hp).
    apply (f_equal length) in Hps. rewrite length_app in Hps. apply (f_equal length) in Hre.
    rewrite Hz, take_0, length_fmap in Hre. simpl in Hre. apply Permutation_length in Hp, Hperm.
    rewrite !length_app, length_seq in Hp. lia.
Qed.

(** An object put back is free again. *)
Lemma local_release_one x p held :
  pool_holds p (x :: held) -> exists p', LocalRelease PoolSize x p = (true, p') /\ pool_holds p' held.
Proof.
  intros (n & m & ps & qs & held' & HO & Hperm).
  assert (Hin : x ∈ held') by (rewrite Hperm; left). apply list_elem_of_split in Hin as (h1 & h2 & ->).
  destruct (LocalRelease_ok PoolSize kp HP Hkp p n m ps qs h1 x h2 HO) as (p' & HE & HO'). exists p'. split; [done|].
  exists n, m, ps, qs, (h1 ++ h2). split; [done|]. apply (Permutation_cons_inv (a := x)). by rewrite Permutation_middle.
Qed.

Lemma free_one x p held :
  pool_holds p (x :: held) -> exists p', FreeElement x p = (true, p') /\ pool_holds p' held.
Proof.
  intros (n & m & ps & qs & held' & HO & Hperm).
  assert (Hin : x ∈ held') by (rewrite Hperm; left). apply list_elem_of_split in Hin as (h1 & h2 & ->).
  pose proof (po_queue _ _ _ _ _ _ _ HO) as HR. pose proof (qreach_inv 0%nat PoolSize kp HP Hkp _ HR) as HI.
  pose proof (qi_head _ _ HI) as Hh. pose proof (qi_pseen _ _ HI) as Hps. simpl in Hh, Hps.
  destruct (po_part _ _ _ _ _ _ _ HO) as (rest & reuse & Hps' & _ & Hpart).
  destruct (Release_ok PoolSize kp HP Hkp p n m ps qs h1 x h2 (length qs) HO) as (p' & n' & HE & HO'); [lia| |].
  { apply Permutation_length in Hpart. rewrite Hps', !length_app, length_seq in *. simpl in *. lia. }
  exists p'. unfold FreeElement. rewrite Hh. split; [done|].
  exists n', m, (ps ++ [x]), qs, (h1 ++ h2). split; [done|].
  apply (Permutation_cons_inv (a := x)). by rewrite Permutation_middle.
Qed.

Lemma free_all_ok batch p held :
  pool_holds p (batch ++ held) -> exists p', free_all batch p = Ret p' /\ pool_holds p' held.
Proof.
  revert p. induction batch as [|x batch IH]; intros p Hp; [by exists p|]. simpl in *.
  destruct (free_one _ _ _ Hp) as (p1 & -> & Hp1). by apply IH.
Qed.

Lemma drop_cons_lookup {A} (xs : list A) i x : xs !! i = Some x -> drop i xs = x :: drop (Datatypes.S i) xs.
Proof. intros H. by apply drop_S. Qed.

(** [try_fill] receives the oldest pending objects. *)
Lemma try_fill_ok n s :
  qreach 0%nat QueueSize s -> cpc s = CIdle ->
  let '(batch, l, q) := try_fill n (cons s) (queue s) in
  batch = take n (pending s) /\
  exists s', qreach 0%nat QueueSize s' /\ cpc s' = CIdle /\ cons s' = l /\ queue s' = q /\
             pending s' = drop n (pending s).
Proof.
  revert s. induction n as [|n IH]; intros s HR Hc; simpl.
  { split; [by rewrite take_0|]. exists s. by rewrite drop_0. }
  pose proof (qreach_inv 0%nat QueueSize kq HQ Hkq _ HR) as HI.
  pose proof (qi_cseen _ _ HI) as Hcs.
  pose proof (TryPop_steps 0%nat QueueSize kq HQ Hkq s (length (pushed s)) HI Hc ltac:(lia)) as HT.
  rewrite <- (qi_tail _ _ HI) in HT.
  destruct (TryPop 0%nat QueueSize (QTail (queue s)) (cons s) (queue s)) as [[r l] q].
  destruct HT as (m & Hs & Hr & _). pose proof (qreach_rtc _ _ _ HR Hs) as HR1. destruct r as [x|].
  - specialize (IH _ HR1 eq_refl). simpl in IH. destruct (try_fill n l q) as [[xs l'] q'].
    assert (Hp : pending s = x :: pending (after_pop s l q m [x])).
    { unfold pending. rewrite (drop_cons_lookup _ _ _ Hr). simpl. by rewrite length_app, Nat.add_comm. }
    simpl option_list in IH. rewrite Hp. simpl. destruct IH as (-> & s' & ? & ? & ? & ? & ?). split; [done|].
    exists s'. by split_and!.
  - assert (Hp : pending s = []) by (unfold pending; rewrite Hr; apply drop_all).
    rewrite Hp. split; [done|]. exists (after_pop s l q m []). split_and!; try done.
    unfold pending. simpl. by rewrite app_nil_r, Hr, drop_all.
Qed.

(** In a pipeline where every object in the queue is in use, a batched
    [TryConsume] returns: it handles the [BatchSize] oldest pending objects, once
    and in order (or does nothing if none is pending), removes exactly these from
    the queue and gives each back to the pool. *)
Theorem consumer_handles_and_releases s p others st :
  qreach 0%nat QueueSize s -> cpc s = CIdle -> (0 < BatchSize)%nat ->
  pool_holds p (pending s ++ others) ->
  let batch := take BatchSize (pending s) in
  exists l q p',
    TryConsume_batch (cons s) (queue s) p st
      = Ret (l, q, p', if decide (batch = []) then st else Handle batch st) /\
    pool_holds p' (drop BatchSize (pending s) ++ others) /\
    exists s', qreach 0%nat QueueSize s' /\ cons s' = l /\ queue s' = q /\
               pending s' = drop BatchSize (pending s).
Proof.
  intros HR Hc Hb Hp batch. unfold TryConsume_batch. pose proof (try_fill_ok BatchSize s HR Hc) as HT.
  destruct (try_fill BatchSize (cons s) (queue s)) as [[b l] q]. destruct HT as (-> & s' & HR' & _ & Hl & Hq & Hpe).
  fold batch. rewrite <- (take_drop BatchSize (pending s)), <- app_assoc in Hp. fold batch in Hp.
  destruct (Nat.eqb_spec (length batch) 0) as [H0|H0].
  - apply length_zero_iff_nil in H0. rewrite decide_True by done.
    exists l, q, p. split; [done|]. rewrite H0 in Hp. split; [done|]. by exists s'.
  - rewrite decide_False by (intros E; by rewrite E in H0).
    destruct (free_all_ok _ _ _ Hp) as (p' & -> & Hp'). exists l, q, p'. split; [done|]. split; [done|].
    by exists s'.
Qed.

End Consumer.

(** ** A concrete run *)

Definition ex_pending : QState (T := nat) :=
  MkQState (MkQueue 0 1 [0; 0]%nat) (MkLocal 0 1) PIdle 0 (MkLocal 0 0) CIdle 0 [0%nat] [].

Lemma ex_pending_reach : qreach 0%nat 2 ex_pending.
Proof.
  eapply qreach_step; [|apply (p_publish 0%nat 2 (MkQueue 0 0 [0; 0]%nat) (MkLocal 0 0) 0 (MkLocal 0 0) CIdle 0 [] [] 0%nat)].
  eapply qreach_step; [|apply (p_write 0%nat 2 (MkQueue 0 0 [0; 0]%nat) (MkLocal 0 0) 0 (MkLocal 0 0) CIdle 0 [] [] 0%nat); reflexivity].
  exact (qreach_init 0%nat 2).
Qed.

Lemma ex_pool1_holds : pool_holds 2 ex_pool1 [0%nat].
Proof.
  destruct (storage_init_ok 2 1 eq_refl ltac:(lia)) as (p & Hp & HO). vm_compute in Hp. injection Hp as <-.
  pose proof (Acquire_ok 2 1 eq_refl ltac:(lia) _ _ _ _ _ _ 2 HO ltac:(simpl; lia)) as HA.
  vm_compute (Acquire _ _ _) in HA. destruct HA as (m & qs & held & HO' & ->).
  by exists 0%nat, m, [0; 1]%nat, qs, [0%nat].
Qed.

Lemma consumer_handles_and_releases_witness :
  exists l q p',
    TryConsume_batch 2 2 4 (fun xs st => st ++ xs) (cons ex_pending) (queue ex_pending) ex_pool1 []
      = Ret (l, q, p', [0%nat]) /\
    pool_holds 2 p' [] /\
    exists s', qreach 0%nat 2 s' /\ cons s' = l /\ queue s' = q /\ pending s' = [].
Proof.
  apply (consumer_handles_and_releases 2 2 4 (fun xs st => st ++ xs) 1 1 eq_refl ltac:(lia) eq_refl ltac:(lia)
    ex_pending ex_pool1 [] []); [exact ex_pending_reach|reflexivity|lia|exact ex_pool1_holds].
Defined.
