(* ===== verification/Buffers.v ===== *)
(** The small buffers of src/market_server/common/include:
    [SequenceRingBuffer] (sequence_ring_buffer.hpp), [VersionedFd]
    (versioned_fd.hpp), [BytesBuffer] (bytes_buffer.hpp), [ObjectBuffer]
    (object_buffer.hpp) and [ObjectBatch] (object_batch.hpp).

    Main results: the ring keeps the newest [Size] sequence numbers whatever the
    order of arrival; a versioned descriptor packs and unpacks, and two loads
    separated by fewer than 2^32 switches differ; an [ObjectBuffer] is a byte
    stream, so that an object that arrives in pieces is read back whole; a
    [BytesBuffer] counts the bytes added to it but does not store them. *)

From S2P Require Import Prelude.

(** ** SequenceRingBuffer *)

Section SequenceRing.
(** [T*] is an index; [SequenceId p] is the field of the object [p] points to. *)
Context (SequenceId : nat -> Z) (Size : nat).

Record SequenceRingBuffer := MkRing {
  RingBuffer : list (option nat);   (* std::array<T *, Size> *)
  RingTail : Z                      (* uint32_t *)
}.

Definition ring_init : SequenceRingBuffer := MkRing (replicate Size None) 0.

Definition ring_idx (sequenceId : Z) : nat := Z.to_nat (Z.land sequenceId (Z.of_nat Size - 1)).

Definition GetSlot (sequenceId : Z) (b : SequenceRingBuffer) : option nat :=
  match mjoin (RingBuffer b !! ring_idx sequenceId) with
  | Some p => if sequenceId =? SequenceId p then Some p else None
  | None => None
  end.

(** [Tail > Size] is a 64-bit comparison, so the difference does not wrap. *)
Definition AddSlot (toAdd : nat) (b : SequenceRingBuffer) : bool * SequenceRingBuffer :=
  let sequenceId := SequenceId toAdd in
  let idx := ring_idx sequenceId in
  if (Z.of_nat Size <? RingTail b) && (sequenceId <? RingTail b - Z.of_nat Size) then (false, b)
  else
    (true,
     MkRing (<[idx := Some toAdd]> (RingBuffer b))
       (if RingTail b <=? sequenceId then u32 (sequenceId + 1) else RingTail b)).

Fixpoint add_all (ps : list nat) (b : SequenceRingBuffer) : list bool * SequenceRingBuffer :=
  match ps with
  | [] => ([], b)
  | p :: ps =>
      let '(r, b) := AddSlot p b in
      let '(rs, b) := add_all ps b in (r :: rs, b)
  end.

End SequenceRing.

Section RingProofs.
Context (SequenceId : nat -> Z) (Size k : nat) (HSize : Size = (2 ^ k)%nat).
Abbreviation idx := (ring_idx Size).
Implicit Type b : SequenceRingBuffer.

Lemma ring_idx_mod z : 0 <= z -> idx z = Z.to_nat (z mod Z.of_nat Size).
Proof.
  intros Hz. unfold ring_idx. rewrite HSize, Nat2Z.inj_pow.
  replace (Z.of_nat 2 ^ Z.of_nat k - 1) with (Z.ones (Z.of_nat k)) by (rewrite Z.ones_equiv; lia).
  by rewrite Z.land_ones by lia.
Qed.

Lemma ring_size_pos : (0 < Size)%nat.
Proof. rewrite HSize. apply Nat.neq_0_lt_0, Nat.pow_nonzero. lia. Qed.

Lemma ring_idx_lt z : 0 <= z -> (idx z < Size)%nat.
Proof.
  intros Hz. rewrite ring_idx_mod by done. pose proof ring_size_pos.
  pose proof (Z.mod_pos_bound z (Z.of_nat Size) ltac:(lia)). lia.
Qed.

(** Two ids closer than [Size] do not collide. *)
Lemma ring_idx_inj x y :
  0 <= x -> 0 <= y -> x < y + Z.of_nat Size -> y < x + Z.of_nat Size -> idx x = idx y -> x = y.
Proof.
  intros Hx Hy H1 H2 He. rewrite !ring_idx_mod in He by done. pose proof ring_size_pos.
  pose proof (Z.mod_pos_bound x (Z.of_nat Size) ltac:(lia)).
  pose proof (Z.mod_pos_bound y (Z.of_nat Size) ltac:(lia)).
  apply Z2Nat.inj in He; [|lia|lia].
  pose proof (Z.div_mod x (Z.of_nat Size) ltac:(lia)) as Ex.
  pose proof (Z.div_mod y (Z.of_nat Size) ltac:(lia)) as Ey. rewrite He in Ex.
  assert (x / Z.of_nat Size = y / Z.of_nat Size) by nia. nia.
Qed.

Definition valid_id (p : nat) : Prop := 0 <= SequenceId p < 2 ^ 32 - 1.

(** What the ring keeps of the object [p] while newer ids stay below
    [SequenceId p + Size]. *)
Record keeps (p : nat) b : Prop := {
  kp_len : length (RingBuffer b) = Size;
  kp_slot : RingBuffer b !! idx (SequenceId p) = Some (Some p);
  kp_tail : SequenceId p < RingTail b <= SequenceId p + Z.of_nat Size
}.

(** The ring before [p] arrives. *)
Definition below (p : nat) b : Prop :=
  length (RingBuffer b) = Size /\ 0 <= RingTail b <= SequenceId p + Z.of_nat Size.

Lemma ring_next z : 0 <= z < 2 ^ 32 - 1 -> u32 (z + 1) = z + 1.
Proof. intros. apply u32_small. lia. Qed.

Lemma AddSlot_below p q b :
  valid_id p -> valid_id q -> SequenceId q < SequenceId p + Z.of_nat Size ->
  below p b -> below p (AddSlot SequenceId Size q b).2.
Proof.
  intros Hp Hq Hlt [Hl Ht]. unfold AddSlot, valid_id, below in *.
  destruct ((_ <? _) && _); simpl; [done|]. rewrite length_insert. split; [done|].
  zcase; [rewrite ring_next by done|]; lia.
Qed.

Lemma AddSlot_new p b :
  valid_id p -> below p b ->
  (AddSlot SequenceId Size p b).1 = true /\ keeps p (AddSlot SequenceId Size p b).2.
Proof.
  intros Hp [Hl Ht]. pose proof ring_size_pos. unfold AddSlot, valid_id in *.
  destruct (Z.ltb_spec (Z.of_nat Size) (RingTail b)); simpl.
  - destruct (Z.ltb_spec (SequenceId p) (RingTail b - Z.of_nat Size)); [lia|]. simpl. split; [done|].
    split; simpl; [by rewrite length_insert| |].
    + apply list_lookup_insert_eq. rewrite Hl. apply ring_idx_lt; lia.
    + zcase; [rewrite ring_next by done|]; lia.
  - split; [done|]. split; simpl; [by rewrite length_insert| |].
    + apply list_lookup_insert_eq. rewrite Hl. apply ring_idx_lt; lia.
    + zcase; [rewrite ring_next by done|]; lia.
Qed.

Lemma AddSlot_keeps p q b :
  valid_id p -> valid_id q -> SequenceId q <> SequenceId p ->
  SequenceId q < SequenceId p + Z.of_nat Size ->
  keeps p b -> keeps p (AddSlot SequenceId Size q b).2.
Proof.
  intros Hp Hq Hne Hlt [Hl Hs Ht]. unfold AddSlot, valid_id in *.
  destruct (Z.ltb_spec (Z.of_nat Size) (RingTail b)) as [Hbig|Hbig]; simpl;
    [destruct (Z.ltb_spec (SequenceId q) (RingTail b - Z.of_nat Size)) as [|Hold]; simpl; [done|]|].
  all: split; simpl; [by rewrite length_insert| |zcase; [rewrite ring_next by done|]; lia].
  all: rewrite list_lookup_insert_ne; [done|]; intros He; apply Hne, ring_idx_inj; (done || lia).
Qed.

Lemma add_all_app ps qs b :
  add_all SequenceId Size (ps ++ qs) b =
  let '(r1, b1) := add_all SequenceId Size ps b in
  let '(r2, b2) := add_all SequenceId Size qs b1 in (r1 ++ r2, b2).
Proof.
  revert b. induction ps as [|p ps IH]; intros b; simpl.
  { by destruct (add_all SequenceId Size qs b). }
  destruct (AddSlot SequenceId Size p b) as [r b']. rewrite IH.
  destruct (add_all SequenceId Size ps b') as [r1 b1]. by destruct (add_all SequenceId Size qs b1).
Qed.

Lemma add_all_ind (P : SequenceRingBuffer -> Prop) ps b :
  P b -> (forall q b, q ∈ ps -> P b -> P (AddSlot SequenceId Size q b).2) ->
  P (add_all SequenceId Size ps b).2.
Proof.
  revert b. induction ps as [|q ps IH]; intros b Hb Hs; simpl; [done|].
  pose proof (Hs q b ltac:(left) Hb) as H1. destruct (AddSlot SequenceId Size q b) as [r b']. simpl in H1.
  specialize (IH b' H1 ltac:(intros; apply Hs; [by right|done])).
  by destruct (add_all SequenceId Size ps b').
Qed.

(** An object is found by its sequence number as long as no number [Size]
    or more above it has arrived, whatever the order of arrival of the others:
    packets that arrive late, out of order or below the window never displace a
    newer one. *)
Theorem ring_keeps_window ps p qs :
  Forall valid_id (ps ++ p :: qs) ->
  Forall (fun q => SequenceId q < SequenceId p + Z.of_nat Size) (ps ++ qs) ->
  Forall (fun q => SequenceId q <> SequenceId p) qs ->
  GetSlot SequenceId Size (SequenceId p)
    (add_all SequenceId Size (ps ++ p :: qs) (ring_init Size)).2 = Some p.
Proof.
  intros Hv Hlt Hne. apply Forall_app in Hv as [Hvp [Hp Hvq]%Forall_cons].
  apply Forall_app in Hlt as [Hlp Hlq]. rewrite Forall_forall in Hvp, Hvq, Hlp, Hlq, Hne.
  rewrite add_all_app.
  assert (HB : below p (add_all SequenceId Size ps (ring_init Size)).2).
  { apply add_all_ind; [|intros; apply AddSlot_below; auto].
    split; [apply length_replicate|]. unfold valid_id in Hp. simpl. lia. }
  destruct (add_all SequenceId Size ps (ring_init Size)) as [r1 b1]. cbn [add_all snd] in *.
  destruct (AddSlot_new p b1 Hp HB) as [_ HK].
  destruct (AddSlot SequenceId Size p b1) as [r2 b2]. simpl in HK.
  assert (HK2 : keeps p (add_all SequenceId Size qs b2).2).
  { apply add_all_ind; [done|]. intros. apply AddSlot_keeps; auto. }
  destruct (add_all SequenceId Size qs b2) as [r3 b3]. simpl in *.
  unfold GetSlot. rewrite (kp_slot _ _ HK2). simpl. by rewrite Z.eqb_refl.
Qed.

End RingProofs.

Lemma ring_keeps_window_witness :
  GetSlot Z.of_nat 4 6 (add_all Z.of_nat 4 ([3; 5] ++ 6 :: [9; 4; 1])%nat (ring_init 4)).2 = Some 6%nat.
Proof.
  apply (ring_keeps_window Z.of_nat 4 2 eq_refl [3; 5]%nat 6%nat [9; 4; 1]%nat);
    unfold valid_id; repeat constructor; simpl; lia.
Defined.

(** ** VersionedFd *)

Definition pack (fd gen : Z) : Z := Z.lor (u64 (Z.shiftl (u32 gen) 32)) (u32 fd).
Definition vfd_default : Z := pack (-1) 0.
Definition vfd_init (fd : Z) : Z := pack fd 0.
Definition SwitchFd (fd : Z) (packed : Z) : Z := pack fd (u32 (Z.shiftr packed 32 + 1)).
Definition Fd (val : Z) : Z := s32 val.
Definition Gen (val : Z) : Z := u32 (Z.shiftr val 32).

Definition in_s32 (z : Z) : Prop := - 2 ^ 31 <= z < 2 ^ 31.

Lemma pack_add fd gen : pack fd gen = u32 gen * 2 ^ 32 + u32 fd.
Proof.
  unfold pack. rewrite u64_small.
  - rewrite Z.shiftl_mul_pow2 by lia. rewrite <- Z.lxor_lor, <- Z.add_nocarry_lxor; try done.
    all: apply Z.bits_inj'; intros i Hi; rewrite Z.land_spec, Z.bits_0.
    all: destruct (Z.ltb_spec i 32); [rewrite Z.mul_pow2_bits_low by lia; done|].
    all: unfold u32 at 2; rewrite (Z.mod_pow2_bits_high fd 32 i) by lia; apply andb_false_r.
  - rewrite Z.shiftl_mul_pow2 by lia. pose proof (u32_range gen). lia.
Qed.

Lemma pack_gen fd gen : Gen (pack fd gen) = u32 gen.
Proof.
  unfold Gen. rewrite pack_add, Z.shiftr_div_pow2 by lia.
  rewrite Z.div_add_l, Z.div_small by (try apply u32_range; lia). rewrite Z.add_0_r. apply u32_idem.
Qed.

Lemma pack_fd fd gen : in_s32 fd -> Fd (pack fd gen) = fd.
Proof.
  intros Hfd. unfold Fd, in_s32 in *. rewrite pack_add. unfold s32, u32.
  rewrite (Z.add_comm _ (fd mod _)), <- Z.add_assoc, (Z.add_comm _ (2 ^ 31)), Z.add_assoc.
  rewrite Z.mod_add by lia. rewrite Zplus_mod_idemp_l, Z.mod_small by lia. lia.
Qed.

Lemma SwitchFd_gen fd v : Gen (SwitchFd fd v) = u32 (Gen v + 1).
Proof.
  unfold SwitchFd. rewrite pack_gen, u32_idem. unfold Gen, u32. by rewrite Zplus_mod_idemp_l.
Qed.

Lemma switches_gen fds v : Gen (foldl (fun v fd => SwitchFd fd v) v fds) = u32 (Gen v + Z.of_nat (length fds)).
Proof.
  revert v. induction fds as [|fd fds IH]; intros v; simpl.
  - rewrite Z.add_0_r. unfold Gen. by rewrite u32_idem.
  - rewrite IH, SwitchFd_gen. unfold u32. rewrite Zplus_mod_idemp_l. f_equal. lia.
Qed.

(** A reader that loaded a descriptor before a switch and compares it with a
    later load notices the switch, even if the same descriptor number came back,
    for up to 2^32 - 1 switches in between; and the descriptor it unpacks is the
    last one stored. *)
Theorem versioned_fd_detects_switch fds fd v :
  Z.of_nat (length fds) < 2 ^ 32 - 1 -> in_s32 fd ->
  let v' := SwitchFd fd (foldl (fun v fd => SwitchFd fd v) v fds) in
  v' <> v /\ Fd v' = fd.
Proof.
  intros Hn Hfd v'. split; [|by apply pack_fd]. intros He. apply (f_equal Gen) in He. unfold v' in He.
  rewrite SwitchFd_gen, switches_gen in He. unfold u32 in He. rewrite Zplus_mod_idemp_l in He.
  assert (0 <= Gen v < 2 ^ 32) by apply u32_range.
  rewrite <- (u32_small (Gen v)) in He at 2 by done. unfold u32 in He.
  pose proof (Z.div_mod (Gen v + Z.of_nat (length fds) + 1) (2 ^ 32) ltac:(lia)).
  pose proof (Z.div_mod (Gen v) (2 ^ 32) ltac:(lia)). rewrite He in *. nia.
Qed.

Lemma versioned_fd_detects_switch_witness :
  let v' := SwitchFd 7 (foldl (fun v fd => SwitchFd fd v) (vfd_init 7) [-1]) in
  v' <> vfd_init 7 /\ Fd v' = 7.
Proof.
  apply (versioned_fd_detects_switch [-1] 7 (vfd_init 7)); [simpl; lia|unfold in_s32; lia].
Defined.

(** ** Memory copies

    [memcpy]/[memmove] into an array at an offset; the callers stay within it. *)

Definition overwrite {A} (off : nat) (data buf : list A) : list A :=
  take off buf ++ data ++ drop (off + length data) buf.

Lemma overwrite_length {A} off (data buf : list A) :
  (off + length data <= length buf)%nat -> length (overwrite off data buf) = length buf.
Proof. intros. unfold overwrite. rewrite !length_app, length_take, length_drop. lia. Qed.

Lemma overwrite_take {A} off (data buf : list A) :
  (off <= length buf)%nat -> take (off + length data) (overwrite off data buf) = take off buf ++ data.
Proof.
  intros. unfold overwrite. rewrite app_assoc, take_app_length'; [done|].
  rewrite length_app, length_take. lia.
Qed.

(** ** ObjectBuffer *)

Section ObjectBuffer.
Context (sizeof_T : nat).

Record ObjectBuffer := MkObjectBuffer {
  OBuffer : list Z;      (* std::array<char, sizeof(T)> *)
  BufferSize : nat
}.

(** The array is not initialised: [mem] is what it holds. *)
Definition objbuf_init (mem : list Z) : ObjectBuffer := MkObjectBuffer mem 0.
Definition clearBuffer (b : ObjectBuffer) : ObjectBuffer := MkObjectBuffer (OBuffer b) 0.

Definition addBytes (data : list Z) (b : ObjectBuffer) : bool * ObjectBuffer :=
  if (sizeof_T <? BufferSize b + length data)%nat then (false, b)
  else (true, MkObjectBuffer (overwrite (BufferSize b) data (OBuffer b)) (BufferSize b + length data)).

(** The caller checks the size; past it the memory moves leave the array. *)
Definition readBytes (size : nat) (b : ObjectBuffer) : result (list Z * ObjectBuffer) :=
  if (BufferSize b <? size)%nat then Crash OutOfBounds
  else
    let rest := (BufferSize b - size)%nat in
    Ret (take size (OBuffer b),
         MkObjectBuffer (overwrite 0 (take rest (drop size (OBuffer b))) (OBuffer b)) rest).

Inductive buf_op := BAdd (data : list Z) | BRead (size : nat) | BClear.
Inductive buf_ans := BAdded (ok : bool) | BBytes (data : list Z) | BCleared.

Definition objbuf_do (op : buf_op) (b : ObjectBuffer) : result (buf_ans * ObjectBuffer) :=
  match op with
  | BAdd data => let '(r, b) := addBytes data b in Ret (BAdded r, b)
  | BRead n => '(bs, b) ← readBytes n b; Ret (BBytes bs, b)
  | BClear => Ret (BCleared, clearBuffer b)
  end.

Fixpoint objbuf_run (ops : list buf_op) (b : ObjectBuffer) : result (list buf_ans * ObjectBuffer) :=
  match ops with
  | [] => Ret ([], b)
  | op :: ops => '(r, b) ← objbuf_do op b; '(rs, b) ← objbuf_run ops b; Ret (r :: rs, b)
  end.

(** The stream of bytes not read yet, of at most [sizeof_T] bytes. *)
Definition stream_do (op : buf_op) (q : list Z) : buf_ans * list Z :=
  match op with
  | BAdd data =>
      if (length q + length data <=? sizeof_T)%nat then (BAdded true, q ++ data) else (BAdded false, q)
  | BRead n => (BBytes (take n q), drop n q)
  | BClear => (BCleared, [])
  end.

Fixpoint stream_run (ops : list buf_op) (q : list Z) : list buf_ans * list Z :=
  match ops with
  | [] => ([], q)
  | op :: ops => let '(r, q) := stream_do op q in let '(rs, q) := stream_run ops q in (r :: rs, q)
  end.

(** A read asks for no more bytes than were added. *)
Fixpoint reads_ok (ops : list buf_op) (q : list Z) : bool :=
  match ops with
  | [] => true
  | op :: ops =>
      match op with BRead n => (n <=? length q)%nat | _ => true end && reads_ok ops (stream_do op q).2
  end.

Definition objbuf_rep (b : ObjectBuffer) (q : list Z) : Prop :=
  length (OBuffer b) = sizeof_T /\ BufferSize b = length q /\ take (BufferSize b) (OBuffer b) = q /\
  (length q <= sizeof_T)%nat.

Lemma objbuf_do_ok op b q :
  objbuf_rep b q -> match op with BRead n => (n <= length q)%nat | _ => True end ->
  exists b', objbuf_do op b = Ret ((stream_do op q).1, b') /\ objbuf_rep b' (stream_do op q).2.
Proof.
  intros (Hl & Hs & Ht & Hle) Hr. destruct op as [data|n|]; simpl.
  - unfold addBytes. rewrite Hs. destruct (Nat.ltb_spec sizeof_T (length q + length data)).
    + destruct (Nat.leb_spec (length q + length data) sizeof_T); [lia|]. by exists b.
    + destruct (Nat.leb_spec (length q + length data) sizeof_T); [|lia]. eexists. split; [done|].
      unfold objbuf_rep. simpl. rewrite overwrite_length, length_app, overwrite_take by lia.
      rewrite Hs in Ht. rewrite Ht. split_and!; (done || lia).
  - unfold readBytes. rewrite Hs. destruct (Nat.ltb_spec (length q) n); [lia|]. simpl.
    assert (Hd : take (length q - n) (drop n (OBuffer b)) = drop n q).
    { rewrite <- Ht at 2. rewrite Hs, skipn_firstn_comm. done. }
    eexists. split.
    + do 3 f_equal. rewrite <- Ht at 1. rewrite take_take. f_equal. lia.
    + rewrite Hd. unfold objbuf_rep. simpl. rewrite overwrite_length by (rewrite length_drop; lia).
      split_and!; [done|by rewrite length_drop| |rewrite length_drop; lia].
      rewrite <- length_drop, <- (Nat.add_0_l (length (drop n q))). by rewrite overwrite_take by lia.
  - eexists. split; [done|]. unfold objbuf_rep. simpl. split_and!; (done || lia).
Qed.

(** An [ObjectBuffer] is a stream of bytes bounded by the size of an object:
    bytes added in any pieces are read back in order, an addition that does not
    fit is refused and changes nothing, and no copy leaves the array. *)
Theorem object_buffer_is_stream ops mem :
  length mem = sizeof_T -> reads_ok ops [] = true ->
  exists b, objbuf_run ops (objbuf_init mem) = Ret ((stream_run ops []).1, b).
Proof.
  intros Hm Hr. assert (HR : objbuf_rep (objbuf_init mem) []) by (unfold objbuf_rep; simpl; split_and!; (done || lia)).
  revert Hr HR. generalize (objbuf_init mem) as b, (@nil Z) as q.
  induction ops as [|op ops IH]; intros b q Hr HR; [by exists b|]. cbn [reads_ok objbuf_run stream_run] in *.
  apply andb_true_iff in Hr as [H1 H2].
  destruct (objbuf_do_ok op b q HR) as (b1 & -> & HR1).
  { destruct op; try done. by apply Nat.leb_le. }
  destruct (stream_do op q) as [r q1]. cbn [fst snd] in *. destruct (IH b1 q1 H2 HR1) as (b2 & E).
  destruct (stream_run ops q1) as [rs q2]. exists b2. simpl. by rewrite E.
Qed.

End ObjectBuffer.

Lemma object_buffer_is_stream_witness :
  exists b, objbuf_run 4 [BAdd [1; 2]; BAdd [3; 4]; BAdd [5]; BRead 4; BAdd [6]] (objbuf_init [0; 0; 0; 0])
    = Ret ([BAdded true; BAdded true; BAdded false; BBytes [1; 2; 3; 4]; BAdded true], b).
Proof.
  exact (object_buffer_is_stream 4 [BAdd [1; 2]; BAdd [3; 4]; BAdd [5]; BRead 4; BAdd [6]] [0; 0; 0; 0] eq_refl eq_refl).
Defined.

(** ** BytesBuffer *)

Section BytesBuffer.
Context (Capacity : nat).   (* the template argument BufferSize *)

Record BytesBuffer := MkBytes {
  BBuffer : list Z;         (* std::array<uint8_t, BufferSize> *)
  BSize : Z                 (* size_t *)
}.

Definition bytes_init (mem : list Z) : BytesBuffer := MkBytes mem 0.

(** [data] is unused by the source. *)
Definition Add (data : list Z) (size : Z) (b : BytesBuffer) : BytesBuffer :=
  MkBytes (BBuffer b) (u64 (BSize b + size)).

Definition Shift (size : Z) (b : BytesBuffer) : result BytesBuffer :=
  let n := u64 (BSize b - size) in
  if Z.of_nat Capacity <? size + n then Crash OutOfBounds
  else Ret (MkBytes (overwrite 0 (take (Z.to_nat n) (drop (Z.to_nat size) (BBuffer b))) (BBuffer b)) n).

Definition Read (size : Z) (b : BytesBuffer) : result (list Z * BytesBuffer) :=
  if Z.of_nat Capacity <? size then Crash OutOfBounds
  else b' ← Shift size b; Ret (take (Z.to_nat size) (BBuffer b), b').

Definition Clear (b : BytesBuffer) : BytesBuffer := MkBytes (BBuffer b) 0.
Definition CanAdd (size : Z) (b : BytesBuffer) : bool := size <=? u64 (Z.of_nat Capacity - BSize b).
Definition GetData (b : BytesBuffer) : list Z := BBuffer b.
Definition GetSize (b : BytesBuffer) : Z := BSize b.

(** What is read back after an [Add] are the bytes the array already held,
    whatever data was added: the buffer counts the bytes and does not copy them. *)
Theorem bytes_buffer_add_stores_nothing mem data n :
  length mem = Capacity -> 0 <= n <= Z.of_nat Capacity -> Z.of_nat Capacity < 2 ^ 64 ->
  CanAdd n (bytes_init mem) = true /\
  exists b, Read n (Add data n (bytes_init mem)) = Ret (take (Z.to_nat n) mem, b) /\ GetSize b = 0.
Proof.
  intros Hm Hn Hc. unfold CanAdd, Read, Shift, Add. simpl. rewrite !u64_small by (rewrite ?u64_small; lia).
  split; [apply Z.leb_le; lia|].
  destruct (Z.ltb_spec (Z.of_nat Capacity) n); [lia|].
  destruct (Z.ltb_spec (Z.of_nat Capacity) (n + (0 + n - n))); [lia|].
  eexists. split; [done|]. simpl. lia.
Qed.

End BytesBuffer.

Lemma bytes_buffer_add_stores_nothing_witness :
  CanAdd 4 2 (bytes_init [0; 0; 0; 0]) = true /\
  exists b, Read 4 2 (Add [7; 8] 2 (bytes_init [0; 0; 0; 0])) = Ret ([0; 0], b) /\ GetSize b = 0.
Proof. apply (bytes_buffer_add_stores_nothing 4 [0; 0; 0; 0] [7; 8] 2); simpl; lia. Defined.

(** ** ObjectBatch *)

Record ObjectBatch (T : Type) := MkBatch {
  BatchData : list T;
  BatchSize : nat;
  BatchFd : Z;        (* uint32_t *)
  Auth : Z            (* uint8_t *)
}.
Arguments MkBatch {T}. Arguments BatchData {T}. Arguments BatchSize {T}. Arguments BatchFd {T}. Arguments Auth {T}.

Definition setSize {T} (size : nat) (b : ObjectBatch T) : ObjectBatch T :=
  MkBatch (BatchData b) size (BatchFd b) (Auth b).
Definition setFd {T} (fd : Z) (b : ObjectBatch T) : ObjectBatch T :=
  MkBatch (BatchData b) (BatchSize b) fd (Auth b).
(** [operator[]], unchecked. *)
Definition batch_at {T} (b : ObjectBatch T) (i : nat) : result T :=
  match BatchData b !! i with Some x => Ret x | None => Crash OutOfBounds end.
