(* ===== verification/EpollServer.v ===== *)
(** [EpollServer] (src/market_server/common/include/epoll_server.hpp): the base of
    the three servers, which assembles the bytes of each connection into batches
    of messages.

    The derived class is a record of handlers over its own state ([Derived]);
    a server without a handler has the one that does nothing.  [recv] is the
    operating system's: a socket is a list of what its calls find, the bytes that
    have arrived, the end of the stream, or an error; what a call leaves is found
    by the next one, and an exhausted list would block.  [errno] is state, since
    the code also reads it after calls that do not set it.  Batches are objects of
    a [StoragePool]; [Batches] is their memory, with the bytes earlier uses left.

    Main results: messages that arrive in any pieces, as long as no piece ends
    inside a message other than its first, are delivered in order, none lost or
    repeated; a piece that does not satisfy this corrupts the stream. *)

From S2P Require Import Prelude SpscQueue StoragePool Consumer Buffers.

(** ** The operating system *)

Inductive RecvEvent := Avail (b : Z) (bs : list Z) | Eof | Again | Interrupt | Reset.
Inductive Errno := EAGAIN | EINTR | ECONN.
Inductive RecvReturn := Bytes (data : list Z) | Zero | Error.

Definition recv (limit : nat) (evs : list RecvEvent) (errno : Errno) : RecvReturn * list RecvEvent * Errno :=
  match evs with
  | Avail b bs :: evs' =>
      if (limit =? 0)%nat then (Zero, evs, errno)
      else
        match drop limit (b :: bs) with
        | [] => (Bytes (b :: bs), evs', errno)
        | c :: cs => (Bytes (take limit (b :: bs)), Avail c cs :: evs', errno)
        end
  | Eof :: _ => (Zero, evs, errno)
  | Again :: evs => (Error, evs, EAGAIN)
  | Interrupt :: evs => (Error, evs, EINTR)
  | Reset :: evs => (Error, evs, ECONN)
  | [] => (Error, [], EAGAIN)
  end.

(** ** Receiving into a batch

    Shared with the receiver of the account service's responses. *)

Section Receive.
Context (sizeof_T BatchLen : nat).

(** [memcpy(batch->Data.data(), buffer.Buffer.data(), buffer.BufferSize)] *)
Definition copy_leftover (b : ObjectBuffer) (mem : list Z) : list Z :=
  overwrite 0 (take (BufferSize b) (OBuffer b)) mem.

(** [buffer.addBytes(batch->Data.data() + sizeof(T) * batchSize, bufferSize)]: the
    offset of a [T *] counts objects, not bytes. *)
Definition leftover_bytes (batchSize bufferSize : nat) (mem : list Z) : result (list Z) :=
  let off := (sizeof_T * (sizeof_T * batchSize))%nat in
  if (bufferSize =? 0)%nat then Ret []
  else if (off + bufferSize <=? sizeof_T * BatchLen)%nat then Ret (take bufferSize (drop off mem))
  else Crash OutOfBounds.

(** What follows a [recv] of [data] behind the leftover bytes: the number of
    complete messages, the new leftover, the memory of the batch. *)
Definition split_received (data : list Z) (b : ObjectBuffer) (mem : list Z)
    : result (nat * ObjectBuffer * list Z) :=
  let mem := overwrite (BufferSize b) data mem in
  let total := (BufferSize b + length data)%nat in
  let batchSize := (total / sizeof_T)%nat in
  let bufferSize := (total mod sizeof_T)%nat in
  left ← leftover_bytes batchSize bufferSize mem;
  Ret (batchSize, (addBytes sizeof_T left (clearBuffer b)).2, mem).

End Receive.

(** ** The server *)

Record Derived (D : Type) := MkDerived {
  HasFirstMessageHandle : bool;
  AcceptHandle : Z -> D -> result D;
  CloseHandle : Z -> D -> result D;
  FirstMessageHandle : list Z -> Z -> D -> result D;
  BatchHandle : ObjectBatch Z -> Z -> D -> result (ObjectBatch Z * D)
}.
Arguments MkDerived {D}. Arguments HasFirstMessageHandle {D}. Arguments AcceptHandle {D}.
Arguments CloseHandle {D}. Arguments FirstMessageHandle {D}. Arguments BatchHandle {D}.

Section EpollServer.
Context {D : Type} (dv : Derived D).
Context (sizeof_T sizeof_Init BatchLen PoolSize : nat).
Context (has_room : nat -> bool).   (* what the TryPush calls on the outgoing queue return *)

Record Server := MkServer {
  SBuffers : list ObjectBuffer;           (* std::vector<ObjectBuffer<T>> *)
  FirstMessage : list bool;               (* std::vector<bool> *)
  SPool : StoragePool;
  Batches : gmap nat (ObjectBatch Z);     (* the objects of the pool *)
  Outgoing : list nat;                    (* batches queued, in order *)
  Pushes : nat;                           (* TryPush calls so far *)
  errno : Errno;
  Closed : list Z;                        (* descriptors closed, in order *)
  derived : D
}.

Implicit Type s : Server.

Definition batch0 : ObjectBatch Z := MkBatch (replicate (sizeof_T * BatchLen) 0) 0 0 0.
Definition batch_of (x : nat) s : ObjectBatch Z := default batch0 (Batches s !! x).

Definition set_buffer (fd : Z) (b : ObjectBuffer) s : Server :=
  MkServer (<[Z.to_nat fd := b]> (SBuffers s)) (FirstMessage s) (SPool s) (Batches s) (Outgoing s) (Pushes s)
    (errno s) (Closed s) (derived s).
Definition set_first (fd : Z) (v : bool) s : Server :=
  MkServer (SBuffers s) (<[Z.to_nat fd := v]> (FirstMessage s)) (SPool s) (Batches s) (Outgoing s) (Pushes s)
    (errno s) (Closed s) (derived s).
Definition set_pool (p : StoragePool) s : Server :=
  MkServer (SBuffers s) (FirstMessage s) p (Batches s) (Outgoing s) (Pushes s) (errno s) (Closed s) (derived s).
Definition set_batch (x : nat) (b : ObjectBatch Z) s : Server :=
  MkServer (SBuffers s) (FirstMessage s) (SPool s) (<[x := b]> (Batches s)) (Outgoing s) (Pushes s)
    (errno s) (Closed s) (derived s).
Definition set_outgoing (out : list nat) s : Server :=
  MkServer (SBuffers s) (FirstMessage s) (SPool s) (Batches s) out (S (Pushes s)) (errno s) (Closed s) (derived s).
Definition set_errno (e : Errno) s : Server :=
  MkServer (SBuffers s) (FirstMessage s) (SPool s) (Batches s) (Outgoing s) (Pushes s) e (Closed s) (derived s).
Definition set_closed (fd : Z) s : Server :=
  MkServer (SBuffers s) (FirstMessage s) (SPool s) (Batches s) (Outgoing s) (Pushes s) (errno s)
    (Closed s ++ [fd]) (derived s).
Definition set_derived (d : D) s : Server :=
  MkServer (SBuffers s) (FirstMessage s) (SPool s) (Batches s) (Outgoing s) (Pushes s) (errno s) (Closed s) d.

(** [Buffers[fd]] and [FirstMessage[fd]], unchecked. *)
Definition buffer_of (fd : Z) s : result ObjectBuffer :=
  match SBuffers s !! Z.to_nat fd with Some b => Ret b | None => Crash OutOfBounds end.
Definition first_of (fd : Z) s : result bool :=
  match FirstMessage s !! Z.to_nat fd with Some v => Ret v | None => Crash OutOfBounds end.

(** [mem] is what the uninitialised array of the new buffer holds; [added] is
    whether [epoll_ctl] succeeds. *)
Definition addClient (fd : Z) (added : bool) (mem : list Z) s : result Server :=
  let s := if added then s else set_closed fd s in
  s ← (if HasFirstMessageHandle dv then _ ← first_of fd s; Ret (set_first fd true s) else Ret s);
  d ← AcceptHandle dv fd (derived s);
  let s := set_derived d s in
  _ ← buffer_of fd s;
  Ret (set_buffer fd (objbuf_init mem) s).

Definition removeClient (fd : Z) s : result Server :=
  d ← CloseHandle dv fd (derived s);
  let s := set_closed fd (set_derived d s) in
  b ← buffer_of fd s;
  Ret (set_buffer fd (clearBuffer b) s).

(** *** The first message

    The loop that completes it: whether [readMessage] returns, and [nread]. *)
Fixpoint first_loop (fuel : nat) (fd nread : Z) (evs : list RecvEvent) s
    : result (bool * Z * list RecvEvent * Server) :=
  buffer ← buffer_of fd s;
  if (BufferSize buffer <? sizeof_Init)%nat then
    match fuel with
    | O => Crash OutOfFuel
    | S fuel =>
        let '(r, evs, e) := recv (sizeof_Init - BufferSize buffer) evs (errno s) in
        let s := set_errno e s in
        match r with
        | Bytes data =>
            let '(added, buffer) := addBytes sizeof_T data buffer in
            if added then first_loop fuel fd (Z.of_nat (length data)) evs (set_buffer fd buffer s)
            else s ← removeClient fd s; Ret (true, Z.of_nat (length data), evs, s)
        | Zero => s ← removeClient fd s; Ret (true, 0, evs, s)
        | Error =>
            match e with
            | ECONN => s ← removeClient fd s; Ret (true, -1, evs, s)
            | _ => Ret (false, -1, evs, s)
            end
        end
    end
  else Ret (false, nread, evs, s).

(** The first part of [readMessage].  Every turn of the loop that goes on adds a
    byte to the buffer. *)
Definition read_first (fd : Z) (evs : list RecvEvent) s : result (bool * Z * list RecvEvent * Server) :=
  waiting ← (if HasFirstMessageHandle dv then first_of fd s else Ret false);
  if (waiting : bool) then
    '(returned, nread, evs, s) ← first_loop sizeof_Init fd (-1) evs s;
    if (returned : bool) then Ret (true, nread, evs, s)
    else
      buffer ← buffer_of fd s;
      if (sizeof_Init <=? BufferSize buffer)%nat then
        '(message, buffer) ← readBytes sizeof_Init buffer;
        d ← FirstMessageHandle dv message fd (derived s);
        Ret (false, nread, evs, set_first fd false (set_derived d (set_buffer fd buffer s)))
      else Ret (true, nread, evs, s)
  else Ret (false, -1, evs, s).

(** *** Batches *)

Definition local_release (x : nat) s : Server := set_pool (LocalRelease PoolSize x (SPool s)).2 s.

(** What is done with the batch [x] after a [recv] of [data]. *)
Definition deliver_batch (fd : Z) (x : nat) (data : list Z) (buffer : ObjectBuffer) (mem : list Z) s : result Server :=
  '(batchSize, buffer, mem) ← split_received sizeof_T BatchLen data buffer mem;
  let batch := MkBatch mem batchSize fd (Auth (batch_of x s)) in
  let s := set_buffer fd buffer (set_batch x batch s) in
  if (0 <? batchSize)%nat then
    '(batch, d) ← BatchHandle dv batch fd (derived s);
    let s := set_derived d (set_batch x batch s) in
    if has_room (Pushes s) then Ret (set_outgoing (Outgoing s ++ [x]) s)
    else Ret (local_release x (set_outgoing (Outgoing s) s))
  else Ret (local_release x s).

(** One turn of [while (true)]: whether the loop goes on, and [nread]. *)
Definition read_batch (fd nread : Z) (evs : list RecvEvent) s : result (bool * Z * list RecvEvent * Server) :=
  let '(acquired, pool) := Acquire PoolSize (QTail (Free (SPool s))) (SPool s) in
  let s := set_pool pool s in
  match acquired with
  | None => Ret (false, nread, evs, s)
  | Some x =>
      buffer ← buffer_of fd s;
      let mem := copy_leftover buffer (BatchData (batch_of x s)) in
      let '(r, evs, e) := recv (sizeof_T * BatchLen - BufferSize buffer) evs (errno s) in
      let s := set_errno e s in
      match r with
      | Bytes data => s ← deliver_batch fd x data buffer mem s; Ret (true, Z.of_nat (length data), evs, s)
      | _ =>
          let old := batch_of x s in
          let s := local_release x (set_batch x (MkBatch mem (BatchSize old) (BatchFd old) (Auth old)) s) in
          Ret (match e with EINTR => true | _ => false end, match r with Zero => 0 | _ => -1 end, evs, s)
      end
  end.

Fixpoint read_loop (fuel : nat) (fd nread : Z) (evs : list RecvEvent) s : result (Z * list RecvEvent * Server) :=
  match fuel with
  | O => Crash OutOfFuel
  | S fuel =>
      '(again, nread, evs, s) ← read_batch fd nread evs s;
      if (again : bool) then read_loop fuel fd nread evs s else Ret (nread, evs, s)
  end.

Definition readMessage (fuel : nat) (fd : Z) (evs : list RecvEvent) s : result (list RecvEvent * Server) :=
  '(returned, nread, evs, s) ← read_first fd evs s;
  if (returned : bool) then Ret (evs, s)
  else
    '(nread, evs, s) ← read_loop fuel fd nread evs s;
    if nread =? 0 then s ← removeClient fd s; Ret (evs, s)
    else if nread <? 0 then
      match errno s with
      | ECONN => s ← removeClient fd s; Ret (evs, s)
      | _ => Ret (evs, s)
      end
    else Ret (evs, s).

(** [event.events & EPOLLIN], [event.events & (EPOLLHUP | EPOLLERR | EPOLLRDHUP)] *)
Definition readEvent (fuel : nat) (fd : Z) (epollin hup : bool) (evs : list RecvEvent) s
    : result (list RecvEvent * Server) :=
  if epollin then readMessage fuel fd evs s
  else if hup then s ← removeClient fd s; Ret (evs, s)
  else Ret (evs, s).

(** The connections [accept] returns before it fails. *)
Fixpoint clientAcceptLoop (accepted : list (Z * bool * list Z)) s : result Server :=
  match accepted with
  | [] => Ret s
  | (fd, added, mem) :: accepted => s ← addClient fd added mem s; clientAcceptLoop accepted s
  end.

(** The constructor, for [nb_fds] descriptors; [mem] is what the uninitialised
    buffers hold, and [e] the error number of the thread. *)
Definition server_init (nb_fds : nat) (mem : list Z) (pool : StoragePool) (e : Errno) (d : D) : Server :=
  MkServer (replicate nb_fds (objbuf_init mem)) (if HasFirstMessageHandle dv then replicate nb_fds false else [])
    pool ∅ [] 0 e [] d.

(** What [epoll_wait] reports: connections to accept, or an event on a connection
    with the bytes that can be read. *)
Inductive EpollEvent :=
| OnListen (accepted : list (Z * bool * list Z))
| OnClient (fd : Z) (epollin hup : bool) (evs : list RecvEvent).

(** One turn of the loop of [startServer]. *)
Fixpoint epoll_round (fuel : nat) (events : list EpollEvent) s : result Server :=
  match events with
  | [] => Ret s
  | OnListen accepted :: events => s ← clientAcceptLoop accepted s; epoll_round fuel events s
  | OnClient fd epollin hup evs :: events =>
      '(_, s) ← readEvent fuel fd epollin hup evs s; epoll_round fuel events s
  end.

End EpollServer.

(** ** Proofs *)

(** The bytes of a socket on which nothing but data is found. *)
Fixpoint event_bytes (evs : list RecvEvent) : list Z :=
  match evs with
  | Avail b bs :: evs => b :: bs ++ event_bytes evs
  | _ :: evs => event_bytes evs
  | [] => []
  end.

(** No piece ends inside a message unless it began inside it: [p] bytes of a
    message are pending. *)
Fixpoint aligned (sizeof_T p : nat) (evs : list RecvEvent) : bool :=
  match evs with
  | [] => true
  | Avail b bs :: evs =>
      let t := (p + S (length bs))%nat in
      if (t <? sizeof_T)%nat then aligned sizeof_T t evs
      else (t mod sizeof_T =? 0)%nat && aligned sizeof_T 0 evs
  | _ => false
  end.

Section ReceiveProofs.
Context (sizeof_T BatchLen : nat) (HT : (0 < sizeof_T)%nat).
Abbreviation cap := (sizeof_T * BatchLen)%nat.

(** The array of a batch after the leftover and the received bytes are in it. *)
Lemma received_memory b q data mem :
  objbuf_rep sizeof_T b q -> length mem = cap -> (length q + length data <= cap)%nat ->
  let mem' := overwrite (BufferSize b) data (copy_leftover b mem) in
  length mem' = cap /\ take (length q + length data) mem' = q ++ data.
Proof.
  intros (Hl & Hs & Ht & Hle) Hm Hc. unfold copy_leftover. rewrite Ht, Hs.
  assert (H1 : length (overwrite 0 q mem) = cap) by (rewrite overwrite_length; lia).
  split; [rewrite overwrite_length; lia|]. rewrite overwrite_take by lia. f_equal.
  pose proof (overwrite_take 0 q mem ltac:(lia)) as E. rewrite take_0 in E. exact E.
Qed.

(** The split is right when the bytes are less than a message or whole messages. *)
Lemma split_received_ok b q data mem :
  objbuf_rep sizeof_T b q -> length mem = cap -> (length q + length data <= cap)%nat ->
  (length q + length data < sizeof_T \/ (length q + length data) mod sizeof_T = 0)%nat ->
  exists b' mem', split_received sizeof_T BatchLen data b (copy_leftover b mem)
      = Ret ((length q + length data) / sizeof_T, b', mem')%nat /\
    length mem' = cap /\ take (length q + length data) mem' = q ++ data /\
    objbuf_rep sizeof_T b' (if (length q + length data <? sizeof_T)%nat then q ++ data else []).
Proof.
  intros Hb Hm Hc Ha. destruct (received_memory b q data mem Hb Hm Hc) as [H1 H2].
  destruct Hb as (Hl & Hs & _ & _). unfold split_received. rewrite Hs in *.
  set (mem' := overwrite _ _ _) in *. unfold leftover_bytes.
  assert (Hrep : forall left, (length left <= sizeof_T)%nat ->
    objbuf_rep sizeof_T (addBytes sizeof_T left (clearBuffer b)).2 left).
  { intros left Hleft. unfold addBytes, clearBuffer. cbn [BufferSize OBuffer].
    destruct (Nat.ltb_spec sizeof_T (0 + length left)); [lia|]. unfold objbuf_rep. cbn [OBuffer BufferSize snd].
    rewrite overwrite_length, overwrite_take by lia. by rewrite take_0. }
  destruct (Nat.ltb_spec (length q + length data) sizeof_T) as [Hlt|Hge].
  - rewrite Nat.div_small, Nat.mod_small by done. rewrite !Nat.mul_0_r, Nat.add_0_l, drop_0.
    destruct (Nat.eqb_spec (length q + length data) 0) as [H0|H0].
    + exists (addBytes sizeof_T [] (clearBuffer b)).2, mem'. split; [done|]. split_and!; try done.
      replace (q ++ data) with (@nil Z); [apply Hrep; simpl; lia|].
      symmetry. apply nil_length_inv. rewrite length_app. lia.
    + rewrite (proj2 (Nat.leb_le _ _)) by lia. rewrite H2. eexists _, mem'. split; [done|]. split_and!; try done.
      apply Hrep. rewrite length_app. lia.
  - destruct Ha as [Ha|Ha]; [lia|]. rewrite Ha, Nat.eqb_refl. eexists _, mem'. split; [done|]. split_and!; try done.
    apply Hrep. simpl. lia.
Qed.

End ReceiveProofs.

(** A read takes what there is room for. *)
Lemma recv_avail limit b bs evs e :
  (0 < limit)%nat ->
  exists evs', recv limit (Avail b bs :: evs) e = (Bytes (take limit (b :: bs)), evs', e) /\
    event_bytes evs' = drop limit (b :: bs) ++ event_bytes evs /\
    (forall n p, aligned n p evs' = match drop limit (b :: bs) with [] => aligned n p evs | c :: cs => aligned n p (Avail c cs :: evs) end).
Proof.
  intros Hl. unfold recv. destruct (Nat.eqb_spec limit 0); [lia|].
  destruct (drop limit (b :: bs)) as [|c cs] eqn:Hd.
  - exists evs. split_and!; try done. rewrite take_ge; [done|]. apply (f_equal length) in Hd. rewrite length_drop in Hd. simpl in *. lia.
  - by exists (Avail c cs :: evs).
Qed.

(** What a read takes is less than a message or whole messages, and so is what it
    leaves. *)
Lemma aligned_recv sizeof_T BatchLen p b bs evs :
  (0 < sizeof_T)%nat -> (0 < BatchLen)%nat -> (p < sizeof_T)%nat -> aligned sizeof_T p (Avail b bs :: evs) = true ->
  let limit := (sizeof_T * BatchLen - p)%nat in
  let t := (p + length (take limit (b :: bs)))%nat in
  (t <= sizeof_T * BatchLen)%nat /\ (t < sizeof_T \/ t mod sizeof_T = 0)%nat /\
  match drop limit (b :: bs) with
  | [] => aligned sizeof_T (if (t <? sizeof_T)%nat then t else 0)%nat evs = true
  | c :: cs => (t <? sizeof_T)%nat = false /\ aligned sizeof_T 0 (Avail c cs :: evs) = true
  end.
Proof.
  intros HT HB Hp Ha limit t. set (T := (p + S (length bs))%nat).
  assert (Hcap : (sizeof_T <= sizeof_T * BatchLen)%nat) by nia.
  assert (Hdl : length (drop limit (b :: bs)) = (T - sizeof_T * BatchLen)%nat)
    by (rewrite length_drop; cbn [length]; unfold limit, T; lia).
  assert (Ht : t = Nat.min T (sizeof_T * BatchLen))
    by (unfold t; rewrite length_take; cbn [length]; unfold limit, T; lia).
  cbn [aligned] in Ha. fold T in Ha. destruct (Nat.ltb_spec T sizeof_T) as [Hlt|Hge].
  - rewrite Nat.min_l in Ht by lia. rewrite Ht. split; [lia|]. split; [by left|].
    destruct (drop limit (b :: bs)); [|simpl in Hdl; lia]. by rewrite (proj2 (Nat.ltb_lt _ _) Hlt).
  - apply andb_true_iff in Ha as [Hm%Nat.eqb_eq Ha]. split; [lia|].
    destruct (drop limit (b :: bs)) as [|c cs] eqn:Hd.
    + simpl in Hdl. rewrite Nat.min_l in Ht by lia. rewrite Ht. split; [by right|].
      by rewrite (proj2 (Nat.ltb_ge _ _) Hge).
    + simpl in Hdl. rewrite Nat.min_r in Ht by lia. rewrite Ht. split; [right; rewrite Nat.mul_comm; apply Nat.Div0.mod_mul|].
      split; [by apply Nat.ltb_ge|]. cbn [aligned].
      assert (HT' : (T mod sizeof_T = (0 + S (length cs)) mod sizeof_T)%nat).
      { replace T with (0 + S (length cs) + BatchLen * sizeof_T)%nat by lia. by rewrite Nat.Div0.mod_add. }
      rewrite Hm in HT'. destruct (Nat.ltb_spec (0 + S (length cs)) sizeof_T) as [Hlt|_].
      * rewrite Nat.mod_small in HT' by done. lia.
      * rewrite <- HT'. by rewrite Ha.
Qed.

Section ServerProofs.
Context {D : Type} (dv : Derived D).
Context (sizeof_T sizeof_Init BatchLen PoolSize : nat).
Context (has_room : nat -> bool).
Context (kp : nat) (HP : PoolSize = (2 ^ kp)%nat) (Hkp : (kp <= 62)%nat).
Context (HT : (0 < sizeof_T)%nat) (HBL : (0 < BatchLen)%nat).
Abbreviation Server := (Server (D := D)).
Abbreviation batch_of := (batch_of sizeof_T BatchLen).
Implicit Type s : Server.

(** What the derived class relies on to handle the batches of a connection, and
    what it may do with a batch before it is queued. *)
Context (I : Z -> D -> Prop) (J : Z -> ObjectBatch Z -> Prop).
Definition keeps_batches : Prop :=
  forall b fd d, I fd d -> BatchFd b = fd -> exists b' d', BatchHandle dv b fd d = Ret (b', d') /\ I fd d' /\
    BatchData b' = BatchData b /\ BatchSize b' = BatchSize b /\ BatchFd b' = fd /\ J fd b'.

(** The bytes of the messages of the batches [xs]. *)
Definition payload s (xs : list nat) : list Z :=
  xs ≫= (fun x => take (sizeof_T * BatchSize (batch_of x s)) (BatchData (batch_of x s))).

(** A connection with [q] bytes of an incomplete message. *)
Definition connection s (fd : Z) (q : list Z) : Prop :=
  0 <= fd /\ (length q < sizeof_T)%nat /\ I fd (derived s) /\
  exists b, SBuffers s !! Z.to_nat fd = Some b /\ objbuf_rep sizeof_T b q.

Definition memory_ok s : Prop := forall x, length (BatchData (batch_of x s)) = (sizeof_T * BatchLen)%nat.

(** What the server keeps besides the connection, the pool and the queue. *)
Definition same_rest s s' (fd : Z) (held : list nat) : Prop :=
  FirstMessage s' = FirstMessage s /\ Closed s' = Closed s /\
  (forall i, i <> Z.to_nat fd -> SBuffers s' !! i = SBuffers s !! i) /\
  (forall x, x ∈ held -> batch_of x s' = batch_of x s).

Context (Hkeep : keeps_batches) (Hroom : forall n, has_room n = true).

Lemma batch_of_set x b y s : batch_of y (set_batch x b s) = if decide (x = y) then b else batch_of y s.
Proof.
  unfold EpollServer.batch_of, set_batch. cbn [Batches]. case_decide as H.
  - subst. by rewrite lookup_insert_eq.
  - by rewrite lookup_insert_ne.
Qed.

Lemma deliver_batch_ok fd x data bf mem q s held :
  0 <= fd -> I fd (derived s) -> SBuffers s !! Z.to_nat fd = Some bf -> objbuf_rep sizeof_T bf q -> memory_ok s ->
  length mem = (sizeof_T * BatchLen)%nat -> pool_holds PoolSize (SPool s) (x :: held) -> x ∉ held ->
  let t := (length q + length data)%nat in
  (t <= sizeof_T * BatchLen)%nat -> (t < sizeof_T \/ t mod sizeof_T = 0)%nat ->
  let xs := if (t <? sizeof_T)%nat then [] else [x] in
  let q' := if (t <? sizeof_T)%nat then q ++ data else [] in
  exists s', deliver_batch dv sizeof_T BatchLen PoolSize has_room fd x data bf (copy_leftover bf mem) s = Ret s' /\
    connection s' fd q' /\ memory_ok s' /\ pool_holds PoolSize (SPool s') (xs ++ held) /\
    Outgoing s' = Outgoing s ++ xs /\ payload s' xs ++ q' = q ++ data /\
    Forall (fun x => BatchFd (batch_of x s') = fd /\ (0 < BatchSize (batch_of x s'))%nat /\ J fd (batch_of x s')) xs /\ same_rest s s' fd held.
Proof.
  intros Hfd HI Hbf Hrep Hmem Hlen Hpool Hx t Hcap Hpart xs q'.
  destruct (split_received_ok sizeof_T BatchLen HT bf q data mem Hrep Hlen Hcap Hpart) as (b' & mem' & Hsp & Hl' & Htk & Hrep').
  fold t in Hsp, Htk, Hrep'. fold q' in Hrep'. unfold deliver_batch. rewrite Hsp. cbn [mbind result_bind].
  assert (Hltf : (Z.to_nat fd < length (SBuffers s))%nat) by (by eapply lookup_lt_Some).
  assert (Hq' : (length q' < sizeof_T)%nat).
  { unfold q'. destruct (Nat.ltb_spec t sizeof_T); [by rewrite length_app|simpl; lia]. }
  set (batch := MkBatch mem' (t / sizeof_T) fd _). set (s1 := set_buffer fd b' (set_batch x batch s)).
  assert (Hc1 : connection s1 fd q').
  { split; [done|]. split; [done|]. split; [done|]. exists b'. split; [|done]. cbn. by apply list_lookup_insert_eq. }
  assert (Hb1 : forall y, batch_of y s1 = if decide (x = y) then batch else batch_of y s).
  { intros y. apply (batch_of_set x batch y s). }
  assert (Exs : xs = if (t <? sizeof_T)%nat then [] else [x]) by done.
  assert (Eq' : q' = if (t <? sizeof_T)%nat then q ++ data else []) by done. clearbody xs q'.
  destruct (Nat.ltb_spec t sizeof_T) as [Hlt|Hge]; subst xs.
  - unfold batch in *. clear batch. set (batch := MkBatch _ _ _ _) in *. rewrite (Nat.div_small t) by done. cbn [Nat.ltb Nat.leb].
    destruct (local_release_one PoolSize kp HP Hkp x (SPool s) held Hpool) as (p' & Hr & Hp').
    exists (local_release PoolSize x s1). split; [done|]. unfold same_rest. split_and!; try done.
    + intros y. change (batch_of y (local_release PoolSize x s1)) with (batch_of y s1). rewrite Hb1. by case_decide.
    + unfold local_release. cbn [SPool set_pool]. change (SPool s1) with (SPool s). rewrite Hr. exact Hp'.
    + cbn. by rewrite app_nil_r.
    + intros i Hi. cbn. rewrite list_lookup_insert_ne by done. done.
    + intros y Hy. change (batch_of y (local_release PoolSize x s1)) with (batch_of y s1). rewrite Hb1.
      rewrite decide_False; [done|]. intros ->. done.
  - assert (Hn : (0 < t / sizeof_T)%nat) by (apply Nat.div_str_pos; lia).
    rewrite (proj2 (Nat.ltb_lt _ _) Hn).
    destruct (Hkeep batch fd (derived s1) HI eq_refl) as (batch' & d' & -> & HI' & Hd' & Hs' & Hf' & HJ'). cbn [mbind result_bind].
    rewrite Hroom. exists (set_outgoing (Outgoing s ++ [x]) (set_derived d' (set_batch x batch' s1))). split; [reflexivity|].
    assert (Hb2 : forall y s2, s2 = set_outgoing (Outgoing s ++ [x]) (set_derived d' (set_batch x batch' s1)) ->
      batch_of y s2 = if decide (x = y) then batch' else batch_of y s).
    { intros y s2 ->. etrans; [apply (batch_of_set x batch' y s1)|]. case_decide; [done|]. rewrite Hb1. by rewrite decide_False. }
    assert (Ht0 : (sizeof_T * (t / sizeof_T) = t)%nat).
    { destruct Hpart as [|Hm]; [lia|]. pose proof (Nat.div_mod_eq t sizeof_T). lia. }
    unfold same_rest. split_and!.
    + destruct Hc1 as (H1 & H2 & _ & H3). split; [done|]. split; [done|]. split; [done|]. exact H3.
    + intros y. rewrite (Hb2 y _ eq_refl). case_decide; [by rewrite Hd'|done].
    + done.
    + done.
    + unfold payload. cbn [mbind list_bind]. rewrite (Hb2 x _ eq_refl), decide_True by done.
      rewrite Hd', Hs'. cbn [batch BatchData BatchSize]. rewrite Ht0, Htk, Eq'. by rewrite !app_nil_r.
    + constructor; [|constructor]. rewrite (Hb2 x _ eq_refl), decide_True by done. rewrite Hs'. done.
    + done.
    + done.
    + intros i Hi. cbn. rewrite list_lookup_insert_ne by done. done.
    + intros y Hy. rewrite (Hb2 y _ eq_refl). rewrite decide_False; [done|]. intros ->. done.
Qed.

(** One turn of the loop on data: the batch acquired is queued with all the bytes,
    or given back if they are less than a message. *)
Lemma read_batch_ok fd nread b bs evs s q held :
  connection s fd q -> memory_ok s -> pool_holds PoolSize (SPool s) held -> (length held < PoolSize)%nat ->
  aligned sizeof_T (length q) (Avail b bs :: evs) = true ->
  exists evs' s' xs q' n, read_batch dv sizeof_T BatchLen PoolSize has_room fd nread (Avail b bs :: evs) s = Ret (true, n, evs', s') /\
    connection s' fd q' /\ memory_ok s' /\ pool_holds PoolSize (SPool s') (xs ++ held) /\
    aligned sizeof_T (length q') evs' = true /\
    Outgoing s' = Outgoing s ++ xs /\ payload s' xs ++ q' ++ event_bytes evs' = q ++ event_bytes (Avail b bs :: evs) /\
    (length (event_bytes evs') < length (event_bytes (Avail b bs :: evs)))%nat /\
    Forall (fun x => BatchFd (batch_of x s') = fd /\ (0 < BatchSize (batch_of x s'))%nat /\ J fd (batch_of x s')) xs /\ same_rest s s' fd held.
Proof.
  intros (Hfd & Hq & HI & bf & Hbf & Hrep) Hmem Hpool Hheld Hal. unfold read_batch.
  destruct (acquire_fresh PoolSize kp HP Hkp (SPool s) held Hpool Hheld) as (x & pool & -> & Hpool1 & Hx).
  unfold buffer_of. cbn [SBuffers set_pool]. rewrite Hbf. cbn [mbind result_bind].
  pose proof Hrep as (_ & Hs & _ & _). rewrite Hs.
  destruct (aligned_recv sizeof_T BatchLen (length q) b bs evs HT HBL Hq Hal) as (Hcap & Hpart & Hnext).
  destruct (recv_avail (sizeof_T * BatchLen - length q) b bs evs (errno (set_pool pool s))) as (evs' & -> & Hbytes & Hal').
  { nia. }
  set (data := take _ (b :: bs)) in *. set (s1 := set_errno _ _).
  destruct (deliver_batch_ok fd x data bf (BatchData (batch_of x s1)) q s1 held Hfd HI Hbf Hrep Hmem (Hmem x) Hpool1 Hx Hcap Hpart)
    as (s' & Hdel & Hc' & Hm' & Hp' & Ho' & Hpay & Hxs & Hsame).
  change (batch_of x (set_pool pool s)) with (batch_of x s1). rewrite Hdel. cbn [mbind result_bind].
  eexists evs', s', _, _, _. split; [reflexivity|]. split; [exact Hc'|]. split; [done|]. split; [exact Hp'|].
  split.
  { rewrite Hal'. destruct (drop _ (b :: bs)) as [|c cs].
    - destruct (_ <? _)%nat; [by rewrite length_app|done].
    - destruct Hnext as [-> Hnext]. done. }
  split; [done|]. split.
  { rewrite app_assoc, Hpay, Hbytes. cbn [event_bytes]. rewrite <- app_assoc. f_equal.
    rewrite app_assoc. unfold data. by rewrite take_drop. }
  split; [|done].
  rewrite Hbytes, length_app, length_drop. cbn [event_bytes length]. rewrite length_app. nia.
Qed.

(** The turn that finds nothing more to read. *)
Lemma read_batch_idle fd nread s q held :
  connection s fd q -> memory_ok s -> pool_holds PoolSize (SPool s) held -> (length held < PoolSize)%nat ->
  exists s', read_batch dv sizeof_T BatchLen PoolSize has_room fd nread [] s = Ret (false, -1, [], s') /\
    errno s' = EAGAIN /\ connection s' fd q /\ memory_ok s' /\ pool_holds PoolSize (SPool s') held /\
    Outgoing s' = Outgoing s /\ derived s' = derived s /\ same_rest s s' fd held.
Proof.
  intros (Hfd & Hq & HI & bf & Hbf & Hrep) Hmem Hpool Hheld. unfold read_batch.
  destruct (acquire_fresh PoolSize kp HP Hkp (SPool s) held Hpool Hheld) as (x & pool & -> & Hpool1 & Hx).
  unfold buffer_of. cbn [SBuffers set_pool]. rewrite Hbf. cbn [mbind result_bind recv].
  set (s1 := set_errno EAGAIN (set_pool pool s)). set (mem := copy_leftover bf _). set (batch := MkBatch mem _ _ _).
  destruct (local_release_one PoolSize kp HP Hkp x pool held Hpool1) as (p' & Hr & Hp').
  eexists. split; [reflexivity|].
  assert (Hb : forall y, batch_of y (local_release PoolSize x (set_batch x batch s1)) = if decide (x = y) then batch else batch_of y s)
    by (intros y; apply (batch_of_set x batch y s1)).
  unfold same_rest. split_and!; try done.
  - split; [done|]. split; [done|]. split; [done|]. by exists bf.
  - intros y. rewrite Hb. case_decide; [|done]. cbn. unfold mem, copy_leftover.
    destruct Hrep as (_ & Hs & -> & _). pose proof (Hmem x) as Hmx. rewrite overwrite_length; [exact Hmx|].
    change (0 + length q <= length (BatchData (batch_of x s)))%nat. rewrite Hmx. nia.
  - unfold local_release. cbn [SPool set_pool set_batch s1 set_errno]. by rewrite Hr.
  - intros y Hy. rewrite Hb. rewrite decide_False; [done|]. by intros ->.
Qed.

Lemma payload_length s xs :
  memory_ok s -> Forall (fun x => (0 < BatchSize (batch_of x s))%nat) xs ->
  (sizeof_T * length xs <= length (payload s xs))%nat.
Proof.
  intros Hm. induction 1 as [|x xs Hx _ IH]; [simpl; lia|]. unfold payload in *. rewrite bind_cons, length_app, length_take, Hm.
  cbn [length]. nia.
Qed.

(** Batches hold whole messages. *)
Lemma payload_whole s xs : memory_ok s -> Nat.divide sizeof_T (length (payload s xs)).
Proof.
  intros Hm. unfold payload. induction xs as [|x xs IH]; [by exists 0%nat|]. rewrite bind_cons, length_app.
  apply Nat.divide_add_r; [|done]. rewrite length_take, Hm, Nat.mul_min_distr_l. apply Nat.divide_factor_l.
Qed.
Lemma payload_rest s xs q n :
  memory_ok s -> (length q < sizeof_T)%nat -> (length (payload s xs ++ q) = n * sizeof_T)%nat -> q = [].
Proof.
  intros Hm Hq Hn. destruct (payload_whole s xs Hm) as [k Hk]. rewrite length_app, Hk in Hn. destruct q as [|c q]; [done|].
  cbn [length] in *. assert (k < n)%nat by nia. assert ((k + 1) * sizeof_T <= n * sizeof_T)%nat by (apply Nat.mul_le_mono_r; lia). lia.
Qed.

Lemma payload_held s s' fd held xs : same_rest s s' fd held -> (forall x, x ∈ xs -> x ∈ held) -> payload s' xs = payload s xs.
Proof.
  intros (_ & _ & _ & Hb) Hin. unfold payload.
  induction xs as [|x xs IH]; [done|]. rewrite !bind_cons, IH by set_solver. by rewrite Hb by set_solver.
Qed.

Lemma read_loop_ok fuel fd nread evs s q held :
  connection s fd q -> memory_ok s -> pool_holds PoolSize (SPool s) held ->
  (length held + (length q + length (event_bytes evs)) / sizeof_T < PoolSize)%nat ->
  aligned sizeof_T (length q) evs = true -> (length (event_bytes evs) < fuel)%nat ->
  exists s' xs q', read_loop dv sizeof_T BatchLen PoolSize has_room fuel fd nread evs s = Ret (-1, [], s') /\
    errno s' = EAGAIN /\ connection s' fd q' /\ memory_ok s' /\ pool_holds PoolSize (SPool s') (xs ++ held) /\
    Outgoing s' = Outgoing s ++ xs /\ payload s' xs ++ q' = q ++ event_bytes evs /\
    Forall (fun x => BatchFd (batch_of x s') = fd /\ (0 < BatchSize (batch_of x s'))%nat /\ J fd (batch_of x s')) xs /\ same_rest s s' fd held.
Proof.
  revert nread evs s q held. induction fuel as [|fuel IH]; intros nread evs s q held Hc Hm Hp Hroom' Hal Hf; [lia|].
  cbn [read_loop]. destruct evs as [|ev evs].
  - destruct (read_batch_idle fd nread s q held Hc Hm Hp) as (s' & -> & He & Hc' & Hm' & Hp' & Ho & _ & Hs); [lia|].
    cbn [mbind result_bind]. exists s', [], q. rewrite Ho. cbn. rewrite !app_nil_r. split_and!; done.
  - destruct ev as [b bs| | | |]; try done.
    destruct (read_batch_ok fd nread b bs evs s q held Hc Hm Hp) as
      (evs1 & s1 & xs & q1 & n & -> & Hc1 & Hm1 & Hp1 & Hal1 & Ho1 & Hb1 & Hl1 & Hx1 & Hs1); [lia|done|].
    cbn [mbind result_bind].
    pose proof (payload_length s1 xs Hm1 ltac:(eapply Forall_impl; [exact Hx1|]; by intros ? (_ & ? & _))) as Hpl.
    apply (f_equal length) in Hb1 as HbL. rewrite !length_app in HbL.
    destruct (IH n evs1 s1 q1 (xs ++ held) Hc1 Hm1 Hp1) as (s2 & xs2 & q2 & E & He & Hc2 & Hm2 & Hp2 & Ho2 & Hb2 & Hx2 & Hs2);
      [|done|lia|].
    { rewrite length_app.
      assert (H := Nat.Div0.div_le_mono (length xs * sizeof_T + (length q1 + length (event_bytes evs1)))
                (length q + length (event_bytes (Avail b bs :: evs))) sizeof_T ltac:(lia)).
      rewrite Nat.div_add_l in H by lia. lia. }
    exists s2, (xs ++ xs2), q2. split; [exact E|]. split; [done|]. split; [done|]. split; [done|].
    destruct Hs2 as (G1 & G2 & G3 & G4), Hs1 as (F1 & F2 & F3 & F4).
    assert (Hpx : payload s2 xs = payload s1 xs) by (apply (payload_held s1 s2 fd (xs ++ held)); [done|set_solver]).
    split_and!.
    + rewrite <- app_assoc, (Permutation_app_comm xs), <- app_assoc, (Permutation_app_comm held). exact Hp2.
    + by rewrite Ho2, Ho1, app_assoc.
    + unfold payload in *. rewrite bind_app, <- app_assoc, Hb2, Hpx. done.
    + apply Forall_app. split; [|done]. rewrite Forall_forall in Hx1 |- *. intros x Hx. rewrite G4 by set_solver. by apply Hx1.
    + unfold same_rest. split_and!; [congruence|congruence| |].
      * intros i Hi. rewrite G3, F3 by done. done.
      * intros x Hx. rewrite G4, F4 by set_solver. done.
Qed.

(** A connection that has not completed its first message, [q] being received. *)
Definition waiting s (fd : Z) (q : list Z) : Prop :=
  0 <= fd /\ FirstMessage s !! Z.to_nat fd = Some true /\
  exists b, SBuffers s !! Z.to_nat fd = Some b /\ objbuf_rep sizeof_T b q.

Definition only_data (evs : list RecvEvent) : Prop := Forall (fun ev => match ev with Avail _ _ => True | _ => False end) evs.

Lemma first_loop_ok fuel fd nread evs s q :
  only_data evs -> waiting s fd q -> (sizeof_Init <= sizeof_T)%nat ->
  (length q + length (event_bytes evs) <= sizeof_Init <= length q + fuel)%nat ->
  exists n s', first_loop dv sizeof_T sizeof_Init fuel fd nread evs s = Ret (false, n, [], s') /\
    waiting s' fd (q ++ event_bytes evs) /\ SPool s' = SPool s /\ Batches s' = Batches s /\ Outgoing s' = Outgoing s /\
    derived s' = derived s /\ Closed s' = Closed s.
Proof.
  intros Hev. revert fuel nread s q. induction Hev as [|ev evs Hev _ IH]; intros fuel nread s q HW HI Hb;
    destruct HW as (Hfd & Hfm & b & Hbf & Hrep); pose proof Hrep as (Hl & Hs & Ht & Hle).
  - destruct fuel as [|fuel]; cbn [first_loop]; unfold buffer_of at 1; rewrite Hbf; cbn [mbind result_bind]; rewrite Hs;
      destruct (Nat.ltb_spec (length q) sizeof_Init) as [Hlt|Hge]; cbn [event_bytes length] in *; rewrite ?app_nil_r; try lia.
    all: eexists _, _; (split; [reflexivity|]); split_and!; try done.
    all: split; [done|]; split; [done|]; by exists b.
  - destruct ev as [c cs| | | |]; try done. cbn [event_bytes] in *.
    rewrite app_comm_cons in Hb |- *. rewrite length_app in Hb. assert (Hcs : length (c :: cs) = S (length cs)) by done.
    destruct fuel as [|fuel]; [lia|]. cbn [first_loop].
    unfold buffer_of at 1. rewrite Hbf. cbn [mbind result_bind]. rewrite Hs.
    destruct (Nat.ltb_spec (length q) sizeof_Init) as [Hlt|Hge]; [|lia]. unfold recv.
    destruct (Nat.eqb_spec (sizeof_Init - length q) 0) as [|_]; [lia|]. rewrite drop_ge by lia.
    unfold addBytes. rewrite Hs. destruct (Nat.ltb_spec sizeof_T (length q + length (c :: cs))) as [|_]; [lia|].
    edestruct (IH fuel (Z.of_nat (length (c :: cs))) (set_buffer fd (MkObjectBuffer (overwrite (length q) (c :: cs) (OBuffer b))
      (length q + length (c :: cs))) (set_errno (errno s) s)) (q ++ c :: cs)) as (n & s' & E & HW' & H1 & H2 & H3 & H4 & H5);
      [|done|rewrite length_app; lia|].
    { split; [done|]. split; [done|]. eexists. split; [apply list_lookup_insert_eq; by eapply lookup_lt_Some|].
      unfold objbuf_rep. cbn [OBuffer BufferSize]. rewrite overwrite_length, overwrite_take, length_app by lia.
      rewrite Hs in Ht. rewrite Ht. split_and!; (done || lia). }
    exists n, s'. rewrite app_assoc. by split_and!.
Qed.

Lemma readMessage_ok fuel fd evs s q held :
  connection s fd q -> memory_ok s -> pool_holds PoolSize (SPool s) held ->
  (HasFirstMessageHandle dv = true -> FirstMessage s !! Z.to_nat fd = Some false) ->
  (length held + (length q + length (event_bytes evs)) / sizeof_T < PoolSize)%nat ->
  aligned sizeof_T (length q) evs = true -> (length (event_bytes evs) < fuel)%nat ->
  exists s' xs q', readMessage dv sizeof_T sizeof_Init BatchLen PoolSize has_room fuel fd evs s = Ret ([], s') /\
    Outgoing s' = Outgoing s ++ xs /\ connection s' fd q' /\ payload s' xs ++ q' = q ++ event_bytes evs /\
    Forall (fun x => BatchFd (batch_of x s') = fd /\ (0 < BatchSize (batch_of x s'))%nat /\ J fd (batch_of x s')) xs /\
    pool_holds PoolSize (SPool s') (xs ++ held) /\ memory_ok s' /\ same_rest s s' fd held.
Proof.
  intros Hc Hm Hp Hfm Hr Hal Hf. unfold readMessage, read_first.
  assert (HF : (if HasFirstMessageHandle dv then first_of fd s else Ret false) = Ret false).
  { destruct (HasFirstMessageHandle dv); [|done]. unfold first_of. by rewrite Hfm. }
  rewrite HF. cbn [mbind result_bind].
  destruct (read_loop_ok fuel fd (-1) evs s q held Hc Hm Hp Hr Hal Hf) as (s' & xs & q' & -> & He & Hrest).
  cbn [mbind result_bind]. rewrite He. exists s', xs, q'. tauto.
Qed.

(** The messages of a connection are delivered in order, each once.  Whatever
    pieces the bytes arrive in, as long as a piece that completes a message does
    not end inside another, a read event returns after taking all of them; the
    batches it queues hold, one after the other, exactly the complete messages,
    what remains is kept for the next event, and every batch not queued is back in
    the pool. *)
Theorem epoll_delivers_messages fuel fd evs s q held :
  connection s fd q -> memory_ok s -> pool_holds PoolSize (SPool s) held ->
  (HasFirstMessageHandle dv = true -> FirstMessage s !! Z.to_nat fd = Some false) ->
  (length held + (length q + length (event_bytes evs)) / sizeof_T < PoolSize)%nat ->
  aligned sizeof_T (length q) evs = true -> (length (event_bytes evs) < fuel)%nat ->
  exists s' xs q', readMessage dv sizeof_T sizeof_Init BatchLen PoolSize has_room fuel fd evs s = Ret ([], s') /\
    Outgoing s' = Outgoing s ++ xs /\ connection s' fd q' /\ payload s' xs ++ q' = q ++ event_bytes evs /\
    Forall (fun x => BatchFd (batch_of x s') = fd /\ (0 < BatchSize (batch_of x s'))%nat /\ J fd (batch_of x s')) xs /\
    pool_holds PoolSize (SPool s') (xs ++ held) /\ memory_ok s' /\ same_rest s s' fd held.
Proof. apply readMessage_ok. Qed.

Lemma handshake_ok fuel fd evs s q held :
  HasFirstMessageHandle dv = true -> waiting s fd q -> only_data evs -> (sizeof_Init <= sizeof_T)%nat ->
  (length q < sizeof_Init)%nat -> (length q + length (event_bytes evs) <= sizeof_Init)%nat ->
  memory_ok s -> pool_holds PoolSize (SPool s) held -> (length held < PoolSize)%nat -> (0 < fuel)%nat ->
  let bytes := q ++ event_bytes evs in
  if (length bytes <? sizeof_Init)%nat then
    exists s', readMessage dv sizeof_T sizeof_Init BatchLen PoolSize has_room fuel fd evs s = Ret ([], s') /\
      waiting s' fd bytes /\ derived s' = derived s /\ Outgoing s' = Outgoing s /\ SPool s' = SPool s
  else
    forall d, FirstMessageHandle dv bytes fd (derived s) = Ret d -> I fd d ->
    exists s', readMessage dv sizeof_T sizeof_Init BatchLen PoolSize has_room fuel fd evs s = Ret ([], s') /\
      FirstMessage s' !! Z.to_nat fd = Some false /\ connection s' fd [] /\ derived s' = d /\
      Outgoing s' = Outgoing s /\ pool_holds PoolSize (SPool s') held.
Proof.
  intros HF HW Hev Hsz Hq Hle Hm Hp Hh Hfu bytes. unfold readMessage, read_first. rewrite HF.
  pose proof HW as (Hfd & Hfm & _). unfold first_of. rewrite Hfm. cbn [mbind result_bind].
  destruct (first_loop_ok sizeof_Init fd (-1) evs s q Hev HW Hsz ltac:(lia)) as (n & s1 & -> & HW1 & E1 & E2 & E3 & E4 & E5).
  cbn [mbind result_bind]. destruct HW1 as (_ & Hfm1 & b & Hb & Hrep). fold bytes in Hrep.
  assert (HB : buffer_of fd s1 = Ret b) by (unfold buffer_of; by rewrite Hb). rewrite HB. cbn [mbind result_bind].
  pose proof Hrep as (Hl & Hs & Ht & _). rewrite Hs.
  destruct (Nat.ltb_spec (length bytes) sizeof_Init) as [Hlt|Hge].
  - rewrite (proj2 (Nat.leb_gt _ _)) by done. exists s1. split_and!; try done. split; [done|]. split; [done|]. by exists b.
  - intros d Hd HI. rewrite (proj2 (Nat.leb_le _ _)) by done.
    assert (Hbl : length bytes = sizeof_Init) by (unfold bytes in *; rewrite length_app in *; lia).
    unfold readBytes. rewrite Hs, Hbl, Nat.ltb_irrefl. cbn [mbind result_bind]. rewrite <- Hbl, <- Hs, Ht, E4, Hd.
    cbn [mbind result_bind]. set (s2 := set_first fd false _).
    destruct (read_batch_idle fd n s2 [] held) as (s' & HR & He & Hc' & _ & Hp' & Ho & Hd' & (G1 & _)).
    { split; [done|]. split; [simpl; lia|]. split; [done|]. eexists. split; [apply list_lookup_insert_eq; by eapply lookup_lt_Some|].
      rewrite Nat.sub_diag. unfold objbuf_rep. cbn [OBuffer BufferSize length]. rewrite overwrite_length by (simpl; lia).
      split_and!; (done || lia). }
    { intros x. unfold EpollServer.batch_of. cbn. rewrite E2. apply Hm. }
    { cbn. by rewrite E1. }
    { done. }
    destruct fuel as [|fuel]; [lia|]. cbn [read_loop]. rewrite HR. cbn [mbind result_bind]. rewrite He.
    exists s'. split; [done|]. rewrite G1, Ho, Hd'. split_and!; try done.
    cbn. apply list_lookup_insert_eq. by eapply lookup_lt_Some.
Qed.

(** The first message of a connection reaches the derived class whole, once,
    and before any other: until [sizeof_Init] bytes have arrived, in any pieces, a
    read event keeps them and does nothing else, and the event that completes
    them calls the handler with exactly these bytes and opens the connection. *)
Theorem epoll_handshake fuel fd evs s q held :
  HasFirstMessageHandle dv = true -> waiting s fd q -> only_data evs -> (sizeof_Init <= sizeof_T)%nat ->
  (length q < sizeof_Init)%nat -> (length q + length (event_bytes evs) <= sizeof_Init)%nat ->
  memory_ok s -> pool_holds PoolSize (SPool s) held -> (length held < PoolSize)%nat -> (0 < fuel)%nat ->
  let bytes := q ++ event_bytes evs in
  if (length bytes <? sizeof_Init)%nat then
    exists s', readMessage dv sizeof_T sizeof_Init BatchLen PoolSize has_room fuel fd evs s = Ret ([], s') /\
      waiting s' fd bytes /\ derived s' = derived s /\ Outgoing s' = Outgoing s /\ SPool s' = SPool s
  else
    forall d, FirstMessageHandle dv bytes fd (derived s) = Ret d -> I fd d ->
    exists s', readMessage dv sizeof_T sizeof_Init BatchLen PoolSize has_room fuel fd evs s = Ret ([], s') /\
      FirstMessage s' !! Z.to_nat fd = Some false /\ connection s' fd [] /\ derived s' = d /\
      Outgoing s' = Outgoing s /\ pool_holds PoolSize (SPool s') held.
Proof. apply handshake_ok. Qed.

End ServerProofs.

(** ** A concrete server

    Messages of two bytes in batches of four, a first message of two bytes, a pool
    of two batches; the handlers do nothing but record the first message. *)
Definition ex_derived : Derived (list Z) :=
  MkDerived true (fun _ d => Ret d) (fun _ d => Ret d) (fun m _ d => Ret (d ++ m)) (fun b _ d => Ret (b, d)).
Definition ex_server : Server (D := list Z) :=
  MkServer [MkObjectBuffer [0; 0] 0] [false] ex_pool0 ∅ [] 0 EAGAIN [] [].
Definition ex_waiting : Server (D := list Z) :=
  MkServer [MkObjectBuffer [0; 0] 0] [true] ex_pool0 ∅ [] 0 EAGAIN [] [].

Abbreviation ex_read := (readMessage ex_derived 2 2 4 2 (fun _ => true)).

Lemma ex_keeps : keeps_batches ex_derived (fun _ _ => True) (fun _ _ => True).
Proof. intros b fd d _ Hb. by exists b, d. Qed.

Lemma ex_pool_free : pool_holds 2 ex_pool0 [].
Proof. by apply (fresh_pool 2 1 eq_refl ltac:(lia)). Qed.

Lemma ex_memory s : Batches s = ∅ -> memory_ok (D := list Z) 2 4 s.
Proof. intros E x. unfold batch_of. rewrite E, lookup_empty. reflexivity. Qed.

Lemma epoll_delivers_messages_witness :
  exists s' xs q', ex_read 9 0 [Avail 1 []; Avail 2 []; Avail 3 []] ex_server = Ret ([], s') /\
    Outgoing s' = xs /\ payload 2 4 s' xs ++ q' = [1; 2; 3] /\ (length q' < 2)%nat.
Proof.
  destruct (epoll_delivers_messages ex_derived 2 2 4 2 (fun _ => true) 1 eq_refl ltac:(lia) ltac:(lia) ltac:(lia) (fun _ _ => True) (fun _ _ => True) ex_keeps
    (fun _ => eq_refl) 9 0 [Avail 1 []; Avail 2 []; Avail 3 []] ex_server [] []) as (s' & xs & q' & H1 & H2 & H3 & H4 & _).
  - split; [lia|]. split; [simpl; lia|]. split; [done|]. eexists. split; [reflexivity|]. unfold objbuf_rep. simpl. split_and!; (done || lia).
  - by apply ex_memory.
  - exact ex_pool_free.
  - done.
  - vm_compute. lia.
  - reflexivity.
  - simpl. lia.
  - exists s', xs, q'. split_and!; [exact H1|exact H2|exact H4|apply H3].
Defined.

Lemma epoll_handshake_witness :
  exists s', ex_read 9 0 [Avail 7 []; Avail 8 []] ex_waiting = Ret ([], s') /\ derived s' = [7; 8] /\ Outgoing s' = [].
Proof.
  destruct (epoll_handshake ex_derived 2 2 4 2 (fun _ => true) 1 eq_refl ltac:(lia) ltac:(lia) ltac:(lia) (fun _ _ => True)
    9 0 [Avail 7 []; Avail 8 []] ex_waiting [] []) with (d := [7; 8]) as (s' & H1 & _ & _ & H4 & H5 & _).
  - reflexivity.
  - split; [lia|]. split; [reflexivity|]. eexists. split; [reflexivity|]. unfold objbuf_rep. simpl. split_and!; (done || lia).
  - repeat constructor.
  - lia.
  - simpl. lia.
  - simpl. lia.
  - by apply ex_memory.
  - exact ex_pool_free.
  - simpl. lia.
  - lia.
  - reflexivity.
  - done.
  - by exists s'.
Defined.

(** A piece that ends inside a message after completing another corrupts the
    stream: the offset of the bytes to keep is scaled by the size of a message
    twice.  After the bytes 1 2 3, then 4, the second message is not 3 4 but what
    an earlier use left in the array, followed by 4; with two complete messages
    before the partial one the copy starts past the end of the array. *)
Theorem epoll_loses_partial_message :
  (exists s', ex_read 9 0 [Avail 1 [2; 3]; Avail 4 []] ex_server = Ret ([], s') /\ payload 2 4 s' (Outgoing s') = [1; 2; 0; 4]) /\
  ex_read 9 0 [Avail 1 [2; 3; 4; 5]] ex_server = Crash OutOfBounds.
Proof. split; [eexists; split; [vm_compute; reflexivity|vm_compute; reflexivity]|vm_compute; reflexivity]. Qed.

(** A connection closed by its peer after an interrupted read is never noticed: a
    [recv] that returns 0 leaves [errno] as it was, and the loop takes the EINTR of
    the previous call for its own. *)
Lemma read_loop_spins_at_eof fuel nread s bf held :
  SBuffers s !! 0%nat = Some bf -> errno s = EINTR -> pool_holds 2 (SPool s) held -> (length held < 2)%nat ->
  read_loop ex_derived 2 4 2 (fun _ => true) fuel 0 nread [Eof] s = Crash OutOfFuel.
Proof.
  revert nread s. induction fuel as [|fuel IH]; intros nread s Hb He Hp Hh; [done|]. cbn [read_loop]. unfold read_batch.
  destruct (acquire_fresh 2 1 eq_refl ltac:(lia) (SPool s) held Hp Hh) as (x & pool & -> & Hp1 & _).
  unfold buffer_of. cbn [SBuffers set_pool]. change (Z.to_nat 0) with 0%nat. rewrite Hb. cbn [mbind result_bind recv].
  cbn [errno set_pool]. rewrite He.
  destruct (local_release_one 2 1 eq_refl ltac:(lia) x pool held Hp1) as (p' & Hr & Hp').
  apply IH; try done. unfold local_release. cbn [SPool set_pool set_batch set_errno]. by rewrite Hr.
Qed.
