(* ===== verification/GatewayStates.v ===== *)
(** The gateway's view of its clients (src/market_server/order_gateway/include):
    [ClientState] (client_state.hpp), [ClientDelta] (client_delta.hpp) and the
    lock-free triple buffer [ClientStates] (client_states.hpp).

    The source keeps five parallel vectors indexed by the client's descriptor; a
    [ClientSlot] is their entry for one descriptor, and [ClientStates] the list
    of slots.  [Complete] selects the state that readers copy.

    Main results: the triple buffer implements two plain states, the published
    one and the one being edited; edits become visible together at the flush,
    and the copy a reader is making is not written to before a second flush. *)

From S2P Require Import Prelude WireTypes.

(** ** Vectors of positions *)

Definition vadd (a b : list Z) : list Z := zip_with (fun x y => s64 (x + y)) a b.
Definition vsub (a b : list Z) : list Z := zip_with (fun x y => s64 (x - y)) a b.
Definition vzero (n : nat) : list Z := replicate n 0.

(** [if (AssetId[i] == assetId) v[i] += x;] for every [i] *)
Fixpoint add_asset (ids : list Z) (assetId x : Z) (v : list Z) : list Z :=
  match ids, v with
  | id :: ids, y :: v => (if id =? assetId then s64 (y + x) else y) :: add_asset ids assetId x v
  | _, _ => v
  end.

(** ** ClientState *)

Record ClientState := MkCS {
  CClientId : Z;          (* uint32_t *)
  CAssetId : list Z;      (* std::array<uint16_t, MaxPositions> *)
  Confirmed : list Z;     (* std::array<int64_t, MaxPositions> *)
  Attempt : list Z;       (* std::array<int64_t, MaxPositions> *)
  CAuth : Z;              (* uint8_t *)
  SessionId : Z           (* uint32_t *)
}.

Definition cs_init : ClientState :=
  MkCS 0 (vzero MaxPositions) (vzero MaxPositions) (vzero MaxPositions) 0 0.

Fixpoint find_asset (ids : list Z) (assetId : Z) (i : nat) : option nat :=
  match ids with
  | [] => None
  | id :: ids => if id =? assetId then Some i else find_asset ids assetId (S i)
  end.

(** [Some idx] is [true] with the index of the first position in the asset. *)
Definition GetAssetIdx (assetId : Z) (s : ClientState) : option nat := find_asset (CAssetId s) assetId 0.
Definition GetAssetConfirmed (assetId : Z) (s : ClientState) : Z :=
  match GetAssetIdx assetId s with Some i => nth i (Confirmed s) 0 | None => -1 end.
Definition GetAssetAttempt (assetId : Z) (s : ClientState) : Z :=
  match GetAssetIdx assetId s with Some i => nth i (Attempt s) 0 | None => -1 end.
Definition GetAssetIdAt (i : nat) (s : ClientState) : Z := nth i (CAssetId s) 0.
Definition GetConfirmedAt (i : nat) (s : ClientState) : Z := nth i (Confirmed s) 0.
Definition GetAttemptAt (i : nat) (s : ClientState) : Z := nth i (Attempt s) 0.

(** ** The triple buffer *)

Record ClientDelta := MkDelta { DConfirmed : list Z; DAttempt : list Z }.
Definition delta0 : ClientDelta := MkDelta (vzero MaxPositions) (vzero MaxPositions).

Record ClientSlot := MkSlot {
  States1 : ClientState; States2 : ClientState; States3 : ClientState;
  Delta0 : ClientDelta; Delta1 : ClientDelta; Delta2 : ClientDelta;   (* std::array<ClientDelta, 3> *)
  Complete : Z                                                        (* std::atomic<uint8_t> *)
}.

Definition slot_init (s : ClientState) : ClientSlot := MkSlot s s s delta0 delta0 delta0 0.

(** [complete == 0 ? States1 : complete == 1 ? States2 : States3] *)
Definition read_state (complete : Z) (t : ClientSlot) : ClientState :=
  if complete =? 0 then States1 t else if complete =? 1 then States2 t else States3 t.
(** [complete == 0 ? States2 : complete == 1 ? States3 : States1] *)
Definition write_state (complete : Z) (t : ClientSlot) : ClientState :=
  if complete =? 0 then States2 t else if complete =? 1 then States3 t else States1 t.
Definition set_write_state (complete : Z) (s : ClientState) (t : ClientSlot) : ClientSlot :=
  if complete =? 0 then MkSlot (States1 t) s (States3 t) (Delta0 t) (Delta1 t) (Delta2 t) (Complete t)
  else if complete =? 1 then MkSlot (States1 t) (States2 t) s (Delta0 t) (Delta1 t) (Delta2 t) (Complete t)
  else MkSlot s (States2 t) (States3 t) (Delta0 t) (Delta1 t) (Delta2 t) (Complete t).
Definition delta_at (complete : Z) (t : ClientSlot) : ClientDelta :=
  if complete =? 0 then Delta0 t else if complete =? 1 then Delta1 t else Delta2 t.
Definition set_delta (complete : Z) (d : ClientDelta) (t : ClientSlot) : ClientSlot :=
  if complete =? 0 then MkSlot (States1 t) (States2 t) (States3 t) d (Delta1 t) (Delta2 t) (Complete t)
  else if complete =? 1 then MkSlot (States1 t) (States2 t) (States3 t) (Delta0 t) d (Delta2 t) (Complete t)
  else MkSlot (States1 t) (States2 t) (States3 t) (Delta0 t) (Delta1 t) d (Complete t).
Definition set_complete (complete : Z) (t : ClientSlot) : ClientSlot :=
  MkSlot (States1 t) (States2 t) (States3 t) (Delta0 t) (Delta1 t) (Delta2 t) complete.

(** *** Readers *)

(** The copy of the readable state, taken between two steps of the writer.  In the
    program the copy takes time: [reader_copy_stable] shows that it is whole while the
    writer gets no further than its second publication, and nothing is claimed of a
    reader that is slower. *)
Definition GetClientState (t : ClientSlot) : ClientState := read_state (Complete t) t.
Definition GetClientId (t : ClientSlot) : Z := CClientId (GetClientState t).
Definition GetClientAuth (t : ClientSlot) : Z := CAuth (GetClientState t).
Definition GetClientFunds (assetId : Z) (t : ClientSlot) : option (Z * Z) :=
  let s := GetClientState t in
  match GetAssetIdx assetId s with
  | Some i => Some (nth i (Confirmed s) 0, nth i (Attempt s) 0)
  | None => None
  end.

(** *** The writer *)

(** [!!auth] *)
Definition SetAuthStatus (auth : Z) (t : ClientSlot) : ClientSlot :=
  let s := write_state (Complete t) t in
  set_write_state (Complete t)
    (MkCS (CClientId s) (CAssetId s) (Confirmed s) (Attempt s) (if auth =? 0 then 0 else 1) (SessionId s)) t.

Definition SetClientState (response : ClientAccountSnapshot) (t : ClientSlot) : ClientSlot :=
  let complete := Complete t in
  let ref := read_state complete t in
  let s := write_state complete t in
  let t := set_write_state complete
    (MkCS (SnClientId response) (SnAssetId response) (Confirmed s) (Attempt s) 1 (u32 (SessionId s + 1))) t in
  set_delta complete
    (MkDelta (vsub (SnConfirmed response) (Confirmed ref)) (vsub (SnAttempt response) (Attempt ref))) t.

Definition SetClientAssets (confirmed attempt assetId : Z) (t : ClientSlot) : ClientSlot :=
  let complete := Complete t in
  let ids := CAssetId (write_state complete t) in
  let d := delta_at complete t in
  set_delta complete
    (MkDelta (add_asset ids assetId confirmed (DConfirmed d)) (add_asset ids assetId attempt (DAttempt d))) t.

(** The first half of [FlushTripleBuffer]: the edited state is completed and
    published. *)
Definition flush_publish (t : ClientSlot) : ClientSlot :=
  let complete := Complete t in
  let s := write_state complete t in
  let d := delta_at complete t in
  let t := set_write_state complete
    (MkCS (CClientId s) (CAssetId s) (vadd (Confirmed s) (DConfirmed d)) (vadd (Attempt s) (DAttempt d))
       (CAuth s) (SessionId s)) t in
  set_complete (if complete =? 2 then 0 else u8 (complete + 1)) t.

(** The second half: the oldest state catches up with the published one, [cur]. *)
Definition flush_catch_up (cur : ClientState) (t : ClientSlot) : ClientSlot :=
  let complete := Complete t in
  let s := write_state complete t in
  let t := set_delta complete (MkDelta (vzero MaxPositions) (vzero MaxPositions)) t in
  set_write_state complete
    (MkCS (CClientId cur) (CAssetId cur)
       (vadd (vadd (vadd (Confirmed s) (DConfirmed (Delta0 t))) (DConfirmed (Delta1 t))) (DConfirmed (Delta2 t)))
       (vadd (vadd (vadd (Attempt s) (DAttempt (Delta0 t))) (DAttempt (Delta1 t))) (DAttempt (Delta2 t)))
       (CAuth cur) (SessionId cur)) t.

Definition FlushTripleBuffer (t : ClientSlot) : ClientSlot :=
  let t := flush_publish t in
  flush_catch_up (read_state (Complete t) t) t.

(** *** By descriptor *)

Abbreviation ClientStates := (list ClientSlot).
Definition states_init (maxClients : nat) : ClientStates := replicate maxClients (slot_init cs_init).

Definition on_client {A} (fd : Z) (f : ClientSlot -> A) (cs : ClientStates) : result A :=
  match cs !! Z.to_nat fd with Some t => Ret (f t) | None => Crash OutOfBounds end.
Definition update_client (fd : Z) (f : ClientSlot -> ClientSlot) (cs : ClientStates) : result ClientStates :=
  t ← on_client fd f cs; Ret (<[Z.to_nat fd := t]> cs).

(** ** What the triple buffer implements *)

(** [pub] is what readers see, [edit] what the next flush publishes. *)
Record View := MkView { pub : ClientState; edit : ClientState }.

Inductive slot_op :=
| OpAssets (confirmed attempt assetId : Z)
| OpSnapshot (response : ClientAccountSnapshot)
| OpAuth (auth : Z)
| OpFlush.

Definition slot_do (op : slot_op) (t : ClientSlot) : ClientSlot :=
  match op with
  | OpAssets c a id => SetClientAssets c a id t
  | OpSnapshot r => SetClientState r t
  | OpAuth a => SetAuthStatus a t
  | OpFlush => FlushTripleBuffer t
  end.

Definition view_do (op : slot_op) (v : View) : View :=
  let e := edit v in
  match op with
  | OpAssets c a id =>
      MkView (pub v) (MkCS (CClientId e) (CAssetId e) (add_asset (CAssetId e) id c (Confirmed e))
                        (add_asset (CAssetId e) id a (Attempt e)) (CAuth e) (SessionId e))
  | OpSnapshot r =>
      MkView (pub v) (MkCS (SnClientId r) (SnAssetId r) (SnConfirmed r) (SnAttempt r) 1 (u32 (SessionId e + 1)))
  | OpAuth a =>
      MkView (pub v) (MkCS (CClientId e) (CAssetId e) (Confirmed e) (Attempt e) (if a =? 0 then 0 else 1) (SessionId e))
  | OpFlush => MkView e e
  end.

(** A snapshot has [MaxPositions] entries of type [int64_t]. *)
Definition vec_ok (v : list Z) : Prop := length v = MaxPositions /\ Forall in_s64 v.
Definition op_ok (op : slot_op) : Prop :=
  match op with
  | OpSnapshot r => length (SnAssetId r) = MaxPositions /\ vec_ok (SnConfirmed r) /\ vec_ok (SnAttempt r)
  | _ => True
  end.

(** ** Proofs *)

Lemma vadd_length a b : length a = length b -> length (vadd a b) = length a.
Proof. intros. unfold vadd. rewrite length_zip_with. lia. Qed.

Lemma vadd_ok a b : length a = MaxPositions -> length b = MaxPositions -> vec_ok (vadd a b).
Proof.
  intros Ha Hb. split; [rewrite vadd_length; lia|]. unfold vadd. revert b Ha Hb. generalize MaxPositions.
  induction a as [|x a IH]; intros n [|y b] Ha Hb; simpl; constructor; [apply s64_range|].
  simpl in *. by apply (IH (pred n)); lia.
Qed.

Lemma vadd_assoc_comm a b c : vadd (vadd a b) c = vadd (vadd a c) b.
Proof.
  unfold vadd. revert b c. induction a as [|x a IH]; intros [|y b] [|z c]; simpl; try done.
  f_equal; [|apply IH]. autorewrite with wrap. f_equal. lia.
Qed.

Lemma vadd_zero a : vec_ok a -> vadd a (vzero MaxPositions) = a.
Proof.
  intros [Hl Hr]. rewrite <- Hl. clear Hl. unfold vadd, vzero. induction Hr as [|x a Hx _ IH]; simpl; [done|].
  f_equal; [|done]. rewrite Z.add_0_r. by apply s64_small.
Qed.

Lemma vadd_vsub a b : vec_ok a -> length b = MaxPositions -> vadd b (vsub a b) = a.
Proof.
  intros [Hl Hr]. rewrite <- Hl. clear Hl. unfold vadd, vsub. revert b.
  induction Hr as [|x a Hx _ IH]; intros [|y b] Hb; simpl in *; try done. f_equal; [|apply IH; lia].
  autorewrite with wrap. rewrite <- (s64_small x) at 2 by done. f_equal. lia.
Qed.

Lemma vadd_add_asset ids id x w d : vadd w (add_asset ids id x d) = add_asset ids id x (vadd w d).
Proof.
  unfold vadd. revert w d. induction ids as [|i ids IH]; intros [|y w] [|z d]; simpl; try done.
  f_equal; [|apply IH]. destruct (i =? id); [|done]. autorewrite with wrap. f_equal. lia.
Qed.

Lemma add_asset_length ids id x v : length (add_asset ids id x v) = length v.
Proof. revert v. induction ids as [|i ids IH]; intros [|y v]; simpl; [done..|]. by rewrite IH. Qed.

(** The third state, and the delta it misses. *)
Definition third_state (c : Z) (t : ClientSlot) : ClientState :=
  if c =? 0 then States3 t else if c =? 1 then States1 t else States2 t.
Definition third_delta (c : Z) (t : ClientSlot) : ClientDelta :=
  if c =? 0 then Delta2 t else if c =? 1 then Delta0 t else Delta1 t.

(** One amount vector of the three states and of the deltas. *)
Record amounts_ok (p w th e dw dth : list Z) : Prop := {
  am_pub : vec_ok p;
  am_write : w = p;
  am_edit : vadd w dw = e;
  am_third : vadd th dth = p;
  am_dw : length dw = MaxPositions;
  am_dth : length dth = MaxPositions;
  am_th : length th = MaxPositions
}.

Record slot_rep (t : ClientSlot) (v : View) : Prop := {
  sr_complete : Complete t = 0 \/ Complete t = 1 \/ Complete t = 2;
  sr_pub : read_state (Complete t) t = pub v;
  sr_id : CClientId (write_state (Complete t) t) = CClientId (edit v);
  sr_assets : CAssetId (write_state (Complete t) t) = CAssetId (edit v);
  sr_auth : CAuth (write_state (Complete t) t) = CAuth (edit v);
  sr_session : SessionId (write_state (Complete t) t) = SessionId (edit v);
  sr_confirmed : amounts_ok (Confirmed (pub v)) (Confirmed (write_state (Complete t) t))
    (Confirmed (third_state (Complete t) t)) (Confirmed (edit v))
    (DConfirmed (delta_at (Complete t) t)) (DConfirmed (third_delta (Complete t) t));
  sr_attempt : amounts_ok (Attempt (pub v)) (Attempt (write_state (Complete t) t))
    (Attempt (third_state (Complete t) t)) (Attempt (edit v))
    (DAttempt (delta_at (Complete t) t)) (DAttempt (third_delta (Complete t) t))
}.

Lemma vzero_ok : vec_ok (vzero MaxPositions).
Proof. split; [done|]. unfold vzero. apply Forall_replicate. unfold in_s64. lia. Qed.

(** The amounts after a flush: the published ones and twice the copy. *)
Lemma amounts_flush p w th e dw dth :
  amounts_ok p w th e dw dth ->
  amounts_ok e (vadd (vadd th dth) dw) p e (vzero MaxPositions) dw /\ vec_ok (vadd th dth).
Proof.
  intros [Hp -> He Hth Hdw Hdth Hlth]. assert (Hve : vec_ok e) by (rewrite <- He; apply vadd_ok; [apply Hp|done]).
  split; [|by rewrite Hth]. split; try done; [by rewrite Hth|rewrite Hth, He; by apply vadd_zero|apply Hp].
Qed.

Lemma slot_rep_init s :
  vec_ok (Confirmed s) -> vec_ok (Attempt s) -> slot_rep (slot_init s) (MkView s s).
Proof.
  intros Hc Ha. split; simpl; try done; [by left| |].
  all: split; try done; try (by apply vadd_zero); apply Hc || apply Ha.
Qed.

(** The three orders in which [flush_catch_up] adds the deltas. *)
Lemma catch_up_orders th dw dth :
  length th = MaxPositions -> length dw = MaxPositions -> length dth = MaxPositions ->
  let z := vzero MaxPositions in
  let r := vadd (vadd th dth) dw in
  vadd (vadd (vadd th dw) z) dth = r /\ vadd (vadd (vadd th dth) dw) z = r /\ vadd (vadd (vadd th z) dth) dw = r.
Proof.
  intros H1 H2 H3 z r. assert (Hr : vec_ok r) by (apply vadd_ok; [rewrite vadd_length; lia|done]).
  split_and!.
  - rewrite (vadd_assoc_comm _ z dth), (vadd_assoc_comm th dw dth). by apply vadd_zero.
  - by apply vadd_zero.
  - rewrite (vadd_assoc_comm th z dth). unfold r. by rewrite vadd_zero by (by apply vadd_ok).
Qed.

Lemma cs_eta s s' :
  CClientId s = CClientId s' -> CAssetId s = CAssetId s' -> Confirmed s = Confirmed s' ->
  Attempt s = Attempt s' -> CAuth s = CAuth s' -> SessionId s = SessionId s' -> s = s'.
Proof. destruct s, s'. simpl. congruence. Qed.

(** What the two halves of a flush make of the states. *)
Definition completed (s : ClientState) (d : ClientDelta) : ClientState :=
  MkCS (CClientId s) (CAssetId s) (vadd (Confirmed s) (DConfirmed d)) (vadd (Attempt s) (DAttempt d))
    (CAuth s) (SessionId s).
Definition caught_up (cur s : ClientState) (a b c : ClientDelta) : ClientState :=
  MkCS (CClientId cur) (CAssetId cur)
    (vadd (vadd (vadd (Confirmed s) (DConfirmed a)) (DConfirmed b)) (DConfirmed c))
    (vadd (vadd (vadd (Attempt s) (DAttempt a)) (DAttempt b)) (DAttempt c)) (CAuth cur) (SessionId cur).

Lemma flush_0 s1 s2 s3 d0 d1 d2 :
  FlushTripleBuffer (MkSlot s1 s2 s3 d0 d1 d2 0) =
  MkSlot s1 (completed s2 d0) (caught_up (completed s2 d0) s3 d0 delta0 d2) d0 delta0 d2 1.
Proof. reflexivity. Qed.
Lemma flush_1 s1 s2 s3 d0 d1 d2 :
  FlushTripleBuffer (MkSlot s1 s2 s3 d0 d1 d2 1) =
  MkSlot (caught_up (completed s3 d1) s1 d0 d1 delta0) s2 (completed s3 d1) d0 d1 delta0 2.
Proof. reflexivity. Qed.
Lemma flush_2 s1 s2 s3 d0 d1 d2 :
  FlushTripleBuffer (MkSlot s1 s2 s3 d0 d1 d2 2) =
  MkSlot (completed s1 d2) (caught_up (completed s1 d2) s2 delta0 d1 d2) s3 delta0 d1 d2 0.
Proof. reflexivity. Qed.

(** A slot whose states are [P] (published), [W] (written), [T] (third) with
    their deltas, wherever [Complete] points. *)
Definition roles (t : ClientSlot) (P W T : ClientState) (dw dt : ClientDelta) : Prop :=
  read_state (Complete t) t = P /\ write_state (Complete t) t = W /\ third_state (Complete t) t = T /\
  delta_at (Complete t) t = dw /\ third_delta (Complete t) t = dt.

Lemma flush_roles t P W T dw dt :
  (Complete t = 0 \/ Complete t = 1 \/ Complete t = 2) -> roles t P W T dw dt ->
  exists N, roles (FlushTripleBuffer t) (completed W dw) N P delta0 dw /\
    (Complete (FlushTripleBuffer t) = 0 \/ Complete (FlushTripleBuffer t) = 1 \/ Complete (FlushTripleBuffer t) = 2) /\
    (N = caught_up (completed W dw) T dw delta0 dt \/ N = caught_up (completed W dw) T dt dw delta0 \/
     N = caught_up (completed W dw) T delta0 dt dw).
Proof.
  intros Hc (<- & <- & <- & <- & <-). destruct t as [s1 s2 s3 d0 d1 d2 c]. cbn [Complete] in Hc.
  destruct Hc as [->|[->| ->]]; [rewrite flush_0|rewrite flush_1|rewrite flush_2]; eexists;
    (split; [split_and!; reflexivity|]; split; [cbn; lia|]); auto.
Qed.

Lemma caught_up_amounts cur T dw dt :
  length (Confirmed T) = MaxPositions -> length (DConfirmed dw) = MaxPositions -> length (DConfirmed dt) = MaxPositions ->
  length (Attempt T) = MaxPositions -> length (DAttempt dw) = MaxPositions -> length (DAttempt dt) = MaxPositions ->
  forall N, (N = caught_up cur T dw delta0 dt \/ N = caught_up cur T dt dw delta0 \/ N = caught_up cur T delta0 dt dw) ->
  N = MkCS (CClientId cur) (CAssetId cur) (vadd (vadd (Confirmed T) (DConfirmed dt)) (DConfirmed dw))
        (vadd (vadd (Attempt T) (DAttempt dt)) (DAttempt dw)) (CAuth cur) (SessionId cur).
Proof.
  intros H1 H2 H3 H4 H5 H6 N HN.
  destruct (catch_up_orders _ _ _ H1 H2 H3) as (C1 & C2 & C3).
  destruct (catch_up_orders _ _ _ H4 H5 H6) as (A1 & A2 & A3).
  destruct HN as [->|[->| ->]]; unfold caught_up, delta0; cbn [DConfirmed DAttempt];
    [rewrite C1, A1|rewrite C2, A2|rewrite C3, A3]; reflexivity.
Qed.

Lemma flush_rep t v : slot_rep t v -> slot_rep (FlushTripleBuffer t) (MkView (edit v) (edit v)).
Proof.
  intros [Hc Hp Hi Ha Hau Hs HC HA].
  destruct (flush_roles t _ _ _ _ _ Hc ltac:(unfold roles; split_and!; reflexivity)) as (N & HR & Hc' & HN).
  apply caught_up_amounts in HN; [|apply HC..|apply HA|apply HA|apply HA].
  destruct HR as (R1 & R2 & R3 & R4 & R5).
  assert (He : completed (write_state (Complete t) t) (delta_at (Complete t) t) = edit v).
  { unfold completed. apply cs_eta; cbn; try done; [apply (am_edit _ _ _ _ _ _ HC)|apply (am_edit _ _ _ _ _ _ HA)]. }
  rewrite He in R1, HN. apply amounts_flush in HC as [HC _]. apply amounts_flush in HA as [HA _].
  split; [done|done|..]; rewrite ?R2, ?R3, ?R4, ?R5, HN; cbn [CClientId CAssetId Confirmed Attempt CAuth SessionId pub edit]; try done.
  - rewrite Hp. exact HC.
  - rewrite Hp. exact HA.
Qed.

(** Edits only touch the written state and its delta. *)
Lemma set_write_roles t s P W T dw dt :
  (Complete t = 0 \/ Complete t = 1 \/ Complete t = 2) -> roles t P W T dw dt ->
  roles (set_write_state (Complete t) s t) P s T dw dt /\ Complete (set_write_state (Complete t) s t) = Complete t.
Proof.
  intros Hc (<- & <- & <- & <- & <-). destruct t as [s1 s2 s3 d0 d1 d2 c]. cbn [Complete] in Hc.
  destruct Hc as [->|[->| ->]]; split; try reflexivity; split_and!; reflexivity.
Qed.

Lemma set_delta_roles t d P W T dw dt :
  (Complete t = 0 \/ Complete t = 1 \/ Complete t = 2) -> roles t P W T dw dt ->
  roles (set_delta (Complete t) d t) P W T d dt /\ Complete (set_delta (Complete t) d t) = Complete t.
Proof.
  intros Hc (<- & <- & <- & <- & <-). destruct t as [s1 s2 s3 d0 d1 d2 c]. cbn [Complete] in Hc.
  destruct Hc as [->|[->| ->]]; split; try reflexivity; split_and!; reflexivity.
Qed.

Lemma slot_do_rep op t v : op_ok op -> slot_rep t v -> slot_rep (slot_do op t) (view_do op v).
Proof.
  intros Hop HR. pose proof HR as [Hc Hp Hi Ha Hau Hs HC HA].
  assert (Hro : roles t _ _ _ _ _) by (unfold roles; split_and!; reflexivity).
  destruct op as [c a id|r|a|]; cbn [slot_do view_do]; [| | |by apply flush_rep].
  - unfold SetClientAssets. set (d := MkDelta _ _).
    destruct (set_delta_roles t d _ _ _ _ _ Hc Hro) as [(R1 & R2 & R3 & R4 & R5) E].
    split; rewrite ?R1, ?R2, ?R3, ?R4, ?R5, ?E; try done; cbn [pub edit Confirmed Attempt];
      unfold d; cbn [DConfirmed DAttempt]; rewrite Ha.
    + destruct HC as [? ? ? ? ? ? ?]. split; try done; [rewrite vadd_add_asset; by f_equal|by rewrite add_asset_length].
    + destruct HA as [? ? ? ? ? ? ?]. split; try done; [rewrite vadd_add_asset; by f_equal|by rewrite add_asset_length].
  - unfold SetClientState. set (s := MkCS _ _ _ _ _ _). set (d := MkDelta _ _).
    destruct (set_write_roles t s _ _ _ _ _ Hc Hro) as [Hro' E'].
    destruct (set_delta_roles _ d _ _ _ _ _ ltac:(rewrite E'; exact Hc) Hro') as [(R1 & R2 & R3 & R4 & R5) E].
    rewrite E' in R1, R2, R3, R4, R5, E.
    destruct Hop as (_ & Hrc & Hra).
    split; rewrite ?R1, ?R2, ?R3, ?R4, ?R5, ?E; try done; unfold s, d; cbn; rewrite ?Hp.
    + by rewrite Hs.
    + destruct HC as [Hpub Hw ? ? ? ? ?]. split; try done.
      * rewrite Hw. apply vadd_vsub; [done|apply Hpub].
      * unfold vsub. rewrite length_zip_with. destruct Hrc as [-> _], Hpub as [-> _]. lia.
    + destruct HA as [Hpub Hw ? ? ? ? ?]. split; try done.
      * rewrite Hw. apply vadd_vsub; [done|apply Hpub].
      * unfold vsub. rewrite length_zip_with. destruct Hra as [-> _], Hpub as [-> _]. lia.
  - unfold SetAuthStatus. set (s := MkCS _ _ _ _ _ _).
    destruct (set_write_roles t s _ _ _ _ _ Hc Hro) as [(R1 & R2 & R3 & R4 & R5) E].
    split; rewrite ?R1, ?R2, ?R3, ?R4, ?R5, ?E; done.
Qed.

Definition slot_run (ops : list slot_op) (t : ClientSlot) : ClientSlot := foldl (fun t op => slot_do op t) t ops.
Definition view_run (ops : list slot_op) (v : View) : View := foldl (fun v op => view_do op v) v ops.

Lemma slot_run_rep ops t v : Forall op_ok ops -> slot_rep t v -> slot_rep (slot_run ops t) (view_run ops v).
Proof.
  intros Hops. revert t v. induction Hops as [|op ops Hop _ IH]; intros t v HR; [done|].
  apply IH. by apply slot_do_rep.
Qed.

(** C18: whatever sequence of trade deltas, snapshots, authentication changes and
    flushes the writer applies, a reader of the triple buffer that copies between
    two steps of the writer gets the state of the last flush, with every edit made
    before it and none made after. *)
Theorem triple_buffer_refines_view s ops :
  vec_ok (Confirmed s) -> vec_ok (Attempt s) -> Forall op_ok ops ->
  GetClientState (slot_run ops (slot_init s)) = pub (view_run ops (MkView s s)).
Proof. intros Hc Ha Hops. apply slot_run_rep; [done|]. by apply slot_rep_init. Qed.

Lemma triple_buffer_refines_view_witness :
  GetAssetConfirmed 0 (GetClientState
    (slot_run [OpAssets 100 0 0; OpFlush; OpAssets 7 0 0; OpFlush; OpAssets 50 0 0] (slot_init cs_init))) = 107.
Proof.
  rewrite (triple_buffer_refines_view cs_init [OpAssets 100 0 0; OpFlush; OpAssets 7 0 0; OpFlush; OpAssets 50 0 0]);
    [reflexivity|exact vzero_ok|exact vzero_ok|repeat constructor].
Defined.

(** *** Readers during a flush *)

Definition is_edit (op : slot_op) : Prop := op <> OpFlush.

Lemma edit_reads op t :
  (Complete t = 0 \/ Complete t = 1 \/ Complete t = 2) -> is_edit op ->
  Complete (slot_do op t) = Complete t /\ read_state (Complete t) (slot_do op t) = read_state (Complete t) t /\
  third_state (Complete t) (slot_do op t) = third_state (Complete t) t.
Proof.
  intros Hc He. destruct t as [s1 s2 s3 d0 d1 d2 c]. cbn [Complete] in Hc.
  destruct op as [x y id|r|a|]; [| | |by destruct He]; destruct Hc as [->|[->| ->]]; split_and!; reflexivity.
Qed.

Lemma edits_reads ops t :
  (Complete t = 0 \/ Complete t = 1 \/ Complete t = 2) -> Forall is_edit ops ->
  Complete (slot_run ops t) = Complete t /\ read_state (Complete t) (slot_run ops t) = read_state (Complete t) t /\
  third_state (Complete t) (slot_run ops t) = third_state (Complete t) t.
Proof.
  intros Hc Hops. revert t Hc. induction Hops as [|op ops Hop _ IH]; intros t Hc; [done|].
  destruct (edit_reads op t Hc Hop) as (E & R & Th). cbn [slot_run foldl].
  destruct (IH (slot_do op t) ltac:(by rewrite E)) as (E2 & R2 & T2). rewrite E in *.
  change (foldl _ (slot_do op t) ops) with (slot_run ops (slot_do op t)). split_and!; congruence.
Qed.

Lemma publish_reads t :
  (Complete t = 0 \/ Complete t = 1 \/ Complete t = 2) ->
  read_state (Complete t) (flush_publish t) = read_state (Complete t) t /\
  third_state (Complete t) (flush_publish t) = third_state (Complete t) t /\
  read_state (Complete t) (FlushTripleBuffer t) = read_state (Complete t) t /\
  (forall u, third_state (Complete (FlushTripleBuffer t)) u = read_state (Complete t) u).
Proof.
  intros Hc. destruct t as [s1 s2 s3 d0 d1 d2 c]. cbn [Complete] in Hc.
  destruct Hc as [->|[->| ->]]; split_and!; reflexivity.
Qed.

(** A reader that loaded the index [Complete t] copies a stable state: the
    writer may edit, flush, edit again and publish a second time before it
    touches the state the reader is copying. *)
Theorem reader_copy_stable t es es' :
  Complete t = 0 \/ Complete t = 1 \/ Complete t = 2 -> Forall is_edit es -> Forall is_edit es' ->
  let c := Complete t in
  let t1 := slot_run es t in
  let t2 := slot_run es' (FlushTripleBuffer t1) in
  read_state c t1 = read_state c t /\ read_state c (flush_publish t1) = read_state c t /\
  read_state c (FlushTripleBuffer t1) = read_state c t /\ read_state c t2 = read_state c t /\
  read_state c (flush_publish t2) = read_state c t.
Proof.
  intros Hc He He' c t1 t2.
  destruct (edits_reads es t Hc He) as (E1 & R1 & _). fold t1 c in E1, R1.
  assert (Hc1 : Complete t1 = 0 \/ Complete t1 = 1 \/ Complete t1 = 2) by (by rewrite E1).
  destruct (publish_reads t1 Hc1) as (P1 & _ & P2 & Hth). rewrite E1 in P1, P2, Hth.
  destruct (flush_roles t1 _ _ _ _ _ Hc1 ltac:(unfold roles; split_and!; reflexivity)) as (_ & _ & Hc2 & _).
  destruct (edits_reads es' (FlushTripleBuffer t1) Hc2 He') as (E2 & _ & T2). fold t2 in E2, T2. rewrite !Hth in T2.
  destruct (publish_reads t2 ltac:(by rewrite E2)) as (_ & T3 & _). rewrite E2, !Hth in T3.
  split_and!; congruence.
Qed.

Lemma reader_copy_stable_witness :
  let t := slot_init cs_init in
  read_state 0 (flush_publish (slot_run [OpAssets 1 0 0] (FlushTripleBuffer (slot_run [OpAuth 1] t)))) = cs_init.
Proof.
  apply (reader_copy_stable (slot_init cs_init) [OpAuth 1] [OpAssets 1 0 0]);
    [by left|repeat constructor; discriminate|repeat constructor; discriminate].
Defined.
