(* ===== verification/OrderRouter.v ===== *)
(** The order path of the gateway (src/market_server/order_gateway/include):
    [LocalAttempts] (local_attempts.hpp), the risk check (order_risk_check.hpp),
    [OrderConfirmation] and [ClientMessage], and [OrderRouter] (order_router.hpp),
    which checks each order of a client's batch, numbers it, sends it to the
    matching engine of its asset and queues the confirmation.

    Sockets: [send] is the operating system's; every call consumes one
    [SendOutcome], a number of bytes taken, an interruption or an error, together
    with the switches of engine descriptors the watcher thread makes meanwhile.
    What a socket took is logged in [Wire].  The loops recurse on the outcomes;
    running out of them is a send that has not returned ([Blocked]).
    [OutgoingConfirmation.Push] appends to [Confirmations].

    Main results: the accepted orders of a session never commit more than the
    client has; a batch sent over working sockets is forwarded in full, in order,
    to the engines of its assets, with one confirmation per order. *)

From S2P Require Import Prelude WireTypes Codec SpscQueue StoragePool GatewayStates Buffers.

(** ** Bytes of an order (packed, little endian; the seven padding bytes are
    copied along and read by nobody, and are 0 here) *)

Definition type_byte (t : OrderType) : Z := match t with LIMIT => 0 | MARKET => 1 end.
Definition side_byte (s : OrderSide) : Z := match s with BUY => 0 | SELL => 1 end.
Definition action_byte (a : OrderAction) : Z := match a with EXECUTE => 0 | CANCEL_ORDER => 1 end.

Definition order_bytes (o : Order) : list Z :=
  le_bytes 8 (u64 (Price o)) ++ le_bytes 8 (OrderId o) ++ le_bytes 4 (ClientOrderId o) ++
  le_bytes 4 (ClientId o) ++ le_bytes 4 (Amount o) ++ le_bytes 2 (AssetId o) ++
  [type_byte (Type_ o); side_byte (Side o); action_byte (Action o)] ++ replicate 7 0.

Definition sizeof_Order : nat := 40.

Lemma order_bytes_length o : length (order_bytes o) = sizeof_Order.
Proof. unfold order_bytes. by rewrite !length_app, !le_bytes_length. Qed.

(** ** Risk check *)

Inductive OrderConfirmationStatus :=
| Accepted | InsufficientFunds | MaxPositionsStatus | InvalidPrice | InvalidQuantity
| UnknownSymbol | TechnicalFailure | UserNotConnected | BadClientId.

#[export] Instance status_eq_dec : EqDecision OrderConfirmationStatus.
Proof. solve_decision. Defined.

Record OrderConfirmation := MkConfirmation {
  OcOrderId : Z;         (* uint32_t *)
  OcClientOrderId : Z;   (* uint32_t *)
  Status : OrderConfirmationStatus
}.

Record ClientMessage := MkMessage { MsgFd : Z; Confirmation : OrderConfirmation }.

(** [LocalAttempts] *)
Definition attempts_Clear : list Z := vzero MaxPositions.

(** The position whose funds an order needs: cash to buy, the asset to sell. *)
Definition risk_asset (o : Order) : Z := match Side o with BUY => 0 | SELL => AssetId o end.
Definition risk_amount (o : Order) : Z :=
  match Side o with SELL => Amount o | BUY => s64 (Amount o * Price o) end.

(** Returns the status, the local attempts and the local session id. *)
Definition CheckOrderRisk (curState : ClientState) (localAttempt : list Z) (localSessionId : Z)
    (order : Order) (auth : Z) : OrderConfirmationStatus * list Z * Z :=
  if auth =? 0 then (UserNotConnected, localAttempt, localSessionId)
  else
    let '(localAttempt, localSessionId) :=
      if negb (SessionId curState =? localSessionId) then (attempts_Clear, SessionId curState)
      else (localAttempt, localSessionId) in
    if negb (CClientId curState =? ClientId order) then (BadClientId, localAttempt, localSessionId)
    else
      let assetId := risk_asset order in
      match GetAssetIdx assetId curState with
      | None =>
          ((if MaxAssets <=? assetId then UnknownSymbol else MaxPositionsStatus), localAttempt, localSessionId)
      | Some idx =>
          let confirmed := GetConfirmedAt idx curState in
          let attempt := s64 (GetAttemptAt idx curState + nth idx localAttempt 0) in
          let amount := risk_amount order in
          if s64 (confirmed - attempt) <? amount then (InsufficientFunds, localAttempt, localSessionId)
          else (Accepted, <[idx := s64 (nth idx localAttempt 0 + amount)]> localAttempt, localSessionId)
      end.

(** ** The router *)

Inductive SendReturn := Sent (n : nat) | Interrupted | Failed.
Record SendOutcome := MkOutcome { ret : SendReturn; switches : list (Z * Z) }.

Record Router := MkRouter {
  LocalAttempt : list (list Z);               (* by descriptor *)
  LocalSessionId : list Z;
  MatchingEngines : list Z;                   (* VersionedFd by asset *)
  OrderBuffer : list BytesBuffer;             (* by asset *)
  OrderOffset : Z;                            (* size_t *)
  ConfirmationBuffer : list BytesBuffer;      (* by descriptor *)
  GatewayId : Z;                              (* uint16_t *)
  OrdersCount : Z;                            (* uint64_t *)
  Confirmations : list ClientMessage;         (* pushed to the message sender *)
  Wire : list (Z * list Z)                    (* descriptor and bytes taken, in order *)
}.

Definition set_engines (m : list Z) (r : Router) : Router :=
  MkRouter (LocalAttempt r) (LocalSessionId r) m (OrderBuffer r) (OrderOffset r) (ConfirmationBuffer r)
    (GatewayId r) (OrdersCount r) (Confirmations r) (Wire r).
Definition set_order_buffers (b : list BytesBuffer) (off : Z) (r : Router) : Router :=
  MkRouter (LocalAttempt r) (LocalSessionId r) (MatchingEngines r) b off (ConfirmationBuffer r)
    (GatewayId r) (OrdersCount r) (Confirmations r) (Wire r).
Definition set_confirmation_buffers (b : list BytesBuffer) (r : Router) : Router :=
  MkRouter (LocalAttempt r) (LocalSessionId r) (MatchingEngines r) (OrderBuffer r) (OrderOffset r) b
    (GatewayId r) (OrdersCount r) (Confirmations r) (Wire r).
Definition set_local (a : list (list Z)) (s : list Z) (r : Router) : Router :=
  MkRouter a s (MatchingEngines r) (OrderBuffer r) (OrderOffset r) (ConfirmationBuffer r)
    (GatewayId r) (OrdersCount r) (Confirmations r) (Wire r).
Definition set_count (n : Z) (r : Router) : Router :=
  MkRouter (LocalAttempt r) (LocalSessionId r) (MatchingEngines r) (OrderBuffer r) (OrderOffset r)
    (ConfirmationBuffer r) (GatewayId r) n (Confirmations r) (Wire r).
Definition push_confirmation (m : ClientMessage) (r : Router) : Router :=
  MkRouter (LocalAttempt r) (LocalSessionId r) (MatchingEngines r) (OrderBuffer r) (OrderOffset r)
    (ConfirmationBuffer r) (GatewayId r) (OrdersCount r) (Confirmations r ++ [m]) (Wire r).
Definition log_sent (fd : Z) (bytes : list Z) (r : Router) : Router :=
  MkRouter (LocalAttempt r) (LocalSessionId r) (MatchingEngines r) (OrderBuffer r) (OrderOffset r)
    (ConfirmationBuffer r) (GatewayId r) (OrdersCount r) (Confirmations r) (Wire r ++ [(fd, bytes)]).

(** An array access [a[i]] without a bounds check. *)
Definition at_ {A} (a : list A) (i : Z) : result A :=
  match a !! Z.to_nat i with Some x => Ret x | None => Crash OutOfBounds end.

(** [etcdOnMEResponse]: a PUT stores the descriptor of the new connection, a
    DELETE stores -1.  The event and the connection come from the watcher. *)
Definition on_engine_event (asset newFd : Z) (r : Router) : result Router :=
  v ← at_ (MatchingEngines r) asset;
  Ret (set_engines (<[Z.to_nat asset := SwitchFd newFd v]> (MatchingEngines r)) r).

Fixpoint on_engine_events (evs : list (Z * Z)) (r : Router) : result Router :=
  match evs with
  | [] => Ret r
  | (asset, fd) :: evs => r ← on_engine_event asset fd r; on_engine_events evs r
  end.

(** How many of [left] bytes a socket takes: at least one, at most all. *)
Definition taken (n left : nat) : nat := S (Nat.min n (left - 1)).

(** The loop of [SendOrder] and [SendOrderConfirmation]; the result is [None]
    when everything was sent and [Some totalSent] after an error. *)
Fixpoint send_loop (outs : list SendOutcome) (fd : Z) (data : list Z) (totalSent : nat) (r : Router)
    : result (option nat * list SendOutcome * Router) :=
  if (length data <=? totalSent)%nat then Ret (None, outs, r)
  else
    match outs with
    | [] => Crash Blocked
    | o :: outs =>
        r ← on_engine_events (switches o) r;
        match ret o with
        | Sent n =>
            let k := taken n (length data - totalSent) in
            send_loop outs fd data (totalSent + k) (log_sent fd (take k (drop totalSent data)) r)
        | Interrupted => send_loop outs fd data totalSent r
        | Failed => Ret (Some totalSent, outs, r)
        end
    end.

(** The loop of [DrainBuffer]: -1 is added to [totalSent] before it is looked at. *)
Fixpoint drain_loop (outs : list SendOutcome) (fd : Z) (data : list Z) (bufferSize totalSent : Z) (r : Router)
    : result (option Z * list SendOutcome * Router) :=
  if bufferSize <=? totalSent then Ret (None, outs, r)
  else
    match outs with
    | [] => Crash Blocked
    | o :: outs =>
        r ← on_engine_events (switches o) r;
        match ret o with
        | Sent n =>
            let k := taken n (Z.to_nat (bufferSize - totalSent)) in
            drain_loop outs fd data bufferSize (u64 (totalSent + Z.of_nat k))
              (log_sent fd (take k (drop (Z.to_nat totalSent) data)) r)
        | Interrupted => drain_loop outs fd data bufferSize (u64 (totalSent - 1)) r
        | Failed => Ret (Some (u64 (totalSent - 1)), outs, r)
        end
    end.

Definition order_buffer_capacity : nat := GatewayEpollReceiveBatchSize * sizeof_Order.

(** [DrainBuffer<Order>] *)
Definition DrainBuffer (asset fd : Z) (outs : list SendOutcome) (r : Router)
    : result (bool * list SendOutcome * Router) :=
  b ← at_ (OrderBuffer r) asset;
  '(stop, outs, r) ← drain_loop outs fd (GetData b) (GetSize b) (OrderOffset r) r;
  match stop with
  | None => Ret (true, outs, set_order_buffers (<[Z.to_nat asset := Clear b]> (OrderBuffer r)) 0 r)
  | Some totalSent =>
      let sentOrders := Z.quot (s32 totalSent) (Z.of_nat sizeof_Order) in
      let sentBytes := Z.rem (s32 totalSent) (Z.of_nat sizeof_Order) in
      b ← Shift order_buffer_capacity (u64 (sentOrders * Z.of_nat sizeof_Order)) b;
      Ret (false, outs, set_order_buffers (<[Z.to_nat asset := b]> (OrderBuffer r)) (u64 sentBytes) r)
  end.

Definition SendOrder (curOrder : Order) (curVal : Z) (outs : list SendOutcome) (r : Router)
    : result (bool * list SendOutcome * Router) :=
  let curFd := Fd curVal in
  '(stop, outs, r) ← send_loop outs curFd (order_bytes curOrder) 0 r;
  match stop with
  | Some totalSent =>
      b ← at_ (OrderBuffer r) (AssetId curOrder);
      let b := Add (order_bytes curOrder) (Z.of_nat sizeof_Order) b in
      Ret (false, outs,
           set_order_buffers (<[Z.to_nat (AssetId curOrder) := b]> (OrderBuffer r)) (Z.of_nat totalSent) r)
  | None =>
      newVal ← at_ (MatchingEngines r) (AssetId curOrder);
      Ret (newVal =? curVal, outs, r)
  end.

(** The member function [CheckOrderRisk]. *)
Definition CheckRisk (clientStates : ClientStates) (fd : Z) (order : Order) (auth : Z) (r : Router)
    : result (OrderConfirmationStatus * Router) :=
  if auth =? 0 then Ret (UserNotConnected, r)
  else
    curState ← on_client fd GetClientState clientStates;
    la ← at_ (LocalAttempt r) fd;
    ls ← at_ (LocalSessionId r) fd;
    let '(status, la, ls) := CheckOrderRisk curState la ls order auth in
    let r := set_local (<[Z.to_nat fd := la]> (LocalAttempt r)) (<[Z.to_nat fd := ls]> (LocalSessionId r)) r in
    match status with
    | BadClientId =>
        b ← at_ (ConfirmationBuffer r) fd;
        Ret (status, set_confirmation_buffers (<[Z.to_nat fd := Clear b]> (ConfirmationBuffer r)) r)
    | _ => Ret (status, r)
    end.

Definition COUNTER_MASK : Z := 2 ^ 48 - 1.

(** The 64-bit id, and what is left of it in the 32-bit field of the confirmation. *)
Definition full_order_id (gatewayId count : Z) : Z := Z.lor (u64 (Z.shiftl gatewayId 48)) (Z.land count COUNTER_MASK).

(** One order of the loop of [consumeOrder]. *)
Definition route_order (clientStates : ClientStates) (curFd auth : Z) (order : Order)
    (outs : list SendOutcome) (r : Router) : result (list SendOutcome * Router) :=
  curVal ← at_ (MatchingEngines r) (AssetId order);
  '(status, r) ←
    (if Fd curVal =? -1 then Ret (TechnicalFailure, r) else CheckRisk clientStates curFd order auth r);
  let confirmation :=
    MkConfirmation (u32 (full_order_id (GatewayId r) (OrdersCount r))) (ClientOrderId order) status in
  let r := set_count (u64 (OrdersCount r + 1)) r in
  let order := set_OrderId (OcOrderId confirmation) order in
  match status with
  | Accepted =>
      '(drained, outs, r) ← DrainBuffer (AssetId order) curFd outs r;
      if negb drained then
        b ← at_ (OrderBuffer r) (AssetId order);
        if negb (CanAdd order_buffer_capacity (Z.of_nat sizeof_Order) b) then Ret (outs, r)
        else
          Ret (outs, set_order_buffers
                 (<[Z.to_nat (AssetId order) := Add (order_bytes order) (Z.of_nat sizeof_Order) b]> (OrderBuffer r))
                 (OrderOffset r) r)
      else
        '(sent, outs, r) ← SendOrder order curVal outs r;
        Ret (outs, if (sent : bool) then push_confirmation (MkMessage curFd confirmation) r else r)
  | _ => Ret (outs, push_confirmation (MkMessage curFd confirmation) r)
  end.

Fixpoint route_orders (clientStates : ClientStates) (curFd auth : Z) (orders : list Order)
    (outs : list SendOutcome) (r : Router) : result (list SendOutcome * Router) :=
  match orders with
  | [] => Ret (outs, r)
  | o :: orders =>
      '(outs, r) ← route_order clientStates curFd auth o outs r;
      route_orders clientStates curFd auth orders outs r
  end.

Lemma route_orders_app cs fd auth l1 l2 outs r :
  route_orders cs fd auth (l1 ++ l2) outs r = ('(outs, r) ← route_orders cs fd auth l1 outs r; route_orders cs fd auth l2 outs r).
Proof.
  revert outs r. induction l1 as [|o l1 IH]; intros outs r; [done|]. cbn [app route_orders].
  destruct (route_order cs fd auth o outs r) as [[outs1 r1]|]; [|done]. cbn [mbind result_bind]. apply IH.
Qed.

(** [consumeOrder]: [heap] holds the batches the queue's pointers point to. *)
Definition consumeOrder (QueueSize PoolSize : nat) (clientStates : ClientStates)
    (heap : gmap nat (ObjectBatch Order)) (l : Local) (q : SpscQueue (T := nat)) (OrdersPool : StoragePool)
    (outs : list SendOutcome) (r : Router)
    : result (Local * SpscQueue (T := nat) * StoragePool * list SendOutcome * Router) :=
  match TryPop 0%nat QueueSize (QTail q) l q with
  | (None, l, q) => Ret (l, q, OrdersPool, outs, r)
  | (Some p, l, q) =>
      batch ← deref (heap !! p);
      if (length (BatchData batch) <? BatchSize batch)%nat then Crash OutOfBounds
      else
        '(outs, r) ← route_orders clientStates (BatchFd batch) (Auth batch) (take (BatchSize batch) (BatchData batch)) outs r;
        let '(_, pool) := Release PoolSize (QHead (Free OrdersPool)) (Some p) OrdersPool in
        Ret (l, q, pool, outs, r)
  end.

Definition router_init (gatewayId count : Z) (mem cmem : list Z) : Router :=
  MkRouter (replicate GatewayMaxClients attempts_Clear) (replicate GatewayMaxClients 0)
    (replicate (Z.to_nat MaxAssets) vfd_default) (replicate (Z.to_nat MaxAssets) (bytes_init mem)) 0
    (replicate GatewayMaxClients (bytes_init cmem)) gatewayId count [] [].

(** ** Funds *)

(** A sequence of checks of one client against the same published state. *)
Fixpoint risk_run (s : ClientState) (auth : Z) (orders : list Order) (la : list Z) (ls : Z)
    : list OrderConfirmationStatus :=
  match orders with
  | [] => []
  | o :: orders =>
      let '(st, la, ls) := CheckOrderRisk s la ls o auth in st :: risk_run s auth orders la ls
  end.

(** What the accepted orders commit of the position [i]. *)
Fixpoint committed (s : ClientState) (i : nat) (orders : list Order) (sts : list OrderConfirmationStatus) : Z :=
  match orders, sts with
  | o :: orders, st :: sts =>
      (if decide (st = Accepted /\ GetAssetIdx (risk_asset o) s = Some i) then risk_amount o else 0)
      + committed s i orders sts
  | _, _ => 0
  end.

(** The attempts the next check starts from. *)
Definition session_attempts (s : ClientState) (la : list Z) (ls : Z) : list Z :=
  if SessionId s =? ls then la else attempts_Clear.

(** A price that is not negative and a cost that fits 64 bits. *)
Definition sane_order (o : Order) : Prop :=
  0 <= Amount o < 2 ^ 32 /\ (Side o = BUY -> 0 <= Amount o * Price o < 2 ^ 63).

Lemma risk_amount_sane o : sane_order o -> 0 <= risk_amount o < 2 ^ 63.
Proof.
  intros [Ha Hp]. unfold risk_amount. destruct (Side o); [|lia].
  rewrite s64_small; [by apply Hp|]. specialize (Hp eq_refl). unfold in_s64. lia.
Qed.

Lemma find_asset_lt ids a j i : find_asset ids a j = Some i -> (j <= i < j + length ids)%nat.
Proof.
  revert j. induction ids as [|id ids IH]; intros j; simpl; [done|].
  destruct (id =? a); [intros [= <-]; lia|]. intros H%IH. lia.
Qed.

Lemma CheckOrderRisk_step s la ls o auth st la' ls' :
  auth <> 0 -> CheckOrderRisk s la ls o auth = (st, la', ls') ->
  let eff := session_attempts s la ls in
  session_attempts s la' ls' =
    match st, GetAssetIdx (risk_asset o) s with
    | Accepted, Some i => <[i := s64 (nth i eff 0 + risk_amount o)]> eff
    | _, _ => eff
    end /\
  (st = Accepted -> exists i, GetAssetIdx (risk_asset o) s = Some i /\
     risk_amount o <= s64 (GetConfirmedAt i s - s64 (GetAttemptAt i s + nth i eff 0))).
Proof.
  intros Hau. unfold CheckOrderRisk, session_attempts. destruct (Z.eqb_spec auth 0); [done|].
  destruct (Z.eqb_spec (SessionId s) ls) as [<-|Hne]; cbn [negb];
    (destruct (CClientId s =? ClientId o); cbn [negb];
     [destruct (GetAssetIdx (risk_asset o) s) as [i|] eqn:Ei;
      [zcase|destruct (MaxAssets <=? risk_asset o)]|]);
    intros [= <- <- <-]; rewrite ?Z.eqb_refl; (split; [done|]); try done; intros _; by exists i.
Qed.

Lemma risk_run_committed s auth orders i la ls :
  auth <> 0 -> Forall sane_order orders -> (i < MaxPositions)%nat ->
  length (CAssetId s) = MaxPositions ->
  length (session_attempts s la ls) = MaxPositions ->
  let c := nth i (session_attempts s la ls) 0 in
  0 <= c -> 0 <= GetAttemptAt i s -> GetAttemptAt i s + c <= GetConfirmedAt i s < 2 ^ 63 ->
  GetAttemptAt i s + c + committed s i orders (risk_run s auth orders la ls) <= GetConfirmedAt i s.
Proof.
  intros Hau Hor Hi Hids. revert la ls. induction Hor as [|o orders Ho _ IH]; intros la ls Hlen c Hc Ha Hconf; simpl; [lia|].
  destruct (CheckOrderRisk s la ls o auth) as [[st la'] ls'] eqn:E.
  destruct (CheckOrderRisk_step _ _ _ _ _ _ _ _ Hau E) as [Heff Hacc]. pose proof (risk_amount_sane o Ho) as Hr.
  simpl. specialize (IH la' ls'). rewrite Heff in IH.
  destruct (decide (st = Accepted)) as [->|Hst].
  2: { rewrite decide_False by (intros [? _]; done).
       assert (Hm : match st with Accepted => match GetAssetIdx (risk_asset o) s with
                    | Some i => <[i := s64 (nth i (session_attempts s la ls) 0 + risk_amount o)]> (session_attempts s la ls)
                    | None => session_attempts s la ls end | _ => session_attempts s la ls end = session_attempts s la ls)
         by (by destruct st).
       rewrite Hm in IH. specialize (IH Hlen Hc Ha Hconf). fold c in IH. lia. }
  destruct (Hacc eq_refl) as (j & Hj & Hle). rewrite Hj in *.
  assert (Hjl : (j < MaxPositions)%nat) by (apply find_asset_lt in Hj; lia).
  rewrite length_insert in IH. specialize (IH Hlen).
  destruct (decide (j = i)) as [->|Hji].
  - rewrite decide_True by done. fold c in Hle, IH.
    rewrite (s64_small (GetAttemptAt i s + c)) in Hle by (unfold in_s64; lia).
    rewrite (s64_small (GetConfirmedAt i s - _)) in Hle by (unfold in_s64; lia).
    rewrite (s64_small (c + risk_amount o)) in IH by (unfold in_s64; lia).
    rewrite nth_lookup, list_lookup_insert_eq in IH by lia. simpl in IH. specialize (IH ltac:(lia) Ha ltac:(lia)). lia.
  - rewrite decide_False by (intros [_ ?]; congruence).
    rewrite nth_lookup, list_lookup_insert_ne, <- nth_lookup in IH by done. fold c in IH.
    specialize (IH Hc Ha Hconf). lia.
Qed.

(** C11: within a session, from the moment its first order is checked, the orders
    the gateway accepts against a published state never commit more of a position
    than what is confirmed and not already attempted, however many orders the
    client sends; orders with a negative price or a cost beyond 64 bits are
    excluded. *)
Theorem risk_check_never_overcommits s auth orders i la ls :
  auth <> 0 -> Forall sane_order orders -> (i < MaxPositions)%nat -> length (CAssetId s) = MaxPositions ->
  ls <> SessionId s \/ la = attempts_Clear ->
  0 <= GetAttemptAt i s <= GetConfirmedAt i s -> GetConfirmedAt i s < 2 ^ 63 ->
  GetAttemptAt i s + committed s i orders (risk_run s auth orders la ls) <= GetConfirmedAt i s.
Proof.
  intros Hau Hor Hi Hids Hnew Ha Hc.
  assert (Heff : session_attempts s la ls = attempts_Clear).
  { unfold session_attempts. destruct (Z.eqb_spec (SessionId s) ls) as [<-|]; [|done]. by destruct Hnew. }
  pose proof (risk_run_committed s auth orders i la ls Hau Hor Hi Hids) as H. rewrite Heff in H.
  assert (Hz : nth i attempts_Clear 0 = 0) by (unfold attempts_Clear, vzero; by rewrite nth_lookup, lookup_replicate_2 by done).
  cbv zeta in H. rewrite Hz in H.
  specialize (H eq_refl ltac:(lia) ltac:(lia) ltac:(lia)). lia.
Qed.

Definition ex_client : ClientState :=
  MkCS 7 (0 :: 5 :: vzero 14) (1000 :: 20 :: vzero 14) (100 :: 0 :: vzero 14) 1 1.
Definition ex_buy (price amount : Z) : Order := MkOrder price 0 1 7 amount 5 LIMIT BUY EXECUTE.

Lemma risk_check_never_overcommits_witness :
  GetAttemptAt 0 ex_client
    + committed ex_client 0 [ex_buy 50 10; ex_buy 50 10; ex_buy 40 10]
        [Accepted; InsufficientFunds; Accepted] <= GetConfirmedAt 0 ex_client.
Proof.
  apply (risk_check_never_overcommits ex_client 1 [ex_buy 50 10; ex_buy 50 10; ex_buy 40 10] 0 attempts_Clear 0);
    [lia| |unfold MaxPositions; lia|reflexivity|by right|cbn; lia|cbn; lia].
  unfold sane_order, ex_buy. cbn. repeat constructor; cbn; lia.
Defined.

(** A buy order with a negative price passes the check and lowers the
    client's attempts, which lets a later order through that costs more than the
    client has: the statuses for invalid prices and quantities are never used. *)
Theorem negative_price_creates_funds :
  risk_run ex_client 1 [ex_buy 100 10; ex_buy (-100) 10; ex_buy 100 10] attempts_Clear 1
  = [InsufficientFunds; Accepted; Accepted].
Proof. vm_compute. reflexivity. Qed.

(** ** Forwarding *)

(** The bytes a descriptor received. *)
Fixpoint stream (fd : Z) (w : list (Z * list Z)) : list Z :=
  match w with
  | [] => []
  | (f, bs) :: w => (if f =? fd then bs else []) ++ stream fd w
  end.

Lemma stream_app fd w w' : stream fd (w ++ w') = stream fd w ++ stream fd w'.
Proof. induction w as [|[f bs] w IH]; simpl; [done|]. by rewrite IH, app_assoc. Qed.

Definition add_wire (w : list (Z * list Z)) (r : Router) : Router :=
  MkRouter (LocalAttempt r) (LocalSessionId r) (MatchingEngines r) (OrderBuffer r) (OrderOffset r)
    (ConfirmationBuffer r) (GatewayId r) (OrdersCount r) (Confirmations r) (Wire r ++ w).

(** A send that takes bytes, while no engine connects or disconnects. *)
Definition works (o : SendOutcome) : Prop := switches o = [] /\ exists n, ret o = Sent n.

Lemma send_loop_ok outs fd data total r :
  Forall works outs -> (total <= length data)%nat -> (length data - total <= length outs)%nat ->
  exists outs' w, send_loop outs fd data total r = Ret (None, outs', add_wire w r) /\
    Forall works outs' /\ (length outs <= length outs' + (length data - total))%nat /\
    forall f, stream f w = if f =? fd then drop total data else [].
Proof.
  intros Hw. revert total r. induction Hw as [|o outs [Hs [n Hn]] Hw IH]; intros total r Ht Hlen; simpl in Hlen.
  - exists [], []. cbn [send_loop]. destruct (Nat.leb_spec (length data) total); [|lia].
    split; [unfold add_wire; rewrite app_nil_r; by destruct r|]. split; [done|]. split; [simpl; lia|].
    intros f. rewrite drop_ge by lia. simpl. by destruct (f =? fd).
  - cbn [send_loop]. destruct (Nat.leb_spec (length data) total) as [Hle|Hgt].
    { exists (o :: outs), []. split; [unfold add_wire; rewrite app_nil_r; by destruct r|].
      split; [constructor; [split; eauto|done]|]. split; [lia|].
      intros f. rewrite drop_ge by lia. simpl. by destruct (f =? fd). }
    rewrite Hs, Hn. cbn [on_engine_events mbind result_bind].
    set (k := taken n (length data - total)). assert (Hk : (1 <= k <= length data - total)%nat) by (unfold k, taken; lia).
    destruct (IH (total + k)%nat (log_sent fd (take k (drop total data)) r) ltac:(lia) ltac:(lia)) as (outs' & w & E & Hw' & Hl & Hst).
    exists outs', ((fd, take k (drop total data)) :: w). rewrite E. split_and!.
    + unfold add_wire, log_sent. cbn. by rewrite <- app_assoc.
    + done.
    + simpl. lia.
    + intros f. cbn [stream]. rewrite Hst, (Z.eqb_sym fd f). destruct (f =? fd); [|done].
      rewrite <- drop_drop. by rewrite take_drop.
Qed.

(** A router with nothing to resend. *)
Record ready (r : Router) : Prop := {
  rd_offset : OrderOffset r = 0;
  rd_empty : Forall (fun b => GetSize b = 0) (OrderBuffer r);
  rd_buffers : length (OrderBuffer r) = Z.to_nat MaxAssets;
  rd_engines : length (MatchingEngines r) = Z.to_nat MaxAssets;
  rd_attempts : length (LocalAttempt r) = GatewayMaxClients;
  rd_sessions : length (LocalSessionId r) = GatewayMaxClients;
  rd_confs : length (ConfirmationBuffer r) = GatewayMaxClients
}.

Lemma at_lt {A} (a : list A) i : (Z.to_nat i < length a)%nat -> exists x, a !! Z.to_nat i = Some x /\ at_ a i = Ret x.
Proof. intros H. destruct (lookup_lt_is_Some_2 a _ H) as [x Hx]. exists x. unfold at_. by rewrite Hx. Qed.

Lemma at_Some {A} (a : list A) i x : a !! Z.to_nat i = Some x -> at_ a i = Ret x.
Proof. unfold at_. by intros ->. Qed.

Lemma DrainBuffer_ready asset fd outs r :
  ready r -> 0 <= asset < MaxAssets ->
  exists b, DrainBuffer asset fd outs r = Ret (true, outs, set_order_buffers (<[Z.to_nat asset := b]> (OrderBuffer r)) 0 r) /\
            GetSize b = 0.
Proof.
  intros HR Ha. unfold DrainBuffer.
  destruct (at_lt (OrderBuffer r) asset) as (b & Hb & ->); [rewrite (rd_buffers _ HR); lia|].
  cbn [mbind result_bind]. pose proof (rd_empty _ HR) as He. rewrite Forall_forall in He.
  rewrite (rd_offset _ HR), (He b) by (by eapply list_elem_of_lookup_2).
  exists (Clear b). by destruct outs.
Qed.

(** What the router should do with an order of the client in state [s]: its
    confirmation, and whether it is forwarded. *)
Definition route_spec1 (s : ClientState) (auth gw : Z) (o : Order) (la : list Z) (ls count : Z)
    : OrderConfirmation * Order * list Z * Z :=
  let '(st, la, ls) := CheckOrderRisk s la ls o auth in
  let id := u32 (full_order_id gw count) in
  (MkConfirmation id (ClientOrderId o) st, set_OrderId id o, la, ls).

Fixpoint route_spec (s : ClientState) (auth gw : Z) (orders : list Order) (la : list Z) (ls count : Z)
    : list (OrderConfirmation * Order) :=
  match orders with
  | [] => []
  | o :: orders =>
      let '(c, o', la, ls) := route_spec1 s auth gw o la ls count in
      (c, o') :: route_spec s auth gw orders la ls (u64 (count + 1))
  end.

(** The bytes that should reach descriptor [f], [eng] being the engines. *)
Fixpoint forwarded (eng : list Z) (f : Z) (cs : list (OrderConfirmation * Order)) : list Z :=
  match cs with
  | [] => []
  | (c, o) :: cs =>
      (if decide (Status c = Accepted /\ Fd (nth (Z.to_nat (AssetId o)) eng 0) = f) then order_bytes o else [])
      ++ forwarded eng f cs
  end.

Section Forwarding.
Context (cs : ClientStates) (fd auth : Z) (t : ClientSlot).
Context (Hfd : 0 <= fd < Z.of_nat GatewayMaxClients) (Ht : cs !! Z.to_nat fd = Some t) (Hauth : auth <> 0).
Abbreviation s := (GetClientState t).

Lemma CheckRisk_ready o r la ls :
  ready r -> LocalAttempt r !! Z.to_nat fd = Some la -> LocalSessionId r !! Z.to_nat fd = Some ls ->
  let '(st, la', ls') := CheckOrderRisk s la ls o auth in
  exists r', CheckRisk cs fd o auth r = Ret (st, r') /\ ready r' /\
    LocalAttempt r' !! Z.to_nat fd = Some la' /\ LocalSessionId r' !! Z.to_nat fd = Some ls' /\
    MatchingEngines r' = MatchingEngines r /\ GatewayId r' = GatewayId r /\ OrdersCount r' = OrdersCount r /\
    Confirmations r' = Confirmations r /\ Wire r' = Wire r.
Proof.
  intros HR Hla Hls. unfold CheckRisk. destruct (Z.eqb_spec auth 0); [done|].
  unfold on_client. rewrite Ht. cbn [mbind result_bind]. rewrite (at_Some _ _ _ Hla). cbn [mbind result_bind].
  rewrite (at_Some _ _ _ Hls). cbn [mbind result_bind].
  destruct (CheckOrderRisk s la ls o auth) as [[st la'] ls'].
  pose proof (lookup_lt_Some _ _ _ Hla) as L1. pose proof (lookup_lt_Some _ _ _ Hls) as L2.
  set (r1 := set_local _ _ r).
  assert (H1 : ready r1) by (destruct HR; split; cbn; rewrite ?length_insert; done).
  assert (H2 : LocalAttempt r1 !! Z.to_nat fd = Some la') by (cbn; by apply list_lookup_insert_eq).
  assert (H3 : LocalSessionId r1 !! Z.to_nat fd = Some ls') by (cbn; by apply list_lookup_insert_eq).
  destruct st; try (exists r1; by split_and!).
  destruct (at_lt (ConfirmationBuffer r1) fd) as (b & _ & ->); [rewrite (rd_confs _ H1); lia|].
  eexists. split; [done|]. split; [destruct H1; split; cbn; rewrite ?length_insert; first [done|apply HR]|]. by split_and!.
Qed.

Definition routable (eng : list Z) (o : Order) : Prop :=
  0 <= AssetId o < MaxAssets /\ Fd (nth (Z.to_nat (AssetId o)) eng 0) <> -1.

Lemma route_order_ok o outs r la ls :
  ready r -> routable (MatchingEngines r) o -> Forall works outs -> (sizeof_Order <= length outs)%nat ->
  LocalAttempt r !! Z.to_nat fd = Some la -> LocalSessionId r !! Z.to_nat fd = Some ls ->
  let '(c, o', la', ls') := route_spec1 s auth (GatewayId r) o la ls (OrdersCount r) in
  exists outs' r', route_order cs fd auth o outs r = Ret (outs', r') /\
    ready r' /\ Forall works outs' /\ (length outs <= length outs' + sizeof_Order)%nat /\
    LocalAttempt r' !! Z.to_nat fd = Some la' /\ LocalSessionId r' !! Z.to_nat fd = Some ls' /\
    MatchingEngines r' = MatchingEngines r /\ GatewayId r' = GatewayId r /\
    OrdersCount r' = u64 (OrdersCount r + 1) /\
    Confirmations r' = Confirmations r ++ [MkMessage fd c] /\
    forall f, stream f (Wire r') = stream f (Wire r) ++ forwarded (MatchingEngines r) f [(c, o')].
Proof.
  intros HR [Has Heng] Hw Hlen Hla Hls. unfold route_spec1, route_order.
  destruct (at_lt (MatchingEngines r) (AssetId o)) as (v & Hv & ->); [rewrite (rd_engines _ HR); lia|].
  rewrite nth_lookup, Hv in Heng. cbn [default mbind result_bind] in *.
  destruct (Z.eqb_spec (Fd v) (-1)); [done|].
  pose proof (CheckRisk_ready o r la ls HR Hla Hls) as HC.
  destruct (CheckOrderRisk s la ls o auth) as [[st la'] ls'].
  destruct HC as (r1 & -> & HR1 & Hla1 & Hls1 & He1 & Hg1 & Hc1 & Hco1 & Hwi1). cbn [mbind result_bind].
  rewrite Hg1, Hc1. set (id := u32 _). set (r2 := set_count _ r1). cbn [OcOrderId].
  assert (HR2 : ready r2) by (destruct HR1; by split).
  destruct (decide (st = Accepted)) as [->|Hst].
  - cbn [set_OrderId AssetId]. change (AssetId (set_OrderId id o)) with (AssetId o).
    destruct (DrainBuffer_ready (AssetId o) fd outs r2 HR2 Has) as (b & -> & Hb). cbn [mbind result_bind negb].
    set (r3 := set_order_buffers _ 0 r2).
    assert (HR3 : ready r3).
    { destruct HR2. split; cbn; rewrite ?length_insert; try done. by apply Forall_insert. }
    unfold SendOrder.
    destruct (send_loop_ok outs (Fd v) (order_bytes (set_OrderId id o)) 0 r3 Hw ltac:(lia))
      as (outs' & w & -> & Hw' & Hl & Hst); [rewrite order_bytes_length; lia|].
    rewrite order_bytes_length in Hl. cbn [mbind result_bind].
    change (AssetId (set_OrderId id o)) with (AssetId o).
    unfold at_. cbn [MatchingEngines add_wire r3 set_order_buffers r2 set_count]. rewrite He1, Hv.
    cbn [mbind result_bind]. rewrite Z.eqb_refl.
    eexists outs', _. split; [reflexivity|]. split; [destruct HR3; by split|].
    split; [done|]. split; [lia|]. cbn. rewrite Hco1, Hwi1, Hg1. split_and!; try done.
    intros f. rewrite stream_app, Hst, drop_0, app_nil_r. f_equal.
    change (AssetId (set_OrderId id o)) with (AssetId o). rewrite nth_lookup, Hv. cbn [default from_option id].
    rewrite Z.eqb_sym. destruct (Z.eqb_spec (Fd v) f) as [<-|Hf].
    + by rewrite decide_True.
    + rewrite decide_False by (intros [_ ?]; done). done.
  - exists outs, (push_confirmation (MkMessage fd (MkConfirmation id (ClientOrderId o) st)) r2).
    split; [by destruct st|]. split; [destruct HR2; by split|]. split; [done|]. split; [lia|].
    cbn. rewrite Hco1, Hwi1. split_and!; try done. intros f.
    rewrite decide_False by (intros [? _]; done). by rewrite app_nil_r.
Qed.

Lemma route_orders_ok orders outs r la ls :
  ready r -> Forall (routable (MatchingEngines r)) orders ->
  Forall works outs -> (length orders * sizeof_Order <= length outs)%nat ->
  LocalAttempt r !! Z.to_nat fd = Some la -> LocalSessionId r !! Z.to_nat fd = Some ls ->
  let spec := route_spec s auth (GatewayId r) orders la ls (OrdersCount r) in
  exists outs' r', route_orders cs fd auth orders outs r = Ret (outs', r') /\
    Confirmations r' = Confirmations r ++ ((fun co => MkMessage fd co.1) <$> spec) /\
    forall f, stream f (Wire r') = stream f (Wire r) ++ forwarded (MatchingEngines r) f spec.
Proof.
  intros HR Hor. revert outs r la ls HR Hor. induction orders as [|o orders IH]; intros outs r la ls HR Hor Hw Hlen Hla Hls.
  { exists outs, r. split; [done|]. cbn. split; [by rewrite app_nil_r|]. intros f. by rewrite app_nil_r. }
  apply Forall_cons in Hor as [Ho Hor]. cbn [length] in Hlen. cbn [route_spec route_orders].
  pose proof (route_order_ok o outs r la ls HR Ho Hw ltac:(lia) Hla Hls) as H1.
  destruct (route_spec1 s auth (GatewayId r) o la ls (OrdersCount r)) as [[[c o'] la1] ls1].
  destruct H1 as (outs1 & r1 & -> & HR1 & Hw1 & Hl1 & Hla1 & Hls1 & He1 & Hg1 & Hn1 & Hc1 & Hst1).
  cbn [mbind result_bind]. rewrite <- He1 in Hor.
  destruct (IH outs1 r1 la1 ls1 HR1 Hor Hw1 ltac:(lia) Hla1 Hls1) as (outs2 & r2 & -> & Hc2 & Hst2).
  rewrite Hg1, Hn1 in Hc2, Hst2. exists outs2, r2. split; [done|]. split.
  - rewrite Hc2, Hc1, <- app_assoc. done.
  - intros f. rewrite Hst2, Hst1, He1, <- app_assoc. f_equal. cbn [forwarded]. by rewrite app_nil_r.
Qed.

(** Over working sockets and connected engines, a batch of an authenticated
    client is routed in full: each order gets the next id and one confirmation,
    with the status of its risk check, and every engine receives, byte for byte,
    exactly the accepted orders of its asset, in order, however the sockets split
    them. *)
Theorem router_forwards_batch orders outs r la ls :
  ready r -> Forall (routable (MatchingEngines r)) orders ->
  Forall works outs -> (length orders * sizeof_Order <= length outs)%nat ->
  LocalAttempt r !! Z.to_nat fd = Some la -> LocalSessionId r !! Z.to_nat fd = Some ls ->
  let spec := route_spec s auth (GatewayId r) orders la ls (OrdersCount r) in
  exists outs' r', route_orders cs fd auth orders outs r = Ret (outs', r') /\
    Confirmations r' = Confirmations r ++ ((fun co => MkMessage fd co.1) <$> spec) /\
    forall f, stream f (Wire r') = stream f (Wire r) ++ forwarded (MatchingEngines r) f spec.
Proof. apply route_orders_ok. Qed.
End Forwarding.

(** ** Concrete routers *)

(** The engine of asset 5 is connected on descriptor 9, the client on 4. *)
Definition ex_router : Router :=
  match on_engine_event 5 9 (router_init 3 10 (replicate order_buffer_capacity 0) []) with
  | Ret r => r
  | Crash _ => router_init 3 10 [] []
  end.
Definition ex_states : ClientStates :=
  <[4%nat := slot_init ex_client]> (states_init GatewayMaxClients).
Definition all_sent (n : nat) : list SendOutcome := replicate n (MkOutcome (Sent 24) []).

Lemma ex_router_ready : ready ex_router.
Proof.
  split; try reflexivity.
  change (OrderBuffer ex_router) with (replicate (Z.to_nat MaxAssets) (bytes_init (replicate order_buffer_capacity 0))).
  by apply Forall_replicate.
Qed.

Lemma router_forwards_batch_witness :
  exists outs' r', route_orders ex_states 4 1 [ex_buy 50 10; ex_buy 50 10; ex_buy 40 10] (all_sent 120) ex_router
    = Ret (outs', r') /\
    Confirmations r' = [MkMessage 4 (MkConfirmation 10 1 Accepted); MkMessage 4 (MkConfirmation 11 1 InsufficientFunds);
                        MkMessage 4 (MkConfirmation 12 1 Accepted)] /\
    forall f, stream f (Wire r') = forwarded (MatchingEngines ex_router) f
      (route_spec ex_client 1 3 [ex_buy 50 10; ex_buy 50 10; ex_buy 40 10] attempts_Clear 0 10).
Proof.
  apply (router_forwards_batch ex_states 4 1 (slot_init ex_client) ltac:(unfold GatewayMaxClients; lia) eq_refl ltac:(lia)
    [ex_buy 50 10; ex_buy 50 10; ex_buy 40 10] (all_sent 120) ex_router attempts_Clear 0).
  - exact ex_router_ready.
  - repeat constructor; vm_compute; congruence.
  - apply Forall_replicate. split; [reflexivity|by exists 24%nat].
  - vm_compute. lia.
  - reflexivity.
  - reflexivity.
Defined.

Definition stop : SendOutcome := MkOutcome Failed [].
Definition route_result (m : result (list SendOutcome * Router)) : option (list Z * list Z * list Z) :=
  match m with
  | Ret (_, r) => Some (stream 9 (Wire r), stream 4 (Wire r), (fun m => OcOrderId (Confirmation m)) <$> Confirmations r)
  | Crash _ => None
  end.

(** Accepted orders are lost when the engine's socket is full.  The first
    order finds it full and goes to the resend buffer; a second one finds it full
    again, which leaves the offset of the buffer at -1; the third one then empties
    the buffer without sending it.  The engine receives the third order only, and
    the first two, whose funds stay reserved, are never confirmed or rejected. *)
Theorem full_socket_loses_orders :
  route_result (route_orders ex_states 4 1 [ex_buy 10 1; ex_buy 20 1; ex_buy 30 1]
                  (stop :: stop :: all_sent 40) ex_router)
  = Some (order_bytes (set_OrderId 12 (ex_buy 30 1)), [], [12]).
Proof. vm_compute. reflexivity. Qed.

(** The resend buffer is drained to the client's descriptor instead of the
    engine's: after a send interrupted in the middle of an order, the engine gets
    the first 25 bytes of it followed by the next order, and the client gets 15
    bytes that the buffer never received from the order. *)
Theorem resend_goes_to_client :
  route_result (route_orders ex_states 4 1 [ex_buy 10 1; ex_buy 20 1]
                  (MkOutcome (Sent 24) [] :: stop :: all_sent 40) ex_router)
  = Some (take 25 (order_bytes (set_OrderId 10 (ex_buy 10 1))) ++ order_bytes (set_OrderId 11 (ex_buy 20 1)),
          replicate 15 0, [11]).
Proof. vm_compute. reflexivity. Qed.

(** An order for an asset number past [MaxAssets], which the risk check would
    refuse, reads past the array of engines before it is checked, whoever sends
    it. *)
Lemma unknown_asset_reads_past_engines cs fd auth o outs r :
  ready r -> MaxAssets <= AssetId o -> route_order cs fd auth o outs r = Crash OutOfBounds.
Proof.
  intros HR Ha. unfold route_order, at_. rewrite lookup_ge_None_2; [done|].
  rewrite (rd_engines _ HR). lia.
Qed.
