(* ===== verification/GatewayWriter.v ===== *)
(** [ClientStatesWriter] of the gateway
    (src/market_server/order_gateway/include/client_states_writer.hpp): the only
    writer of [ClientStates].  It applies execution reports to the clients
    connected to this gateway, installs the snapshots of the account service,
    replaying the reports the snapshot misses, and handles disconnections.

    The map from client ids to descriptors is a [FlatHashMap], used through the
    class [MapOps].  The queues and pools around the handlers are those of
    [Consumer]; a batch is given by its contents.

    Main results: a batch of reports changes each client by exactly its own
    deltas and publishes it once; replaying missed reports over a snapshot gives
    the state that handling them live would have given, up to a difference of the
    attempts that is computed exactly. *)

From S2P Require Import Prelude WireTypes Interfaces GatewayStates.

Section Writer.
Context {M : Type} {ops : MapOps M Z}.

Record ClientStatesWriter := MkWriter {
  States : ClientStates;
  ClientsFd : M;                             (* ClientFdMap *)
  UpdatesBuffer : list OrderStateReport;     (* std::array<.., GatewayUpdateBufferSize> *)
  LastSeq : Z                                (* uint64_t *)
}.

Definition report0 : OrderStateReport := MkReport 0 0 0 0 0 0 0 0 0 FILL.
Definition set_seq (i : Z) (r : OrderStateReport) : OrderStateReport :=
  MkReport (BoughtDelta r) (SoldDelta r) (SoldAttemptDelta r) i (RClientId r) (ROrderId r) (TradeId r)
    (BoughtAssetId r) (SoldAssetId r) (State r).

(** Slot [i] starts with the sequence number [i + 1], which never belongs there. *)
Definition writer_init (cs : ClientStates) (m : M) : ClientStatesWriter :=
  MkWriter cs m ((fun i => set_seq (Z.of_nat i + 1) report0) <$> seq 0 GatewayUpdateBufferSize) 0.

Definition update_idx (seqId : Z) : nat := Z.to_nat (Z.land seqId (Z.of_nat GatewayUpdateBufferSize - 1)).

(** Attempts of added orders are already in the router's local counters. *)
Definition live_attempt (r : OrderStateReport) : Z :=
  match State r with ADD => 0 | _ => SoldAttemptDelta r end.

Definition record_report (r : OrderStateReport) (w : ClientStatesWriter) : ClientStatesWriter :=
  MkWriter (States w) (ClientsFd w) (<[update_idx (RSequenceId r) := r]> (UpdatesBuffer w)) (RSequenceId r).

Definition set_states (cs : ClientStates) (w : ClientStatesWriter) : ClientStatesWriter :=
  MkWriter cs (ClientsFd w) (UpdatesBuffer w) (LastSeq w).

(** The two [SetClientAssets] calls of a report. *)
Definition apply_report (r : OrderStateReport) (t : ClientSlot) : ClientSlot :=
  SetClientAssets (SoldDelta r) (live_attempt r) (SoldAssetId r)
    (SetClientAssets (BoughtDelta r) 0 (BoughtAssetId r) t).

(** The handler of a single report. *)
Definition Handle_report (r : OrderStateReport) (w : ClientStatesWriter) : result ClientStatesWriter :=
  let w := record_report r w in
  match map_get (ClientsFd w) (RClientId r) with
  | None => Ret w
  | Some fd =>
      cs ← update_client fd (apply_report r) (States w);
      cs ← update_client fd FlushTripleBuffer cs;
      Ret (set_states cs w)
  end.

(** The first loop of [Handle(TradeReportBatch &, size_t)]. *)
Fixpoint apply_reports (rs : list OrderStateReport) (w : ClientStatesWriter) : result ClientStatesWriter :=
  match rs with
  | [] => Ret w
  | r :: rs =>
      let w := record_report r w in
      w ← match map_get (ClientsFd w) (RClientId r) with
          | None => Ret w
          | Some fd => cs ← update_client fd (apply_report r) (States w); Ret (set_states cs w)
          end;
      apply_reports rs w
  end.

(** The second loop; [Touched] is cleared after it. *)
Fixpoint flush_reports (rs : list OrderStateReport) (touched : gset Z) (w : ClientStatesWriter)
    : result ClientStatesWriter :=
  match rs with
  | [] => Ret w
  | r :: rs =>
      match map_get (ClientsFd w) (RClientId r) with
      | None => flush_reports rs touched w
      | Some fd =>
          if decide (fd ∈ touched) then flush_reports rs touched w
          else
            cs ← update_client fd FlushTripleBuffer (States w);
            flush_reports rs ({[fd]} ∪ touched) (set_states cs w)
      end
  end.

Definition Handle_batch (rs : list OrderStateReport) (w : ClientStatesWriter) : result ClientStatesWriter :=
  w ← apply_reports rs w; flush_reports rs ∅ w.

(** One missed report, applied to the positions of a snapshot: the attempt gets
    the sold delta. *)
Definition replay_one (r : OrderStateReport) (sn : ClientAccountSnapshot) : ClientAccountSnapshot :=
  if RClientId r =? SnClientId sn then
    let upd (x : Z -> Z) (y : Z -> Z) (id v : Z) :=
      if id =? BoughtAssetId r then x v else if id =? SoldAssetId r then y v else v in
    MkSnapshot (SnStatus sn) (SnSequenceId sn) (SnClientId sn) (SnClientFd sn) (SnAssetId sn)
      (zip_with (upd (fun v => s64 (v + BoughtDelta r)) (fun v => s64 (v + SoldDelta r))) (SnAssetId sn) (SnConfirmed sn))
      (zip_with (upd (fun v => v) (fun v => s64 (v + SoldDelta r))) (SnAssetId sn) (SnAttempt sn))
  else sn.

(** [while (seqId <= LastSeq)], [n] iterations from [seqId]. *)
Fixpoint replay (n : nat) (seqId : Z) (buf : list OrderStateReport) (sn : ClientAccountSnapshot)
    : ClientAccountSnapshot :=
  match n with
  | O => sn
  | S n => replay n (u64 (seqId + 1)) buf (replay_one (nth (update_idx seqId) buf report0) sn)
  end.

(** One response of the handler of response batches; a response older than the
    buffer is skipped.  The loop runs from [SequenceId + 1] to [LastSeq]. *)
Definition Handle_response (sn : ClientAccountSnapshot) (w : ClientStatesWriter) : result ClientStatesWriter :=
  if negb (RSequenceId (nth (update_idx (SnSequenceId sn)) (UpdatesBuffer w) report0) =? SnSequenceId sn)
     && negb (SnSequenceId sn =? LastSeq w)
  then Ret w
  else
    let seqId := u64 (SnSequenceId sn + 1) in
    let sn := replay (Z.to_nat (LastSeq w + 1 - seqId)) seqId (UpdatesBuffer w) sn in
    curClientId ← on_client (SnClientFd sn) GetClientId (States w);
    m ← (if negb (curClientId =? SnClientId sn) then
           m ← map_del curClientId (ClientsFd w); map_add (SnClientId sn) (SnClientFd sn) m
         else Ret (ClientsFd w));
    cs ← update_client (SnClientFd sn) (SetClientState sn) (States w);
    cs ← update_client (SnClientFd sn) FlushTripleBuffer cs;
    m ← map_add (SnClientId sn) (SnClientFd sn) m;
    Ret (MkWriter cs m (UpdatesBuffer w) (LastSeq w)).

Fixpoint Handle_responses (sns : list ClientAccountSnapshot) (w : ClientStatesWriter) : result ClientStatesWriter :=
  match sns with
  | [] => Ret w
  | sn :: sns => w ← Handle_response sn w; Handle_responses sns w
  end.

(** [TryConsumeDisconnects], with the descriptor popped if there is one. *)
Definition TryConsumeDisconnects (popped : option Z) (w : ClientStatesWriter) : result ClientStatesWriter :=
  match popped with
  | None => Ret w
  | Some fd =>
      cs ← update_client fd (SetAuthStatus 0) (States w);
      cs ← update_client fd FlushTripleBuffer cs;
      Ret (set_states cs w)
  end.

(** ** Batches of reports *)

Context {spec : MapSpec M Z}.

(** What a batch should do to the client on descriptor [fd], [g] being the
    connected clients: its deltas, then one flush. *)
Definition report_ops (r : OrderStateReport) : list slot_op :=
  [OpAssets (BoughtDelta r) 0 (BoughtAssetId r); OpAssets (SoldDelta r) (live_attempt r) (SoldAssetId r)].
Definition mine (g : gmap Z Z) (fd : Z) (r : OrderStateReport) : bool := bool_decide (g !! RClientId r = Some fd).
Fixpoint client_ops (g : gmap Z Z) (fd : Z) (rs : list OrderStateReport) : list slot_op :=
  match rs with
  | [] => []
  | r :: rs => (if mine g fd r then report_ops r else []) ++ client_ops g fd rs
  end.
Definition batch_ops (g : gmap Z Z) (fd : Z) (rs : list OrderStateReport) : list slot_op :=
  client_ops g fd rs ++ (if existsb (mine g fd) rs then [OpFlush] else []).

(** Every connected client has a slot. *)
Definition fds_ok (g : gmap Z Z) (cs : ClientStates) : Prop :=
  forall id fd, g !! id = Some fd -> 0 <= fd < Z.of_nat (length cs).

Lemma slot_run_app ops1 ops2 t : slot_run (ops1 ++ ops2) t = slot_run ops2 (slot_run ops1 t).
Proof. unfold slot_run. by rewrite foldl_app. Qed.

Lemma update_client_ok fd f cs :
  0 <= fd < Z.of_nat (length cs) ->
  exists cs', update_client fd f cs = Ret cs' /\ length cs' = length cs /\
    forall fd', 0 <= fd' -> cs' !! Z.to_nat fd' = (if fd' =? fd then f <$> cs !! Z.to_nat fd' else cs !! Z.to_nat fd').
Proof.
  intros Hfd. unfold update_client, on_client.
  destruct (lookup_lt_is_Some_2 cs (Z.to_nat fd)) as [t Ht]; [lia|]. rewrite Ht. eexists. split; [done|].
  split; [apply length_insert|]. intros fd' H'. destruct (Z.eqb_spec fd' fd) as [->|Hne].
  - rewrite list_lookup_insert_eq, Ht by lia. done.
  - rewrite list_lookup_insert_ne by lia. done.
Qed.

Lemma apply_reports_ok rs w g :
  map_rep (ClientsFd w) g -> fds_ok g (States w) ->
  exists w', apply_reports rs w = Ret w' /\ ClientsFd w' = ClientsFd w /\ length (States w') = length (States w) /\
    forall fd, 0 <= fd -> States w' !! Z.to_nat fd = slot_run (client_ops g fd rs) <$> States w !! Z.to_nat fd.
Proof.
  revert w. induction rs as [|r rs IH]; intros w HM HF.
  { exists w. split_and!; try done. intros fd _. cbn. by destruct (States w !! Z.to_nat fd). }
  cbn [apply_reports]. change (ClientsFd (record_report r w)) with (ClientsFd w).
  rewrite (map_get_spec (ClientsFd w) g) by done. destruct (g !! RClientId r) as [fd0|] eqn:Eg.
  - destruct (update_client_ok fd0 (apply_report r) (States w) (HF _ _ Eg)) as (cs & E & Hl & Hcs).
    change (States (record_report r w)) with (States w). rewrite E. cbn [mbind result_bind].
    destruct (IH (set_states cs (record_report r w)) HM) as (w' & -> & Hm' & Hl' & Hs').
    { intros id fd' H'. cbn. rewrite Hl. by eapply HF. }
    exists w'. cbn in *. split_and!; try done; [by rewrite Hl'|].
    intros fd Hfd. rewrite Hs', Hcs by done. unfold mine. rewrite Eg.
    destruct (Z.eqb_spec fd fd0) as [->|Hne].
    + rewrite bool_decide_true by done. by destruct (States w !! Z.to_nat fd0).
    + rewrite bool_decide_false by congruence. done.
  - cbn [mbind result_bind]. destruct (IH (record_report r w) HM HF) as (w' & -> & Hm' & Hl' & Hs').
    exists w'. split_and!; try done. intros fd Hfd. rewrite Hs' by done. cbn [client_ops]. unfold mine.
    rewrite Eg. by rewrite bool_decide_false.
Qed.

Lemma flush_reports_ok rs w g touched :
  map_rep (ClientsFd w) g -> fds_ok g (States w) ->
  exists w', flush_reports rs touched w = Ret w' /\
    forall fd, 0 <= fd -> States w' !! Z.to_nat fd =
      (if existsb (mine g fd) rs && bool_decide (fd ∉ touched) then FlushTripleBuffer <$> States w !! Z.to_nat fd
       else States w !! Z.to_nat fd).
Proof.
  revert w touched. induction rs as [|r rs IH]; intros w touched HM HF.
  { exists w. by split. }
  cbn [flush_reports existsb]. rewrite (map_get_spec (ClientsFd w) g) by done.
  destruct (g !! RClientId r) as [fd0|] eqn:Eg.
  - destruct (decide (fd0 ∈ touched)) as [Ht|Ht].
    + destruct (IH w touched HM HF) as (w' & -> & Hs'). exists w'. split; [done|].
      intros fd Hfd. rewrite Hs' by done. unfold mine at 2. rewrite Eg.
      destruct (decide (fd = fd0)) as [->|Hne].
      * rewrite (bool_decide_false (fd0 ∉ touched)) by (intros H; by apply H). by rewrite !andb_false_r.
      * rewrite (bool_decide_false (Some fd0 = Some fd)) by congruence. done.
    + destruct (update_client_ok fd0 FlushTripleBuffer (States w) (HF _ _ Eg)) as (cs & E & Hl & Hcs).
      rewrite E. cbn [mbind result_bind].
      destruct (IH (set_states cs w) ({[fd0]} ∪ touched) HM) as (w' & -> & Hs').
      { intros id fd' H'. cbn. rewrite Hl. by eapply HF. }
      exists w'. split; [done|]. intros fd Hfd. rewrite Hs' by done. cbn [States set_states].
      rewrite Hcs by done. unfold mine at 2. rewrite Eg. destruct (Z.eqb_spec fd fd0) as [->|Hne].
      * rewrite (bool_decide_true (Some fd0 = Some fd0)), (bool_decide_true (fd0 ∉ touched)) by done.
        rewrite (bool_decide_false (fd0 ∉ _)) by set_solver. by rewrite andb_false_r.
      * rewrite (bool_decide_false (Some fd0 = Some fd)) by congruence. cbn [orb].
        rewrite (bool_decide_ext (fd ∉ {[fd0]} ∪ touched) (fd ∉ touched)) by set_solver. done.
  - destruct (IH w touched HM HF) as (w' & -> & Hs'). exists w'. split; [done|].
    intros fd Hfd. rewrite Hs' by done. unfold mine at 2. rewrite Eg. by rewrite (bool_decide_false (None = Some fd)).
Qed.

(** C22: a batch of reports is applied without a fault; each client connected to
    the gateway gets exactly the deltas of its own reports, in order, and one
    flush that publishes them together, and a client without a report is left as
    it was. *)
Theorem report_batch_updates_clients rs w g :
  map_rep (ClientsFd w) g -> fds_ok g (States w) ->
  exists w', Handle_batch rs w = Ret w' /\
    forall fd, 0 <= fd -> States w' !! Z.to_nat fd = slot_run (batch_ops g fd rs) <$> States w !! Z.to_nat fd.
Proof.
  intros HM HF. unfold Handle_batch. destruct (apply_reports_ok rs w g HM HF) as (w1 & -> & Hm & Hl & Hs).
  cbn [mbind result_bind].
  destruct (flush_reports_ok rs w1 g ∅) as (w2 & -> & Hs2); [by rewrite Hm|unfold fds_ok in *; by rewrite Hl|].
  exists w2. split; [done|]. intros fd Hfd. rewrite Hs2, Hs by done. unfold batch_ops.
  rewrite (bool_decide_true (fd ∉ ∅)) by set_solver. rewrite andb_true_r.
  destruct (existsb (mine g fd) rs); destruct (States w !! Z.to_nat fd); cbn; try done.
  all: by rewrite slot_run_app.
Qed.


(** ** Snapshots *)

(** The reports the snapshot [sn] misses, applied in order. *)
Definition replay_list (rs : list OrderStateReport) (sn : ClientAccountSnapshot) : ClientAccountSnapshot :=
  foldl (fun sn r => replay_one r sn) sn rs.

Lemma replay_is_list rs seqId buf sn :
  0 <= seqId -> seqId + Z.of_nat (length rs) < 2 ^ 64 ->
  (forall i r, rs !! i = Some r -> nth (update_idx (seqId + Z.of_nat i)) buf report0 = r) ->
  replay (length rs) seqId buf sn = replay_list rs sn.
Proof.
  revert seqId sn. induction rs as [|r rs IH]; intros seqId sn H0 Hb Hr; [done|]. cbn [length replay replay_list foldl] in *.
  rewrite u64_small by lia. rewrite (IH (seqId + 1)); [|lia|lia|].
  - specialize (Hr 0%nat r eq_refl). rewrite Z.add_0_r in Hr. by rewrite Hr.
  - intros i r' Hi. specialize (Hr (S i) r' Hi). by replace (seqId + 1 + Z.of_nat i) with (seqId + Z.of_nat (S i)) by lia.
Qed.

(** What the replay does with a report: like [report_ops], but the attempt gets
    the sold delta, whatever the report says of the attempt. *)
Definition replayed_ops (r : OrderStateReport) : list slot_op :=
  [OpAssets (BoughtDelta r) 0 (BoughtAssetId r); OpAssets (SoldDelta r) (SoldDelta r) (SoldAssetId r)].

(** A report the replay treats as the live handler does.  Fills of resting orders
    are such reports; a [CANCEL], whose attempt delta is not zero and whose sold
    delta is, is not one. *)
Definition regular (r : OrderStateReport) : Prop := live_attempt r = SoldDelta r.

Lemma zip_upd ids v b s x y :
  length ids = length v -> b <> s ->
  zip_with (fun id z => if id =? b then s64 (z + x) else if id =? s then s64 (z + y) else z) ids v
  = add_asset ids s y (add_asset ids b x v).
Proof.
  revert v. induction ids as [|id ids IH]; intros [|z v] Hl Hne; simpl in *; try done. f_equal; [|apply IH; [lia|done]].
  destruct (Z.eqb_spec id b) as [->|]; [|done]. destruct (Z.eqb_spec b s); [done|]. done.
Qed.

Lemma add_asset_zero ids b v : Forall in_s64 v -> add_asset ids b 0 v = v.
Proof.
  intros Hv. revert ids. induction Hv as [|z v Hz _ IH]; intros [|id ids]; simpl; try done.
  rewrite IH. f_equal. destruct (id =? b); [|done]. rewrite Z.add_0_r. by apply s64_small.
Qed.

Lemma zip_upd_sold ids v b s y :
  length ids = length v -> b <> s -> Forall in_s64 v ->
  zip_with (fun id z => if id =? b then z else if id =? s then s64 (z + y) else z) ids v
  = add_asset ids s y (add_asset ids b 0 v).
Proof.
  intros Hl Hne Hv. rewrite add_asset_zero by done. revert ids Hl. 
  induction Hv as [|z v Hz Hv IH]; intros [|id ids] Hl; simpl in *; try done. f_equal; [|apply IH; lia].
  destruct (Z.eqb_spec id b) as [->|]; [|done]. destruct (Z.eqb_spec b s); [done|]. done.
Qed.

Lemma add_asset_ok ids b x v : vec_ok v -> vec_ok (add_asset ids b x v).
Proof.
  intros [Hl Hv]. split; [by rewrite add_asset_length|]. clear Hl. revert ids.
  induction Hv as [|z v Hz Hv IH]; intros [|id ids]; simpl; try (by constructor).
  constructor; [|apply IH]. destruct (id =? b); [apply s64_range|done].
Qed.

Lemma replay_one_view r sn v :
  op_ok (OpSnapshot sn) -> (RClientId r = SnClientId sn -> BoughtAssetId r <> SoldAssetId r) ->
  op_ok (OpSnapshot (replay_one r sn)) /\
  SnClientFd (replay_one r sn) = SnClientFd sn /\ SnClientId (replay_one r sn) = SnClientId sn /\
  view_do (OpSnapshot (replay_one r sn)) v =
    view_run (OpSnapshot sn :: (if RClientId r =? SnClientId sn then replayed_ops r else [])) v.
Proof.
  intros (Hi & Hc & Ha) Hdiff. unfold replay_one. destruct (Z.eqb_spec (RClientId r) (SnClientId sn)) as [He|]; [|done].
  assert (Hne := Hdiff He).
  assert (HC := zip_upd (SnAssetId sn) (SnConfirmed sn) _ _ (BoughtDelta r) (SoldDelta r) ltac:(destruct Hc; congruence) Hne).
  assert (HA := zip_upd_sold (SnAssetId sn) (SnAttempt sn) _ _ (SoldDelta r) ltac:(destruct Ha; congruence) Hne ltac:(apply Ha)).
  cbn zeta. split_and!; try done.
  - cbn [op_ok SnAssetId SnConfirmed SnAttempt]. split; [done|]. split; [rewrite HC|rewrite HA]; by do 2 apply add_asset_ok.
  - cbn [view_do view_run foldl replayed_ops pub edit CClientId CAssetId Confirmed Attempt CAuth SessionId
         SnClientId SnAssetId SnConfirmed SnAttempt]. rewrite HC, HA. done.
Qed.

(** The missed reports of client [id], each handled by [f]; [missed_ops] is
    handling them live. *)
Fixpoint missed_by (f : OrderStateReport -> list slot_op) (id : Z) (rs : list OrderStateReport) : list slot_op :=
  match rs with
  | [] => []
  | r :: rs => (if RClientId r =? id then f r else []) ++ missed_by f id rs
  end.
Definition missed_ops : Z -> list OrderStateReport -> list slot_op := missed_by report_ops.

Lemma view_run_app ops1 ops2 v : view_run (ops1 ++ ops2) v = view_run ops2 (view_run ops1 v).
Proof. unfold view_run. by rewrite foldl_app. Qed.

Lemma missed_by_snoc f id rs r :
  missed_by f id (rs ++ [r]) = missed_by f id rs ++ (if RClientId r =? id then f r else []).
Proof. induction rs as [|r' rs IH]; cbn [missed_by app]; [by rewrite app_nil_r|]. by rewrite IH, app_assoc. Qed.

Lemma replay_list_view rs sn v :
  op_ok (OpSnapshot sn) -> Forall (fun r => RClientId r = SnClientId sn -> BoughtAssetId r <> SoldAssetId r) rs ->
  op_ok (OpSnapshot (replay_list rs sn)) /\
  SnClientFd (replay_list rs sn) = SnClientFd sn /\ SnClientId (replay_list rs sn) = SnClientId sn /\
  view_do (OpSnapshot (replay_list rs sn)) v = view_run (OpSnapshot sn :: missed_by replayed_ops (SnClientId sn) rs) v.
Proof.
  intros Hok Hrs. revert v. induction rs as [|r rs IH] using rev_ind; intros v; [done|].
  apply Forall_app in Hrs as [Hrs [Hr _]%Forall_cons].
  unfold replay_list. rewrite foldl_app. cbn [foldl]. fold (replay_list rs sn).
  destruct (IH Hrs v) as (H1 & H2 & H3 & H4). rewrite <- H3 in Hr.
  destruct (replay_one_view r (replay_list rs sn) v H1 Hr) as (K1 & K2 & K3 & K4).
  split_and!; [done|congruence|congruence|]. rewrite K4, H3, missed_by_snoc.
  by rewrite (app_comm_cons (missed_by _ _ rs) _ (OpSnapshot sn)), view_run_app, <- H4.
Qed.

(** How far the replayed attempts end from the live ones: each missed report of
    the client moves the attempt of the asset it sold by the difference of its
    sold delta and the attempt delta it was sent with. *)
Fixpoint replay_drift (id : Z) (ids : list Z) (rs : list OrderStateReport) (attempt : list Z) : list Z :=
  match rs with
  | [] => attempt
  | r :: rs =>
      replay_drift id ids rs
        (if RClientId r =? id then add_asset ids (SoldAssetId r) (SoldDelta r - live_attempt r) attempt else attempt)
  end.
Definition set_attempt (a : list Z) (s : ClientState) : ClientState :=
  MkCS (CClientId s) (CAssetId s) (Confirmed s) a (CAuth s) (SessionId s).
Definition drifted (id : Z) (rs : list OrderStateReport) (s : ClientState) : ClientState :=
  set_attempt (replay_drift id (CAssetId s) rs (Attempt s)) s.

Lemma add_asset_comm ids i j x y v : add_asset ids i x (add_asset ids j y v) = add_asset ids j y (add_asset ids i x v).
Proof.
  revert v. induction ids as [|id ids IH]; intros [|z v]; cbn [add_asset]; try done. rewrite IH. f_equal.
  destruct (id =? i), (id =? j); try done. rewrite !s64_add_l. f_equal. lia.
Qed.

Lemma add_asset_twice ids i x y v : add_asset ids i x (add_asset ids i y v) = add_asset ids i (y + x) v.
Proof.
  revert v. induction ids as [|id ids IH]; intros [|z v]; cbn [add_asset]; try done. rewrite IH. f_equal.
  destruct (id =? i); try done. rewrite s64_add_l. f_equal. lia.
Qed.

Lemma replay_drift_add id ids rs i x a :
  replay_drift id ids rs (add_asset ids i x a) = add_asset ids i x (replay_drift id ids rs a).
Proof.
  revert a. induction rs as [|r rs IH]; intros a; cbn [replay_drift]; [done|].
  destruct (_ =? id); [rewrite add_asset_comm|]; apply IH.
Qed.

Lemma replay_drift_snoc id ids rs r a :
  replay_drift id ids (rs ++ [r]) a =
  (if RClientId r =? id then add_asset ids (SoldAssetId r) (SoldDelta r - live_attempt r) (replay_drift id ids rs a)
   else replay_drift id ids rs a).
Proof. revert a. induction rs as [|r' rs IH]; intros a; cbn [replay_drift app]; [done|apply IH]. Qed.

Lemma drift_step id rs r v :
  (RClientId r =? id) = true ->
  view_run (replayed_ops r) (MkView (pub v) (drifted id rs (edit v))) =
  MkView (pub (view_run (report_ops r) v)) (drifted id (rs ++ [r]) (edit (view_run (report_ops r) v))).
Proof.
  intros He. unfold drifted. cbn [view_run replayed_ops report_ops foldl view_do pub edit set_attempt
    CClientId CAssetId Confirmed Attempt CAuth SessionId].
  f_equal. unfold set_attempt. f_equal. rewrite replay_drift_snoc, He, !replay_drift_add, add_asset_twice.
  f_equal. lia.
Qed.

(** Replayed, the missed reports leave the live view with drifted attempts. *)
Lemma replayed_view id rs v :
  view_run (missed_by replayed_ops id rs) v =
  MkView (pub (view_run (missed_ops id rs) v)) (drifted id rs (edit (view_run (missed_ops id rs) v))).
Proof.
  unfold missed_ops. induction rs as [|r rs IH] using rev_ind; [by destruct v as [p []]|].
  rewrite !missed_by_snoc, !view_run_app, IH. destruct (RClientId r =? id) eqn:He; [by apply drift_step|].
  cbn [view_run foldl]. unfold drifted. by rewrite replay_drift_snoc, He.
Qed.

Lemma view_run_in_s64 l v :
  Forall op_ok l -> vec_ok (Attempt (edit v)) -> vec_ok (Attempt (edit (view_run l v))).
Proof.
  intros Hl. revert v. induction Hl as [|op l Hop _ IH]; intros v Hv; [done|]. apply IH.
  destruct op; cbn [view_do edit Attempt]; try done; [by apply add_asset_ok|apply Hop].
Qed.

Lemma missed_ops_ok id rs : Forall op_ok (missed_ops id rs).
Proof.
  unfold missed_ops. induction rs as [|r rs IH]; cbn [missed_by]; [constructor|]. apply Forall_app. split; [|done].
  destruct (_ =? id); repeat constructor.
Qed.

Lemma drift_regular id ids rs a :
  Forall (fun r => RClientId r = id -> regular r) rs -> Forall in_s64 a -> replay_drift id ids rs a = a.
Proof.
  intros Hrs Ha. induction Hrs as [|r rs Hr _ IH]; [done|]. cbn [replay_drift].
  destruct (Z.eqb_spec (RClientId r) id) as [He|]; [|done]. rewrite (Hr He), Z.sub_diag, add_asset_zero by done. apply IH.
Qed.

Lemma set_attempt_id s : set_attempt (Attempt s) s = s.
Proof. by destruct s. Qed.

(** The map part of [Handle_response]. *)
Lemma connect_map m g cur id fd :
  map_rep m g -> map_room (dom g) id ->
  exists m', (m1 ← (if negb (cur =? id) then m1 ← map_del cur m; map_add id fd m1 else Ret m);
              map_add id fd m1) = Ret m' /\
    exists g', map_rep m' g' /\ g' !! id = Some (default fd (g !! id)).
Proof.
  intros HM Hroom.
  assert (Hadd : forall m1 g1, map_rep m1 g1 -> dom g1 ⊆ dom g -> exists m2 g2, map_add id fd m1 = Ret m2 /\
            map_rep m2 g2 /\ g2 !! id = Some (default fd (g1 !! id))).
  { intros m1 g1 HM1 Hsub. destruct (g1 !! id) as [v|] eqn:E.
    - exists m1, g1. by rewrite (map_add_present m1 g1 id fd v).
    - destruct (map_add_spec m1 g1 id fd HM1 E) as (m2 & -> & HM2); [by eapply map_room_mono|].
      exists m2, (<[id := fd]> g1). by rewrite lookup_insert_eq. }
  destruct (Z.eqb_spec cur id) as [->|Hne]; cbn [negb].
  - cbn [mbind result_bind]. destruct (Hadd m g HM ltac:(set_solver)) as (m2 & g2 & -> & HM2 & Hg2).
    exists m2. split; [done|]. by exists g2.
  - destruct (map_del_spec m g cur HM) as (m1 & -> & HM1). cbn [mbind result_bind].
    destruct (Hadd m1 (delete cur g) HM1 ltac:(rewrite dom_delete_L; set_solver)) as (m2 & g2 & -> & HM2 & Hg2).
    rewrite lookup_delete_ne in Hg2 by done. cbn [mbind result_bind].
    rewrite (map_add_present m2 g2 id fd _ HM2 Hg2). exists m2. split; [done|]. by exists g2.
Qed.

(** The reports after the snapshot, from the buffer. *)
Definition missed (w : ClientStatesWriter) (sn : ClientAccountSnapshot) (rs : list OrderStateReport) : Prop :=
  0 <= SnSequenceId sn /\ LastSeq w = SnSequenceId sn + Z.of_nat (length rs) /\ LastSeq w < 2 ^ 64 - 1 /\
  (forall i r, rs !! i = Some r -> nth (update_idx (SnSequenceId sn + 1 + Z.of_nat i)) (UpdatesBuffer w) report0 = r).

(** C23: installing a snapshot whose [SequenceId] lies some reports behind the
    last one seen, all of them still in the buffer, gives the client the state it
    would have if the snapshot had been installed at [SequenceId] and the reports
    after it had been handled live, except for the attempts: a missed report of
    the client moves the attempt of the asset it sold by its sold delta instead of
    its attempt delta, so that the attempts differ from the live ones by exactly
    the sum of these differences (not zero for a CANCEL), and the whole state is
    the live one if no missed report has such a difference.  The client's missed
    reports name two different assets.  The comparison is relative to the
    [SequenceId] the snapshot carries; the account service always sends 0, and
    what follows from that is [relogin_counts_trade_twice] of [System]. *)
Theorem snapshot_replay_equals_live sn rs w g t v :
  map_rep (ClientsFd w) g -> map_room (dom g) (SnClientId sn) ->
  missed w sn rs ->
  RSequenceId (nth (update_idx (SnSequenceId sn)) (UpdatesBuffer w) report0) = SnSequenceId sn \/ rs = [] ->
  Forall (fun r => RClientId r = SnClientId sn -> BoughtAssetId r <> SoldAssetId r) rs -> op_ok (OpSnapshot sn) ->
  States w !! Z.to_nat (SnClientFd sn) = Some t -> slot_rep t v ->
  let live := pub (view_run (OpSnapshot sn :: missed_ops (SnClientId sn) rs ++ [OpFlush]) v) in
  exists w' t', Handle_response sn w = Ret w' /\ States w' !! Z.to_nat (SnClientFd sn) = Some t' /\
    GetClientState t' = drifted (SnClientId sn) rs live /\
    (Forall (fun r => RClientId r = SnClientId sn -> regular r) rs -> GetClientState t' = live).
Proof.
  intros HM Hroom (H0 & Hlast & Hmax & Hbuf) Hfresh Hdiff Hok Ht HR live. unfold Handle_response.
  assert (Hnew : negb (RSequenceId (nth (update_idx (SnSequenceId sn)) (UpdatesBuffer w) report0) =? SnSequenceId sn)
     && negb (SnSequenceId sn =? LastSeq w) = false).
  { destruct Hfresh as [->| ->]; [by rewrite Z.eqb_refl|]. cbn in Hlast. rewrite Hlast, Z.add_0_r, Z.eqb_refl.
    apply andb_false_r. }
  rewrite Hnew. rewrite (u64_small (SnSequenceId sn + 1)) by lia.
  replace (Z.to_nat (LastSeq w + 1 - (SnSequenceId sn + 1))) with (length rs) by lia.
  rewrite (replay_is_list rs) by (try done; lia).
  destruct (replay_list_view rs sn v Hok Hdiff) as (K1 & K2 & K3 & K4). set (sn' := replay_list rs sn) in *.
  rewrite K2, K3. unfold on_client at 1. rewrite Ht. cbn [mbind result_bind].
  destruct (connect_map (ClientsFd w) g (GetClientId t) (SnClientId sn) (SnClientFd sn) HM Hroom) as (m' & HE & _).
  pose proof (lookup_lt_Some _ _ _ Ht) as Hlt.
  unfold update_client, on_client. rewrite Ht. cbn [mbind result_bind].
  rewrite list_lookup_insert_eq by done. cbn [mbind result_bind]. rewrite list_insert_insert_eq.
  revert HE. destruct (if negb _ then _ else _) as [m1|f]; cbn [mbind result_bind]; [|done].
  intros ->. eexists _, _. split; [reflexivity|]. cbn [States]. split; [by apply list_lookup_insert_eq|].
  pose proof (flush_rep _ _ (slot_do_rep (OpSnapshot sn') t v K1 HR)) as [_ Hp _ _ _ _ _ _].
  unfold GetClientState. cbn [slot_do] in Hp. rewrite Hp. cbn [pub]. rewrite K4.
  assert (Hlive : live = edit (view_run (missed_ops (SnClientId sn) rs) (view_do (OpSnapshot sn) v))).
  { unfold live. by rewrite app_comm_cons, view_run_app. }
  assert (HE : edit (view_run (OpSnapshot sn :: missed_by replayed_ops (SnClientId sn) rs) v)
               = drifted (SnClientId sn) rs live).
  { change (view_run (OpSnapshot sn :: ?l) v) with (view_run l (view_do (OpSnapshot sn) v)).
    by rewrite replayed_view, Hlive. }
  rewrite HE. split; [done|]. intros Hreg. unfold drifted. rewrite drift_regular, set_attempt_id; [done..|].
  rewrite Hlive. apply view_run_in_s64; [apply missed_ops_ok|apply Hok].
Qed.

End Writer.

(** ** Concrete runs *)

Section Examples.
Abbreviation Map := (FlatHashMap.FlatHashMap (V := Z)).
#[local] Existing Instance fhm_ops.
Abbreviation ops2 := (fhm_ops 0 1).

Definition ex_map : Map :=
  match FlatHashMap.AddNode 0 2 7 4 (FlatHashMap.fhm_empty 0 2) with Ret m => m | Crash _ => FlatHashMap.fhm_empty 0 2 end.

Lemma ex_map_rep : map_rep (MapSpec := fhm_spec 0 1) ex_map {[7 := 4]}.
Proof.
  destruct (FlatHashMap.fhm_AddNode 0 2 1 eq_refl (FlatHashMap.fhm_empty 0 2) ∅ 7 4
    (FlatHashMap.fhm_empty_rep 0 2 1 eq_refl) eq_refl) as (m & Hm & HR); [vm_compute; lia|].
  unfold ex_map. rewrite Hm. exact HR.
Qed.

(** Client 7 bought 3 of asset 5 for 30. *)
Definition ex_trade (seqId : Z) : OrderStateReport := FillReport 3 (-30) (-30) seqId 7 100 1 5 0 FILL.
Definition ex_snapshot (fd seqId : Z) : ClientAccountSnapshot :=
  MkSnapshot char_A seqId 7 fd (0 :: 5 :: vzero 14) (1000 :: 0 :: vzero 14) (30 :: 0 :: vzero 14).

Lemma ex_slot_rep : slot_rep (slot_init cs_init) (MkView cs_init cs_init).
Proof. apply slot_rep_init; exact vzero_ok. Qed.

(** Client 7 cancels a buy that had reserved 50; the report carries +50. *)
Definition ex_cancel (seqId : Z) : OrderStateReport := FillReport 0 0 50 seqId 7 101 0 5 0 CANCEL.

Lemma report_batch_updates_clients_witness :
  exists w', Handle_batch (ops := ops2) [ex_trade 0; ex_trade 1] (writer_init (states_init 8) ex_map) = Ret w' /\
    forall fd, 0 <= fd ->
      States w' !! Z.to_nat fd = slot_run (batch_ops {[7 := 4]} fd [ex_trade 0; ex_trade 1]) <$> states_init 8 !! Z.to_nat fd.
Proof.
  apply (report_batch_updates_clients (spec := fhm_spec 0 1) [ex_trade 0; ex_trade 1] (writer_init (states_init 8) ex_map) {[7 := 4]});
    [exact ex_map_rep|].
  intros id fd H. apply lookup_singleton_Some in H as [_ <-]. cbn. lia.
Defined.

Lemma snapshot_replay_equals_live_witness :
  exists w' t', Handle_response (ops := ops2) (ex_snapshot 4 0)
      (MkWriter (states_init 8) ex_map [ex_trade 0; ex_trade 1; ex_cancel 2] 2) = Ret w' /\
    States w' !! 4%nat = Some t' /\
    GetAssetConfirmed 0 (GetClientState t') = 970 /\ GetAssetConfirmed 5 (GetClientState t') = 3 /\
    GetAssetAttempt 0 (GetClientState t') = 0.
Proof.
  destruct (snapshot_replay_equals_live (spec := fhm_spec 0 1) (ex_snapshot 4 0) [ex_trade 1; ex_cancel 2]
    (MkWriter (states_init 8) ex_map [ex_trade 0; ex_trade 1; ex_cancel 2] 2) {[7 := 4]}
    (slot_init cs_init) (MkView cs_init cs_init)) as (w' & t' & H1 & H2 & H3 & _).
  - exact ex_map_rep.
  - vm_compute. lia.
  - split; [cbn; lia|]. split; [reflexivity|]. split; [cbn; lia|].
    intros [|[|i]] r Hi; [by injection Hi as <-..|done].
  - by left.
  - constructor; [done|]. constructor; [done|constructor].
  - split; [reflexivity|]. split; (split; [reflexivity|]); repeat constructor; cbn; unfold in_s64; lia.
  - reflexivity.
  - exact ex_slot_rep.
  - exists w', t'. split; [exact H1|]. split; [exact H2|]. rewrite H3. split_and!; reflexivity.
Defined.

(** A cancellation the snapshot misses is not replayed as it is handled live:
    handled live it adds its attempt delta to what the client has reserved,
    replayed it adds its sold delta, which is zero. *)
Theorem replayed_cancel_differs_from_live :
  (w ← Handle_response (ops := ops2) (ex_snapshot 4 0) (MkWriter (states_init 8) ex_map [ex_trade 0; ex_cancel 1] 1);
   Ret ((fun t => GetAssetAttempt 0 (GetClientState t)) <$> (States w !! 4%nat))) = Ret (Some 30) /\
  (w ← Handle_response (ops := ops2) (ex_snapshot 4 0) (MkWriter (states_init 8) ex_map [ex_trade 0] 0);
   w ← Handle_report (ops := ops2) (ex_cancel 1) w;
   Ret ((fun t => GetAssetAttempt 0 (GetClientState t)) <$> (States w !! 4%nat))) = Ret (Some 80).
Proof. split; vm_compute; reflexivity. Qed.

(** A client that reconnects on another descriptor is not updated any more.
    Its id is still in the map with the old descriptor, which [AddNode] does not
    replace and no disconnection removes: the trades of the new session are
    credited to the state of the closed one. *)
Theorem reconnected_client_misses_reports :
  (w ← Handle_response (ops := ops2) (ex_snapshot 4 0) (writer_init (states_init 8) (FlatHashMap.fhm_empty 0 2));
   w ← TryConsumeDisconnects (Some 4) w;
   w ← Handle_response (ops := ops2) (ex_snapshot 6 0) w;
   w ← Handle_batch (ops := ops2) [ex_trade 1] w;
   Ret ((fun t => (GetAssetConfirmed 5 (GetClientState t), CAuth (GetClientState t))) <$> (States w !! 4%nat),
        (fun t => (GetAssetConfirmed 5 (GetClientState t), CAuth (GetClientState t))) <$> (States w !! 6%nat)))
  = Ret (Some (3, 0), Some (0, 1)).
Proof. vm_compute. reflexivity. Qed.

End Examples.
