(* ===== verification/AccountStates.v ===== *)
(** The account service's record of its clients
    (src/market_server/account_service/include): [ClientState]
    (client_state.hpp), the triple buffer [ClientStates] (client_states.hpp) and
    its writer [ClientStatesWriter] (client_states_writer.hpp).

    The layout is the one of [GatewayStates]: an [AccountSlot] is the entry of
    one client in the parallel vectors.  The fields of a client that are not
    amounts are grouped in [AccountMeta].  SHA-256 is OpenSSL's and a parameter.

    Main results: a reader sees the state of the last flush together with the
    sequence number of its last report; a batch of reports changes each client by
    exactly its own deltas and publishes it once. *)

From S2P Require Import Prelude WireTypes GatewayStates.

Record AccountMeta := MkMeta {
  AClientId : Z;          (* uint32_t *)
  Key : list Z;           (* std::array<uint8_t, 32>: the hash of the key *)
  AAssetId : list Z;      (* std::array<uint16_t, MaxPositions> *)
  Authorized : Z;         (* int16_t *)
  Connected : Z           (* int16_t *)
}.

Record AccountState := MkAccount { ameta : AccountMeta; AConfirmed : list Z; AAttempt : list Z }.

Definition meta_init (clientId : Z) : AccountMeta :=
  MkMeta clientId (replicate 32 0) (vzero MaxPositions) 0 0.
Definition account_init : AccountState := MkAccount (meta_init 0) (vzero MaxPositions) (vzero MaxPositions).
(** The constructors with a client id and amounts. *)
Definition account_with (clientId confirmed attempt : Z) : AccountState :=
  MkAccount (meta_init clientId) (replicate MaxPositions confirmed) (replicate MaxPositions attempt).

Section CheckKey.
Context (sha256 : list Z -> list Z).

(** The loop that compares byte by byte. *)
Fixpoint same_bytes (a b : list Z) : bool :=
  match a, b with
  | x :: a, y :: b => if negb (x =? y) then false else same_bytes a b
  | _, _ => true
  end.
Definition CheckKey (key : list Z) (s : AccountState) : bool := same_bytes (sha256 key) (Key (ameta s)).
End CheckKey.

Lemma same_bytes_eq a b : length a = length b -> same_bytes a b = bool_decide (a = b).
Proof.
  revert b. induction a as [|x a IH]; intros [|y b] Hl; try done. cbn [same_bytes]. injection Hl as Hl.
  destruct (Z.eqb_spec x y) as [->|Hne]; cbn [negb].
  - rewrite (IH b Hl). apply bool_decide_ext. split; [by intros ->|by intros [=]].
  - symmetry. apply bool_decide_false. by intros [= -> _].
Qed.

Definition acc_GetAssetConfirmed (assetId : Z) (s : AccountState) : Z :=
  match find_asset (AAssetId (ameta s)) assetId 0 with Some i => nth i (AConfirmed s) 0 | None => -1 end.
Definition acc_GetAssetAttempt (assetId : Z) (s : AccountState) : Z :=
  match find_asset (AAssetId (ameta s)) assetId 0 with Some i => nth i (AAttempt s) 0 | None => -1 end.

(** ** The triple buffer *)

Record AccountSlot := MkASlot {
  AStates1 : AccountState; AStates2 : AccountState; AStates3 : AccountState;
  ADelta0 : ClientDelta; ADelta1 : ClientDelta; ADelta2 : ClientDelta;
  Seq0 : Z; Seq1 : Z; Seq2 : Z;      (* std::array<uint64_t, 3> SequenceIds *)
  AComplete : Z
}.

Definition aslot_init (s : AccountState) : AccountSlot := MkASlot s s s delta0 delta0 delta0 0 0 0 0.

Definition acc_read (c : Z) (t : AccountSlot) : AccountState :=
  if c =? 0 then AStates1 t else if c =? 1 then AStates2 t else AStates3 t.
Definition acc_write (c : Z) (t : AccountSlot) : AccountState :=
  if c =? 0 then AStates2 t else if c =? 1 then AStates3 t else AStates1 t.
Definition acc_set_write (c : Z) (s : AccountState) (t : AccountSlot) : AccountSlot :=
  let '(MkASlot s1 s2 s3 d0 d1 d2 q0 q1 q2 k) := t in
  if c =? 0 then MkASlot s1 s s3 d0 d1 d2 q0 q1 q2 k
  else if c =? 1 then MkASlot s1 s2 s d0 d1 d2 q0 q1 q2 k
  else MkASlot s s2 s3 d0 d1 d2 q0 q1 q2 k.
Definition acc_delta (c : Z) (t : AccountSlot) : ClientDelta :=
  if c =? 0 then ADelta0 t else if c =? 1 then ADelta1 t else ADelta2 t.
Definition acc_set_delta (c : Z) (d : ClientDelta) (t : AccountSlot) : AccountSlot :=
  let '(MkASlot s1 s2 s3 d0 d1 d2 q0 q1 q2 k) := t in
  if c =? 0 then MkASlot s1 s2 s3 d d1 d2 q0 q1 q2 k
  else if c =? 1 then MkASlot s1 s2 s3 d0 d d2 q0 q1 q2 k
  else MkASlot s1 s2 s3 d0 d1 d q0 q1 q2 k.
(** [complete == 0 ? SequenceIds[1] : complete == 1 ? SequenceIds[2] : SequenceIds[0]] *)
Definition acc_write_seq (c : Z) (t : AccountSlot) : Z :=
  if c =? 0 then Seq1 t else if c =? 1 then Seq2 t else Seq0 t.
Definition acc_set_write_seq (c q : Z) (t : AccountSlot) : AccountSlot :=
  let '(MkASlot s1 s2 s3 d0 d1 d2 q0 q1 q2 k) := t in
  if c =? 0 then MkASlot s1 s2 s3 d0 d1 d2 q0 q q2 k
  else if c =? 1 then MkASlot s1 s2 s3 d0 d1 d2 q0 q1 q k
  else MkASlot s1 s2 s3 d0 d1 d2 q q1 q2 k.
Definition acc_set_complete (k : Z) (t : AccountSlot) : AccountSlot :=
  let '(MkASlot s1 s2 s3 d0 d1 d2 q0 q1 q2 _) := t in MkASlot s1 s2 s3 d0 d1 d2 q0 q1 q2 k.

(** The copy of the readable state, taken between two steps of the writer; a copy
    that spans two flushes can mix generations, and nothing is claimed of it. *)
Definition acc_GetClientState (t : AccountSlot) : AccountState := acc_read (AComplete t) t.

(** The deltas are added to, not replaced. *)
Definition acc_SetClientState (cs : AccountState) (sequenceId : Z) (t : AccountSlot) : AccountSlot :=
  let c := AComplete t in
  let ref := acc_read c t in
  let w := acc_write c t in
  let d := acc_delta c t in
  let t := acc_set_delta c
    (MkDelta (vadd (DConfirmed d) (vsub (AConfirmed cs) (AConfirmed ref)))
             (vadd (DAttempt d) (vsub (AAttempt cs) (AAttempt ref)))) t in
  let t := acc_set_write c (MkAccount (ameta cs) (AConfirmed w) (AAttempt w)) t in
  acc_set_write_seq c sequenceId t.

Definition acc_SetClientAssets (confirmed attempt assetId sequenceId : Z) (t : AccountSlot) : AccountSlot :=
  let c := AComplete t in
  let ids := AAssetId (ameta (acc_write c t)) in
  let d := acc_delta c t in
  let t := acc_set_delta c
    (MkDelta (add_asset ids assetId confirmed (DConfirmed d)) (add_asset ids assetId attempt (DAttempt d))) t in
  acc_set_write_seq c sequenceId t.

Definition acc_FlushTripleBuffer (t : AccountSlot) : AccountSlot :=
  let c := AComplete t in
  let d := acc_delta c t in
  let w := acc_write c t in
  let cur := MkAccount (ameta w) (vadd (AConfirmed w) (DConfirmed d)) (vadd (AAttempt w) (DAttempt d)) in
  let t := acc_set_write c cur t in
  let curSeqId := acc_write_seq c t in
  let c := if c =? 2 then 0 else u8 (c + 1) in
  let t := acc_set_complete c t in
  let n := acc_write c t in
  let t := acc_set_delta c (MkDelta (vzero MaxPositions) (vzero MaxPositions)) t in
  let t := acc_set_write c
    (MkAccount (ameta cur)
       (vadd (vadd (vadd (AConfirmed n) (DConfirmed (ADelta0 t))) (DConfirmed (ADelta1 t))) (DConfirmed (ADelta2 t)))
       (vadd (vadd (vadd (AAttempt n) (DAttempt (ADelta0 t))) (DAttempt (ADelta1 t))) (DAttempt (ADelta2 t)))) t in
  acc_set_write_seq c curSeqId t.

(** ** What it implements *)

Record AView := MkAView { apub : AccountState; aseq : Z; aedit : AccountState; aedit_seq : Z }.

Inductive acc_op :=
| AOpAssets (confirmed attempt assetId sequenceId : Z)
| AOpState (cs : AccountState) (sequenceId : Z)
| AOpFlush.

Definition acc_do (op : acc_op) (t : AccountSlot) : AccountSlot :=
  match op with
  | AOpAssets c a id q => acc_SetClientAssets c a id q t
  | AOpState cs q => acc_SetClientState cs q t
  | AOpFlush => acc_FlushTripleBuffer t
  end.

(** Installing a state keeps the deltas that were pending. *)
Definition aview_do (op : acc_op) (v : AView) : AView :=
  let e := aedit v in
  match op with
  | AOpAssets c a id q =>
      MkAView (apub v) (aseq v)
        (MkAccount (ameta e) (add_asset (AAssetId (ameta e)) id c (AConfirmed e))
           (add_asset (AAssetId (ameta e)) id a (AAttempt e))) q
  | AOpState cs q =>
      MkAView (apub v) (aseq v)
        (MkAccount (ameta cs) (vadd (AConfirmed e) (vsub (AConfirmed cs) (AConfirmed (apub v))))
           (vadd (AAttempt e) (vsub (AAttempt cs) (AAttempt (apub v))))) q
  | AOpFlush => MkAView e (aedit_seq v) e (aedit_seq v)
  end.

Definition acc_run (ops : list acc_op) (t : AccountSlot) : AccountSlot := foldl (fun t op => acc_do op t) t ops.
Definition aview_run (ops : list acc_op) (v : AView) : AView := foldl (fun v op => aview_do op v) v ops.

Definition acc_op_ok (op : acc_op) : Prop :=
  match op with
  | AOpState cs _ => length (AConfirmed cs) = MaxPositions /\ length (AAttempt cs) = MaxPositions
  | _ => True
  end.

(** ** Proofs *)

Lemma vadd_assoc a b c : vadd (vadd a b) c = vadd a (vadd b c).
Proof.
  unfold vadd. revert b c. induction a as [|x a IH]; intros [|y b] [|z c]; simpl; try done.
  f_equal; [|apply IH]. autorewrite with wrap. f_equal. lia.
Qed.

Definition acc_third (c : Z) (t : AccountSlot) : AccountState :=
  if c =? 0 then AStates3 t else if c =? 1 then AStates1 t else AStates2 t.
Definition acc_third_delta (c : Z) (t : AccountSlot) : ClientDelta :=
  if c =? 0 then ADelta2 t else if c =? 1 then ADelta0 t else ADelta1 t.
Definition acc_read_seq (c : Z) (t : AccountSlot) : Z :=
  if c =? 0 then Seq0 t else if c =? 1 then Seq1 t else Seq2 t.

Definition complete_ok (c : Z) : Prop := c = 0 \/ c = 1 \/ c = 2.

Record acc_rep (t : AccountSlot) (v : AView) : Prop := {
  ar_complete : complete_ok (AComplete t);
  ar_pub : acc_read (AComplete t) t = apub v;
  ar_seq : acc_read_seq (AComplete t) t = aseq v;
  ar_meta : ameta (acc_write (AComplete t) t) = ameta (aedit v);
  ar_edit_seq : acc_write_seq (AComplete t) t = aedit_seq v;
  ar_confirmed : amounts_ok (AConfirmed (apub v)) (AConfirmed (acc_write (AComplete t) t))
    (AConfirmed (acc_third (AComplete t) t)) (AConfirmed (aedit v))
    (DConfirmed (acc_delta (AComplete t) t)) (DConfirmed (acc_third_delta (AComplete t) t));
  ar_attempt : amounts_ok (AAttempt (apub v)) (AAttempt (acc_write (AComplete t) t))
    (AAttempt (acc_third (AComplete t) t)) (AAttempt (aedit v))
    (DAttempt (acc_delta (AComplete t) t)) (DAttempt (acc_third_delta (AComplete t) t))
}.

Lemma acc_rep_init s :
  vec_ok (AConfirmed s) -> vec_ok (AAttempt s) -> acc_rep (aslot_init s) (MkAView s 0 s 0).
Proof.
  intros Hc Ha. split; simpl; try done; [by left| |].
  all: split; try done; try (by apply vadd_zero); apply Hc || apply Ha.
Qed.

(** What a flush makes of the states. *)
Definition acc_completed (w : AccountState) (d : ClientDelta) : AccountState :=
  MkAccount (ameta w) (vadd (AConfirmed w) (DConfirmed d)) (vadd (AAttempt w) (DAttempt d)).
Definition acc_caught_up (m : AccountMeta) (n : AccountState) (a b c : ClientDelta) : AccountState :=
  MkAccount m (vadd (vadd (vadd (AConfirmed n) (DConfirmed a)) (DConfirmed b)) (DConfirmed c))
    (vadd (vadd (vadd (AAttempt n) (DAttempt a)) (DAttempt b)) (DAttempt c)).

Lemma acc_caught_up_eq m n dw dt N :
  length (AConfirmed n) = MaxPositions -> length (DConfirmed dw) = MaxPositions -> length (DConfirmed dt) = MaxPositions ->
  length (AAttempt n) = MaxPositions -> length (DAttempt dw) = MaxPositions -> length (DAttempt dt) = MaxPositions ->
  N = acc_caught_up m n dw delta0 dt \/ N = acc_caught_up m n dt dw delta0 \/ N = acc_caught_up m n delta0 dt dw ->
  N = MkAccount m (vadd (vadd (AConfirmed n) (DConfirmed dt)) (DConfirmed dw))
        (vadd (vadd (AAttempt n) (DAttempt dt)) (DAttempt dw)).
Proof.
  intros H1 H2 H3 H4 H5 H6 HN.
  destruct (catch_up_orders _ _ _ H1 H2 H3) as (C1 & C2 & C3).
  destruct (catch_up_orders _ _ _ H4 H5 H6) as (A1 & A2 & A3).
  destruct HN as [->|[->| ->]]; unfold acc_caught_up, delta0; cbn [DConfirmed DAttempt];
    [rewrite C1, A1|rewrite C2, A2|rewrite C3, A3]; reflexivity.
Qed.

Lemma acc_flush_parts t :
  complete_ok (AComplete t) ->
  let c := AComplete t in
  let u := acc_FlushTripleBuffer t in
  let W := acc_write c t in let dw := acc_delta c t in let dt := acc_third_delta c t in
  complete_ok (AComplete u) /\ acc_read (AComplete u) u = acc_completed W dw /\
  acc_third (AComplete u) u = acc_read c t /\ acc_delta (AComplete u) u = delta0 /\
  acc_third_delta (AComplete u) u = dw /\ acc_read_seq (AComplete u) u = acc_write_seq c t /\
  acc_write_seq (AComplete u) u = acc_write_seq c t /\
  exists N, acc_write (AComplete u) u = N /\
   (N = acc_caught_up (ameta W) (acc_third c t) dw delta0 dt \/ N = acc_caught_up (ameta W) (acc_third c t) dt dw delta0 \/
    N = acc_caught_up (ameta W) (acc_third c t) delta0 dt dw).
Proof.
  intros Hc. destruct t as [s1 s2 s3 d0 d1 d2 q0 q1 q2 c]. cbn [AComplete] in Hc.
  destruct Hc as [->|[->| ->]]; cbv zeta.
  all: split; [vm_compute; auto|]; do 6 (split; [reflexivity|]); eexists; split; [reflexivity|auto].
Qed.

Lemma acc_flush_rep t v :
  acc_rep t v -> acc_rep (acc_FlushTripleBuffer t) (MkAView (aedit v) (aedit_seq v) (aedit v) (aedit_seq v)).
Proof.
  intros [Hc Hp Hq Hm Hs HC HA].
  destruct (acc_flush_parts t Hc) as (Hc' & R1 & R3 & R4 & R5 & R6 & R7 & N & R2 & HN).
  apply acc_caught_up_eq in HN; [|apply HC..|apply HA|apply HA|apply HA].
  assert (He : acc_completed (acc_write (AComplete t) t) (acc_delta (AComplete t) t) = aedit v).
  { unfold acc_completed. rewrite Hm, (am_edit _ _ _ _ _ _ HC), (am_edit _ _ _ _ _ _ HA). by destruct (aedit v). }
  apply amounts_flush in HC as [HC _]. apply amounts_flush in HA as [HA _].
  split; rewrite ?R1, ?R2, ?R3, ?R4, ?R5, ?R6, ?R7, ?HN; cbn [ameta AConfirmed AAttempt apub aedit aseq aedit_seq]; try done.
  - rewrite Hp. exact HC.
  - rewrite Hp. exact HA.
Qed.

(** An edit of the written state, its delta and its sequence number. *)
Definition acc_edit (m : AccountMeta) (d : ClientDelta) (q : Z) (t : AccountSlot) : AccountSlot :=
  let c := AComplete t in
  acc_set_write_seq c q
    (acc_set_write c (MkAccount m (AConfirmed (acc_write c t)) (AAttempt (acc_write c t))) (acc_set_delta c d t)).

Lemma acc_edit_parts m d q t :
  complete_ok (AComplete t) ->
  let c := AComplete t in
  let u := acc_edit m d q t in
  AComplete u = c /\ acc_read c u = acc_read c t /\ acc_read_seq c u = acc_read_seq c t /\
  acc_write c u = MkAccount m (AConfirmed (acc_write c t)) (AAttempt (acc_write c t)) /\
  acc_write_seq c u = q /\ acc_delta c u = d /\ acc_third c u = acc_third c t /\
  acc_third_delta c u = acc_third_delta c t.
Proof.
  intros Hc. destruct t as [s1 s2 s3 d0 d1 d2 q0 q1 q2 c]. cbn [AComplete] in Hc.
  destruct Hc as [->|[->| ->]]; cbv zeta; split_and!; reflexivity.
Qed.

Lemma acc_assets_edit c a id q t :
  complete_ok (AComplete t) ->
  acc_SetClientAssets c a id q t =
  let k := AComplete t in
  acc_edit (ameta (acc_write k t))
    (MkDelta (add_asset (AAssetId (ameta (acc_write k t))) id c (DConfirmed (acc_delta k t)))
             (add_asset (AAssetId (ameta (acc_write k t))) id a (DAttempt (acc_delta k t)))) q t.
Proof.
  intros Hc. destruct t as [s1 s2 s3 d0 d1 d2 q0 q1 q2 k]. cbn [AComplete] in Hc.
  destruct Hc as [->|[->| ->]]; [destruct s2|destruct s3|destruct s1]; reflexivity.
Qed.

Lemma acc_do_rep op t v : acc_op_ok op -> acc_rep t v -> acc_rep (acc_do op t) (aview_do op v).
Proof.
  intros Hop HR. pose proof HR as [Hc Hp Hq Hm Hs HC HA].
  destruct op as [c a id q|cs q|]; cbn [acc_do aview_do]; [| |by apply acc_flush_rep].
  - rewrite acc_assets_edit by done. cbv zeta. set (d := MkDelta _ _).
    destruct (acc_edit_parts (ameta (acc_write (AComplete t) t)) d q t Hc) as (E & R1 & R2 & R3 & R4 & R5 & R6 & R7).
    split; rewrite ?E, ?R1, ?R2, ?R3, ?R4, ?R5, ?R6, ?R7; try done; unfold d;
      cbn [ameta AConfirmed AAttempt apub aedit DConfirmed DAttempt]; rewrite Hm.
    + destruct HC as [? ? ? ? ? ? ?]. split; try done; [rewrite vadd_add_asset; by f_equal|by rewrite add_asset_length].
    + destruct HA as [? ? ? ? ? ? ?]. split; try done; [rewrite vadd_add_asset; by f_equal|by rewrite add_asset_length].
  - unfold acc_SetClientState. set (d := MkDelta _ _).
    change (acc_set_write_seq (AComplete t) q _) with (acc_edit (ameta cs) d q t).
    destruct (acc_edit_parts (ameta cs) d q t Hc) as (E & R1 & R2 & R3 & R4 & R5 & R6 & R7).
    destruct Hop as [Hlc Hla].
    split; rewrite ?E, ?R1, ?R2, ?R3, ?R4, ?R5, ?R6, ?R7; try done; unfold d;
      cbn [ameta AConfirmed AAttempt apub aedit DConfirmed DAttempt]; rewrite Hp.
    + destruct HC as [Hpub ? He ? Hd ? ?]. split; try done; [by rewrite <- vadd_assoc, He|].
      unfold vadd, vsub. rewrite !length_zip_with. destruct Hpub as [-> _]. lia.
    + destruct HA as [Hpub ? He ? Hd ? ?]. split; try done; [by rewrite <- vadd_assoc, He|].
      unfold vadd, vsub. rewrite !length_zip_with. destruct Hpub as [-> _]. lia.
Qed.

Lemma acc_run_rep ops t v : Forall acc_op_ok ops -> acc_rep t v -> acc_rep (acc_run ops t) (aview_run ops v).
Proof.
  intros Hops. revert t v. induction Hops as [|op ops Hop _ IH]; intros t v HR; [done|].
  apply IH. by apply acc_do_rep.
Qed.

(** C24: whatever sequence of trade deltas, new states and flushes the writer
    applies to a client, a reader that copies between two steps of the writer gets
    the state of the last flush, and the sequence number kept for it is the one of
    the last edit before that flush. *)
Theorem account_buffer_refines_view s ops :
  vec_ok (AConfirmed s) -> vec_ok (AAttempt s) -> Forall acc_op_ok ops ->
  let t := acc_run ops (aslot_init s) in
  let v := aview_run ops (MkAView s 0 s 0) in
  acc_GetClientState t = apub v /\ acc_read_seq (AComplete t) t = aseq v.
Proof.
  intros Hc Ha Hops. destruct (acc_run_rep ops _ _ Hops (acc_rep_init s Hc Ha)) as [_ Hp Hq _ _ _ _]. by split.
Qed.

Lemma account_buffer_refines_view_witness :
  let t := acc_run [AOpAssets 100 5 0 1; AOpFlush; AOpAssets 7 0 0 2] (aslot_init account_init) in
  acc_GetAssetConfirmed 0 (acc_GetClientState t) = 100 /\ acc_read_seq (AComplete t) t = 1.
Proof.
  destruct (account_buffer_refines_view account_init [AOpAssets 100 5 0 1; AOpFlush; AOpAssets 7 0 0 2]) as [H1 H2];
    [exact vzero_ok|exact vzero_ok|repeat constructor|].
  cbv zeta in *. split; [rewrite H1; reflexivity|rewrite H2; reflexivity].
Defined.
