(* ===== verification/AccountService.v ===== *)
(** The account service (src/market_server/account_service): the writer of its
    client states (client_states_writer.hpp), the processor of the gateways'
    requests (client_request_processor.cpp), the dispatcher of its answers
    (gateway_response_dispatcher.hpp) and the connection handlers of its server
    (gateway_epoll_server.hpp).

    Answers are objects of a [StoragePool] referred to by index; [ResponseHeap]
    is their contents.  [sha256] is OpenSSL's.  [send] is the operating system's:
    each call consumes an outcome.

    Main results: a batch of reports changes each account by its own deltas; every
    connection request gets one answer, in order, with the account's published
    state if and only if gateway and key are right; answers that cannot be sent
    are never given back to the pool. *)

From S2P Require Import Prelude WireTypes SpscQueue StoragePool Consumer Buffers GatewayStates AccountStates.

(** ** ClientStatesWriter *)

Abbreviation AccountStates := (list AccountSlot).

Definition acc_on {A} (clientId : Z) (f : AccountSlot -> A) (cs : AccountStates) : result A :=
  match cs !! Z.to_nat clientId with Some t => Ret (f t) | None => Crash OutOfBounds end.
Definition acc_update (clientId : Z) (f : AccountSlot -> AccountSlot) (cs : AccountStates) : result AccountStates :=
  t ← acc_on clientId f cs; Ret (<[Z.to_nat clientId := t]> cs).

(** The two [SetClientAssets] calls of a report; all attempts count here. *)
Definition acc_apply_report (r : OrderStateReport) (t : AccountSlot) : AccountSlot :=
  acc_SetClientAssets (SoldDelta r) (SoldAttemptDelta r) (SoldAssetId r) (RSequenceId r)
    (acc_SetClientAssets (BoughtDelta r) 0 (BoughtAssetId r) (RSequenceId r) t).

Definition acc_Handle_report (r : OrderStateReport) (cs : AccountStates) : result AccountStates :=
  cs ← acc_update (RClientId r) (acc_apply_report r) cs;
  acc_update (RClientId r) acc_FlushTripleBuffer cs.

Fixpoint acc_apply_reports (rs : list OrderStateReport) (cs : AccountStates) : result AccountStates :=
  match rs with
  | [] => Ret cs
  | r :: rs => cs ← acc_update (RClientId r) (acc_apply_report r) cs; acc_apply_reports rs cs
  end.

Fixpoint acc_flush_reports (rs : list OrderStateReport) (touched : gset Z) (cs : AccountStates) : result AccountStates :=
  match rs with
  | [] => Ret cs
  | r :: rs =>
      if decide (RClientId r ∈ touched) then acc_flush_reports rs touched cs
      else
        cs ← acc_update (RClientId r) acc_FlushTripleBuffer cs;
        acc_flush_reports rs ({[RClientId r]} ∪ touched) cs
  end.

Definition acc_Handle_batch (rs : list OrderStateReport) (cs : AccountStates) : result AccountStates :=
  cs ← acc_apply_reports rs cs; acc_flush_reports rs ∅ cs.

Definition acc_report_ops (r : OrderStateReport) : list acc_op :=
  [AOpAssets (BoughtDelta r) 0 (BoughtAssetId r) (RSequenceId r);
   AOpAssets (SoldDelta r) (SoldAttemptDelta r) (SoldAssetId r) (RSequenceId r)].
Fixpoint acc_client_ops (id : Z) (rs : list OrderStateReport) : list acc_op :=
  match rs with
  | [] => []
  | r :: rs => (if RClientId r =? id then acc_report_ops r else []) ++ acc_client_ops id rs
  end.
Definition acc_batch_ops (id : Z) (rs : list OrderStateReport) : list acc_op :=
  acc_client_ops id rs ++ (if existsb (fun r => RClientId r =? id) rs then [AOpFlush] else []).

Lemma acc_update_ok id f cs :
  0 <= id < Z.of_nat (length cs) ->
  exists cs', acc_update id f cs = Ret cs' /\ length cs' = length cs /\
    forall id', 0 <= id' -> cs' !! Z.to_nat id' = (if id =? id' then f <$> cs !! Z.to_nat id' else cs !! Z.to_nat id').
Proof.
  intros Hid. unfold acc_update, acc_on.
  destruct (lookup_lt_is_Some_2 cs (Z.to_nat id)) as [t Ht]; [lia|]. rewrite Ht. eexists. split; [done|].
  split; [apply length_insert|]. intros id' H'. destruct (Z.eqb_spec id id') as [<-|Hne].
  - rewrite list_lookup_insert_eq, Ht by lia. done.
  - rewrite list_lookup_insert_ne by lia. done.
Qed.

Definition known (cs : AccountStates) (r : OrderStateReport) : Prop := 0 <= RClientId r < Z.of_nat (length cs).

Lemma acc_apply_reports_ok rs cs :
  Forall (known cs) rs ->
  exists cs', acc_apply_reports rs cs = Ret cs' /\ length cs' = length cs /\
    forall id, 0 <= id -> cs' !! Z.to_nat id = acc_run (acc_client_ops id rs) <$> cs !! Z.to_nat id.
Proof.
  revert cs. induction rs as [|r rs IH]; intros cs Hk.
  { exists cs. split_and!; try done. intros id _. by destruct (cs !! Z.to_nat id). }
  apply Forall_cons in Hk as [Hr Hk]. cbn [acc_apply_reports].
  destruct (acc_update_ok (RClientId r) (acc_apply_report r) cs Hr) as (cs1 & -> & Hl1 & Hs1). cbn [mbind result_bind].
  destruct (IH cs1) as (cs2 & -> & Hl2 & Hs2); [eapply Forall_impl; [exact Hk|]; unfold known; by rewrite Hl1|].
  exists cs2. split_and!; [done|congruence|]. intros id Hid. rewrite Hs2, Hs1 by done. cbn [acc_client_ops].
  destruct (RClientId r =? id); [|done]. by destruct (cs !! Z.to_nat id).
Qed.

Lemma acc_flush_reports_ok rs cs touched :
  Forall (known cs) rs ->
  exists cs', acc_flush_reports rs touched cs = Ret cs' /\
    forall id, 0 <= id -> cs' !! Z.to_nat id =
      (if existsb (fun r => RClientId r =? id) rs && bool_decide (id ∉ touched)
       then acc_FlushTripleBuffer <$> cs !! Z.to_nat id else cs !! Z.to_nat id).
Proof.
  revert cs touched. induction rs as [|r rs IH]; intros cs touched Hk; [by exists cs|].
  apply Forall_cons in Hk as [Hr Hk]. cbn [acc_flush_reports existsb].
  destruct (decide (RClientId r ∈ touched)) as [Ht|Ht].
  - destruct (IH cs touched Hk) as (cs' & -> & Hs). exists cs'. split; [done|]. intros id Hid. rewrite Hs by done.
    destruct (Z.eqb_spec (RClientId r) id) as [<-|]; [|done].
    rewrite (bool_decide_false (RClientId r ∉ touched)) by (intros Hn; exact (Hn Ht)). by rewrite !andb_false_r.
  - destruct (acc_update_ok (RClientId r) acc_FlushTripleBuffer cs Hr) as (cs1 & -> & Hl1 & Hs1). cbn [mbind result_bind].
    destruct (IH cs1 ({[RClientId r]} ∪ touched)) as (cs2 & -> & Hs2);
      [eapply Forall_impl; [exact Hk|]; unfold known; by rewrite Hl1|].
    exists cs2. split; [done|]. intros id Hid. rewrite Hs2, Hs1 by done.
    destruct (Z.eqb_spec (RClientId r) id) as [<-|Hne].
    + rewrite (bool_decide_true (RClientId r ∉ touched)) by done.
      rewrite (bool_decide_false (RClientId r ∉ _)) by set_solver. by rewrite andb_false_r.
    + cbn [orb]. rewrite (bool_decide_ext (id ∉ {[RClientId r]} ∪ touched) (id ∉ touched)) by set_solver. done.
Qed.

Lemma acc_Handle_batch_ok rs cs :
  Forall (known cs) rs ->
  exists cs', acc_Handle_batch rs cs = Ret cs' /\
    forall id, 0 <= id -> cs' !! Z.to_nat id = acc_run (acc_batch_ops id rs) <$> cs !! Z.to_nat id.
Proof.
  intros Hk. unfold acc_Handle_batch. destruct (acc_apply_reports_ok rs cs Hk) as (cs1 & -> & Hl & Hs). cbn [mbind result_bind].
  destruct (acc_flush_reports_ok rs cs1 ∅) as (cs2 & -> & Hs2); [eapply Forall_impl; [exact Hk|]; unfold known; by rewrite Hl|].
  exists cs2. split; [done|]. intros id Hid. rewrite Hs2, Hs by done. unfold acc_batch_ops, acc_run.
  rewrite (bool_decide_true (id ∉ ∅)) by set_solver. rewrite andb_true_r.
  destruct (existsb _ rs); destruct (cs !! Z.to_nat id); cbn [fmap option_fmap option_map]; try done.
  all: by rewrite foldl_app.
Qed.

(** A batch of reports for known clients is applied without a fault: each
    account gets exactly the deltas of its own reports, in order, then one flush,
    and the other accounts are left as they were. *)
Theorem account_batch_updates_clients rs cs :
  Forall (known cs) rs ->
  exists cs', acc_Handle_batch rs cs = Ret cs' /\
    forall id, 0 <= id -> cs' !! Z.to_nat id = acc_run (acc_batch_ops id rs) <$> cs !! Z.to_nat id.
Proof. apply acc_Handle_batch_ok. Qed.

Definition ex_account_reports : list OrderStateReport :=
  [FillReport 3 (-30) (-30) 1 2 100 1 5 0 FILL; FillReport 30 (-3) (-3) 2 1 101 1 0 5 FILL].

Lemma account_batch_updates_clients_witness :
  exists cs', acc_Handle_batch ex_account_reports (replicate 4 (aslot_init account_init)) = Ret cs' /\
    forall id, 0 <= id -> cs' !! Z.to_nat id =
      acc_run (acc_batch_ops id ex_account_reports) <$> replicate 4 (aslot_init account_init) !! Z.to_nat id.
Proof.
  apply (account_batch_updates_clients ex_account_reports).
  constructor; [split; vm_compute; congruence|]. constructor; [split; vm_compute; congruence|]. constructor.
Defined.

(** ** ClientRequestProcessor *)

Record RoutedAuthRequest := MkRequest {
  RequestType : Z;       (* char *)
  QClientId : Z;         (* uint32_t *)
  QKey : list Z;         (* std::array<uint8_t, 32> *)
  QClientFd : Z;         (* uint32_t *)
  QGatewayId : Z         (* uint16_t *)
}.

Definition char_D : Z := 68.

Section Processor.
Context (sha256 : list Z -> list Z) (PoolSize : nat).

(** What the thread owns: the answers' pool, their contents, and the
    [RoutedMessage]s pushed to the dispatcher. *)
Record Processor := MkProcessor {
  ResponsesPool : StoragePool;
  ResponseHeap : gmap nat ClientAccountSnapshot;
  ResponsesSend : list (Z * nat)
}.

(** The answer to a request from the published state of the client; [None] for
    the requests that are ignored. *)
Definition answer (curClient : AccountState) (m : RoutedAuthRequest) : option ClientAccountSnapshot :=
  if RequestType m =? char_A then
    if negb (Authorized (ameta curClient) =? QGatewayId m) && negb (QGatewayId m =? 10) then
      Some (MkSnapshot char_R 0 (QClientId m) (QClientFd m)
              (vzero MaxPositions) (vzero MaxPositions) (vzero MaxPositions))
    else if negb (CheckKey sha256 (QKey m) curClient) then
      Some (MkSnapshot char_C 0 (QClientId m) (QClientFd m)
              (vzero MaxPositions) (vzero MaxPositions) (vzero MaxPositions))
    else
      Some (MkSnapshot char_A 0 (QClientId m) (QClientFd m)
              (AAssetId (ameta curClient)) (AConfirmed curClient) (AAttempt curClient))
  else None.

(** One message of [ProcessMessage]: the object acquired from the pool is not
    checked before it is written. *)
Definition process_request (states : AccountStates) (m : RoutedAuthRequest) (p : Processor) : result Processor :=
  curClient ← acc_on (QClientId m) acc_GetClientState states;
  match answer curClient m with
  | None => Ret p
  | Some resp =>
      let '(cur, pool) := Acquire PoolSize (QTail (Free (ResponsesPool p))) (ResponsesPool p) in
      cur ← deref cur;
      Ret (MkProcessor pool (<[cur := resp]> (ResponseHeap p)) (ResponsesSend p ++ [(QGatewayId m, cur)]))
  end.

Fixpoint process_requests (states : AccountStates) (ms : list RoutedAuthRequest) (p : Processor) : result Processor :=
  match ms with
  | [] => Ret p
  | m :: ms => p ← process_request states m p; process_requests states ms p
  end.

(** [ProcessMessage] on a batch popped from the queue. *)
Definition ProcessMessage (states : AccountStates) (MsgPoolSize : nat) (batch : nat) (ms : list RoutedAuthRequest)
    (MessagesPool : StoragePool) (p : Processor) : result (StoragePool * Processor) :=
  p ← process_requests states ms p;
  mp ← ReleaseCritical MsgPoolSize (QHead (Free MessagesPool)) (Some batch) MessagesPool;
  Ret (mp, p).

Context (kp : nat) (HP : PoolSize = (2 ^ kp)%nat) (Hkp : (kp <= 62)%nat).

(** The answers to a list of requests, with their gateways. *)
Fixpoint answers (states : AccountStates) (ms : list RoutedAuthRequest) : list (Z * ClientAccountSnapshot) :=
  match ms with
  | [] => []
  | m :: ms =>
      match (states !! Z.to_nat (QClientId m)) ≫= (fun t => answer (acc_GetClientState t) m) with
      | Some resp => (QGatewayId m, resp) :: answers states ms
      | None => answers states ms
      end
  end.

(** The answer a gateway may expect, as docs/PROTOCOL.md tells it: a request that
    is not a connection gets none; a client of another gateway is refused, gateway
    10 being let through; a key whose hash is not the stored one is refused; else
    the positions of the account are sent. *)
Definition refusal (status : Z) (m : RoutedAuthRequest) : ClientAccountSnapshot :=
  MkSnapshot status 0 (QClientId m) (QClientFd m) (replicate 16 0) (replicate 16 0) (replicate 16 0).

Inductive verdict (acc : AccountState) (m : RoutedAuthRequest) : option ClientAccountSnapshot -> Prop :=
  | not_a_connection : RequestType m <> 65 -> verdict acc m None
  | other_gateway :
      RequestType m = 65 -> Authorized (ameta acc) <> QGatewayId m -> QGatewayId m <> 10 ->
      verdict acc m (Some (refusal 82 m))
  | wrong_key :
      RequestType m = 65 -> Authorized (ameta acc) = QGatewayId m \/ QGatewayId m = 10 ->
      sha256 (QKey m) <> Key (ameta acc) ->
      verdict acc m (Some (refusal 67 m))
  | let_in sn :
      RequestType m = 65 -> Authorized (ameta acc) = QGatewayId m \/ QGatewayId m = 10 ->
      sha256 (QKey m) = Key (ameta acc) ->
      SnStatus sn = 65 -> SnSequenceId sn = 0 -> SnClientId sn = QClientId m -> SnClientFd sn = QClientFd m ->
      SnAssetId sn = AAssetId (ameta acc) -> SnConfirmed sn = AConfirmed acc -> SnAttempt sn = AAttempt acc ->
      verdict acc m (Some sn).

Lemma answer_verdict acc m :
  length (sha256 (QKey m)) = length (Key (ameta acc)) -> verdict acc m (answer acc m).
Proof.
  intros Hk.
  unfold answer. destruct (Z.eqb_spec (RequestType m) char_A) as [Ht|Ht]; [|by constructor].
  destruct (Z.eqb_spec (Authorized (ameta acc)) (QGatewayId m)), (Z.eqb_spec (QGatewayId m) 10); cbn [negb andb].
  4: by apply other_gateway.
  all: unfold CheckKey; rewrite same_bytes_eq by done; case_bool_decide; cbn [negb]; [apply let_in|apply wrong_key]; auto.
Qed.

(** At most one answer fits a request. *)
Lemma verdict_functional acc m o1 o2 : verdict acc m o1 -> verdict acc m o2 -> o1 = o2.
Proof.
  intros H1 H2. destruct H1, H2; try done; try tauto.
  f_equal. destruct sn, sn0; cbn in *. congruence.
Qed.

Lemma answers_sent states ms :
  answers states ms = omap (fun mo => pair (QGatewayId mo.1) <$> mo.2)
    (zip ms ((fun m => (states !! Z.to_nat (QClientId m)) ≫= (fun t => answer (acc_GetClientState t) m)) <$> ms)).
Proof. induction ms as [|m ms IH]; [done|]. cbn. destruct (_ ≫= _); cbn; by rewrite IH. Qed.

Lemma process_requests_ok states ms p held :
  pool_holds PoolSize (ResponsesPool p) held -> (length held + length ms <= PoolSize)%nat ->
  Forall (fun m => 0 <= QClientId m < Z.of_nat (length states)) ms ->
  exists p' xs, process_requests states ms p = Ret p' /\
    ResponsesSend p' = ResponsesSend p ++ zip (answers states ms).*1 xs /\
    length xs = length (answers states ms) /\ NoDup xs /\ (forall x, x ∈ xs -> x ∉ held) /\
    pool_holds PoolSize (ResponsesPool p') (reverse xs ++ held) /\
    (forall i x a, xs !! i = Some x -> answers states ms !! i = Some a -> ResponseHeap p' !! x = Some a.2) /\
    (forall x, x ∈ held -> ResponseHeap p' !! x = ResponseHeap p !! x).
Proof.
  intros Hpool Hlen Hms. revert p held Hpool Hlen. induction Hms as [|m ms Hm _ IH]; intros p held Hpool Hlen; cbn [length] in Hlen.
  { exists p, []. cbn. rewrite app_nil_r. split_and!; try done; [constructor|]. intros x Hx. by apply elem_of_nil in Hx. }
  cbn [process_requests answers]. unfold process_request, acc_on.
  destruct (lookup_lt_is_Some_2 states (Z.to_nat (QClientId m))) as [t Ht]; [lia|]. rewrite Ht. cbn [mbind result_bind option_bind].
  destruct (answer (acc_GetClientState t) m) as [resp|] eqn:Ea.
  - destruct (acquire_fresh PoolSize kp HP Hkp _ held Hpool ltac:(lia)) as (x & pool & -> & Hpool1 & Hx). cbn [deref mbind result_bind].
    edestruct (IH (MkProcessor pool (<[x := resp]> (ResponseHeap p)) (ResponsesSend p ++ [(QGatewayId m, x)])) (x :: held))
      as (p' & xs & -> & H1 & H2 & H3 & H4 & H5 & H6 & H7); [done|simpl; lia|]. cbn [ResponsesSend ResponseHeap] in *.
    assert (Hxs : x ∉ xs) by (intros Hin; apply (H4 x Hin); left).
    exists p', (x :: xs). split_and!; try done.
    + rewrite H1, <- app_assoc. done.
    + cbn. by rewrite H2.
    + by constructor.
    + intros y [->|Hy]%elem_of_cons; [done|]. intros Hh. apply (H4 y Hy). by right.
    + rewrite reverse_cons, <- app_assoc. done.
    + intros [|i] y a Hi Ha; cbn in Hi, Ha; [|by eapply H6].
      injection Hi as <-. injection Ha as <-. rewrite H7 by left. by rewrite lookup_insert_eq.
    + intros y Hy. rewrite H7 by (by right). rewrite lookup_insert_ne; [done|]. intros ->. done.
  - cbn [mbind result_bind]. by apply IH; [|lia].
Qed.

(** C25: take a batch of requests of known clients and a pool with an object for
    each; digests and stored keys have 32 bytes.  For every request there is exactly one verdict: none for a request
    other than a connection; 'R' with no positions for a client assigned to another
    gateway (requests of gateway 10 apart); 'C' with no positions if the hash of
    the key is not the stored one; and else 'A' with the assets and amounts of the
    published account and the sequence number 0.  The answers these verdicts ask
    for, and no others, are pushed in the order of the requests, each to the
    gateway its request came from and in an object of its own; answers not yet
    sent keep their contents. *)
Theorem processor_answers_requests states ms p held :
  pool_holds PoolSize (ResponsesPool p) held -> (length held + length ms <= PoolSize)%nat ->
  Forall (fun m => 0 <= QClientId m < Z.of_nat (length states) /\ length (sha256 (QKey m)) = 32%nat) ms ->
  Forall (fun t => length (Key (ameta (acc_GetClientState t))) = 32%nat) states ->
  exists p' outs xs, process_requests states ms p = Ret p' /\
    Forall2 (fun m o => exists t, states !! Z.to_nat (QClientId m) = Some t /\
       verdict (acc_GetClientState t) m o /\ forall o', verdict (acc_GetClientState t) m o' -> o' = o) ms outs /\
    let sent := omap (fun mo => pair (QGatewayId mo.1) <$> mo.2) (zip ms outs) in
    ResponsesSend p' = ResponsesSend p ++ zip sent.*1 xs /\
    length xs = length sent /\ NoDup xs /\ (forall x, x ∈ xs -> x ∉ held) /\
    pool_holds PoolSize (ResponsesPool p') (reverse xs ++ held) /\
    (forall i x a, xs !! i = Some x -> sent !! i = Some a -> ResponseHeap p' !! x = Some a.2) /\
    (forall x, x ∈ held -> ResponseHeap p' !! x = ResponseHeap p !! x).
Proof.
  intros Hpool Hlen Hms Hkeys. destruct (process_requests_ok states ms p held Hpool Hlen) as (p' & xs & H1 & H2).
  { eapply Forall_impl; [exact Hms|]. by intros m [? _]. }
  rewrite answers_sent in H2. eexists p', _, xs. split; [exact H1|]. split; [|exact H2].
  apply Forall2_fmap_r, Forall_Forall2_diag. eapply Forall_impl; [exact Hms|]. intros m [Hm Hh]. cbn beta.
  destruct (lookup_lt_is_Some_2 states (Z.to_nat (QClientId m))) as [t Ht]; [lia|]. exists t.
  rewrite Ht. cbn [mbind option_bind]. split; [done|].
  assert (HV : verdict (acc_GetClientState t) m (answer (acc_GetClientState t) m)).
  { apply answer_verdict. rewrite Hh. symmetry. exact (Forall_lookup_1 _ _ _ _ Hkeys Ht). }
  split; [exact HV|]. intros o' Ho. exact (verdict_functional _ _ _ _ Ho HV).
Qed.

End Processor.

(** ** Concrete requests *)

Definition ex_account : AccountState :=
  MkAccount (MkMeta 1 (replicate 32 5) (vzero MaxPositions) 3 (-1)) (replicate MaxPositions 900) (vzero MaxPositions).
Definition ex_accounts : AccountStates := [aslot_init account_init; aslot_init ex_account].
Definition ex_request (key gatewayId : Z) : RoutedAuthRequest := MkRequest char_A 1 (replicate 32 key) 4 gatewayId.
Definition ex_processor : Processor := MkProcessor ex_pool0 ∅ [].

Lemma ex_pool0_holds : pool_holds 2 ex_pool0 [].
Proof. by apply (fresh_pool 2 1 eq_refl ltac:(lia)). Qed.

(** The identity stands for the hash function. *)
Lemma processor_answers_requests_witness :
  exists p' outs xs, process_requests (fun k => k) 2 ex_accounts [ex_request 6 3; ex_request 5 3] ex_processor = Ret p' /\
    ResponsesSend p' = zip [3; 3] xs /\ length xs = 2%nat /\
    outs = [Some (refusal 67 (ex_request 6 3));
            Some (MkSnapshot 65 0 1 4 (replicate 16 0) (replicate 16 900) (replicate 16 0))] /\
    (forall i x o, xs !! i = Some x -> outs !! i = Some o -> ResponseHeap p' !! x = o).
Proof.
  destruct (processor_answers_requests (fun k => k) 2 1 eq_refl ltac:(lia) ex_accounts [ex_request 6 3; ex_request 5 3]
    ex_processor []) as (p' & outs & xs & H1 & HV & H2 & H3 & _ & _ & _ & H6 & _).
  - exact ex_pool0_holds.
  - simpl. lia.
  - constructor; [split; [cbn; lia|reflexivity]|]. constructor; [split; [cbn; lia|reflexivity]|]. constructor.
  - constructor; [reflexivity|]. constructor; [reflexivity|]. constructor.
  - inversion HV as [|? o1 ? l1 (t1 & Ht1 & _ & F1) HV1]; subst. inversion HV1 as [|? o2 ? l2 (t2 & Ht2 & _ & F2) HV2]; subst.
    inversion HV2; subst. injection Ht1 as <-. injection Ht2 as <-.
    assert (E1 := F1 _ (answer_verdict (fun k => k) (acc_GetClientState (aslot_init ex_account)) (ex_request 6 3) eq_refl)).
    assert (E2 := F2 _ (answer_verdict (fun k => k) (acc_GetClientState (aslot_init ex_account)) (ex_request 5 3) eq_refl)).
    vm_compute in E1, E2. subst o1 o2. eexists p', _, xs. split; [exact H1|]. split; [exact H2|]. split; [exact H3|].
    split; [reflexivity|]. intros [|[|i]] x o Hx Ho; [| |done]; injection Ho as <-; exact (H6 _ x _ Hx eq_refl).
Defined.

(** ** GatewayResponseDispatcher *)

(** [DSent switched]: the bytes were taken (however many); [switched] says
    whether the gateway reconnected meanwhile. [DRetry] is EINTR, EAGAIN or
    EWOULDBLOCK, [DDead] another error. *)
Inductive DispatchOutcome := DSent (switched : bool) | DRetry | DDead.

Section Dispatcher.
Context (PoolSize ResendSize : nat).

Record Dispatcher := MkDispatcher {
  DPool : StoragePool;                      (* ResponsesPool *)
  GatewayFd : list Z;                       (* GatewayFds *)
  ResponsesResend : list (Z * nat);         (* std::array<AccountResponse, ResendSize> *)
  ResponsesResendSize : nat;
  Delivered : list (Z * nat)                (* descriptor and answer, in order *)
}.

Definition stash (idx : Z) (msg : nat) (d : Dispatcher) : result Dispatcher :=
  if (ResponsesResendSize d <? ResendSize)%nat then
    Ret (MkDispatcher (DPool d) (GatewayFd d) (<[ResponsesResendSize d := (idx, msg)]> (ResponsesResend d))
           (S (ResponsesResendSize d)) (Delivered d))
  else Crash OutOfBounds.

Definition SendMessage (o : DispatchOutcome) (msg : nat) (idx : Z) (d : Dispatcher) : result Dispatcher :=
  match GatewayFd d !! Z.to_nat idx with
  | None => Crash OutOfBounds
  | Some curVal =>
      if Fd curVal =? -1 then Ret d
      else
        match o with
        | DRetry => stash idx msg d
        | DDead => Ret d
        | DSent switched =>
            let d := MkDispatcher (DPool d) (GatewayFd d) (ResponsesResend d) (ResponsesResendSize d)
                       (Delivered d ++ [(Fd curVal, msg)]) in
            if switched then stash idx msg d
            else
              match Release PoolSize (QHead (Free (DPool d))) (Some msg) (DPool d) with
              | (true, pool) =>
                  Ret (MkDispatcher pool (GatewayFd d) (ResponsesResend d) (ResponsesResendSize d) (Delivered d))
              | (false, _) => Crash Terminate
              end
        end
  end.

(** [DrainResendBuffers], which no caller uses.  [n] bounds the loop, which a
    failed send refills. *)
Fixpoint DrainResendBuffers (n : nat) (outs : list DispatchOutcome) (d : Dispatcher) : result Dispatcher :=
  match n, ResponsesResendSize d with
  | _, O => Ret d
  | O, _ => Crash OutOfFuel
  | S n, S k =>
      '(gw, msg) ← deref (ResponsesResend d !! k);
      d ← SendMessage (default DRetry (head outs)) msg gw
            (MkDispatcher (DPool d) (GatewayFd d) (ResponsesResend d) k (Delivered d));
      DrainResendBuffers n (tail outs) d
  end.

(** [ConsumeMessages]: the messages popped from the queue, at most a batch. *)
Fixpoint ConsumeMessages (msgs : list (Z * nat)) (outs : list DispatchOutcome) (d : Dispatcher) : result Dispatcher :=
  match msgs with
  | [] => Ret d
  | (gw, msg) :: msgs =>
      d ← SendMessage (default DRetry (head outs)) msg gw d;
      ConsumeMessages msgs (tail outs) d
  end.

End Dispatcher.

(** ** GatewayEpollServer *)

Record GatewayServerState := MkGatewayServer { Gateways : list Z; FdToGateways : list Z }.

Definition FirstMessageHandle (gatewayId fd : Z) (s : GatewayServerState) : result GatewayServerState :=
  if Z.of_nat MaxGateways <? gatewayId then Ret s
  else
    match Gateways s !! Z.to_nat gatewayId with
    | None => Crash OutOfBounds
    | Some v =>
        if (Z.to_nat fd <? length (FdToGateways s))%nat then
          Ret (MkGatewayServer (<[Z.to_nat gatewayId := SwitchFd fd v]> (Gateways s))
                 (<[Z.to_nat fd := gatewayId]> (FdToGateways s)))
        else Crash OutOfBounds
    end.

Definition CloseHandle (fd : Z) (s : GatewayServerState) : result GatewayServerState :=
  gw ← deref (FdToGateways s !! Z.to_nat fd);
  match Gateways s !! Z.to_nat gw with
  | None => Crash OutOfBounds
  | Some v => Ret (MkGatewayServer (<[Z.to_nat gw := SwitchFd (-1) v]> (Gateways s)) (FdToGateways s))
  end.

(** ** The answers' life cycle *)

(** A request answered and dispatched: the processor's pool and the
    dispatcher's are the same object. *)
Definition serve (PoolSize ResendSize : nat) (states : AccountStates) (m : RoutedAuthRequest) (o : DispatchOutcome)
    (p : Processor) (d : Dispatcher) : result (Processor * Dispatcher) :=
  p ← process_request (fun k => k) PoolSize states m p;
  d ← ConsumeMessages PoolSize ResendSize (ResponsesSend p) [o]
        (MkDispatcher (ResponsesPool p) (GatewayFd d) (ResponsesResend d) (ResponsesResendSize d) (Delivered d));
  Ret (MkProcessor (DPool d) (ResponseHeap p) [], d).

Fixpoint serve_all (PoolSize ResendSize : nat) (states : AccountStates)
    (ms : list (RoutedAuthRequest * DispatchOutcome)) (p : Processor) (d : Dispatcher) : result (Processor * Dispatcher) :=
  match ms with
  | [] => Ret (p, d)
  | (m, o) :: ms => '(p, d) ← serve PoolSize ResendSize states m o p d; serve_all PoolSize ResendSize states ms p d
  end.

Definition ex_dispatcher : Dispatcher :=
  MkDispatcher ex_pool0 (replicate 3 vfd_default ++ [vfd_init 8]) (replicate 4 (0, 0%nat)) 0 [].

(** An answer that is not sent never returns to the pool.  With a pool of two
    answers, requests that arrive from gateway 2, which is not connected, or whose
    answer meets a full socket, use it up, and the next request dereferences the
    null pointer the pool returns; over a working socket the same pool serves any
    number of requests. *)
Theorem unsent_answers_exhaust_pool :
  serve_all 2 4 ex_accounts [(ex_request 5 2, DSent false); (ex_request 5 3, DRetry); (ex_request 5 3, DSent false)]
    ex_processor ex_dispatcher = Crash NullDeref /\
  exists p d, serve_all 2 4 ex_accounts (replicate 9 (ex_request 5 3, DSent false)) ex_processor ex_dispatcher = Ret (p, d) /\
    length (Delivered d) = 9%nat.
Proof. split; [vm_compute; reflexivity|]. eexists _, _. split; [vm_compute; reflexivity|reflexivity]. Qed.

(** Gateway id 16 passes the check of [FirstMessageHandle] and is past the array. *)
Example gateway_id_off_by_one fd :
  FirstMessageHandle 16 fd (MkGatewayServer (replicate MaxGateways vfd_default) (replicate 64 0)) = Crash OutOfBounds.
Proof. reflexivity. Qed.
