(* ===== verification/WireFormats.v ===== *)
(** The layouts of the messages: the packed structs of the services
    (src/market_server/common/include: order.hpp, order_state_report.hpp,
    order_book_update.hpp, client_account_snapshot.hpp, client_auth_request.hpp,
    routed_auth_request.hpp, gateway_handshake.hpp, and order_gateway/include/
    order_confirmation.hpp), and the copies of them the market client is compiled
    with (src/market_client/include/wire_formats.hpp).

    Main results: the messages of both programs have the sizes and the fields at
    the offsets of docs/PROTOCOL.md, so that each side reads back what the other
    wrote; the one exception is a confirmation status the client does not know. *)

From stdpp Require Import strings.
From S2P Require Import Prelude WireTypes Codec GatewayStates OrderRouter AccountStates AccountService.

#[local] Open Scope codec_scope.

(** ** Enumerations *)

Definition state_code (s : OrderState) : Z :=
  match s with FILL => 0 | PARTIAL_FILL => 1 | CANCEL => 2 | REJECT => 3 | ADD => 4 end.
Definition status_code (s : OrderConfirmationStatus) : Z :=
  match s with
  | Accepted => 0 | InsufficientFunds => 1 | MaxPositionsStatus => 2 | InvalidPrice => 3 | InvalidQuantity => 4
  | UnknownSymbol => 5 | TechnicalFailure => 6 | UserNotConnected => 7 | BadClientId => 8
  end.

(** The enumerators are distinct and in the range of the type. *)
Ltac enum_ok := first
  [ repeat constructor; cbn; lia
  | refine (bool_decide_unpack _ _); vm_compute; exact I ].

Ltac enum_in := repeat first [apply list_elem_of_here|apply list_elem_of_further].
Ltac fields := cbn [fits struct pair_codec fst snd]; split_and!.

Definition type_codec : Codec OrderType := enum 1 type_byte [LIMIT; MARKET] ltac:(enum_ok) ltac:(enum_ok).
Definition side_codec : Codec OrderSide := enum 1 side_byte [BUY; SELL] ltac:(enum_ok) ltac:(enum_ok).
Definition action_codec : Codec OrderAction := enum 1 action_byte [EXECUTE; CANCEL_ORDER] ltac:(enum_ok) ltac:(enum_ok).
Definition state_codec : Codec OrderState :=
  enum 4 state_code [FILL; PARTIAL_FILL; CANCEL; REJECT; ADD] ltac:(enum_ok) ltac:(enum_ok).

Definition status_codec : Codec OrderConfirmationStatus :=
  enum 1 status_code [Accepted; InsufficientFunds; MaxPositionsStatus; InvalidPrice; InvalidQuantity; UnknownSymbol;
                      TechnicalFailure; UserNotConnected; BadClientId] ltac:(enum_ok) ltac:(enum_ok).

(** ** The services' structs *)

Record ClientAuthRequest := MkAuthRequest {
  CRequestType : Z;      (* char *)
  CReqClientId : Z;      (* uint32_t *)
  CKey : list Z          (* std::array<uint8_t, 32> *)
}.

Definition order_codec : Codec Order :=
  struct (sint64 ⊗ uint 8 ⊗ uint 4 ⊗ uint 4 ⊗ uint 4 ⊗ uint 2 ⊗ type_codec ⊗ side_codec ⊗ action_codec ⊗ padding 7)
    (fun o => (Price o, OrderId o, ClientOrderId o, ClientId o, Amount o, AssetId o, Type_ o, Side o, Action o, tt))
    (fun '(p, i, ci, c, a, s, t, sd, ac, _) => MkOrder p i ci c a s t sd ac)
    ltac:(by intros []).

Definition report_codec : Codec OrderStateReport :=
  struct (sint64 ⊗ sint64 ⊗ sint64 ⊗ uint 4 ⊗ uint 4 ⊗ uint 4 ⊗ uint 4 ⊗ uint 2 ⊗ uint 2 ⊗ state_codec)
    (fun r => (BoughtDelta r, SoldDelta r, SoldAttemptDelta r, RSequenceId r, RClientId r, ROrderId r, TradeId r,
               BoughtAssetId r, SoldAssetId r, State r))
    (fun '(b, s, a, q, c, o, t, ba, sa, st) => MkReport b s a q c o t ba sa st)
    ltac:(by intros []).

Definition update_codec : Codec OrderBookUpdate :=
  struct (sint64 ⊗ uint 4 ⊗ uint 4 ⊗ uint 2 ⊗ uint 1)
    (fun u => (UPrice u, USequenceId u, Depth u, UAssetId u, USide u))
    (fun '(p, q, d, a, s) => MkUpdate p q d a s)
    ltac:(by intros []).

Definition snapshot_codec : Codec ClientAccountSnapshot :=
  struct (uint 1 ⊗ uint 8 ⊗ uint 4 ⊗ uint 4 ⊗ array MaxPositions (uint 2) ⊗ array MaxPositions sint64
          ⊗ array MaxPositions sint64)
    (fun s => (SnStatus s, SnSequenceId s, SnClientId s, SnClientFd s, SnAssetId s, SnConfirmed s, SnAttempt s))
    (fun '(st, q, c, f, ids, cf, at_) => MkSnapshot st q c f ids cf at_)
    ltac:(by intros []).

Definition auth_request_codec : Codec ClientAuthRequest :=
  struct (uint 1 ⊗ uint 4 ⊗ array 32 (uint 1))
    (fun r => (CRequestType r, CReqClientId r, CKey r))
    (fun '(t, c, k) => MkAuthRequest t c k)
    ltac:(by intros []).

Definition routed_request_codec : Codec RoutedAuthRequest :=
  struct (uint 1 ⊗ uint 4 ⊗ array 32 (uint 1) ⊗ uint 4 ⊗ uint 2)
    (fun r => (RequestType r, QClientId r, QKey r, QClientFd r, QGatewayId r))
    (fun '(t, c, k, f, g) => MkRequest t c k f g)
    ltac:(by intros []).

(** [GatewayHandshake]: its one field. *)
Definition handshake_codec : Codec Z := uint 2.

Definition confirmation_codec : Codec OrderConfirmation :=
  struct (uint 4 ⊗ uint 4 ⊗ status_codec)
    (fun c => (OcOrderId c, OcClientOrderId c, Status c))
    (fun '(i, ci, s) => MkConfirmation i ci s)
    ltac:(by intros []).

(** ** The client's copies *)

Module Gateways.

Definition ClientRequest : Codec ClientAuthRequest :=
  struct (uint 1 ⊗ uint 4 ⊗ array 32 (uint 1))
    (fun r => (CRequestType r, CReqClientId r, CKey r))
    (fun '(t, c, k) => MkAuthRequest t c k)
    ltac:(by intros []).

Definition GatewayConnection : Codec Z := uint 2.

Definition GatewayRequest : Codec RoutedAuthRequest :=
  struct (uint 1 ⊗ uint 4 ⊗ array 32 (uint 1) ⊗ uint 4 ⊗ uint 2)
    (fun r => (RequestType r, QClientId r, QKey r, QClientFd r, QGatewayId r))
    (fun '(t, c, k, f, g) => MkRequest t c k f g)
    ltac:(by intros []).

Definition Order : Codec Order :=
  struct (sint64 ⊗ uint 8 ⊗ uint 4 ⊗ uint 4 ⊗ uint 4 ⊗ uint 2 ⊗ type_codec ⊗ side_codec ⊗ action_codec ⊗ padding 7)
    (fun o => (Price o, OrderId o, ClientOrderId o, ClientId o, Amount o, AssetId o, Type_ o, Side o, Action o, tt))
    (fun '(p, i, ci, c, a, s, t, sd, ac, _) => MkOrder p i ci c a s t sd ac)
    ltac:(by intros []).

(** The status is kept as the byte received: the client's enumeration ends at
    [UserNotConnected]. *)
Record ClientConfirmation := MkClientConfirmation {
  CcOrderId : Z;          (* uint32_t *)
  CcClientOrderId : Z;    (* uint32_t *)
  CcStatus : Z            (* OrderConfirmationStatus : uint8_t *)
}.
Definition OrderConfirmation : Codec ClientConfirmation :=
  struct (uint 4 ⊗ uint 4 ⊗ uint 1)
    (fun c => (CcOrderId c, CcClientOrderId c, CcStatus c))
    (fun '(i, ci, s) => MkClientConfirmation i ci s)
    ltac:(by intros []).

Definition ToString (s : Z) : string :=
  if s =? 0 then "Accepted" else if s =? 1 then "Insufficient funds" else if s =? 2 then "Max positions reached"
  else if s =? 3 then "Invalid price" else if s =? 4 then "Invalid quantity" else if s =? 5 then "Unknown symbol"
  else if s =? 6 then "Technical failure" else if s =? 7 then "User not connected" else "Unknown status".

Definition ClientRequestResponse (MaxPositions : nat) : Codec ClientAccountSnapshot :=
  struct (uint 1 ⊗ uint 8 ⊗ uint 4 ⊗ uint 4 ⊗ array MaxPositions (uint 2) ⊗ array MaxPositions sint64
          ⊗ array MaxPositions sint64)
    (fun s => (SnStatus s, SnSequenceId s, SnClientId s, SnClientFd s, SnAssetId s, SnConfirmed s, SnAttempt s))
    (fun '(st, q, c, f, ids, cf, at_) => MkSnapshot st q c f ids cf at_)
    ltac:(by intros []).

Definition OrderStateReport : Codec OrderStateReport :=
  struct (sint64 ⊗ sint64 ⊗ sint64 ⊗ uint 4 ⊗ uint 4 ⊗ uint 4 ⊗ uint 4 ⊗ uint 2 ⊗ uint 2 ⊗ state_codec)
    (fun r => (BoughtDelta r, SoldDelta r, SoldAttemptDelta r, RSequenceId r, RClientId r, ROrderId r, TradeId r,
               BoughtAssetId r, SoldAssetId r, State r))
    (fun '(b, s, a, q, c, o, t, ba, sa, st) => MkReport b s a q c o t ba sa st)
    ltac:(by intros []).

Definition OrderBookUpdate : Codec OrderBookUpdate :=
  struct (sint64 ⊗ uint 4 ⊗ uint 4 ⊗ uint 2 ⊗ uint 1)
    (fun u => (UPrice u, USequenceId u, Depth u, UAssetId u, USide u))
    (fun '(p, q, d, a, s) => MkUpdate p q d a s)
    ltac:(by intros []).

End Gateways.

(** ** Agreement *)

(** The router's bytes of an order are those of its layout. *)
Lemma order_codec_bytes o : enc order_codec o = order_bytes o.
Proof.
  unfold order_bytes. cbn [enc order_codec struct pair_codec fst snd]. rewrite <- !app_assoc. do 6 f_equal.
  all: try reflexivity. destruct (Type_ o), (Side o), (Action o); reflexivity.
Qed.

Lemma order_fits o : order_in_range o -> fits order_codec o.
Proof.
  intros (H1 & H2 & H3 & H4 & H5 & H6). unfold order_codec. fields; try assumption.
  - destruct (Type_ o); enum_in.
  - destruct (Side o); enum_in.
  - destruct (Action o); enum_in.
  - exact I.
Qed.

(** What the engine fills in fits, whatever the arguments. *)
Lemma report_fits b s a q c o t ba sa st : fits report_codec (FillReport b s a q c o t ba sa st).
Proof.
  unfold report_codec. fields; try apply s64_range; try apply u32_range; try (apply Z.mod_pos_bound; lia).
  destruct st; enum_in.
Qed.

Lemma update_fits q d p a s : fits update_codec (FillUpdate q d p a s).
Proof. unfold update_codec. fields; try apply s64_range; try apply u32_range; apply Z.mod_pos_bound; lia. Qed.

(** [A] is written by one program with the layout [w] and read by another with the
    layout [r]. *)
Definition agree {A} (w r : Codec A) : Prop :=
  width w = width r /\ forall a rest, fits w a -> dec r (enc w a ++ rest) = Some (a, rest).

Lemma client_order_bytes o : enc Gateways.Order o = enc order_codec o.
Proof. reflexivity. Qed.
Lemma client_request_bytes r : enc Gateways.ClientRequest r = enc auth_request_codec r.
Proof. reflexivity. Qed.

(** What the client makes of a confirmation. *)
Definition client_confirmation (c : OrderConfirmation) : Gateways.ClientConfirmation :=
  Gateways.MkClientConfirmation (OcOrderId c) (OcClientOrderId c) (status_code (Status c)).
Lemma confirmation_read c rest :
  fits confirmation_codec c ->
  dec Gateways.OrderConfirmation (enc confirmation_codec c ++ rest) = Some (client_confirmation c, rest).
Proof.
  intros Hc. change (enc confirmation_codec c) with (enc Gateways.OrderConfirmation (client_confirmation c)).
  apply dec_enc. destruct Hc as [Hc _]. split; [exact Hc|]. cbn -[Z.lt Z.le]. destruct (Status c); vm_compute; split; congruence.
Qed.

(** ** The tables of docs/PROTOCOL.md

    One row per field: offset, size, value. *)

Definition auth_request_fields (r : ClientAuthRequest) : fields_of :=
  [(0, 1, CRequestType r); (1, 4, CReqClientId r)]%nat ++ elements 5 1 (CKey r).
Definition order_fields (o : Order) : fields_of :=
  [(0, 8, Price o); (8, 8, OrderId o); (16, 4, ClientOrderId o); (20, 4, ClientId o); (24, 4, Amount o); (28, 2, AssetId o);
   (30, 1, match Type_ o with LIMIT => 0%Z | MARKET => 1%Z end);
   (31, 1, match Side o with BUY => 0%Z | SELL => 1%Z end);
   (32, 1, match Action o with EXECUTE => 0%Z | CANCEL_ORDER => 1%Z end);
   (33, 7, 0%Z)]%nat.
Definition confirmation_fields (orderId clientOrderId status : Z) : fields_of :=
  [(0, 4, orderId); (4, 4, clientOrderId); (8, 1, status)]%nat.
Definition handshake_fields (gatewayId : Z) : fields_of := [(0, 2, gatewayId)]%nat.
Definition routed_request_fields (r : RoutedAuthRequest) : fields_of :=
  auth_request_fields (MkAuthRequest (RequestType r) (QClientId r) (QKey r)) ++
  [(37, 4, QClientFd r); (41, 2, QGatewayId r)]%nat.
Definition snapshot_fields (s : ClientAccountSnapshot) : fields_of :=
  [(0, 1, SnStatus s); (1, 8, SnSequenceId s); (9, 4, SnClientId s); (13, 4, SnClientFd s)]%nat ++
  elements 17 2 (SnAssetId s) ++ elements 49 8 (SnConfirmed s) ++ elements 177 8 (SnAttempt s).
Definition report_fields (r : OrderStateReport) : fields_of :=
  [(0, 8, BoughtDelta r); (8, 8, SoldDelta r); (16, 8, SoldAttemptDelta r); (24, 4, RSequenceId r); (28, 4, RClientId r);
   (32, 4, ROrderId r); (36, 4, TradeId r); (40, 2, BoughtAssetId r); (42, 2, SoldAssetId r);
   (44, 4, match State r with FILL => 0%Z | PARTIAL_FILL => 1%Z | CANCEL => 2%Z | REJECT => 3%Z | ADD => 4%Z end)]%nat.
Definition update_fields (u : OrderBookUpdate) : fields_of :=
  [(0, 8, UPrice u); (8, 4, USequenceId u); (12, 4, Depth u); (16, 2, UAssetId u); (18, 1, USide u)]%nat.

(** The codes of the statuses, and the names the client gives them. *)
Definition status_table : list (OrderConfirmationStatus * Z * string) :=
  [(Accepted, 0, "Accepted"); (InsufficientFunds, 1, "Insufficient funds"); (MaxPositionsStatus, 2, "Max positions reached");
   (InvalidPrice, 3, "Invalid price"); (InvalidQuantity, 4, "Invalid quantity"); (UnknownSymbol, 5, "Unknown symbol");
   (TechnicalFailure, 6, "Technical failure"); (UserNotConnected, 7, "User not connected"); (BadClientId, 8, "Unknown status")].

(** A message without arrays: both tiling and bytes compute. *)
Ltac plain_table :=
  apply documented_table; [reflexivity|]; intros a _; split; [repeat split|];
  cbn [enc order_codec report_codec update_codec handshake_codec confirmation_codec Gateways.OrderConfirmation
       struct pair_codec fst snd sint64 uint]; rewrite ?le_bytes_u64, <- ?app_assoc.

Lemma order_documented : documented order_codec 40 order_fields.
Proof. plain_table. unfold order_fields. destruct (Type_ a), (Side a), (Action a); reflexivity. Qed.
Lemma report_documented : documented report_codec 48 report_fields.
Proof. plain_table. unfold report_fields. destruct (State a); reflexivity. Qed.
Lemma update_documented : documented update_codec 19 update_fields.
Proof. plain_table. reflexivity. Qed.
Lemma handshake_documented : documented handshake_codec 2 handshake_fields.
Proof. plain_table. reflexivity. Qed.

Lemma auth_request_tiles r : length (CKey r) = 32%nat -> tiles 0 (auth_request_fields r) 37.
Proof.
  intros Hk. apply (tiles_app _ _ _ 5); [repeat split|]. pose proof (tiles_elements 5 1 (CKey r)) as H. by rewrite Hk in H.
Qed.
Lemma auth_request_documented : documented auth_request_codec 37 auth_request_fields.
Proof.
  apply documented_table; [reflexivity|]. intros r (_ & Hk & _). split; [by apply auth_request_tiles|].
  unfold auth_request_fields. rewrite table_bytes_app, table_bytes_elements. reflexivity.
Qed.
Lemma routed_request_documented : documented routed_request_codec 43 routed_request_fields.
Proof.
  apply documented_table; [reflexivity|]. intros r [[[_ [Hk _]] _] _]. split.
  - apply (tiles_app _ _ _ 37); [by apply auth_request_tiles|repeat split].
  - unfold routed_request_fields, auth_request_fields. rewrite !table_bytes_app, table_bytes_elements.
    cbn [enc routed_request_codec struct pair_codec fst snd]. rewrite <- !app_assoc. reflexivity.
Qed.
Lemma snapshot_documented : documented snapshot_codec 305 snapshot_fields.
Proof.
  apply documented_table; [reflexivity|]. intros s [[[_ [Hi _]] [Hc _]] [Ha _]]. split.
  - apply (tiles_app _ _ _ 17); [repeat split|].
    pose proof (tiles_elements 17 2 (SnAssetId s)) as H1. pose proof (tiles_elements 49 8 (SnConfirmed s)) as H2.
    pose proof (tiles_elements 177 8 (SnAttempt s)) as H3. cbn [fst snd] in Hi, Hc, Ha. rewrite Hi in H1. rewrite Hc in H2. rewrite Ha in H3.
    apply (tiles_app _ _ _ 49); [exact H1|]. by apply (tiles_app _ _ _ 177).
  - unfold snapshot_fields. rewrite !table_bytes_app, !table_bytes_elements.
    cbn [enc snapshot_codec struct pair_codec array sint64 fst snd]. rewrite !bind_u64, <- !app_assoc. reflexivity.
Qed.
Lemma confirmation_documented :
  documented confirmation_codec 9 (fun c => confirmation_fields (OcOrderId c) (OcClientOrderId c) (status_code (Status c))).
Proof. plain_table. reflexivity. Qed.
Lemma client_confirmation_documented :
  documented Gateways.OrderConfirmation 9
    (fun c => confirmation_fields (Gateways.CcOrderId c) (Gateways.CcClientOrderId c) (Gateways.CcStatus c)).
Proof. plain_table. reflexivity. Qed.

(** C37: every message of the services and every copy of it in the client is laid
    out as the tables of docs/PROTOCOL.md say, field by field: what either program
    writes has the documented size with each field, little-endian, at its
    documented offset, and any bytes of that size with the fields of a message at
    these offsets are read as that message.  So what one side writes the other
    reads back; the codes of the confirmation statuses are the documented ones, and
    each has its own name in the client except [BadClientId], which it does not
    know. *)
Theorem client_and_services_agree :
  (documented auth_request_codec 37 auth_request_fields /\ documented Gateways.ClientRequest 37 auth_request_fields) /\
  (documented order_codec 40 order_fields /\ documented Gateways.Order 40 order_fields) /\
  (documented handshake_codec 2 handshake_fields /\ documented Gateways.GatewayConnection 2 handshake_fields) /\
  (documented routed_request_codec 43 routed_request_fields /\ documented Gateways.GatewayRequest 43 routed_request_fields) /\
  (documented snapshot_codec 305 snapshot_fields /\
   documented (Gateways.ClientRequestResponse MaxPositions) 305 snapshot_fields) /\
  (documented report_codec 48 report_fields /\ documented Gateways.OrderStateReport 48 report_fields) /\
  (documented update_codec 19 update_fields /\ documented Gateways.OrderBookUpdate 19 update_fields) /\
  (documented confirmation_codec 9 (fun c => confirmation_fields (OcOrderId c) (OcClientOrderId c) (status_code (Status c))) /\
   documented Gateways.OrderConfirmation 9
     (fun c => confirmation_fields (Gateways.CcOrderId c) (Gateways.CcClientOrderId c) (Gateways.CcStatus c)) /\
   forall c rest, fits confirmation_codec c ->
     dec Gateways.OrderConfirmation (enc confirmation_codec c ++ rest) = Some (client_confirmation c, rest)) /\
  (forall s, (s, status_code s, Gateways.ToString (status_code s)) ∈ status_table) /\
  (forall s, Gateways.ToString (status_code s) = "Unknown status"%string <-> s = BadClientId).
Proof.
  split_and!.
  all: first [exact auth_request_documented|exact order_documented|exact handshake_documented|exact routed_request_documented
    |exact snapshot_documented|exact report_documented|exact update_documented|exact confirmation_documented
    |exact client_confirmation_documented|exact confirmation_read|by intros []|idtac].
  intros s. destruct s; enum_in.
Qed.
