(* ===== verification/UdpMulticast.v ===== *)
(** The sending side of the market data: [UdpMulticastEmitter]
    (src/market_server/common/include/udp_multicast_emitter.hpp), with the emitters
    of the matching engine (trade_report_emitter.hpp, order_book_emitter.hpp).

    The network card and its library are not part of the repository: their structs
    and functions are the fields of [Dpdk], with what is documented of them as its
    laws ([DpdkLaws]).  A packet in construction is the bytes of its frame; what an
    allocation answers and how many packets of a burst the card takes are
    parameters.  The objects of a batch are pointers into a memory, because sending
    stamps them with their sequence numbers in place.

    Main result: a batch is sent, in order, as packets that carry its objects with
    consecutive sequence numbers, and no packet exceeds the MTU. *)

From stdpp Require Import numbers.
From S2P Require Import Prelude WireTypes Codec BookSpec OrderRouter WireFormats.

(** ** Objects with a sequence number *)

(** [HasSequenceId]: a layout with a field [SequenceId]. *)
Class Sequenced (T : Type) := {
  layout : Codec T;
  SequenceId : T -> Z;
  set_SequenceId : Z -> T -> T;
  read_SequenceId : list Z -> Z;     (* the field, in the memory of an object *)
  layout_pos : (0 < width layout)%nat;
  read_enc t : fits layout t -> read_SequenceId (enc layout t) = SequenceId t;
  SequenceId_set n t : SequenceId (set_SequenceId n t) = n;
  set_fits n t : in_u32 n -> fits layout t -> fits layout (set_SequenceId n t)
}.

(** Four bytes at an offset. *)
Definition field32 (off : nat) (bs : list Z) : Z := of_le (take 4 (drop off bs)).

Lemma field32_app off a z b : length a = off -> 0 <= z < 2 ^ 32 -> field32 off (a ++ le_bytes 4 z ++ b) = z.
Proof.
  intros <- Hz. unfold field32. rewrite drop_app_length. rewrite take_app_le by (rewrite le_bytes_length; lia).
  rewrite take_ge by (rewrite le_bytes_length; lia). rewrite of_le_bytes. by apply Z.mod_small.
Qed.

#[export, program] Instance report_sequenced : Sequenced OrderStateReport := {|
  layout := report_codec;
  SequenceId := RSequenceId;
  set_SequenceId := set_RSequenceId;
  read_SequenceId := field32 24
|}.
Next Obligation. cbn. lia. Qed.
Next Obligation.
  intros r Hr. unfold report_codec in *. cbn [enc fits struct pair_codec fst snd sint64 uint] in *.
  destruct Hr as [[[[[[[_ Hq] _] _] _] _] _] _]. rewrite <- !app_assoc.
  rewrite (app_assoc _ (le_bytes 8 _)), (app_assoc _ (le_bytes 8 _) (le_bytes 4 _ ++ _)). apply field32_app; [|exact Hq].
  by rewrite !length_app, !le_bytes_length.
Qed.
Next Obligation. done. Qed.
Next Obligation.
  intros n r Hn Hr. unfold report_codec in *. cbn [fits struct pair_codec fst snd sint64 uint set_RSequenceId] in *.
  destruct Hr as [[[[[[[? _] ?] ?] ?] ?] ?] ?]. by repeat (split; [|done]).
Qed.

#[export, program] Instance update_sequenced : Sequenced OrderBookUpdate := {|
  layout := update_codec;
  SequenceId := USequenceId;
  set_SequenceId := set_USequenceId;
  read_SequenceId := field32 8
|}.
Next Obligation. cbn. lia. Qed.
Next Obligation.
  intros u Hu. unfold update_codec in *. cbn [enc fits struct pair_codec fst snd sint64 uint] in *.
  destruct Hu as [[[[_ Hq] _] _] _]. rewrite <- !app_assoc. apply field32_app; [|exact Hq]. by rewrite le_bytes_length.
Qed.
Next Obligation. done. Qed.
Next Obligation.
  intros n u Hn Hu. unfold update_codec in *. cbn [fits struct pair_codec fst snd sint64 uint set_USequenceId] in *.
  destruct Hu as [[[[? _] ?] ?] ?]. by repeat (split; [|done]).
Qed.

(** ** The network library *)

(** The fields of [rte_ether_hdr], [rte_ipv4_hdr] and [rte_udp_hdr], as stored. *)
Record EthHdr := MkEth { dst_mac : list Z; src_mac : list Z; ether_type : Z }.
Record IpHdr := MkIp {
  version_ihl : Z; type_of_service : Z; total_length : Z; packet_id : Z; fragment_offset : Z;
  time_to_live : Z; next_proto_id : Z; hdr_checksum : Z; src_addr : Z; dst_addr : Z
}.
Record UdpHdr := MkUdp { src_port : Z; dst_port : Z; dgram_len : Z; dgram_cksum : Z }.

Class Dpdk := {
  rte_ether_hdr : Codec EthHdr;
  rte_ipv4_hdr : Codec IpHdr;
  rte_udp_hdr : Codec UdpHdr;
  RTE_ETHER_TYPE_IPV4 : Z;
  IPPROTO_UDP : Z;
  rte_cpu_to_be_16 : Z -> Z;
  rte_cpu_to_be_32 : Z -> Z;
  rte_ipv4_cksum : IpHdr -> Z
}.

Definition in_u16 (z : Z) : Prop := 0 <= z < 2 ^ 16.
Definition mac_ok (m : list Z) : Prop := length m = 6%nat /\ Forall is_byte m.
Definition ip_ok (h : IpHdr) : Prop :=
  is_byte (version_ihl h) /\ is_byte (type_of_service h) /\ in_u16 (total_length h) /\ in_u16 (packet_id h) /\
  in_u16 (fragment_offset h) /\ is_byte (time_to_live h) /\ is_byte (next_proto_id h) /\ in_u16 (hdr_checksum h) /\
  in_u32 (src_addr h) /\ in_u32 (dst_addr h).
Definition udp_ok (h : UdpHdr) : Prop :=
  in_u16 (src_port h) /\ in_u16 (dst_port h) /\ in_u16 (dgram_len h) /\ in_u16 (dgram_cksum h).

(** A header is a packed struct of integers: every value of the fields' types can
    be stored, and any bytes of its size are one; conversions and checksums stay
    in the width of their result. *)
Class DpdkLaws `(Dpdk) : Prop := {
  eth_fits h : mac_ok (dst_mac h) -> mac_ok (src_mac h) -> in_u16 (ether_type h) -> fits rte_ether_hdr h;
  ip_fits h : ip_ok h -> fits rte_ipv4_hdr h;
  udp_fits h : udp_ok h -> fits rte_udp_hdr h;
  eth_read bs : (width rte_ether_hdr <= length bs)%nat -> exists h, dec rte_ether_hdr bs = Some (h, drop (width rte_ether_hdr) bs);
  ip_read bs : (width rte_ipv4_hdr <= length bs)%nat -> exists h, dec rte_ipv4_hdr bs = Some (h, drop (width rte_ipv4_hdr) bs);
  udp_read bs : (width rte_udp_hdr <= length bs)%nat -> exists h, dec rte_udp_hdr bs = Some (h, drop (width rte_udp_hdr) bs);
  be16_range z : in_u16 (rte_cpu_to_be_16 z);
  be32_range z : in_u32 (rte_cpu_to_be_32 z);
  cksum_range h : in_u16 (rte_ipv4_cksum h);
  proto_range : is_byte IPPROTO_UDP
}.

(** [ipv4_multicast_to_mac] *)
Definition ipv4_multicast_to_mac (ip_host_order : Z) : list Z :=
  [0x01; 0x00; 0x5E; Z.land (Z.shiftr ip_host_order 16) 0x7F; Z.land (Z.shiftr ip_host_order 8) 0xFF; Z.land ip_host_order 0xFF].

Lemma multicast_mac_ok ip : mac_ok (ipv4_multicast_to_mac ip).
Proof.
  assert (HL : forall z k, 0 <= k <= 8 -> is_byte (Z.land z (Z.ones k))).
  { intros z k Hk. rewrite Z.land_ones by lia. unfold is_byte. pose proof (Z.mod_pos_bound z (2 ^ k) ltac:(lia)).
    pose proof (Z.pow_le_mono_r 2 k 8 ltac:(lia) ltac:(lia)). lia. }
  split; [done|]. unfold ipv4_multicast_to_mac. change 0x7F with (Z.ones 7). change 0xFF with (Z.ones 8).
  repeat (apply Forall_cons; split; [first [apply HL; lia|unfold is_byte; lia]|]). constructor.
Qed.

Definition MTU : nat := 1500.

(** ** The emitter *)

Section Emitter.
Context {T : Type} `{!Sequenced T} `{dk : Dpdk}.
Context (BatchSize : nat).
Context (alloc : nat -> bool).           (* whether the n-th rte_pktmbuf_alloc gives a packet *)
Context (tailroom : nat).                (* room for data in a new packet *)
Context (tx_burst : nat -> nat -> nat).  (* how many packets the n-th rte_eth_tx_burst takes *)

Abbreviation sizeof_T := (width (layout (T := T))).

Definition ObjectsPerPacket : nat := ((MTU - width rte_ipv4_hdr - width rte_udp_hdr) / sizeof_T)%nat.
Definition MaxPackets : nat :=
  (BatchSize / ObjectsPerPacket + (if (BatchSize mod ObjectsPerPacket =? 0)%nat then 0 else 1))%nat.

(** What the emitter sets of an [rte_mbuf]. *)
Record TxPacket := MkTx { frame : list Z; l2_len : nat; l3_len : nat }.

Record Emitter := MkEmitter {
  ESequenceId : Z;          (* uint32_t *)
  SrcIp : Z; DstIp : Z; SrcPort : Z; DstPort : Z;
  DstMac : list Z; SrcMac : list Z;
  Objects : gmap nat T;     (* the memory of the objects *)
  Allocs : nat;             (* rte_pktmbuf_alloc calls so far *)
  Bursts : nat;             (* rte_eth_tx_burst calls so far *)
  OnWire : list TxPacket;   (* packets the card took, in order *)
  Returned : list TxPacket  (* packets freed without being sent *)
}.
Implicit Type e : Emitter.

Definition set_objects (q : Z) (m : gmap nat T) e : Emitter :=
  MkEmitter q (SrcIp e) (DstIp e) (SrcPort e) (DstPort e) (DstMac e) (SrcMac e) m (Allocs e) (Bursts e) (OnWire e) (Returned e).
Definition count_alloc e : Emitter :=
  MkEmitter (ESequenceId e) (SrcIp e) (DstIp e) (SrcPort e) (DstPort e) (DstMac e) (SrcMac e) (Objects e) (S (Allocs e))
    (Bursts e) (OnWire e) (Returned e).
Definition free_packets (ps : list TxPacket) e : Emitter :=
  MkEmitter (ESequenceId e) (SrcIp e) (DstIp e) (SrcPort e) (DstPort e) (DstMac e) (SrcMac e) (Objects e) (Allocs e)
    (Bursts e) (OnWire e) (Returned e ++ ps).
Definition take_packets (ps : list TxPacket) e : Emitter :=
  MkEmitter (ESequenceId e) (SrcIp e) (DstIp e) (SrcPort e) (DstPort e) (DstMac e) (SrcMac e) (Objects e) (Allocs e)
    (S (Bursts e)) (OnWire e ++ ps) (Returned e).

(** The constructor: the codes [rte_eth_tx_queue_setup] and [rte_eth_macaddr_get]
    return, and the address of the card. *)
Definition emitter_init (tx_setup mac_get : Z) (card : list Z) (srcIp dstIp srcPort dstPort : Z) (objects : gmap nat T)
    : result Emitter :=
  if tx_setup <? 0 then Crash Terminate
  else if negb (mac_get =? 0) then Crash Terminate
  else Ret (MkEmitter 0 (u32 srcIp) (u32 dstIp) (u16 srcPort) (u16 dstPort) (ipv4_multicast_to_mac (u32 dstIp)) card objects 0 0 [] []).

Definition FillEthernetHeader e : EthHdr := MkEth (DstMac e) (SrcMac e) (rte_cpu_to_be_16 RTE_ETHER_TYPE_IPV4).

Definition FillIpHeader (curStep : nat) e : IpHdr :=
  let len := rte_cpu_to_be_16 (u16 (Z.of_nat (width rte_ipv4_hdr + width rte_udp_hdr + sizeof_T * curStep))) in
  let hdr ck := MkIp 0x45 0 len 0 0 1 IPPROTO_UDP ck (rte_cpu_to_be_32 (SrcIp e)) (rte_cpu_to_be_32 (DstIp e)) in
  hdr (rte_ipv4_cksum (hdr 0)).

Definition FillUdpHeader (curStep : nat) e : UdpHdr :=
  MkUdp (rte_cpu_to_be_16 (SrcPort e)) (rte_cpu_to_be_16 (DstPort e))
    (rte_cpu_to_be_16 (u16 (Z.of_nat (width rte_udp_hdr + sizeof_T * curStep)))) 0.

(** The bytes of the objects, one after the other. *)
Fixpoint CopyPayload (items : list nat) e : result (list Z) :=
  match items with
  | [] => Ret []
  | x :: items => o ← deref (Objects e !! x); rest ← CopyPayload items e; Ret (enc layout o ++ rest)
  end.

Definition FillHeaders (items : list nat) e : result (option TxPacket) :=
  let curStep := length items in
  let totalLen := (width rte_ether_hdr + width rte_ipv4_hdr + width rte_udp_hdr + sizeof_T * curStep)%nat in
  if (tailroom <? totalLen)%nat then Ret None
  else
    payload ← CopyPayload items e;
    Ret (Some (MkTx (enc rte_ether_hdr (FillEthernetHeader e) ++ enc rte_ipv4_hdr (FillIpHeader curStep e) ++
                     enc rte_udp_hdr (FillUdpHeader curStep e) ++ payload) (width rte_ether_hdr) (width rte_ipv4_hdr))).

(** [buffer[totalCopied + i]->SequenceId = SequenceId++] *)
Fixpoint stamp_objects (items : list nat) e : result Emitter :=
  match items with
  | [] => Ret e
  | x :: items =>
      o ← deref (Objects e !! x);
      stamp_objects items (set_objects (u32 (ESequenceId e + 1)) (<[x := set_SequenceId (ESequenceId e) o]> (Objects e)) e)
  end.

(** The n-th burst; what the card does not take is freed. *)
Definition burst (ps : list TxPacket) e : Emitter :=
  let sent := tx_burst (Bursts e) (length ps) in
  let e := take_packets (take sent ps) e in
  if (sent <? length ps)%nat then free_packets (drop sent ps) e else e.

(** [Send] of one object. *)
Definition Send_one (object : nat) e : result Emitter :=
  e ← stamp_objects [object] e;
  let ok := alloc (Allocs e) in
  let e := count_alloc e in
  if negb ok then Ret e
  else
    pkt ← FillHeaders [object] e;
    match pkt with
    | None => Ret (free_packets [MkTx [] 0 0] e)
    | Some pkt => Ret (burst [pkt] e)
    end.

(** The loop of [Send], with the packets built so far: [buffer] is what is left of
    the batch.  Each turn takes at least one object, so that the size of the batch
    is fuel enough. *)
Fixpoint send_loop (fuel : nat) (buffer : list nat) (Packets : list TxPacket) e : result (list TxPacket * Emitter) :=
  if negb ((0 <? length buffer)%nat && (length Packets <? MaxPackets)%nat) then Ret (Packets, e)
  else
    match fuel with
    | O => Crash OutOfFuel
    | S fuel =>
        let curStep := Nat.min ObjectsPerPacket (length buffer) in
        e ← stamp_objects (take curStep buffer) e;
        let ok := alloc (Allocs e) in
        let e := count_alloc e in
        if negb ok then send_loop fuel (drop curStep buffer) Packets e
        else
          pkt ← FillHeaders (take curStep buffer) e;
          match pkt with
          | None => send_loop fuel (drop curStep buffer) Packets (free_packets [MkTx [] 0 0] e)
          | Some pkt => send_loop fuel (drop curStep buffer) (Packets ++ [pkt]) e
          end
    end.

(** [Send] of a batch. *)
Definition Send (buffer : list nat) (curSize : nat) e : result Emitter :=
  '(Packets, e) ← send_loop curSize (take curSize buffer) [] e;
  if (length Packets =? 0)%nat then Ret e else Ret (burst Packets e).

End Emitter.
Arguments Emitter : clear implicits.

(** ** The emitters of the matching engine

    [Handle] of [TradeReportEmitter] and [OrderBookEmitter]: of one object, and of a
    batch. *)

Definition MeOrderStateBatchSize : nat := 16.
Definition MeOrderBookUpdateBatchSize : nat := 16.

Section Emitters.
Context `{dk : Dpdk} (alloc : nat -> bool) (tailroom : nat) (tx_burst : nat -> nat -> nat).

Definition TradeReport_Handle_one (report : nat) (e : Emitter OrderStateReport) : result (Emitter OrderStateReport) :=
  Send_one alloc tailroom tx_burst report e.
Definition TradeReport_Handle (reports : list nat) (size : nat) (e : Emitter OrderStateReport) : result (Emitter OrderStateReport) :=
  Send MeOrderStateBatchSize alloc tailroom tx_burst reports size e.
Definition OrderBook_Handle_one (report : nat) (e : Emitter OrderBookUpdate) : result (Emitter OrderBookUpdate) :=
  Send_one alloc tailroom tx_burst report e.
Definition OrderBook_Handle (reports : list nat) (size : nat) (e : Emitter OrderBookUpdate) : result (Emitter OrderBookUpdate) :=
  Send MeOrderBookUpdateBatchSize alloc tailroom tx_burst reports size e.
End Emitters.

(** ** What is sent *)

(** Consecutive sequence numbers. *)
Fixpoint stamped {T} `{!Sequenced T} (n : Z) (ts : list T) : list T :=
  match ts with [] => [] | t :: ts => set_SequenceId (u32 n) t :: stamped (n + 1) ts end.

Section SendProofs.
Context {T : Type} `{!Sequenced T} `{dk : Dpdk}.
Context (BatchSize : nat) (alloc : nat -> bool) (tailroom : nat) (tx_burst : nat -> nat -> nat).
Implicit Types (e : Emitter T) (ts os : list T).
Abbreviation sizeof_T := (width (layout (T := T))).
Abbreviation PerPacket := (ObjectsPerPacket (T := T)).

Lemma stamped_length n ts : length (stamped n ts) = length ts.
Proof. revert n. induction ts as [|t ts IH]; intros n; [done|]. cbn [stamped length]. by rewrite IH. Qed.
Lemma stamped_app n ts us : stamped n (ts ++ us) = stamped n ts ++ stamped (n + Z.of_nat (length ts)) us.
Proof.
  revert n. induction ts as [|t ts IH]; intros n; cbn [app stamped length]; [by rewrite Z.add_0_r|].
  rewrite IH. do 3 f_equal. lia.
Qed.
Lemma stamped_u32 n ts : stamped (u32 n) ts = stamped n ts.
Proof.
  assert (H : forall ts m n, u32 m = u32 n -> stamped m ts = stamped n ts).
  { clear. induction ts as [|t ts IH]; intros m n Hm; [done|]. cbn [stamped]. rewrite Hm. f_equal. apply IH.
    by apply u32_add_cong. }
  apply H, u32_idem.
Qed.
Lemma stamped_fits n ts : Forall (fits layout) ts -> Forall (fits layout) (stamped n ts).
Proof.
  intros H. revert n. induction H as [|t ts Ht _ IH]; intros n; constructor; [|apply IH].
  apply set_fits; [apply u32_range|done].
Qed.
Lemma lookup_stamped n ts i t : stamped n ts !! i = Some t -> SequenceId t = u32 (n + Z.of_nat i).
Proof.
  revert n i. induction ts as [|u ts IH]; intros n [|i] Hi; cbn [stamped lookup list_lookup] in Hi; try done.
  - injection Hi as <-. by rewrite SequenceId_set, Z.add_0_r.
  - rewrite (IH _ _ Hi). f_equal. lia.
Qed.

(** The packet of the objects [ts], with the headers of [e]. *)
Definition packet e ts : TxPacket :=
  MkTx (enc rte_ether_hdr (FillEthernetHeader e) ++ enc rte_ipv4_hdr (FillIpHeader (T := T) (length ts) e) ++
        enc rte_udp_hdr (FillUdpHeader (T := T) (length ts) e) ++ (ts ≫= enc layout)) (width rte_ether_hdr) (width rte_ipv4_hdr).

(** The pointers [xs] point to the objects [os]. *)
Definition points_to e : list nat -> list T -> Prop := Forall2 (fun x o => Objects e !! x = Some o).

Lemma points_to_keep e e' xs os :
  points_to e xs os -> (forall y, y ∈ xs -> Objects e' !! y = Objects e !! y) -> points_to e' xs os.
Proof.
  induction 1 as [|x o xs os Ho _ IH]; intros HK; constructor; [rewrite HK by set_solver; done|apply IH; set_solver].
Qed.

(** What sending leaves alone. *)
Definition same_config e e' : Prop :=
  SrcIp e' = SrcIp e /\ DstIp e' = DstIp e /\ SrcPort e' = SrcPort e /\ DstPort e' = DstPort e /\
  DstMac e' = DstMac e /\ SrcMac e' = SrcMac e.
Definition same_card e e' : Prop := Bursts e' = Bursts e /\ OnWire e' = OnWire e /\ Returned e' = Returned e.

Lemma packet_config e e' ts : same_config e e' -> packet e' ts = packet e ts.
Proof.
  intros (H1 & H2 & H3 & H4 & H5 & H6). unfold packet, FillEthernetHeader, FillIpHeader, FillUdpHeader.
  by rewrite H1, H2, H3, H4, H5, H6.
Qed.

Lemma stamp_objects_ok items e os :
  in_u32 (ESequenceId e) -> NoDup items -> points_to e items os ->
  exists e', stamp_objects items e = Ret e' /\ same_config e e' /\ same_card e e' /\
    ESequenceId e' = u32 (ESequenceId e + Z.of_nat (length items)) /\ points_to e' items (stamped (ESequenceId e) os) /\
    (forall y, y ∉ items -> Objects e' !! y = Objects e !! y).
Proof.
  intros Hq HN Hpt. revert e Hq Hpt. revert os. induction items as [|x items IH]; intros os e Hq Hpt.
  { apply Forall2_nil_inv_l in Hpt as ->. exists e. cbn [length stamp_objects]. rewrite Z.add_0_r, u32_small by done.
    split_and!; try done. constructor. }
  apply Forall2_cons_inv_l in Hpt as (o & os' & Ho & Hpt & ->). apply NoDup_cons in HN as [Hx HN].
  cbn [stamp_objects]. rewrite Ho. cbn [deref mbind result_bind].
  set (e1 := set_objects _ _ e).
  destruct (IH HN os' e1) as (e' & HE & Hc & Hw & Hs & Hp & Hm).
  { apply u32_range. }
  { apply (points_to_keep e); [exact Hpt|]. intros y Hy. cbn. rewrite lookup_insert_ne; [done|]. by intros ->. }
  exists e'. split_and!; [exact HE|exact Hc|exact Hw|..].
  - rewrite Hs. cbn [e1 ESequenceId set_objects length]. rewrite (u32_add_cong _ (ESequenceId e + 1)) by apply u32_idem. f_equal. lia.
  - cbn [stamped]. constructor.
    + rewrite Hm by done. cbn [e1 Objects set_objects]. by rewrite lookup_insert_eq, u32_small.
    + cbn [e1 ESequenceId set_objects] in Hp. by rewrite stamped_u32 in Hp.
  - intros y Hy. rewrite Hm by set_solver. cbn [e1 Objects set_objects]. rewrite lookup_insert_ne; [done|set_solver].
Qed.

Lemma CopyPayload_ok items e os : points_to e items os -> CopyPayload items e = Ret (os ≫= enc layout).
Proof. induction 1 as [|x o items os Ho _ IH]; [done|]. cbn [CopyPayload]. rewrite Ho. cbn [deref mbind result_bind]. by rewrite IH. Qed.

Context (HP : (0 < PerPacket)%nat) (Hroom : tailroom = (MTU + width rte_ether_hdr)%nat) (Halloc : forall n, alloc n = true).

Lemma per_packet_fits : (width rte_ipv4_hdr + width rte_udp_hdr + sizeof_T * PerPacket <= MTU)%nat.
Proof.
  unfold ObjectsPerPacket in *. set (d := (MTU - width rte_ipv4_hdr - width rte_udp_hdr)%nat) in *.
  pose proof layout_pos as Hl. pose proof (Nat.Div0.mul_div_le d sizeof_T) as Hd.
  assert (0 < d)%nat by (destruct d; [by rewrite Nat.Div0.div_0_l in HP|lia]). lia.
Qed.

Lemma FillHeaders_ok items e os :
  points_to e items os -> (length items <= PerPacket)%nat -> FillHeaders tailroom items e = Ret (Some (packet e os)).
Proof.
  intros Hpt Hl. unfold FillHeaders. pose proof per_packet_fits.
  rewrite (proj2 (Nat.ltb_ge _ _)) by nia. rewrite (CopyPayload_ok _ _ _ Hpt). cbn [mbind result_bind].
  unfold packet. by rewrite (Forall2_length _ _ _ Hpt).
Qed.

(** The loop splits what is left of the batch in groups, one per packet. *)
Lemma packet_loop_ok fuel buffer Packets e os :
  in_u32 (ESequenceId e) -> NoDup buffer -> points_to e buffer os -> (length buffer <= fuel)%nat ->
  (buffer = [] \/ (length Packets * PerPacket + length buffer <= BatchSize)%nat) ->
  exists e' gs, send_loop BatchSize alloc tailroom fuel buffer Packets e = Ret (Packets ++ (packet e <$> gs), e') /\
    concat gs = stamped (ESequenceId e) os /\ Forall (fun g => (0 < length g <= PerPacket)%nat) gs /\
    same_config e e' /\ same_card e e' /\ ESequenceId e' = u32 (ESequenceId e + Z.of_nat (length buffer)) /\
    points_to e' buffer (stamped (ESequenceId e) os) /\ (forall y, y ∉ buffer -> Objects e' !! y = Objects e !! y).
Proof.
  revert buffer Packets e os. induction fuel as [|fuel IH]; intros buffer Packets e os Hq HN Hpt Hf Hb.
  { apply length_nil_inv in Hf || (destruct buffer; [|cbn in Hf; lia]). apply Forall2_nil_inv_l in Hpt as ->.
    exists e, []. cbn. rewrite app_nil_r, Z.add_0_r, u32_small by done. split_and!; try done; constructor. }
  destruct (decide (buffer = [])) as [->|Hne].
  { apply Forall2_nil_inv_l in Hpt as ->. exists e, []. cbn. rewrite app_nil_r, Z.add_0_r, u32_small by done.
    split_and!; try done; constructor. }
  destruct Hb as [|Hb]; [done|]. assert (Hpos : (0 < length buffer)%nat) by (destruct buffer; [done|cbn; lia]).
  cbn [send_loop]. rewrite (proj2 (Nat.ltb_lt 0 _)) by done.
  rewrite (proj2 (Nat.ltb_lt (length Packets) _)); cycle 1.
  { unfold MaxPackets. pose proof (Nat.div_mod_eq BatchSize PerPacket). pose proof (Nat.mod_upper_bound BatchSize PerPacket ltac:(lia)).
    destruct (Nat.eqb_spec (BatchSize mod PerPacket) 0); nia. }
  cbn [negb andb]. cbv zeta. set (k := Nat.min _ _). assert (Hk : (0 < k <= PerPacket /\ k <= length buffer)%nat) by lia.
  pose proof (Forall2_length _ _ _ Hpt) as Hlen.
  rewrite <- (take_drop k buffer) in HN. apply NoDup_app in HN as (HN1 & Hd & HN2).
  destruct (stamp_objects_ok (take k buffer) e (take k os) Hq HN1 (Forall2_take _ _ _ _ Hpt))
    as (e1 & -> & Hc1 & Hw1 & Hs1 & Hp1 & Hm1). cbn [mbind result_bind]. rewrite Halloc. cbn [negb].
  rewrite (FillHeaders_ok (take k buffer) (count_alloc e1) (stamped (ESequenceId e) (take k os))) by
    (try exact Hp1; rewrite length_take; lia). cbn [mbind result_bind].
  destruct (IH (drop k buffer) (Packets ++ [packet (count_alloc e1) (stamped (ESequenceId e) (take k os))]) (count_alloc e1) (drop k os))
    as (e' & gs & -> & Hgs & HF & Hc & Hw & Hs & Hp & Hm).
  { cbn. rewrite Hs1. apply u32_range. }
  { done. }
  { apply (points_to_keep e); [exact (Forall2_drop _ _ _ k Hpt)|]. intros y Hy. cbn.
    rewrite Hm1; [done|]. intros Hin. by apply (Hd y). }
  { rewrite length_drop. lia. }
  { rewrite length_drop, length_app. cbn [length]. destruct (decide (k = length buffer)) as [->|].
    - left. by apply drop_ge.
    - right. assert (k = PerPacket) by lia. nia. }
  cbn [ESequenceId count_alloc] in *. rewrite length_take, Nat.min_l in Hs1 by lia.
  assert (Hrest : stamped (ESequenceId e1) (drop k os) = stamped (ESequenceId e + Z.of_nat (length (take k os))) (drop k os)).
  { rewrite Hs1, stamped_u32, length_take, Nat.min_l by lia. done. }
  assert (Hcc : same_config e (count_alloc e1)) by exact Hc1.
  exists e', (stamped (ESequenceId e) (take k os) :: gs). split_and!.
  - rewrite <- app_assoc. cbn [app fmap list_fmap]. rewrite (packet_config e (count_alloc e1)) by done. do 3 f_equal.
    f_equal. apply list_fmap_ext. intros _ g _. by apply packet_config.
  - cbn [concat]. rewrite Hgs, Hrest, <- stamped_app. by rewrite take_drop.
  - constructor; [|done]. rewrite stamped_length, length_take. lia.
  - destruct Hc as (?&?&?&?&?&?), Hcc as (?&?&?&?&?&?). unfold same_config. by repeat (split; [congruence|]); congruence.
  - destruct Hw as (?&?&?), Hw1 as (?&?&?). cbn in *. unfold same_card. by repeat (split; [congruence|]); congruence.
  - rewrite Hs, Hs1. rewrite (u32_add_cong _ (ESequenceId e + Z.of_nat k)) by apply u32_idem. rewrite length_drop. f_equal. lia.
  - rewrite <- (take_drop k buffer) at 1. rewrite <- (take_drop k os) at 1. rewrite stamped_app. apply Forall2_app.
    + apply (points_to_keep e1); [exact Hp1|]. intros y Hy. rewrite Hm; [done|]. by apply Hd.
    + by rewrite <- Hrest.
  - intros y Hy. rewrite Hm, <- Hm1 by (intros Hin; apply Hy; rewrite <- (take_drop k buffer); set_solver). done.
Qed.

Context (Htx : forall n k, (tx_burst n k <= k)%nat).

Lemma Send_ok buffer curSize e os :
  in_u32 (ESequenceId e) -> (curSize <= length buffer)%nat -> (curSize <= BatchSize)%nat ->
  NoDup (take curSize buffer) -> points_to e (take curSize buffer) os ->
  exists e' gs k, Send BatchSize alloc tailroom tx_burst buffer curSize e = Ret e' /\
    concat gs = stamped (ESequenceId e) os /\ Forall (fun g => (0 < length g <= PerPacket)%nat) gs /\
    (k <= length gs)%nat /\ ((forall n j, tx_burst n j = j) -> k = length gs) /\
    OnWire e' = OnWire e ++ (packet e <$> take k gs) /\ Returned e' = Returned e ++ (packet e <$> drop k gs) /\
    same_config e e' /\ ESequenceId e' = u32 (ESequenceId e + Z.of_nat curSize) /\
    points_to e' (take curSize buffer) (stamped (ESequenceId e) os) /\
    (forall y, y ∉ take curSize buffer -> Objects e' !! y = Objects e !! y).
Proof.
  intros Hq Hl Hb HN Hpt. assert (Hlt : length (take curSize buffer) = curSize) by (rewrite length_take; lia).
  destruct (packet_loop_ok curSize (take curSize buffer) [] e os Hq HN Hpt) as (e' & gs & HE & Hgs & HF & Hc & Hw & Hs & Hp & Hm);
    [lia|right; cbn [length]; lia|].
  unfold Send. rewrite HE. cbn [mbind result_bind app]. rewrite length_fmap, Hlt in *. destruct Hw as (Hw1 & Hw2 & Hw3).
  destruct (Nat.eqb_spec (length gs) 0) as [H0|H0].
  { apply length_zero_iff_nil in H0 as ->. exists e', [], 0%nat. cbn. rewrite !app_nil_r. by split_and!. }
  set (k := tx_burst (Bursts e') (length gs)). assert (Hk : (k <= length gs)%nat) by apply Htx.
  set (e2 := burst tx_burst (packet e <$> gs) e').
  assert (H2 : OnWire e2 = OnWire e ++ (packet e <$> take k gs) /\ Returned e2 = Returned e ++ (packet e <$> drop k gs) /\
    same_config e e2 /\ ESequenceId e2 = ESequenceId e' /\ Objects e2 = Objects e').
  { subst e2. unfold burst. rewrite length_fmap. fold k. destruct (Nat.ltb_spec k (length gs)); cbn.
    - rewrite Hw2, Hw3, <- fmap_take, <- fmap_drop. by split_and!.
    - rewrite (drop_ge gs) by lia. rewrite Hw2, Hw3, fmap_take, app_nil_r. by split_and!. }
  destruct H2 as (H2 & H3 & H4 & H5 & H6). exists e2, gs, k. unfold points_to in *. rewrite H5, H6.
  split_and!; try done. intros Hall. by apply Hall.
Qed.

(** A batch goes out in order.  Every object of a batch gets the next sequence
    number, in place; the batch is split into packets of at most [ObjectsPerPacket]
    objects, none empty, that carry the objects in order; each frame has the
    headers of the emitter and fits the MTU; the card is given all of them, and the
    packets it does not take are freed. *)
Theorem batch_is_sent_in_order buffer curSize e os :
  in_u32 (ESequenceId e) -> (curSize <= length buffer)%nat -> (curSize <= BatchSize)%nat ->
  NoDup (take curSize buffer) -> points_to e (take curSize buffer) os ->
  exists e' gs k, Send BatchSize alloc tailroom tx_burst buffer curSize e = Ret e' /\
    concat gs = stamped (ESequenceId e) os /\
    Forall (fun g => (0 < length g)%nat /\ (width rte_ipv4_hdr + width rte_udp_hdr + length g * sizeof_T <= MTU)%nat) gs /\
    OnWire e' = OnWire e ++ (packet e <$> take k gs) /\ Returned e' = Returned e ++ (packet e <$> drop k gs) /\
    ((forall n j, tx_burst n j = j) -> k = length gs) /\
    ESequenceId e' = u32 (ESequenceId e + Z.of_nat curSize) /\
    points_to e' (take curSize buffer) (stamped (ESequenceId e) os).
Proof.
  intros Hq Hl Hb HN Hpt. destruct (Send_ok buffer curSize e os Hq Hl Hb HN Hpt)
    as (e' & gs & k & H1 & H2 & H3 & H4 & H5 & H6 & H7 & _ & H8 & H9 & _).
  exists e', gs, k. split_and!; try done. pose proof per_packet_fits. eapply Forall_impl; [exact H3|].
  intros g [? ?]. split; nia.
Qed.

(** ** Many batches *)

(** The loop of an emitter: the objects of a batch are filled, then the batch is
    handled. *)
Fixpoint emit (batches : list (list (nat * T))) e : result (Emitter T) :=
  match batches with
  | [] => Ret e
  | b :: batches =>
      e ← Send BatchSize alloc tailroom tx_burst b.*1 (length b) (set_objects (ESequenceId e) (list_to_map b ∪ Objects e) e);
      emit batches e
  end.

Definition batch_ok (b : list (nat * T)) : Prop := NoDup b.*1 /\ (length b <= BatchSize)%nat.

Lemma emit_ok batches e :
  in_u32 (ESequenceId e) -> Forall batch_ok batches -> (forall n k, tx_burst n k = k) ->
  exists e' gs, emit batches e = Ret e' /\ OnWire e' = OnWire e ++ (packet e <$> gs) /\
    concat gs = stamped (ESequenceId e) (concat batches).*2 /\ Forall (fun g => (0 < length g <= PerPacket)%nat) gs /\
    Returned e' = Returned e.
Proof.
  intros Hq HB Hall. revert e Hq. induction HB as [|b batches [HN Hl] _ IH]; intros e Hq.
  { exists e, []. cbn. rewrite app_nil_r. split_and!; done || constructor. }
  cbn [emit]. set (e0 := set_objects _ _ e).
  assert (Htake : take (length b) b.*1 = b.*1) by (apply take_ge; by rewrite length_fmap).
  destruct (Send_ok b.*1 (length b) e0 b.*2) as (e1 & gs & k & -> & Hgs & HF & Hk & Hke & Hw & Hr & Hc & Hs & _).
  { done. }
  { by rewrite length_fmap. }
  { done. }
  { by rewrite Htake. }
  { rewrite Htake. apply Forall2_fmap, Forall_Forall2_diag, Forall_forall. intros [x o] Hx. cbn. apply lookup_union_Some_l.
    by apply elem_of_list_to_map. }
  rewrite (Hke Hall), take_ge in Hw by lia. rewrite (Hke Hall), drop_ge in Hr by lia. cbn [mbind result_bind].
  destruct (IH e1) as (e' & gs' & HE & Hw' & Hgs' & HF' & Hr').
  { rewrite Hs. apply u32_range. }
  exists e', (gs ++ gs'). split; [exact HE|]. split_and!.
  - rewrite Hw', Hw, fmap_app, app_assoc. f_equal. apply list_fmap_ext. intros _ g _. by apply packet_config.
  - rewrite concat_app. cbn [concat]. rewrite fmap_app, stamped_app, Hgs, Hgs', Hs, stamped_u32, length_fmap. done.
  - by apply Forall_app.
  - rewrite Hr', Hr. cbn. by rewrite app_nil_r.
Qed.
End SendProofs.

(** ** A concrete network library

    Headers in the order of the wire, big-endian conversions as byte swaps, and a
    checksum that adds the addresses. *)

Section DemoLibrary.
#[local] Open Scope codec_scope.

Definition swap16 (z : Z) : Z := of_le (rev (le_bytes 2 z)).
Definition swap32 (z : Z) : Z := of_le (rev (le_bytes 4 z)).

Definition demo_dpdk : Dpdk := {|
  rte_ether_hdr := struct (array 6 (uint 1) ⊗ array 6 (uint 1) ⊗ uint 2) (fun h => (dst_mac h, src_mac h, ether_type h))
    (fun '(d, s, t) => MkEth d s t) ltac:(by intros []);
  rte_ipv4_hdr := struct (uint 1 ⊗ uint 1 ⊗ uint 2 ⊗ uint 2 ⊗ uint 2 ⊗ uint 1 ⊗ uint 1 ⊗ uint 2 ⊗ uint 4 ⊗ uint 4)
    (fun h => (version_ihl h, type_of_service h, total_length h, packet_id h, fragment_offset h, time_to_live h,
               next_proto_id h, hdr_checksum h, src_addr h, dst_addr h))
    (fun '(v, t, l, p, f, tl, n, c, s, d) => MkIp v t l p f tl n c s d) ltac:(by intros []);
  rte_udp_hdr := struct (uint 2 ⊗ uint 2 ⊗ uint 2 ⊗ uint 2) (fun h => (src_port h, dst_port h, dgram_len h, dgram_cksum h))
    (fun '(s, d, l, c) => MkUdp s d l c) ltac:(by intros []);
  RTE_ETHER_TYPE_IPV4 := 0x0800;
  IPPROTO_UDP := 17;
  rte_cpu_to_be_16 := swap16;
  rte_cpu_to_be_32 := swap32;
  rte_ipv4_cksum := fun h => u16 (src_addr h + dst_addr h)
|}.

Lemma swap_range n z : 0 <= of_le (rev (le_bytes n z)) < 2 ^ (8 * Z.of_nat n).
Proof.
  pose proof (of_le_range (rev (le_bytes n z))) as H. rewrite length_rev, le_bytes_length in H. apply H.
  apply Forall_rev, le_bytes_bytes.
Qed.

#[export] Instance demo_laws : DpdkLaws demo_dpdk.
Proof.
  split.
  - intros h H1 H2 H3. exact (conj (conj H1 H2) H3).
  - intros h (H1&H2&H3&H4&H5&H6&H7&H8&H9&H0).
    exact (conj (conj (conj (conj (conj (conj (conj (conj (conj H1 H2) H3) H4) H5) H6) H7) H8) H9) H0).
  - intros h (H1&H2&H3&H4). exact (conj (conj (conj H1 H2) H3) H4).
  - intros bs Hl. by apply struct_total; [auto with naoto|].
  - intros bs Hl. by apply struct_total; [auto 20 with naoto|].
  - intros bs Hl. by apply struct_total; [auto with naoto|].
  - intros z. apply (swap_range 2).
  - intros z. apply (swap_range 4).
  - intros h. cbn. unfold in_u16, u16. apply Z.mod_pos_bound. lia.
  - cbn. unfold is_byte. lia.
Qed.
End DemoLibrary.

Definition demo_reports (n : nat) : list OrderStateReport :=
  (fun i => FillReport (Z.of_nat i) (-1) (-1) 0 7 (100 + Z.of_nat i) 0 3 0 FILL) <$> seq 0 n.
Definition demo_card : list Z := [2; 0; 0; 0; 0; 1].
Definition demo_emitter (objects : gmap nat OrderStateReport) : Emitter OrderStateReport :=
  MkEmitter 0 0x0A000001 0xEF010101 4000 5000 (ipv4_multicast_to_mac 0xEF010101) demo_card objects 0 0 [] [].
Definition all_sent (_ k : nat) : nat := k.

Lemma batch_is_sent_in_order_witness :
  exists e' gs k, Send (dk := demo_dpdk) 40 (fun _ => true) 1514 all_sent (seq 0 40) 35
      (demo_emitter (list_to_map (zip (seq 0 40) (demo_reports 40)))) = Ret e' /\
    concat gs = stamped 0 (demo_reports 35) /\
    OnWire e' = packet (dk := demo_dpdk) (demo_emitter (list_to_map (zip (seq 0 40) (demo_reports 40)))) <$> take k gs /\
    k = length gs /\ ESequenceId e' = 35.
Proof.
  destruct (batch_is_sent_in_order (T := OrderStateReport) (dk := demo_dpdk) 40 (fun _ => true) 1514 all_sent) with
    (buffer := seq 0 40) (curSize := 35%nat) (e := demo_emitter (list_to_map (zip (seq 0 40) (demo_reports 40))))
    (os := demo_reports 35) as (e' & gs & k & H1 & H2 & _ & H3 & _ & H4 & H5 & _).
  - vm_compute. lia.
  - reflexivity.
  - done.
  - intros n k. unfold all_sent. lia.
  - split; vm_compute; congruence.
  - vm_compute. lia.
  - lia.
  - refine (bool_decide_unpack _ _). vm_compute. exact I.
  - unfold points_to. refine (bool_decide_unpack _ _). vm_compute. exact I.
  - exists e', gs, k. split_and!; [exact H1|exact H2|exact H3|by apply H4|exact H5].
Defined.
