(* ===== verification/UdpReceiver.v ===== *)
(** The receiving side of the market data: [UdpMulticastReceiver]
    (src/market_server/common/include/udp_multicast_receiver.hpp), which puts the
    objects of the packets in a [SequenceRingBuffer] and passes them on in the order
    of their sequence numbers.

    An [rte_mbuf] is the fields the receiver reads and the memory that starts at its
    data.  The objects are those of a [StoragePool]; [Memory] is their bytes, which
    stay in the ring's slots after an object was passed on and reused.  [room] is
    what the [TryPush] calls on the outgoing queue return.

    Main results: whatever arrives, the receiver returns and passes objects on with
    consecutive sequence numbers; when packets arrive within the window of the ring,
    in any order, everything up to the first missing object has been passed on,
    unchanged; a missing object stops it for good. *)

From S2P Require Import Prelude Codec SpscQueue StoragePool Consumer Buffers WireTypes BookSpec WireFormats UdpMulticast.

Record RxPacket := MkRx {
  nb_segs : Z;
  ip_cksum_bad : bool;
  l4_cksum_bad : bool;
  pkt_len : nat;         (* uint32_t *)
  data : list Z
}.

Section Receiver.
Context {T : Type} `{!Sequenced T} `{dk : Dpdk}.
Context (RingBufferSize PoolSize : nat).
Context (room : nat -> bool).

Abbreviation sizeof_T := (width (layout (T := T))).

Record Receiver := MkReceiver {
  ROutgoing : list nat;             (* objects pushed, in order *)
  Passed : list (list Z);           (* their bytes when they were pushed *)
  RPushes : nat;                    (* TryPush calls so far *)
  TPool : StoragePool;
  Memory : gmap nat (list Z);       (* the bytes of the objects *)
  ReceiveBuffer : SequenceRingBuffer;
  NextToRead : Z;                   (* uint32_t *)
  RDstIp : Z; RDstPort : Z;
  FreedPackets : nat
}.
Implicit Type r : Receiver.

Definition set_pool (p : StoragePool) r : Receiver :=
  MkReceiver (ROutgoing r) (Passed r) (RPushes r) p (Memory r) (ReceiveBuffer r) (NextToRead r) (RDstIp r) (RDstPort r) (FreedPackets r).
Definition set_memory (x : nat) (bs : list Z) r : Receiver :=
  MkReceiver (ROutgoing r) (Passed r) (RPushes r) (TPool r) (<[x := bs]> (Memory r)) (ReceiveBuffer r) (NextToRead r) (RDstIp r)
    (RDstPort r) (FreedPackets r).
Definition set_ring (b : SequenceRingBuffer) r : Receiver :=
  MkReceiver (ROutgoing r) (Passed r) (RPushes r) (TPool r) (Memory r) b (NextToRead r) (RDstIp r) (RDstPort r) (FreedPackets r).
Definition free_packet r : Receiver :=
  MkReceiver (ROutgoing r) (Passed r) (RPushes r) (TPool r) (Memory r) (ReceiveBuffer r) (NextToRead r) (RDstIp r) (RDstPort r)
    (S (FreedPackets r)).
Definition advance r : Receiver :=
  MkReceiver (ROutgoing r) (Passed r) (RPushes r) (TPool r) (Memory r) (ReceiveBuffer r) (u32 (NextToRead r + 1)) (RDstIp r)
    (RDstPort r) (FreedPackets r).
Definition push (x : nat) r : Receiver :=
  MkReceiver (ROutgoing r ++ [x]) (Passed r ++ [default [] (Memory r !! x)]) (S (RPushes r)) (TPool r) (Memory r) (ReceiveBuffer r)
    (NextToRead r) (RDstIp r) (RDstPort r) (FreedPackets r).
Definition push_failed r : Receiver :=
  MkReceiver (ROutgoing r) (Passed r) (S (RPushes r)) (TPool r) (Memory r) (ReceiveBuffer r) (NextToRead r) (RDstIp r) (RDstPort r)
    (FreedPackets r).

(** The [SequenceId] of the object a pointer points to. *)
Definition id_of (m : gmap nat (list Z)) (x : nat) : Z := read_SequenceId (T := T) (default [] (m !! x)).

(** The constructor: the codes [rte_eth_rx_queue_setup], [rte_eth_dev_mac_addr_add],
    [rte_eth_allmulticast_enable] and [rte_eth_promiscuous_enable] return. *)
Definition receiver_init (rx_setup mac_add allmulticast promiscuous : Z) (pool : StoragePool) (dstIp dstPort : Z) : result Receiver :=
  let r := MkReceiver [] [] 0 pool ∅ (ring_init RingBufferSize) 0 (u32 dstIp) (u16 dstPort) 0 in
  if rx_setup <? 0 then Crash Terminate
  else if mac_add =? 0 then Ret r
  else if allmulticast =? 0 then Ret r
  else if promiscuous =? 0 then Ret r
  else Crash Terminate.

Definition headerSize : nat := (width rte_ether_hdr + width rte_ipv4_hdr + width rte_udp_hdr)%nat.

(** The checks on a packet: free it, skip it, or take its payload.  A packet as
    long as the headers has all three. *)
Inductive Verdict := Free | Skip | Take.

Definition check_packet (pkt : RxPacket) (dstIp dstPort : Z) : Verdict :=
  if (1 <? nb_segs pkt) || ip_cksum_bad pkt || l4_cksum_bad pkt then Free
  else if (pkt_len pkt <? headerSize)%nat then Free
  else
    match dec rte_ether_hdr (data pkt) with
    | None => Free
    | Some (eth, rest) =>
        if negb (ether_type eth =? rte_cpu_to_be_16 RTE_ETHER_TYPE_IPV4) then Free
        else
          match dec rte_ipv4_hdr rest with
          | None => Free
          | Some (ip, rest) =>
              if negb (next_proto_id ip =? IPPROTO_UDP) then Free
              else if negb (dst_addr ip =? rte_cpu_to_be_32 dstIp) then Free
              else
                match dec rte_udp_hdr rest with
                | None => Free
                | Some (udp, _) =>
                    if negb (dst_port udp =? rte_cpu_to_be_16 dstPort) then Skip else Take
                end
          end
    end.

(** One object of the payload, the bytes at [consumed]. *)
Definition receive_object (payload : list Z) (consumed : nat) r : result Receiver :=
  match Acquire PoolSize (QTail (StoragePool.Free (TPool r))) (TPool r) with
  | (None, p) => Ret (set_pool p r)
  | (Some curObj, p) =>
      if (length payload <? consumed + sizeof_T)%nat then Crash OutOfBounds
      else
        let r := set_memory curObj (take sizeof_T (drop consumed payload)) (set_pool p r) in
        let '(added, b) := AddSlot (id_of (Memory r)) RingBufferSize curObj (ReceiveBuffer r) in
        let r := set_ring b r in
        if (added : bool) then Ret r else Ret (set_pool (LocalRelease PoolSize curObj (TPool r)).2 r)
  end.

(** [for (consumed = 0; consumed < payloadSize; consumed += sizeof(T))]: [n] turns
    from [consumed]. *)
Fixpoint receive_objects (n : nat) (payload : list Z) (consumed : nat) r : result Receiver :=
  match n with
  | O => Ret r
  | S n => r ← receive_object payload consumed r; receive_objects n payload (consumed + sizeof_T) r
  end.
Definition turns (payloadSize : nat) : nat := ((payloadSize + (sizeof_T - 1)) / sizeof_T)%nat.

(** [while ((readSlot = ReceiveBuffer.GetSlot(NextToRead)))] *)
Fixpoint drain (fuel : nat) r : result Receiver :=
  match GetSlot (id_of (Memory r)) RingBufferSize (NextToRead r) (ReceiveBuffer r) with
  | None => Ret r
  | Some readSlot =>
      match fuel with
      | O => Crash OutOfFuel
      | S fuel =>
          drain fuel (advance (if room (RPushes r) then push readSlot r
                               else set_pool (LocalRelease PoolSize readSlot (TPool r)).2 (push_failed r)))
      end
  end.

Definition receive_packet (pkt : RxPacket) r : result Receiver :=
  match check_packet pkt (RDstIp r) (RDstPort r) with
  | Free => Ret (free_packet r)
  | Skip => Ret r
  | Take =>
      r ← receive_objects (turns (pkt_len pkt - headerSize)) (drop headerSize (data pkt)) 0 r;
      r ← drain (S RingBufferSize) r;
      Ret (free_packet r)
  end.

(** [Receive]: the packets of one [rte_eth_rx_burst]. *)
Fixpoint Receive (Packets : list RxPacket) r : result Receiver :=
  match Packets with
  | [] => Ret r
  | pkt :: Packets => r ← receive_packet pkt r; Receive Packets r
  end.
End Receiver.

Section ReceiverProofs.
Context {T : Type} `{!Sequenced T} `{dk : Dpdk} `{!DpdkLaws dk}.
Context (RingBufferSize PoolSize : nat) (room : nat -> bool).
Context (k : nat) (HSize : RingBufferSize = (2 ^ k)%nat) (Hk : (k < 32)%nat) (Hroom : forall n, room n = true).
Implicit Types (r : Receiver) (pkt : RxPacket).

Abbreviation sizeof_T := (width (layout (T := T))).
Abbreviation id_of := (id_of (T := T)).
Abbreviation slot_at r n := (GetSlot (id_of (Memory r)) RingBufferSize n (ReceiveBuffer r)).
Abbreviation drain := (drain (T := T) RingBufferSize PoolSize room).
Abbreviation receive_object := (receive_object (T := T) RingBufferSize PoolSize).
Abbreviation receive_objects := (receive_objects (T := T) RingBufferSize PoolSize).
Abbreviation receive_packet := (receive_packet (T := T) RingBufferSize PoolSize room).
Abbreviation Receive := (Receive (T := T) RingBufferSize PoolSize room).
Abbreviation read := (read_SequenceId (T := T)).

(** ** Whatever arrives *)

(** A ring of the right size, whose slots point to objects that were written. *)
Definition receiver_ok r : Prop :=
  length (RingBuffer (ReceiveBuffer r)) = RingBufferSize /\ in_u32 (NextToRead r) /\
  forall i x, RingBuffer (ReceiveBuffer r) !! i = Some (Some x) -> is_Some (Memory r !! x).

(** Reading the last, possibly incomplete, object of the payload stays in the
    packet's memory. *)
Definition readable pkt : Prop := (headerSize + turns (T := T) (pkt_len pkt - headerSize) * sizeof_T <= length (data pkt))%nat.

(** Consecutive sequence numbers from [n] on. *)
Definition consecutive (n : Z) (bss : list (list Z)) : Prop :=
  forall i bs, bss !! i = Some bs -> read bs = u32 (n + Z.of_nat i).

Lemma consecutive_app n a b : consecutive n a -> consecutive (u32 (n + Z.of_nat (length a))) b -> consecutive n (a ++ b).
Proof.
  intros Ha Hb i bs Hi. apply lookup_app_Some in Hi as [Hi|[Hl Hi]]; [by apply Ha|].
  rewrite (Hb _ _ Hi), (u32_add_cong _ (n + Z.of_nat (length a))) by apply u32_idem. f_equal. lia.
Qed.

Lemma slot_some r n x : slot_at r n = Some x -> n = id_of (Memory r) x /\ RingBuffer (ReceiveBuffer r) !! ring_idx RingBufferSize n = Some (Some x).
Proof.
  unfold GetSlot. destruct (RingBuffer (ReceiveBuffer r) !! ring_idx RingBufferSize n) as [[y|]|]; cbn; try done.
  zcase; [|done]. by intros [= <-].
Qed.

(** A slot answers to one sequence number. *)
Lemma slot_once r n x : in_u32 n -> slot_at r n = Some x -> slot_at r (u32 (n + Z.of_nat RingBufferSize)) = None.
Proof.
  intros Hn Hx. apply slot_some in Hx as [Hid Hs]. set (m := u32 _).
  assert (Hp : 0 < Z.of_nat RingBufferSize < 2 ^ 32 /\ exists c, 2 ^ 32 = c * Z.of_nat RingBufferSize).
  { rewrite HSize, Nat2Z.inj_pow. change (Z.of_nat 2) with 2. split.
    - split; [lia|]. apply Z.pow_lt_mono_r; lia.
    - exists (2 ^ (32 - Z.of_nat k)). rewrite <- Z.pow_add_r by lia. f_equal. lia. }
  destruct Hp as [Hp [c Hc]]. unfold in_u32 in Hn.
  assert (Hm : ring_idx RingBufferSize m = ring_idx RingBufferSize n).
  { pose proof (u32_range (n + Z.of_nat RingBufferSize)). rewrite !(ring_idx_mod RingBufferSize k HSize) by (subst m; lia). f_equal.
    subst m. unfold u32. rewrite Z.mod_mod_divide by (exists c; lia). rewrite <- (Z.mul_1_l (Z.of_nat RingBufferSize)) at 1.
    by rewrite Z.mod_add by lia. }
  destruct (slot_at r m) as [y|] eqn:Hy; [|done]. exfalso. apply slot_some in Hy as [Hid' Hs']. rewrite Hm, Hs in Hs'.
  injection Hs' as <-. assert (m = n) by congruence. subst m. unfold u32 in *.
  pose proof (Z.div_mod (n + Z.of_nat RingBufferSize) (2 ^ 32) ltac:(lia)).
  destruct (Z.eq_dec ((n + Z.of_nat RingBufferSize) / 2 ^ 32) 0); nia.
Qed.

(** Draining stops at the first number without an object, at the latest after a
    round of the ring. *)
Lemma drain_to j fuel r :
  receiver_ok r -> slot_at r (u32 (NextToRead r + Z.of_nat j)) = None -> (j <= fuel)%nat ->
  exists r' xs, drain fuel r = Ret r' /\ ROutgoing r' = ROutgoing r ++ xs /\
    Passed r' = Passed r ++ ((fun x => default [] (Memory r !! x)) <$> xs) /\
    NextToRead r' = u32 (NextToRead r + Z.of_nat (length xs)) /\ slot_at r (NextToRead r') = None /\
    (forall i x, xs !! i = Some x -> slot_at r (u32 (NextToRead r + Z.of_nat i)) = Some x) /\
    TPool r' = TPool r /\ Memory r' = Memory r /\ ReceiveBuffer r' = ReceiveBuffer r /\ RDstIp r' = RDstIp r /\ RDstPort r' = RDstPort r.
Proof.
  revert fuel r. induction j as [|j IH]; intros fuel r Hok Hj Hf; pose proof Hok as (_ & Hn & _).
  - rewrite Z.add_0_r, u32_small in Hj by done. exists r, []. destruct fuel; cbn [UdpReceiver.drain]; rewrite Hj; cbn;
      rewrite !app_nil_r, Z.add_0_r, u32_small by done; by split_and!.
  - destruct fuel as [|fuel]; [lia|]. cbn [UdpReceiver.drain]. destruct (slot_at r (NextToRead r)) as [x|] eqn:Hx.
    + rewrite Hroom. destruct (IH fuel (advance (push x r))) as (r' & xs & H1 & H2 & H3 & H4 & H5 & H6 & H7).
      { destruct Hok as (? & _ & ?). split; [done|]. split; [apply u32_range|done]. }
      { cbn. rewrite (u32_add_cong _ (NextToRead r + 1)) by apply u32_idem. replace (NextToRead r + 1 + Z.of_nat j) with
          (NextToRead r + Z.of_nat (S j)) by lia. exact Hj. }
      { lia. }
      cbn in H2, H3, H4, H5, H6, H7. rewrite (u32_add_cong _ (NextToRead r + 1)) in H4 by apply u32_idem.
      exists r', (x :: xs). split_and!; try apply H7; [exact H1|by rewrite H2, <- app_assoc|by rewrite H3, <- app_assoc| |exact H5|].
      * rewrite H4. cbn [length]. f_equal. lia.
      * intros [|i] y Hy; cbn in Hy; [injection Hy as <-; by rewrite Z.add_0_r, u32_small|].
        rewrite <- (H6 i y Hy). f_equal. rewrite (u32_add_cong (u32 _) (NextToRead r + 1)) by apply u32_idem. f_equal. lia.
    + exists r, []. cbn. rewrite !app_nil_r, Z.add_0_r, u32_small by done. by split_and!.
Qed.

Lemma drain_ok r :
  receiver_ok r ->
  exists r' xs, drain (S RingBufferSize) r = Ret r' /\ ROutgoing r' = ROutgoing r ++ xs /\
    Passed r' = Passed r ++ ((fun x => default [] (Memory r !! x)) <$> xs) /\
    NextToRead r' = u32 (NextToRead r + Z.of_nat (length xs)) /\ slot_at r (NextToRead r') = None /\
    (forall i x, xs !! i = Some x -> slot_at r (u32 (NextToRead r + Z.of_nat i)) = Some x) /\
    TPool r' = TPool r /\ Memory r' = Memory r /\ ReceiveBuffer r' = ReceiveBuffer r /\ RDstIp r' = RDstIp r /\ RDstPort r' = RDstPort r.
Proof.
  intros Hok. pose proof Hok as (_ & Hn & _). destruct (slot_at r (NextToRead r)) as [x|] eqn:Hx.
  - apply (drain_to RingBufferSize); [done| |lia]. by apply (slot_once r _ x).
  - apply (drain_to 0); [done| |lia]. by rewrite Z.add_0_r, u32_small.
Qed.

(** What is left alone until the ring is drained. *)
Definition same_output r r' : Prop :=
  ROutgoing r' = ROutgoing r /\ Passed r' = Passed r /\ NextToRead r' = NextToRead r /\ RDstIp r' = RDstIp r /\ RDstPort r' = RDstPort r.

(** The bytes of the [i]-th object of a payload. *)
Definition object_at (payload : list Z) (consumed : nat) : list Z := take sizeof_T (drop consumed payload).

Lemma receive_object_any payload consumed r :
  receiver_ok r -> (consumed + sizeof_T <= length payload)%nat ->
  exists r', receive_object payload consumed r = Ret r' /\ receiver_ok r' /\ same_output r r' /\
    (forall x bs, Memory r' !! x = Some bs -> Memory r !! x = Some bs \/ bs = object_at payload consumed).
Proof.
  intros (Hl & Hn & Hv) Hlen. unfold UdpReceiver.receive_object.
  destruct (Acquire _ _ _) as [o p]; destruct o as [x|]; [|by exists (set_pool p r); split_and!; try done; intros; left].
  rewrite (proj2 (Nat.ltb_ge _ _)) by lia. cbn [Memory set_memory set_pool ReceiveBuffer].
  set (m := <[x := _]> (Memory r)).
  assert (Hm : forall y bs, m !! y = Some bs -> Memory r !! y = Some bs \/ bs = object_at payload consumed).
  { intros y bs Hy. subst m. destruct (decide (y = x)) as [->|]; [rewrite lookup_insert_eq in Hy; injection Hy as <-; by right|].
    rewrite lookup_insert_ne in Hy by done. by left. }
  assert (Hin : forall y, is_Some (Memory r !! y) -> is_Some (m !! y)).
  { intros y Hy. subst m. destruct (decide (y = x)) as [->|]; [by rewrite lookup_insert_eq|by rewrite lookup_insert_ne]. }
  unfold AddSlot. destruct (_ && _).
  - eexists. split; [reflexivity|]. split; [split; [exact Hl|split; [exact Hn|]]|split; [done|exact Hm]].
    intros i y Hy. apply Hin. by apply (Hv i).
  - eexists. split; [reflexivity|]. split; [split; [|split; [exact Hn|]]|split; [done|exact Hm]].
    + cbn. by rewrite length_insert.
    + cbn. intros i y Hy. apply list_lookup_insert_Some in Hy as [(_ & He & _)|[_ Hy]]; [injection He as <-; subst m; by rewrite lookup_insert_eq|].
      apply Hin. by apply (Hv i).
Qed.

Lemma receive_objects_any n payload consumed r :
  receiver_ok r -> (consumed + n * sizeof_T <= length payload)%nat ->
  exists r', receive_objects n payload consumed r = Ret r' /\ receiver_ok r' /\ same_output r r' /\
    (forall x bs, Memory r' !! x = Some bs ->
      Memory r !! x = Some bs \/ exists i, (i < n)%nat /\ bs = object_at payload (consumed + i * sizeof_T)).
Proof.
  revert consumed r. induction n as [|n IH]; intros consumed r Hok Hl; cbn [UdpReceiver.receive_objects].
  { exists r. split_and!; try done. intros. by left. }
  destruct (receive_object_any payload consumed r Hok ltac:(lia)) as (r1 & -> & Hok1 & Hs1 & Hm1). cbn [mbind result_bind].
  destruct (IH (consumed + sizeof_T)%nat r1 Hok1 ltac:(lia)) as (r' & -> & Hok' & Hs' & Hm'). exists r'. split_and!; try done.
  - destruct Hs1 as (?&?&?&?&?), Hs' as (?&?&?&?&?). unfold same_output. split_and!; congruence.
  - intros x bs Hx. destruct (Hm' _ _ Hx) as [H1|(i & Hi & ->)].
    + destruct (Hm1 _ _ H1) as [| ->]; [by left|]. right. exists 0%nat. split; [lia|]. by rewrite Nat.add_0_r.
    + right. exists (S i). split; [lia|]. f_equal. lia.
Qed.

(** The objects a packet carries. *)
Definition packet_objects pkt : list (list Z) :=
  (fun i => object_at (drop headerSize (data pkt)) (i * sizeof_T)) <$> seq 0 (turns (T := T) (pkt_len pkt - headerSize)).

Lemma receive_packet_any pkt r :
  receiver_ok r -> readable pkt ->
  exists r' xs, receive_packet pkt r = Ret r' /\ receiver_ok r' /\
    Passed r' = Passed r ++ ((fun x => default [] (Memory r' !! x)) <$> xs) /\
    NextToRead r' = u32 (NextToRead r + Z.of_nat (length xs)) /\
    (forall i x, xs !! i = Some x -> is_Some (Memory r' !! x) /\ id_of (Memory r') x = u32 (NextToRead r + Z.of_nat i)) /\
    (forall x bs, Memory r' !! x = Some bs -> Memory r !! x = Some bs \/ bs ∈ packet_objects pkt).
Proof.
  intros Hok Hr. unfold UdpReceiver.receive_packet. pose proof Hok as (_ & Hn & _).
  assert (Hnone : forall r0, Memory r0 = Memory r -> NextToRead r0 = NextToRead r -> Passed r0 = Passed r -> receiver_ok r0 ->
    exists r' xs, Ret r0 = Ret r' /\ receiver_ok r' /\ Passed r' = Passed r ++ ((fun x => default [] (Memory r' !! x)) <$> xs) /\
    NextToRead r' = u32 (NextToRead r + Z.of_nat (length xs)) /\
    (forall i x, xs !! i = Some x -> is_Some (Memory r' !! x) /\ id_of (Memory r') x = u32 (NextToRead r + Z.of_nat i)) /\
    (forall x bs, Memory r' !! x = Some bs -> Memory r !! x = Some bs \/ bs ∈ packet_objects pkt)).
  { intros r0 Hm0 Hn0 Hp0 Hok0. exists r0, []. cbn. rewrite app_nil_r, Z.add_0_r, u32_small by done. rewrite Hm0. split_and!; try done.
    intros. by left. }
  destruct (check_packet pkt _ _); [by apply Hnone|by apply Hnone|]. clear Hnone.
  destruct (receive_objects_any (turns (T := T) (pkt_len pkt - headerSize)) (drop headerSize (data pkt)) 0 r Hok)
    as (r1 & -> & Hok1 & (Ho1 & Hp1 & Hn1 & _) & Hm1).
  { unfold readable in Hr. rewrite length_drop. lia. }
  cbn [mbind result_bind]. destruct (drain_ok r1 Hok1) as (r2 & xs & -> & H2 & H3 & H4 & H5 & H6 & _ & H7 & H8 & _).
  cbn [mbind result_bind]. exists (free_packet r2), xs. cbn [Passed free_packet Memory NextToRead]. rewrite H3, H4, H7, Hp1, Hn1.
  pose proof Hok1 as (Hl1 & _ & Hv1). split_and!; try done.
  - split_and!; cbn; [by rewrite H8|rewrite H4; apply u32_range|rewrite H7, H8; exact Hv1].
  - intros i x Hx. apply H6, slot_some in Hx as [Hid Hs]. rewrite Hn1 in Hid. split; [|done]. by eapply Hv1.
  - intros x bs Hx. destruct (Hm1 _ _ Hx) as [|(i & Hi & ->)]; [by left|]. right. apply list_elem_of_fmap. exists i.
    split; [done|]. apply elem_of_seq. lia.
Qed.

(** Whatever arrives, the receiver passes objects on in the order of their
    sequence numbers, without gaps.  For any packets, malformed, foreign, repeated,
    lost or reordered, as long as reading the last object stays in a packet's
    memory, and with room in the outgoing queue, a burst is handled without a
    fault, and the objects passed on have the sequence numbers that follow those
    passed on before. *)
Theorem receiver_passes_consecutive pkts r :
  receiver_ok r -> Forall readable pkts ->
  exists r' bss, Receive pkts r = Ret r' /\ receiver_ok r' /\ Passed r' = Passed r ++ bss /\
    consecutive (NextToRead r) bss /\ NextToRead r' = u32 (NextToRead r + Z.of_nat (length bss)).
Proof.
  intros Hok HF. revert r Hok. induction HF as [|pkt pkts Hp _ IH]; intros r Hok; cbn [UdpReceiver.Receive].
  { exists r, []. pose proof Hok as (_ & Hn & _). cbn. rewrite app_nil_r, Z.add_0_r, u32_small by done. by split_and!. }
  destruct (receive_packet_any pkt r Hok Hp) as (r1 & xs & -> & Hok1 & Hp1 & Hn1 & Hs1 & _). cbn [mbind result_bind].
  destruct (IH r1 Hok1) as (r' & bss & HR & Hok' & Hp' & Hc & Hn'). eexists r', (_ ++ bss). split; [exact HR|]. split; [done|].
  rewrite Hp', Hp1, <- app_assoc. split; [reflexivity|]. rewrite Hn1 in Hc, Hn'. split.
  - apply consecutive_app; [|by rewrite length_fmap]. intros i bs Hi. apply list_lookup_fmap_Some in Hi as (x & -> & Hx).
    by apply Hs1 in Hx as [_ Hx].
  - rewrite Hn', length_app, length_fmap, (u32_add_cong _ (NextToRead r + Z.of_nat (length xs))) by apply u32_idem. f_equal. lia.
Qed.

(** A report that never arrives stops its receivers.  If no object in the
    receiver's memory and none in the packets has the sequence number it waits for,
    nothing is passed on, however many packets arrive, and it still waits for that
    number. *)
Theorem missing_report_stops_receiver pkts r :
  receiver_ok r -> Forall readable pkts ->
  (forall x bs, Memory r !! x = Some bs -> read bs <> NextToRead r) ->
  Forall (fun pkt => Forall (fun bs => read bs <> NextToRead r) (packet_objects pkt)) pkts ->
  exists r', Receive pkts r = Ret r' /\ Passed r' = Passed r /\ NextToRead r' = NextToRead r /\ receiver_ok r' /\
    (forall x bs, Memory r' !! x = Some bs -> read bs <> NextToRead r').
Proof.
  intros Hok HF. revert r Hok. induction HF as [|pkt pkts Hp _ IH]; intros r Hok Hm HP; cbn [UdpReceiver.Receive].
  { by exists r. }
  apply Forall_cons in HP as [HP1 HP].
  destruct (receive_packet_any pkt r Hok Hp) as (r1 & xs & -> & Hok1 & Hp1 & Hn1 & Hs1 & Hm1). cbn [mbind result_bind].
  assert (Hm2 : forall x bs, Memory r1 !! x = Some bs -> read bs <> NextToRead r).
  { intros x bs Hx. destruct (Hm1 _ _ Hx) as [Hx'|Hx']; [by eapply Hm|]. rewrite Forall_forall in HP1. by apply HP1. }
  pose proof Hok as (_ & Hn & _). destruct xs as [|x xs].
  - cbn in Hp1, Hn1. rewrite app_nil_r in Hp1. rewrite Z.add_0_r, u32_small in Hn1 by done.
    rewrite <- Hn1 in Hm2, HP. destruct (IH r1 Hok1 Hm2 HP) as (r' & HR & Hpr & Hnr & Hokr & Hmr). exists r'.
    split_and!; try done; congruence.
  - destruct (Hs1 0%nat x eq_refl) as [[bs Hb] Hid]. unfold UdpReceiver.id_of in Hid. rewrite Hb, Z.add_0_r, u32_small in Hid by done.
    by destruct (Hm2 _ _ Hb).
Qed.

(** ** Delivery

    A stream of [N] objects [f 0], [f 1], ...: [f i] has the sequence number [i]. *)

Context (kp : nat) (HP : PoolSize = (2 ^ kp)%nat) (Hkp : (kp <= 62)%nat).
Context (N : Z) (HN32 : N <= 2 ^ 32 - 1) (f : Z -> T) (Hf : forall i, 0 <= i < N -> SequenceId (f i) = i /\ fits layout (f i)).

Abbreviation bytes_of i := (enc layout (f i)).

(** The objects [A] arrived; those of [pend] wait in the ring, at the given
    addresses; those of [fl] were passed on and are in use by the consumer. *)
Record delivery (A : gset Z) (pend : gmap Z nat) (fl : list (nat * list Z)) r : Prop := {
  d_ok : receiver_ok r;
  d_prefix i : 0 <= i < NextToRead r -> i ∈ A;
  d_range i : i ∈ A -> 0 <= i < N /\ i < NextToRead r + Z.of_nat RingBufferSize;
  d_passed : Passed r = (fun i => bytes_of (Z.of_nat i)) <$> seq 0 (Z.to_nat (NextToRead r));
  d_tail : 0 <= RingTail (ReceiveBuffer r) <= NextToRead r + Z.of_nat RingBufferSize;
  d_pend i : is_Some (pend !! i) <-> i ∈ A /\ NextToRead r <= i;
  d_slots i x : pend !! i = Some x ->
    RingBuffer (ReceiveBuffer r) !! ring_idx RingBufferSize i = Some (Some x) /\ Memory r !! x = Some (bytes_of i);
  d_stale x bs : Memory r !! x = Some bs -> read bs < NextToRead r \/ pend !! read bs = Some x;
  d_flight x bs : (x, bs) ∈ fl -> Memory r !! x = Some bs;
  d_pool : pool_holds PoolSize (TPool r) ((map_to_list pend).*2 ++ fl.*1);
  d_count : Z.of_nat (size pend) = Z.of_nat (size A) - NextToRead r
}.

Lemma read_bytes i : 0 <= i < N -> read (bytes_of i) = i.
Proof. intros Hi. destruct (Hf i Hi) as [H1 H2]. by rewrite read_enc. Qed.

(** An object of the stream arrives. *)
Lemma receive_object_delivery A pend fl r payload consumed i :
  delivery A pend fl r -> i ∉ A -> NextToRead r <= i < NextToRead r + Z.of_nat RingBufferSize -> i < N ->
  (consumed + sizeof_T <= length payload)%nat -> object_at payload consumed = bytes_of i ->
  (size pend + length fl < PoolSize)%nat ->
  exists r' x, receive_object payload consumed r = Ret r' /\ same_output r r' /\ delivery (A ∪ {[i]}) (<[i := x]> pend) fl r'.
Proof.
  intros [Hok Hpre Hrg Hps Htl Hpd Hsl Hst Hfl Hpo Hct] Hi Hwin Hmax Hlen Hobj Hcap.
  pose proof Hok as (Hlr & Hn & Hv). unfold in_u32 in Hn.
  destruct (acquire_fresh PoolSize kp HP Hkp (TPool r) _ Hpo) as (x & p & HA & Hpo' & Hx).
  { rewrite length_app, !length_fmap, length_map_to_list. done. }
  assert (Hnone : pend !! i = None).
  { destruct (pend !! i) as [y|] eqn:E; [|done]. destruct (proj1 (Hpd i) (ex_intro _ y E)). done. }
  assert (Hxp : forall j y, pend !! j = Some y -> y <> x).
  { intros j y Hj ->. apply Hx, elem_of_app. left. apply list_elem_of_fmap. exists (j, x). split; [done|]. by apply elem_of_map_to_list. }
  assert (Hxf : forall bs, (x, bs) ∉ fl).
  { intros bs Hin. apply Hx, elem_of_app. right. apply list_elem_of_fmap. by exists (x, bs). }
  unfold UdpReceiver.receive_object. rewrite HA, (proj2 (Nat.ltb_ge _ _)) by lia.
  change (take sizeof_T (drop consumed payload)) with (object_at payload consumed). rewrite Hobj.
  cbn [Memory set_memory set_pool ReceiveBuffer].
  assert (Hid : id_of (<[x := bytes_of i]> (Memory r)) x = i).
  { unfold UdpReceiver.id_of. rewrite lookup_insert_eq. cbn. apply read_bytes. lia. }
  unfold AddSlot. rewrite Hid. destruct (Z.ltb_spec i (RingTail (ReceiveBuffer r) - Z.of_nat RingBufferSize)); [lia|].
  rewrite andb_false_r. eexists _, x. split; [reflexivity|]. split; [done|].
  assert (Hidx : (ring_idx RingBufferSize i < length (RingBuffer (ReceiveBuffer r)))%nat).
  { rewrite Hlr. apply (ring_idx_lt RingBufferSize k HSize). lia. }
  split; cbn [Memory NextToRead ReceiveBuffer set_ring set_memory set_pool TPool Passed RingBuffer RingTail].
  - split; [cbn; by rewrite length_insert|]. split; [done|]. cbn. intros j y Hy.
    destruct (decide (y = x)) as [->|Hyx]; [by rewrite lookup_insert_eq|]. rewrite lookup_insert_ne by done.
    apply list_lookup_insert_Some in Hy as [(_ & He & _)|[_ Hy]]; [congruence|by apply (Hv j)].
  - intros j Hj. apply elem_of_union_l, Hpre, Hj.
  - intros j Hj. apply elem_of_union in Hj as [Hj|Hj]; [by apply Hrg|]. apply elem_of_singleton in Hj as ->. lia.
  - done.
  - zcase; [rewrite u32_small by lia|]; lia.
  - intros j. destruct (decide (j = i)) as [->|Hj].
    + rewrite lookup_insert_eq. split; [intros _; split; [set_solver|lia]|by eexists].
    + rewrite lookup_insert_ne by done. rewrite Hpd. set_solver.
  - intros j y Hj. destruct (decide (j = i)) as [->|Hji].
    + rewrite lookup_insert_eq in Hj. injection Hj as <-. rewrite lookup_insert_eq. split; [|done]. by apply list_lookup_insert_eq.
    + rewrite lookup_insert_ne in Hj by done. destruct (Hsl _ _ Hj) as [H1 H2]. rewrite (lookup_insert_ne (Memory r)) by (by apply not_eq_sym, (Hxp j)).
      split; [|done]. rewrite list_lookup_insert_ne; [done|]. intros He. apply Hji. symmetry.
      destruct (proj1 (Hpd j) (ex_intro _ y Hj)) as [HjA Hjn]. specialize (Hrg j HjA).
      apply (ring_idx_inj RingBufferSize k HSize); (done || lia).
  - intros y bs Hy. destruct (decide (y = x)) as [->|Hyx].
    + rewrite lookup_insert_eq in Hy. injection Hy as <-. right. rewrite read_bytes by lia. by rewrite lookup_insert_eq.
    + rewrite lookup_insert_ne in Hy by done. destruct (Hst _ _ Hy) as [|Hp]; [by left|]. right.
      rewrite lookup_insert_ne; [done|]. intros He. by rewrite <- He, Hnone in Hp.
  - intros y bs Hy. rewrite lookup_insert_ne; [by apply Hfl|]. intros ->. by apply (Hxf bs).
  - rewrite (map_to_list_insert pend i x) by done. exact Hpo'.
  - rewrite map_size_insert_None by done. rewrite size_union by set_solver. rewrite size_singleton. lia.
Qed.

Lemma bytes_length i : 0 <= i < N -> length (bytes_of i) = sizeof_T.
Proof. intros Hi. destruct (Hf i Hi). by apply enc_length. Qed.

(** The objects [ids] may arrive next. *)
Definition fresh (A : gset Z) (next : Z) (ids : list Z) : Prop :=
  NoDup ids /\ Forall (fun i => (i ∉ A) /\ next <= i < next + Z.of_nat RingBufferSize /\ i < N) ids.

Lemma receive_objects_delivery ids A pend fl r pre tail :
  delivery A pend fl r -> fresh A (NextToRead r) ids -> (size pend + length fl + length ids <= PoolSize)%nat ->
  exists r' pend', receive_objects (length ids) (pre ++ (ids ≫= (fun i => bytes_of i)) ++ tail) (length pre) r = Ret r' /\
    same_output r r' /\ delivery (A ∪ list_to_set ids) pend' fl r' /\ (size pend' = size pend + length ids)%nat.
Proof.
  revert A pend r pre. induction ids as [|i ids IH]; intros A pend r pre HD [HN HF] Hcap; cbn [length UdpReceiver.receive_objects].
  { exists r, pend. cbn [list_to_set]. rewrite (right_id_L ∅ (∪)). split_and!; (done || lia). }
  apply NoDup_cons in HN as [Hni HN]. apply Forall_cons in HF as [(Hi & Hw & Hm) HF]. cbn [length] in Hcap.
  pose proof (d_ok _ _ _ _ HD) as (_ & Hn & _). unfold in_u32 in Hn. pose proof (bytes_length i ltac:(lia)) as Hbl.
  destruct (receive_object_delivery A pend fl r (pre ++ ((i :: ids) ≫= (fun i => bytes_of i)) ++ tail) (length pre) i HD Hi Hw Hm)
    as (r1 & x & -> & Hs1 & HD1).
  { rewrite bind_cons, !length_app. lia. }
  { unfold object_at. rewrite drop_app_length, bind_cons, <- app_assoc, <- Hbl. by rewrite take_app_length. }
  { lia. }
  cbn [mbind result_bind]. pose proof Hs1 as (_ & _ & Hn1 & _).
  destruct (IH (A ∪ {[i]}) (<[i := x]> pend) r1 (pre ++ bytes_of i) HD1) as (r' & pend' & HR & Hs' & HD' & Hsz).
  { split; [done|]. eapply Forall_impl; [|intros j Hj; exact Hj]. apply Forall_forall. intros j Hj. rewrite Hn1.
    rewrite Forall_forall in HF. destruct (HF j Hj) as (Hj1 & Hj2). split; [|done]. set_solver. }
  { rewrite map_size_insert_None; [lia|]. destruct (pend !! i) as [y|] eqn:E; [|done].
    by destruct (proj1 (d_pend _ _ _ _ HD i) (ex_intro _ y E)). }
  exists r', pend'. split_and!.
  - rewrite <- HR, length_app, Hbl. f_equal. rewrite bind_cons, <- !app_assoc. done.
  - destruct Hs1 as (?&?&?&?&?), Hs' as (?&?&?&?&?). unfold same_output. split_and!; congruence.
  - by rewrite list_to_set_cons, (assoc_L (∪)).
  - rewrite Hsz, map_size_insert_None; [lia|]. destruct (pend !! i) as [y|] eqn:E; [|done].
    by destruct (proj1 (d_pend _ _ _ _ HD i) (ex_intro _ y E)).
Qed.

(** What is in the slot of the next number is the object of that number. *)
Lemma slot_delivery A pend fl r : delivery A pend fl r -> slot_at r (NextToRead r) = pend !! NextToRead r.
Proof.
  intros HD. destruct (slot_at r (NextToRead r)) as [x|] eqn:Hx.
  - apply slot_some in Hx as [Hid Hs]. pose proof (d_ok _ _ _ _ HD) as (_ & _ & Hv). destruct (Hv _ _ Hs) as [bs Hb].
    unfold UdpReceiver.id_of in Hid. rewrite Hb in Hid. cbn in Hid. destruct (d_stale _ _ _ _ HD _ _ Hb) as [|Hp]; [lia|]. by rewrite <- Hid in Hp.
  - destruct (pend !! NextToRead r) as [x|] eqn:Hp; [|done]. destruct (d_slots _ _ _ _ HD _ _ Hp) as [H1 H2].
    destruct (proj1 (d_pend _ _ _ _ HD _) (ex_intro _ x Hp)) as [HA _]. pose proof (d_range _ _ _ _ HD _ HA).
    unfold GetSlot in Hx. rewrite H1 in Hx. cbn in Hx. unfold UdpReceiver.id_of in Hx. rewrite H2 in Hx. cbn in Hx.
    rewrite read_bytes, Z.eqb_refl in Hx by lia. done.
Qed.

Lemma pass_delivery A pend fl r x :
  delivery A pend fl r -> pend !! NextToRead r = Some x ->
  delivery A (delete (NextToRead r) pend) (fl ++ [(x, bytes_of (NextToRead r))]) (advance (push x r)).
Proof.
  intros [(Hlr & Hn & Hv) Hpre Hrg Hps Htl Hpd Hsl Hst Hfl Hpo Hct] Hx. unfold in_u32 in Hn.
  destruct (proj1 (Hpd _) (ex_intro _ x Hx)) as [HA _]. pose proof (Hrg _ HA) as Hr. destruct (Hsl _ _ Hx) as [Hs Hm].
  assert (Hu : u32 (NextToRead r + 1) = NextToRead r + 1) by (apply u32_small; lia).
  split; cbn [Memory NextToRead ReceiveBuffer advance push TPool Passed]; rewrite ?Hu.
  - split; [done|]. split; [apply u32_range|done].
  - intros i Hi. destruct (decide (i = NextToRead r)) as [->|]; [done|]. apply Hpre. lia.
  - intros i Hi. specialize (Hrg i Hi). lia.
  - rewrite Hps, Hm. replace (Z.to_nat (NextToRead r + 1)) with (S (Z.to_nat (NextToRead r))) by lia.
    rewrite seq_S, fmap_app. cbn. by rewrite Z2Nat.id by lia.
  - lia.
  - intros i. destruct (decide (i = NextToRead r)) as [->|Hi].
    + rewrite lookup_delete_eq. split; [by intros []|lia].
    + rewrite lookup_delete_ne by done. rewrite Hpd. split; intros [? ?]; split; (done || lia).
  - intros i y Hy. apply lookup_delete_Some in Hy as [_ Hy]. by apply Hsl.
  - intros y bs Hy. destruct (Hst _ _ Hy) as [|Hp]; [left; lia|].
    destruct (decide (read bs = NextToRead r)) as [->|Hne]; [left; lia|]. right. by rewrite lookup_delete_ne.
  - intros y bs Hy. apply elem_of_app in Hy as [Hy|Hy]; [by apply Hfl|]. apply list_elem_of_singleton in Hy. by injection Hy as -> ->.
  - eapply pool_holds_perm; [|exact Hpo]. rewrite fmap_app, app_assoc, (Permutation_app_comm _ [_].*1).
    rewrite <- (map_to_list_delete pend _ _ Hx). done.
  - rewrite map_size_delete_Some by (by eexists). rewrite Nat2Z.inj_pred; [lia|].
    apply Nat.neq_0_lt_0. intros H0. apply map_size_empty_inv in H0. by rewrite H0 in Hx.
Qed.

Lemma drain_delivery fuel A pend fl r r' :
  delivery A pend fl r -> drain fuel r = Ret r' ->
  exists pend' xs bss, delivery A pend' (fl ++ zip xs bss) r' /\ (NextToRead r' ∉ A) /\ (size pend' + length xs = size pend)%nat /\
    ROutgoing r' = ROutgoing r ++ xs /\ Passed r' = Passed r ++ bss /\ length xs = length bss /\
    NextToRead r <= NextToRead r' /\ RDstIp r' = RDstIp r /\ RDstPort r' = RDstPort r.
Proof.
  revert pend fl r. induction fuel as [|fuel IH]; intros pend fl r HD HE; cbn [UdpReceiver.drain] in HE;
    rewrite (slot_delivery _ _ _ _ HD) in HE; destruct (pend !! NextToRead r) as [x|] eqn:Hx; try done.
  1, 3: injection HE as <-; exists pend, [], []; rewrite !app_nil_r; cbn [length]; split_and!; try (done || lia);
    intros HA; destruct (proj2 (d_pend _ _ _ _ HD (NextToRead r))) as [y Hy]; [by split|]; congruence.
  rewrite Hroom in HE. pose proof (pass_delivery _ _ _ _ _ HD Hx) as HD1.
  destruct (IH _ _ _ HD1 HE) as (pend' & xs & bss & H1 & H2 & H3 & H4 & H5 & H6 & H7 & H8 & H9).
  pose proof (d_slots _ _ _ _ HD _ _ Hx) as [_ Hm]. exists pend', (x :: xs), (bytes_of (NextToRead r) :: bss).
  rewrite <- app_assoc in H1. cbn [ROutgoing Passed advance push RDstIp RDstPort NextToRead] in *. rewrite Hm in H5. split_and!; try done.
  - rewrite map_size_delete_Some in H3 by (by eexists). cbn [length].
    assert (size pend <> 0%nat) by (intros H0; apply map_size_empty_inv in H0; by rewrite H0 in Hx). lia.
  - by rewrite H4, <- app_assoc.
  - by rewrite H5, <- app_assoc.
  - cbn [length]. lia.
  - destruct (proj1 (d_pend _ _ _ _ HD _) (ex_intro _ x Hx)) as [HA _]. pose proof (d_range _ _ _ _ HD _ HA).
    rewrite u32_small in H7; lia.
Qed.

(** A packet for the receiver with the objects [ids] of the stream, or one that is
    not for it. *)
Inductive carries (ip port : Z) : list Z -> RxPacket -> Prop :=
| carries_objects ids pkt tail :
    check_packet pkt ip port = Take -> pkt_len pkt = (headerSize + length ids * sizeof_T)%nat ->
    drop headerSize (data pkt) = (ids ≫= (fun i => bytes_of i)) ++ tail -> carries ip port ids pkt
| carries_nothing pkt : check_packet pkt ip port <> Take -> carries ip port [] pkt.

Lemma turns_whole n : turns (T := T) (n * sizeof_T) = n.
Proof.
  pose proof (layout_pos (T := T)). unfold turns. rewrite Nat.div_add_l by lia. rewrite (Nat.div_small (sizeof_T - 1)) by lia. lia.
Qed.

Lemma receive_packet_delivery A pend fl r ids pkt :
  delivery A pend fl r -> (NextToRead r ∉ A) -> fresh A (NextToRead r) ids -> (size pend + length fl + length ids <= PoolSize)%nat ->
  carries (RDstIp r) (RDstPort r) ids pkt ->
  exists r' pend' xs bss, receive_packet pkt r = Ret r' /\ delivery (A ∪ list_to_set ids) pend' (fl ++ zip xs bss) r' /\
    (NextToRead r' ∉ A ∪ list_to_set ids) /\ (size pend' + length xs = size pend + length ids)%nat /\
    ROutgoing r' = ROutgoing r ++ xs /\ Passed r' = Passed r ++ bss /\ length xs = length bss /\
    NextToRead r <= NextToRead r' /\ RDstIp r' = RDstIp r /\ RDstPort r' = RDstPort r.
Proof.
  intros HD Hgap Hfr Hcap HC. unfold UdpReceiver.receive_packet. destruct HC as [ids pkt tail HT Hl Hd|pkt HT].
  - rewrite HT, Hl, Hd. replace (headerSize + length ids * sizeof_T - headerSize)%nat with (length ids * sizeof_T)%nat by lia.
    rewrite turns_whole.
    destruct (receive_objects_delivery ids A pend fl r [] tail HD Hfr Hcap) as (r1 & pend1 & HR & (Ho & Hp & Hn & Hi & Hpt) & HD1 & Hsz).
    cbn [app length] in HR. rewrite HR. cbn [mbind result_bind].
    destruct (drain_ok r1 (d_ok _ _ _ _ HD1)) as (r2 & ? & HR2 & _). rewrite HR2. cbn [mbind result_bind].
    destruct (drain_delivery _ _ _ _ _ _ HD1 HR2) as (pend' & xs & bss & HD2 & H2 & H3 & H4 & H5 & H6 & H7 & H8 & H9).
    exists (free_packet r2), pend', xs, bss. split; [done|]. split; [by destruct HD2|].
    cbn [NextToRead ROutgoing Passed free_packet RDstIp RDstPort]. split_and!; try done; congruence || lia.
  - assert (HR : receive_packet pkt r = Ret r \/ receive_packet pkt r = Ret (free_packet r)).
    { unfold UdpReceiver.receive_packet. destruct (check_packet _ _ _); [by right|by left|done]. }
    fold (receive_packet pkt r). cbn [list_to_set]. rewrite (right_id_L ∅ (∪)).
    destruct HR as [-> | ->]; eexists _, pend, [], []; (split; [done|]); cbn; rewrite !app_nil_r; (split; [by destruct HD|]); split_and!; (done || lia).
Qed.

Lemma fresh_next A pend fl r next ids ids' :
  delivery (A ∪ list_to_set ids) pend fl r -> next <= NextToRead r -> 0 <= next -> fresh A next (ids ++ ids') ->
  fresh (A ∪ list_to_set ids) (NextToRead r) ids'.
Proof.
  intros HD Hle H0 [HN HF]. apply NoDup_app in HN as (_ & Hd & HN). apply Forall_app in HF as [_ HF]. split; [done|].
  apply Forall_forall. intros j Hj. rewrite Forall_forall in HF. destruct (HF j Hj) as (H1 & H2 & H3).
  assert (Hnew : j ∉ A ∪ list_to_set ids) by (rewrite elem_of_union, elem_of_list_to_set; intros [|]; [done|by apply (Hd j)]).
  split_and!; try done; [|lia]. destruct (decide (j < NextToRead r)); [|lia]. destruct Hnew. apply (d_prefix _ _ _ _ HD). lia.
Qed.

Lemma Receive_delivery idss pkts A pend fl r :
  delivery A pend fl r -> (NextToRead r ∉ A) -> fresh A (NextToRead r) (concat idss) ->
  (size pend + length fl + length (concat idss) <= PoolSize)%nat -> Forall2 (carries (RDstIp r) (RDstPort r)) idss pkts ->
  exists r' pend' xs bss, Receive pkts r = Ret r' /\ delivery (A ∪ list_to_set (concat idss)) pend' (fl ++ zip xs bss) r' /\
    (NextToRead r' ∉ A ∪ list_to_set (concat idss)) /\ ROutgoing r' = ROutgoing r ++ xs /\ Passed r' = Passed r ++ bss /\
    length xs = length bss /\ RDstIp r' = RDstIp r /\ RDstPort r' = RDstPort r.
Proof.
  intros HD Hgap Hfr Hcap HC. revert A pend fl r HD Hgap Hfr Hcap HC.
  induction pkts as [|pkt pkts IH] in idss |- *; intros A pend fl r HD Hgap Hfr Hcap HC.
  { apply Forall2_nil_inv_r in HC as ->. exists r, pend, [], []. cbn. rewrite (right_id_L ∅ (∪)), !app_nil_r. by split_and!. }
  apply Forall2_cons_inv_r in HC as (ids & idss' & HC & HCs & ->). cbn [concat] in *. rewrite length_app in Hcap.
  destruct (receive_packet_delivery A pend fl r ids pkt HD Hgap) as (r1 & pend1 & xs & bss & HR & HD1 & Hg1 & Hsz & Ho & Hp & Hl & Hn & Hi & Hpt);
    [|lia|done|].
  { destruct Hfr as [HN HF]. apply NoDup_app in HN as (HN & _). apply Forall_app in HF as [HF _]. by split. }
  cbn [UdpReceiver.Receive]. rewrite HR. cbn [mbind result_bind].
  destruct (IH idss' (A ∪ list_to_set ids) pend1 (fl ++ zip xs bss) r1 HD1 Hg1) as (r' & pend' & xs' & bss' & HR' & HD' & Hg' & Ho' & Hp' & Hl' & Hi' & Hpt').
  { eapply (fresh_next A _ _ _ (NextToRead r)); [exact HD1|done| |exact Hfr]. apply (d_ok _ _ _ _ HD). }
  { rewrite length_app, length_zip. lia. }
  { by rewrite Hi, Hpt. }
  exists r', pend', (xs ++ xs'), (bss ++ bss'). rewrite list_to_set_app_L, (assoc_L (∪)). split_and!; try done.
  - rewrite zip_with_app by done. rewrite app_assoc. exact HD'.
  - by rewrite Ho', Ho, app_assoc.
  - by rewrite Hp', Hp, app_assoc.
  - rewrite !length_app. lia.
  - congruence.
  - congruence.
Qed.

(** A receiver at work: bursts of packets of the stream, each object once and
    within the window of the ring, with objects left in the pool, and objects that
    the consumer releases.  [A] is what arrived, [fl] what the consumer uses. *)
Inductive receiving : gset Z -> list (nat * list Z) -> Receiver -> Prop :=
| receiving_init pool ip port r :
    pool_holds PoolSize pool [] -> receiver_init RingBufferSize 0 0 0 0 pool ip port = Ret r -> receiving ∅ [] r
| receiving_burst A fl r idss pkts r' xs bss :
    receiving A fl r -> fresh A (NextToRead r) (concat idss) ->
    Z.of_nat (size A) - NextToRead r + Z.of_nat (length fl + length (concat idss)) <= Z.of_nat PoolSize ->
    Forall2 (carries (RDstIp r) (RDstPort r)) idss pkts ->
    Receive pkts r = Ret r' -> ROutgoing r' = ROutgoing r ++ xs -> Passed r' = Passed r ++ bss ->
    receiving (A ∪ list_to_set (concat idss)) (fl ++ zip xs bss) r'
| receiving_release A fl1 x bs fl2 r p :
    receiving A (fl1 ++ (x, bs) :: fl2) r -> FreeElement PoolSize x (TPool r) = (true, p) ->
    receiving A (fl1 ++ fl2) (set_pool p r).

Lemma receiving_delivery A fl r : receiving A fl r -> exists pend, delivery A pend fl r /\ NextToRead r ∉ A.
Proof.
  induction 1 as [pool ip port r Hp Hi|A fl r idss pkts r' xs bss _ (pend & HD & Hg) Hfr Hcap HC HR Ho Hps|A fl1 x bs fl2 r p _ (pend & HD & Hg) HF].
  - injection Hi as <-. exists ∅. split; [|set_solver]. pose proof (ring_size_pos RingBufferSize k HSize).
    split; cbn [NextToRead Passed ReceiveBuffer Memory TPool ring_init RingTail RingBuffer].
    + split; [apply length_replicate|]. split; [cbn; unfold in_u32; lia|]. cbn. intros i x Hx. apply lookup_replicate_1 in Hx as [Hx _]. done.
    + lia.
    + set_solver.
    + done.
    + lia.
    + intros i. rewrite lookup_empty. split; [by intros []|set_solver].
    + intros i x Hx. by rewrite lookup_empty in Hx.
    + intros x bs Hx. by rewrite lookup_empty in Hx.
    + intros x bs Hx. by apply elem_of_nil in Hx.
    + rewrite map_to_list_empty. exact Hp.
    + done.
  - pose proof (d_count _ _ _ _ HD).
    destruct (Receive_delivery idss pkts A pend fl r HD Hg Hfr ltac:(lia) HC) as (r2 & pend' & xs' & bss' & HR' & HD' & Hg' & Ho' & Hp' & _).
    rewrite HR in HR'. injection HR' as <-. rewrite Ho in Ho'. apply app_inv_head in Ho' as ->. rewrite Hps in Hp'. apply app_inv_head in Hp' as ->.
    by exists pend'.
  - exists pend. split; [|done].
    destruct HD as [Hok Hpre Hrg Hps Htl Hpd Hsl Hst Hfl Hpo Hct]. split; try done; cbn [TPool set_pool Memory].
    + intros y b Hy. apply Hfl. apply elem_of_app in Hy. set_solver.
    + destruct (free_one PoolSize PoolSize kp kp HP Hkp HP Hkp x (TPool r) ((map_to_list pend).*2 ++ (fl1 ++ fl2).*1)) as (p' & HE & Hp').
      { eapply pool_holds_perm; [|exact Hpo]. rewrite !fmap_app. cbn. by rewrite !app_assoc, <- Permutation_middle. }
      rewrite HF in HE. by injection HE as <-.
Qed.

Lemma receiving_next A fl r idss pkts :
  receiving A fl r -> fresh A (NextToRead r) (concat idss) ->
  Z.of_nat (size A) - NextToRead r + Z.of_nat (length fl + length (concat idss)) <= Z.of_nat PoolSize ->
  Forall2 (carries (RDstIp r) (RDstPort r)) idss pkts ->
  exists r' fl', Receive pkts r = Ret r' /\ receiving (A ∪ list_to_set (concat idss)) (fl ++ fl') r'.
Proof.
  intros HR Hfr Hcap HC. destruct (receiving_delivery A fl r HR) as (pend & HD & Hg). pose proof (d_count _ _ _ _ HD).
  destruct (Receive_delivery idss pkts A pend fl r HD Hg Hfr ltac:(lia) HC) as (r' & _ & xs & bss & HE & _ & _ & Ho & Hp & _).
  exists r', (zip xs bss). split; [done|]. by apply (receiving_burst A fl r idss pkts).
Qed.

(** C29: the stream is delivered in order.  A receiver whose packets arrive in any
    order within the window of the ring, among packets of others, has passed on
    exactly the objects before the first that is missing, in order and with their
    bytes; the objects its consumer still uses are unchanged in memory; and it
    handles the next such burst without a fault. *)
Theorem stream_delivered_in_order A fl r :
  receiving A fl r ->
  Passed r = ((fun i => bytes_of (Z.of_nat i)) <$> seq 0 (Z.to_nat (NextToRead r))) /\
  (forall i, 0 <= i < NextToRead r -> i ∈ A) /\ (NextToRead r ∉ A) /\
  (forall x bs, (x, bs) ∈ fl -> Memory r !! x = Some bs) /\
  forall idss pkts, fresh A (NextToRead r) (concat idss) ->
    Z.of_nat (size A) - NextToRead r + Z.of_nat (length fl + length (concat idss)) <= Z.of_nat PoolSize ->
    Forall2 (carries (RDstIp r) (RDstPort r)) idss pkts -> exists r', Receive pkts r = Ret r'.
Proof.
  intros HR. destruct (receiving_delivery A fl r HR) as (pend & HD & Hg). split_and!; [apply HD|apply HD|done|apply HD|].
  intros idss pkts Hfr Hcap HC. destruct (receiving_next A fl r idss pkts HR Hfr Hcap HC) as (r' & _ & HE & _). by exists r'.
Qed.
End ReceiverProofs.

(** ** From the wire *)

(** A packet as the card of a receiver presents it: one segment, no bad checksum,
    and whatever its buffer held behind the frame. *)
Definition as_received (tx : TxPacket) (tail : list Z) : RxPacket :=
  MkRx 1 false false (length (frame tx)) (frame tx ++ tail).

Section Wire.
Context `{dk : Dpdk} `{!DpdkLaws dk}.

(** The headers an emitter writes can be stored. *)
Lemma packet_headers {T} `{!Sequenced T} (e : Emitter T) :
  mac_ok (DstMac e) -> mac_ok (SrcMac e) ->
  fits rte_ether_hdr (FillEthernetHeader e) /\ (forall n, fits rte_ipv4_hdr (FillIpHeader (T := T) n e)) /\
  (forall n, fits rte_udp_hdr (FillUdpHeader (T := T) n e)).
Proof.
  intros Hd Hs. split_and!; [apply eth_fits; [done|done|apply be16_range]|intros n..].
  - apply ip_fits. unfold ip_ok, FillIpHeader. cbn -[Z.pow].
    split_and!; first [apply be16_range|apply be32_range|apply cksum_range|apply proto_range|unfold is_byte, in_u16; lia].
  - apply udp_fits. unfold udp_ok, FillUdpHeader. cbn -[Z.pow]. split_and!; try apply be16_range. unfold in_u16. lia.
Qed.

Lemma packet_carries {T} `{!Sequenced T} (e : Emitter T) (f : Z -> T) ids tail :
  mac_ok (DstMac e) -> mac_ok (SrcMac e) -> Forall (fun i => fits layout (f i)) ids ->
  carries f (DstIp e) (DstPort e) ids (as_received (packet e (f <$> ids)) tail).
Proof.
  intros Hd Hs Hfit.
  destruct (packet_headers e Hd Hs) as (He & Hi & Hu).
  assert (Hb : (f <$> ids) ≫= enc layout = ids ≫= (fun i => enc layout (f i))).
  { clear. induction ids as [|i ids IH]; [done|]. by rewrite fmap_cons, !bind_cons, IH. }
  assert (Hl : length (ids ≫= (fun i => enc layout (f i))) = (length ids * width (layout (T := T)))%nat).
  { rewrite <- Hb, enc_stream_length by (by apply Forall_fmap). by rewrite length_fmap. }
  assert (Hlen : length (frame (packet e (f <$> ids))) = (headerSize + length ids * width (layout (T := T)))%nat).
  { unfold packet, headerSize. cbn [frame]. rewrite !length_app, !enc_length, Hb, Hl by done. lia. }
  apply (carries_objects f _ _ ids _ tail); [|exact Hlen|].
  - unfold check_packet. cbn [nb_segs ip_cksum_bad l4_cksum_bad pkt_len data as_received]. rewrite Hlen.
    rewrite (proj2 (Nat.ltb_ge _ _)) by lia. cbn [orb Z.ltb Z.compare Pos.compare Pos.compare_cont]. cbn [frame packet].
    rewrite <- !app_assoc, dec_enc by done. cbn [ether_type FillEthernetHeader]. rewrite Z.eqb_refl. cbn [negb].
    rewrite dec_enc by done. cbn [next_proto_id dst_addr FillIpHeader]. rewrite !Z.eqb_refl. cbn [negb].
    rewrite dec_enc by done. cbn [dst_port FillUdpHeader]. by rewrite Z.eqb_refl.
  - cbn [data as_received frame packet]. rewrite <- !app_assoc. unfold headerSize.
    rewrite !app_assoc, <- (app_assoc _ _ tail). rewrite drop_app_length'; [by rewrite Hb|]. rewrite !length_app, !enc_length by done. lia.
Qed.
End Wire.

(** ** Concrete receivers *)

Definition demo_pool : StoragePool := default ex_pool0 (storage_init 64).
Lemma demo_pool_holds : pool_holds 64 demo_pool [].
Proof.
  destruct (storage_init_ok 64 6 eq_refl ltac:(lia)) as (p & Hp & _). unfold demo_pool. rewrite Hp.
  exact (fresh_pool 64 6 eq_refl ltac:(lia) p Hp).
Qed.

Definition demo_receiver : Receiver := MkReceiver [] [] 0 demo_pool ∅ (ring_init 64) 0 0xEF010101 5000 0.
Lemma demo_receiver_ok : receiver_ok 64 demo_receiver.
Proof.
  split; [reflexivity|]. split; [split; cbn; lia|]. intros i x Hx. apply (lookup_replicate_1 64) in Hx as [Hx _]. done.
Qed.

(** Three reports, numbered from [n]. *)
Definition demo_packet (n : Z) : RxPacket :=
  as_received (packet (dk := demo_dpdk) (demo_emitter ∅) (stamped n (demo_reports 3))) (replicate 48 0).
(** A packet with a wrong checksum, and one of another protocol. *)
Definition demo_noise : list RxPacket := [MkRx 1 true false 60 (replicate 2048 0); MkRx 1 false false 60 (replicate 2048 0)].

Abbreviation demo_Receive := (Receive (T := OrderStateReport) (dk := demo_dpdk) 64 64 (fun _ => true)).

Lemma demo_readable n : readable (T := OrderStateReport) (dk := demo_dpdk) (demo_packet n).
Proof. unfold readable. vm_compute. lia. Qed.
Lemma demo_noise_readable : Forall (readable (T := OrderStateReport) (dk := demo_dpdk)) demo_noise.
Proof. repeat (constructor; [vm_compute; lia|]). constructor. Qed.

Lemma receiver_passes_consecutive_witness :
  exists r' bss, demo_Receive (demo_noise ++ [demo_packet 0]) demo_receiver = Ret r' /\ Passed r' = bss /\
    consecutive (T := OrderStateReport) 0 bss /\ length bss = 3%nat.
Proof.
  destruct (receiver_passes_consecutive (T := OrderStateReport) (dk := demo_dpdk) 64 64 (fun _ => true) 6 eq_refl ltac:(lia)
    (fun _ => eq_refl) (demo_noise ++ [demo_packet 0]) demo_receiver demo_receiver_ok) as (r' & bss & H1 & _ & H3 & H4 & _).
  - apply Forall_app. split; [exact demo_noise_readable|]. apply Forall_singleton, demo_readable.
  - exists r', bss. split_and!; [exact H1|exact H3|exact H4|]. vm_compute in H1. injection H1 as <-. cbn [Passed demo_receiver app] in H3.
    rewrite <- H3. reflexivity.
Defined.

Lemma missing_report_stops_receiver_witness :
  exists r', demo_Receive [demo_packet 1; demo_packet 4] demo_receiver = Ret r' /\ Passed r' = [] /\ NextToRead r' = 0.
Proof.
  destruct (missing_report_stops_receiver (T := OrderStateReport) (dk := demo_dpdk) 64 64 (fun _ => true) 6 eq_refl ltac:(lia)
    (fun _ => eq_refl) [demo_packet 1; demo_packet 4] demo_receiver demo_receiver_ok) as (r' & H1 & H2 & H3 & _).
  - apply Forall_cons. split; [apply demo_readable|]. apply Forall_singleton, demo_readable.
  - cbn. intros x bs Hx. by rewrite lookup_empty in Hx.
  - refine (bool_decide_unpack _ _). vm_compute. exact I.
  - exists r'. by split_and!.
Defined.

(** Objects 2 and 3 arrive before 0 and 1. *)
Definition demo_stream (i : Z) : OrderStateReport := FillReport 5 (-1) (-1) i 7 100 0 3 0 FILL.
Definition demo_wire (ids : list Z) : RxPacket :=
  as_received (packet (dk := demo_dpdk) (demo_emitter ∅) (demo_stream <$> ids)) (replicate 48 0).

Lemma demo_stream_ok i : 0 <= i < 10 -> SequenceId (demo_stream i) = i /\ fits layout (demo_stream i).
Proof. intros Hi. split; [apply u32_small; lia|apply report_fits]. Qed.

Lemma demo_wire_carries ids :
  carries (T := OrderStateReport) (dk := demo_dpdk) demo_stream 0xEF010101 5000 ids (demo_wire ids).
Proof.
  refine (packet_carries (demo_emitter ∅) demo_stream ids (replicate 48 0) _ _ _).
  - apply multicast_mac_ok.
  - split; [reflexivity|]. refine (bool_decide_unpack _ _). vm_compute. exact I.
  - apply Forall_forall. intros i _. apply report_fits.
Qed.

Lemma demo_receiving :
  exists r fl, demo_Receive [demo_wire [2; 3]; demo_wire [0; 1]] demo_receiver = Ret r /\
    receiving (T := OrderStateReport) (dk := demo_dpdk) 64 64 (fun _ => true) 10 demo_stream (list_to_set [2; 3; 0; 1]) fl r.
Proof.
  destruct (receiving_next (T := OrderStateReport) (dk := demo_dpdk) 64 64 (fun _ => true) 6 eq_refl ltac:(lia) (fun _ => eq_refl) 6 eq_refl ltac:(lia) 10
    ltac:(lia) demo_stream demo_stream_ok ∅ [] demo_receiver [[2; 3]; [0; 1]] [demo_wire [2; 3]; demo_wire [0; 1]])
    as (r & fl & HE & HR).
  - apply (receiving_init (T := OrderStateReport) (dk := demo_dpdk) 64 64 (fun _ => true) 10 demo_stream demo_pool 0xEF010101 5000); [exact demo_pool_holds|reflexivity].
  - split; [refine (bool_decide_unpack _ _); vm_compute; exact I|]. cbn [concat app NextToRead demo_receiver].
    repeat (apply Forall_cons; split; [split; [set_solver|lia]|]). constructor.
  - vm_compute. congruence.
  - apply Forall2_cons; split; [apply demo_wire_carries|]. apply Forall2_cons; split; [apply demo_wire_carries|]. apply Forall2_nil_2.
  - exists r, fl. split; [exact HE|]. cbn [concat app] in HR. by rewrite (left_id_L ∅ (∪)) in HR.
Qed.

Lemma stream_delivered_in_order_witness :
  exists r, demo_Receive [demo_wire [2; 3]; demo_wire [0; 1]] demo_receiver = Ret r /\ NextToRead r = 4 /\
    Passed r = (fun i => enc report_codec (demo_stream (Z.of_nat i))) <$> seq 0 4.
Proof.
  destruct demo_receiving as (r & fl & HE & HR).
  pose proof (stream_delivered_in_order (T := OrderStateReport) (dk := demo_dpdk) 64 64 (fun _ => true) 6 eq_refl ltac:(lia) (fun _ => eq_refl) 6 eq_refl
    ltac:(lia) 10 ltac:(lia) demo_stream demo_stream_ok _ fl r HR) as (H1 & _).
  assert (Hn : NextToRead r = 4) by (clear - HE; vm_compute in HE; injection HE as <-; reflexivity).
  exists r. split; [exact HE|]. split; [exact Hn|]. rewrite Hn in H1. exact H1.
Defined.

(** A packet for another port is neither used nor given back: its buffer is lost. *)
Definition other_port : RxPacket :=
  as_received (packet (dk := demo_dpdk) (MkEmitter 0 0x0A000001 0xEF010101 4000 5001 (ipv4_multicast_to_mac 0xEF010101) demo_card ∅ 0 0 [] [])
    (demo_stream <$> [0])) (replicate 48 0).

Example wrong_port_packet_not_freed :
  match demo_Receive (replicate 3 other_port ++ demo_noise) demo_receiver with
  | Ret r => FreedPackets r = 2%nat
  | Crash _ => False
  end.
Proof. vm_compute. reflexivity. Qed.

(** A report that arrives twice takes an object of the pool for good: its second
    copy goes to the ring, at a place that was already passed.  With two objects and
    a consumer that releases what it gets, two repeated reports leave none for the
    third, and the receiver stops. *)
Definition small_pool : StoragePool := default ex_pool0 (storage_init 2).
Definition consume_last (r : Receiver) : Receiver :=
  match last (ROutgoing r) with Some x => set_pool (FreeElement 2 x (TPool r)).2 r | None => r end.
Fixpoint receive_each (pkts : list RxPacket) (r : Receiver) : result Receiver :=
  match pkts with
  | [] => Ret r
  | pkt :: pkts =>
      r' ← Receive (T := OrderStateReport) (dk := demo_dpdk) 4 2 (fun _ => true) [pkt] r;
      receive_each pkts (if (length (ROutgoing r) <? length (ROutgoing r'))%nat then consume_last r' else r')
  end.

Example repeated_reports_exhaust_pool :
  match receive_each (demo_wire <$> [[0]; [0]; [1]; [1]; [2]; [3]]) (MkReceiver [] [] 0 small_pool ∅ (ring_init 4) 0 0xEF010101 5000 0) with
  | Ret r => NextToRead r = 2 /\ length (Passed r) = 2%nat
  | Crash _ => False
  end.
Proof. vm_compute. by split. Qed.
