(* ===== verification/Multicast.v ===== *)
(** The market data from end to end: what the emitter of the matching engine puts
    on the wire, as its receivers pass it on.

    Main result: however the packets of the reports are delayed and reordered,
    within the window of the receiver's ring, the receiver passes on the reports
    the engine sent, all of them, in order and unchanged. *)

From stdpp Require Import numbers.
From S2P Require Import Prelude Codec SpscQueue StoragePool Consumer Buffers WireTypes BookSpec WireFormats UdpMulticast UdpReceiver.

Section Multicast.
Context `{dk : Dpdk} `{!DpdkLaws dk}.

(** The stream of a list of objects, with [d] behind its end. *)
Definition stream {T} (d : T) (l : list T) (i : Z) : T := nth (Z.to_nat i) l d.
Definition no_report : OrderStateReport := FillReport 0 0 0 0 0 0 0 0 0 FILL.

Lemma stream_seq {T} (d : T) l : (fun i => stream d l (Z.of_nat i)) <$> seq 0 (length l) = l.
Proof.
  unfold stream. induction l as [|r l IH]; [done|]. cbn [length]. rewrite <- cons_seq, fmap_cons. f_equal.
  rewrite <- fmap_S_seq, <- list_fmap_compose. rewrite <- IH at 2. apply list_fmap_ext. intros _ i _. cbn [compose]. by rewrite !Nat2Z.id.
Qed.

(** The numbers of the objects of each packet. *)
Lemma split_stream {A} (g : Z -> A) gs n :
  g <$> seqZ n (Z.of_nat (length (concat gs))) = concat gs ->
  exists idss, concat idss = seqZ n (Z.of_nat (length (concat gs))) /\ Forall2 (fun ids x => x = g <$> ids) idss gs.
Proof.
  revert n. induction gs as [|x gs IH]; intros n Hg; [by exists []|].
  cbn [concat] in *. rewrite length_app, Nat2Z.inj_add, seqZ_app in * by lia. rewrite fmap_app in Hg.
  apply app_inj_1 in Hg as [H1 H2]; [|by rewrite length_fmap, length_seqZ, Nat2Z.id].
  destruct (IH _ H2) as (idss & H3 & H4). exists (seqZ n (Z.of_nat (length x)) :: idss). cbn [concat]. rewrite H3. by split; [|constructor].
Qed.

Lemma stream_ok {T} `{!Sequenced T} (d : T) ts i :
  Forall (fits layout) ts -> Z.of_nat (length ts) <= 2 ^ 32 -> 0 <= i < Z.of_nat (length (stamped 0 ts)) ->
  SequenceId (stream d (stamped 0 ts) i) = i /\ fits layout (stream d (stamped 0 ts) i).
Proof.
  intros Hf Hn Hi. unfold stream. destruct (nth_lookup_or_length (stamped 0 ts) (Z.to_nat i) d) as [Hl|]; [|lia].
  set (t := nth _ _ _) in *. rewrite stamped_length in Hi. split.
  - rewrite (lookup_stamped 0 _ _ _ Hl). rewrite Z2Nat.id by lia. apply u32_small. lia.
  - pose proof (stamped_fits 0 _ Hf) as Hs. rewrite Forall_lookup in Hs. by eapply Hs.
Qed.

Section EndToEnd.
Context (BatchSize RingBufferSize PoolSize k kp : nat) (HSize : RingBufferSize = (2 ^ k)%nat) (Hk : (k < 32)%nat).
Context (HPool : PoolSize = (2 ^ kp)%nat) (Hkp : (kp <= 62)%nat).

Abbreviation emit_all := (emit BatchSize (fun _ => true) (MTU + width rte_ether_hdr) (fun _ k => k)).
Abbreviation receiving := (receiving RingBufferSize PoolSize (fun _ => true)).

(** Packets whose objects follow each other from 0 to [n]. *)
Definition carry_ranges {T} `{!Sequenced T} (f : Z -> T) (n dstIp dstPort : Z) (txs : list TxPacket) : Prop :=
  exists idss, concat idss = seqZ 0 n /\
    Forall2 (fun ids tx => forall tail, carries f (u32 dstIp) (u16 dstPort) ids (as_received tx tail)) idss txs.

(** What an emitter sends reaches a receiver to which all of it came. *)
Lemma emission_reaches {T} `{!Sequenced T} (d : T) card srcIp dstIp srcPort dstPort objects (batches : list (list (nat * T))) :
  (0 < ObjectsPerPacket (T := T))%nat -> mac_ok card -> Forall (batch_ok BatchSize) batches -> Forall (fits layout) (concat batches).*2 ->
  Z.of_nat (length (concat batches)) <= 2 ^ 32 - 1 ->
  let sent := stamped 0 (concat batches).*2 in
  let n := Z.of_nat (length sent) in
  exists e0 e', emitter_init 0 0 card srcIp dstIp srcPort dstPort objects = Ret e0 /\ emit_all batches e0 = Ret e' /\
    carry_ranges (stream d sent) n dstIp dstPort (OnWire e') /\
    forall A fl r, receiving n (stream d sent) A fl r -> (forall i, 0 <= i < n -> i ∈ A) -> Passed r = enc layout <$> sent.
Proof.
  intros HP Hcard HB Hfit Hn sent n. set (e0 := MkEmitter 0 (u32 srcIp) (u32 dstIp) (u16 srcPort) (u16 dstPort)
    (ipv4_multicast_to_mac (u32 dstIp)) card objects 0 0 [] []).
  destruct (emit_ok BatchSize (fun _ => true) (MTU + width rte_ether_hdr) (fun _ k => k) HP eq_refl (fun _ => eq_refl)
    (fun _ k => le_n k) batches e0) as (e' & gs & HE & Hw & Hgs & HF & _); [split; cbn; lia|done|done|].
  cbn [ESequenceId OnWire e0 app] in Hw, Hgs. fold sent in Hgs.
  assert (Hlen : length sent = length (concat batches)) by (unfold sent; by rewrite stamped_length, length_fmap).
  assert (Hat : forall i, 0 <= i < n -> SequenceId (stream d sent i) = i /\ fits layout (stream d sent i)).
  { intros i Hi. apply stream_ok; [done| |done]. rewrite length_fmap. lia. }
  exists e0, e'. split; [done|]. split; [exact HE|]. split.
  - assert (Hs : stream d sent <$> seqZ 0 (Z.of_nat (length (concat gs))) = concat gs).
    { rewrite Hgs. unfold seqZ. rewrite Nat2Z.id, <- list_fmap_compose. rewrite <- (stream_seq d sent) at 3.
      apply list_fmap_ext. intros _ i _. cbn [compose]. by rewrite Z.add_0_r. }
    destruct (split_stream (stream d sent) gs 0 Hs) as (idss & H1 & H2). rewrite Hgs in H1. exists idss. split; [exact H1|].
    rewrite Hw. apply Forall2_fmap_r. assert (Hin : forall i, i ∈ concat idss -> 0 <= i < n).
    { intros i Hi. rewrite H1 in Hi. apply elem_of_seqZ in Hi. lia. }
    clear - H2 Hin Hat Hcard DpdkLaws0. induction H2 as [|ids g idss gs -> _ IH]; constructor.
    + intros tail. apply (packet_carries e0 (stream d sent)); [apply multicast_mac_ok|exact Hcard|]. apply Forall_forall. intros i Hi.
      apply Hat, Hin. cbn [concat]. set_solver.
    + apply IH. intros i Hi. apply Hin. cbn [concat]. set_solver.
  - intros A fl r HR HA.
    destruct (receiving_delivery RingBufferSize PoolSize (fun _ => true) k HSize Hk (fun _ => eq_refl) kp HPool Hkp n ltac:(lia)
      (stream d sent) Hat A fl r HR) as (pend & HD & Hg).
    assert (Hnext : NextToRead r = n).
    { pose proof (d_ok _ _ _ _ _ _ _ _ HD) as (_ & Hr & _). unfold in_u32 in Hr.
      destruct (decide (NextToRead r < n)) as [|Hge]; [destruct Hg; apply HA; lia|].
      destruct (decide (NextToRead r = n)) as [|Hne]; [done|]. assert (Hin : n ∈ A) by (apply (d_prefix _ _ _ _ _ _ _ _ HD); lia).
      pose proof (d_range _ _ _ _ _ _ _ _ HD _ Hin). lia. }
    rewrite (d_passed _ _ _ _ _ _ _ _ HD), Hnext. subst n. rewrite Nat2Z.id.
    transitivity (enc layout <$> ((fun i => stream d sent (Z.of_nat i)) <$> seq 0 (length sent))); [by rewrite <- list_fmap_compose|].
    by rewrite stream_seq.
Qed.

(** C8: the reports of the engine reach every receiver.  Let the emitter send any
    batches of reports, fewer than 2^32 - 1, with packets for all of them and a card
    that takes them.  Every packet on the wire then carries a range of the reports,
    stamped with their numbers, and the ranges follow each other; and a receiver of
    that address to which these packets came, in any order within the window of its
    ring and in any bursts, has passed on the bytes of all the reports, in order. *)
Theorem reports_reach_receivers card srcIp dstIp srcPort dstPort objects (batches : list (list (nat * OrderStateReport))) :
  (0 < ObjectsPerPacket (T := OrderStateReport))%nat -> mac_ok card -> Forall (batch_ok BatchSize) batches ->
  Forall (fits report_codec) (concat batches).*2 -> Z.of_nat (length (concat batches)) <= 2 ^ 32 - 1 ->
  let sent := stamped 0 (concat batches).*2 in
  let n := Z.of_nat (length sent) in
  exists e0 e', emitter_init 0 0 card srcIp dstIp srcPort dstPort objects = Ret e0 /\ emit_all batches e0 = Ret e' /\
    carry_ranges (stream no_report sent) n dstIp dstPort (OnWire e') /\
    forall A fl r, receiving n (stream no_report sent) A fl r -> (forall i, 0 <= i < n -> i ∈ A) ->
      Passed r = enc report_codec <$> sent.
Proof. exact (emission_reaches (T := OrderStateReport) no_report card srcIp dstIp srcPort dstPort objects batches). Qed.
End EndToEnd.
End Multicast.

(** ** A concrete run *)

Definition on_arrival (wire : list TxPacket) : list RxPacket := (fun tx => as_received tx (replicate 48 0)) <$> wire.

(** At most 64 reports, whose packets arrive in the opposite order. *)
Lemma demo_reversed ts wire :
  let sent := stamped 0 ts in
  let n := Z.of_nat (length sent) in
  Forall (fits report_codec) ts -> (length ts <= 64)%nat ->
  carry_ranges (dk := demo_dpdk) (stream no_report sent) n 0xEF010101 5000 wire ->
  exists r A fl, demo_Receive (on_arrival (reverse wire)) demo_receiver = Ret r /\
    receiving (T := OrderStateReport) (dk := demo_dpdk) 64 64 (fun _ => true) n (stream no_report sent) A fl r /\
    forall i, 0 <= i < n -> i ∈ A.
Proof.
  intros sent n Hfit Hlen (idss & Hi & HC).
  assert (Hn : 0 <= n <= 64) by (subst n sent; rewrite stamped_length; lia).
  assert (Hp : concat (reverse idss) ≡ₚ seqZ 0 n) by (rewrite <- Hi; by rewrite reverse_Permutation).
  assert (Hok : forall i, 0 <= i < n -> SequenceId (stream no_report sent i) = i /\ fits layout (stream no_report sent i)).
  { intros i Hi'. apply (stream_ok (T := OrderStateReport)); [done|lia|done]. }
  destruct (receiving_next (T := OrderStateReport) (dk := demo_dpdk) 64 64 (fun _ => true) 6 eq_refl ltac:(lia) (fun _ => eq_refl) 6
    eq_refl ltac:(lia) n ltac:(lia) (stream no_report sent) Hok ∅ [] demo_receiver (reverse idss) (on_arrival (reverse wire)))
    as (r & fl & HE & HR).
  - apply (receiving_init (T := OrderStateReport) (dk := demo_dpdk) 64 64 (fun _ => true) n _ demo_pool 0xEF010101 5000);
      [exact demo_pool_holds|reflexivity].
  - split; [rewrite Hp; apply NoDup_seqZ|]. rewrite Hp. apply Forall_forall. intros i Hi'. apply elem_of_seqZ in Hi'.
    split; [apply not_elem_of_empty|]. cbn [NextToRead demo_receiver]. lia.
  - rewrite Hp, length_seqZ, size_empty. cbn [NextToRead demo_receiver length]. lia.
  - apply Forall2_fmap_r, Forall2_reverse. eapply Forall2_impl; [exact HC|]. intros ids tx Hc. apply Hc.
  - eexists r, _, _. split; [exact HE|]. split; [exact HR|]. intros i Hi'.
    rewrite elem_of_union, elem_of_list_to_set, Hp, elem_of_seqZ. right. lia.
Qed.

(** Thirty-five reports in one batch go out in two packets. *)
Definition demo_batch : list (nat * OrderStateReport) := zip (seq 0 35) (demo_reports 35).

Lemma demo_batch_fits : Forall (fits report_codec) (concat [demo_batch]).*2.
Proof.
  change (concat [demo_batch]) with demo_batch. apply Forall_fmap, Forall_forall. intros [x r] Hx.
  apply elem_of_zip_r, list_elem_of_fmap in Hx as (i & -> & _). apply report_fits.
Qed.
Lemma demo_card_ok : mac_ok demo_card.
Proof. split; [reflexivity|]. refine (bool_decide_unpack _ _). vm_compute. exact I. Qed.

Lemma reports_reach_receivers_witness :
  exists e0 e' r, emitter_init 0 0 demo_card 0x0A000001 0xEF010101 4000 5000 ∅ = Ret e0 /\
    emit (dk := demo_dpdk) 40 (fun _ => true) 1514 (fun _ k => k) [demo_batch] e0 = Ret e' /\
    demo_Receive (on_arrival (reverse (OnWire e'))) demo_receiver = Ret r /\
    Passed r = enc report_codec <$> stamped 0 (demo_reports 35).
Proof.
  destruct (reports_reach_receivers (dk := demo_dpdk) 40 64 64 6 6 eq_refl ltac:(lia) eq_refl ltac:(lia)
    demo_card 0x0A000001 0xEF010101 4000 5000 ∅ [demo_batch]) as (e0 & e' & H0 & HE & HC & HR).
  - vm_compute. lia.
  - exact demo_card_ok.
  - apply Forall_singleton. split; [refine (bool_decide_unpack _ _); vm_compute; exact I|vm_compute; lia].
  - exact demo_batch_fits.
  - vm_compute. congruence.
  - destruct (demo_reversed (concat [demo_batch]).*2 (OnWire e') demo_batch_fits ltac:(vm_compute; lia) HC) as (r & A & fl & HE' & H2 & HA).
    exists e0, e', r. split_and!; [exact H0|exact HE|exact HE'|]. exact (HR A fl r H2 HA).
Defined.

(** ** A packet that could not be allocated

    The emitter numbers the reports before it asks for a packet, and goes on when it
    gets none: the numbers are used up, and every receiver waits for them. *)

Example failed_allocation_stops_receivers :
  match emit (dk := demo_dpdk) 40 (fun n => negb (n =? 0)%nat) 1514 (fun _ k => k) [take 3 demo_batch; drop 3 demo_batch] (demo_emitter ∅) with
  | Ret e =>
      match demo_Receive (on_arrival (OnWire e)) demo_receiver with
      | Ret r => ESequenceId e = 35 /\ length (OnWire e) = 2%nat /\ Passed r = [] /\ NextToRead r = 0
      | Crash _ => False
      end
  | Crash _ => False
  end.
Proof. vm_compute. by split_and!. Qed.

