(* ===== verification/GatewayServers.v ===== *)
(** The socket ends of an order gateway (src/market_server/order_gateway): the
    server its clients connect to (gateway_server.hpp, a class derived from
    [EpollServer]), the forwarder of login requests (account_request_sender.cpp),
    the receiver of the account service's answers
    (account_service_response_receiver.hpp), and the sender of confirmations
    (client_message_sender.hpp).

    The outcomes of [send] and [recv] and of the pushes to the queues of other
    threads are parameters, as in EpollServer.v and OrderRouter.v.

    Main results: the first message of a connection becomes the request the account
    service expects, with the descriptor and the gateway's number, or the process
    crashes if the pool is drained; answers are received whole; confirmations reach
    their client in order while the socket takes bytes; an interrupted resend loses
    what was to be sent again. *)

From S2P Require Import Prelude WireTypes Codec SpscQueue StoragePool Consumer Buffers EpollServer GatewayStates OrderRouter.
From S2P Require Import AccountStates AccountService WireFormats.

(** ** GatewayServer *)

Record GatewayServer := MkGateway {
  GServerId : Z;                            (* uint16_t GatewayId *)
  GStates : ClientStates;
  GDisconnects : list Z;                    (* OutgoingDisconnects *)
  GDisconnectPushes : nat;
  GReqPool : StoragePool;                   (* GatewayReqPool *)
  GReqHeap : gmap nat RoutedAuthRequest;    (* the objects of the pool *)
  GRequests : list nat;                     (* OutgoingRequests *)
  GRequestPushes : nat
}.

Section GatewayServer.
Context (PoolSize : nat) (req_room dis_room : nat -> bool).
Implicit Type d : GatewayServer.

(** The object acquired is not checked before it is written.  [message] holds the
    bytes of a [ClientAuthRequest], copied to the front of the request. *)
Definition gw_FirstMessageHandle (message : list Z) (fd : Z) d : result GatewayServer :=
  let '(finalRequest, pool) := Acquire PoolSize (QTail (Free (GReqPool d))) (GReqPool d) in
  x ← deref finalRequest;
  match dec auth_request_codec message with
  | None => Crash OutOfBounds
  | Some (m, _) =>
      let r := MkRequest (CRequestType m) (CReqClientId m) (CKey m) fd (GServerId d) in
      let heap := <[x := r]> (GReqHeap d) in
      if req_room (GRequestPushes d) then
        Ret (MkGateway (GServerId d) (GStates d) (GDisconnects d) (GDisconnectPushes d) pool heap
               (GRequests d ++ [x]) (S (GRequestPushes d)))
      else
        Ret (MkGateway (GServerId d) (GStates d) (GDisconnects d) (GDisconnectPushes d)
               (LocalRelease PoolSize x pool).2 heap (GRequests d) (S (GRequestPushes d)))
  end.

Definition gw_BatchHandle (batch : ObjectBatch Z) (fd : Z) d : result (ObjectBatch Z * GatewayServer) :=
  auth ← on_client fd GetClientAuth (GStates d);
  Ret (MkBatch (BatchData batch) (BatchSize batch) fd auth, d).

Definition gw_CloseHandle (fd : Z) d : result GatewayServer :=
  Ret (MkGateway (GServerId d) (GStates d)
         (if dis_room (GDisconnectPushes d) then GDisconnects d ++ [fd] else GDisconnects d) (S (GDisconnectPushes d))
         (GReqPool d) (GReqHeap d) (GRequests d) (GRequestPushes d)).

Definition gateway_derived : Derived GatewayServer :=
  MkDerived true (fun _ d => Ret d) gw_CloseHandle gw_FirstMessageHandle gw_BatchHandle.

(** A descriptor with an entry among the clients' states. *)
Definition has_state (fd : Z) d : Prop := is_Some (GStates d !! Z.to_nat fd).

Lemma gateway_keeps_batches : keeps_batches gateway_derived has_state (fun _ _ => True).
Proof.
  intros b fd d [t Ht] Hb. unfold gateway_derived. cbn [BatchHandle]. unfold gw_BatchHandle, on_client. rewrite Ht.
  eexists _, _. split; [reflexivity|]. split; [by exists t|]. done.
Qed.

(** A queued batch carries the authorisation the client has when it is read. *)
Lemma gateway_stamps_batches cs t :
  keeps_batches gateway_derived (fun fd d => GStates d = cs /\ cs !! Z.to_nat fd = Some t) (fun _ b => Auth b = GetClientAuth t).
Proof.
  intros b fd d [Hcs Ht] Hb. unfold gateway_derived. cbn [BatchHandle]. unfold gw_BatchHandle, on_client. rewrite Hcs, Ht.
  eexists _, _. split; [reflexivity|]. by split_and!.
Qed.

Context (kp : nat) (HP : PoolSize = (2 ^ kp)%nat) (Hkp : (kp <= 62)%nat).

(** The request a first message becomes. *)
Lemma gw_first_message m fd d held rest :
  fits auth_request_codec m -> pool_holds PoolSize (GReqPool d) held -> (length held < PoolSize)%nat ->
  (forall n, req_room n = true) ->
  exists x d', gw_FirstMessageHandle (enc auth_request_codec m ++ rest) fd d = Ret d' /\
    GRequests d' = GRequests d ++ [x] /\
    GReqHeap d' !! x = Some (MkRequest (CRequestType m) (CReqClientId m) (CKey m) fd (GServerId d)) /\
    pool_holds PoolSize (GReqPool d') (x :: held) /\ (x ∉ held) /\ GStates d' = GStates d /\
    (forall y, y ∈ held -> GReqHeap d' !! y = GReqHeap d !! y).
Proof.
  intros Hm Hp Hh Hroom. unfold gw_FirstMessageHandle.
  destruct (acquire_fresh PoolSize kp HP Hkp (GReqPool d) held Hp Hh) as (x & pool & -> & Hp' & Hx). cbn [deref mbind result_bind].
  rewrite dec_enc by done. rewrite Hroom. exists x. eexists. split; [reflexivity|]. cbn [GRequests GReqHeap GReqPool GStates].
  split_and!; try done; [by rewrite lookup_insert_eq|]. intros y Hy. rewrite lookup_insert_ne; [done|]. by intros ->.
Qed.

(** With a drained pool the handler writes through a null pointer. *)
Lemma gw_first_message_crash message fd d :
  fst (Acquire PoolSize (QTail (Free (GReqPool d))) (GReqPool d)) = None ->
  gw_FirstMessageHandle message fd d = Crash NullDeref.
Proof. intros H. unfold gw_FirstMessageHandle. destruct (Acquire _ _ _) as [x pool]. cbn in H. by rewrite H. Qed.
End GatewayServer.

(** ** GatewayRequestForwarder

    One call of [send]: its result is how many bytes were taken, if any; nothing is
    retried.  [None]: not connected. *)
Definition SendRequest (curVal : Z) (r : RoutedAuthRequest) (out : SendReturn) : option (Z * list Z) :=
  if Fd curVal =? -1 then None
  else
    match out with
    | Sent n => let bytes := enc routed_request_codec r in Some (Fd curVal, take (taken n (length bytes)) bytes)
    | _ => Some (Fd curVal, [])
    end.

(** What a whole send delivers is the request. *)
Lemma SendRequest_whole v r :
  Fd v <> -1 -> fits routed_request_codec r ->
  exists bytes, SendRequest v r (Sent (width routed_request_codec)) = Some (Fd v, bytes) /\
    dec routed_request_codec bytes = Some (r, []).
Proof.
  intros Hv Hr. unfold SendRequest. rewrite (proj2 (Z.eqb_neq _ _) Hv). eexists. split; [reflexivity|].
  rewrite (enc_length routed_request_codec r Hr). rewrite take_ge.
  - rewrite <- (app_nil_r (enc routed_request_codec r)). by apply dec_enc.
  - rewrite (enc_length routed_request_codec r Hr). unfold taken. lia.
Qed.

(** ** AccountServiceResponseReceiver *)

Section ResponseReceiver.
Context (BatchLen PoolSize : nat) (has_room : nat -> bool).
Abbreviation sizeof_T := (width snapshot_codec).

Record ResponseReceiver := MkReceiver {
  RBuffer : ObjectBuffer;
  BufferGen : Z;                          (* uint32_t *)
  RPool : StoragePool;
  RBatches : gmap nat (ObjectBatch Z);
  RResponses : list nat;                  (* OutgoingResponses *)
  RPushes : nat;
  Rerrno : Errno
}.
Implicit Type s : ResponseReceiver.

Definition response_batch (x : nat) s : ObjectBatch Z := default (batch0 sizeof_T BatchLen) (RBatches s !! x).

(** One call: [curVal] is what [AccountFd] holds, [evs] what [recv] finds. *)
Definition ProcessResponses (curVal : Z) (evs : list RecvEvent) s : result (list RecvEvent * ResponseReceiver) :=
  if Fd curVal =? -1 then
    Ret (evs, MkReceiver (clearBuffer (RBuffer s)) (BufferGen s) (RPool s) (RBatches s) (RResponses s) (RPushes s) (Rerrno s))
  else
    let buffer := if negb (BufferGen s =? Gen curVal) then clearBuffer (RBuffer s) else RBuffer s in
    let '(acquired, pool) := Acquire PoolSize (QTail (Free (RPool s))) (RPool s) in
    match acquired with
    | None => Ret (evs, MkReceiver buffer (Gen curVal) pool (RBatches s) (RResponses s) (RPushes s) (Rerrno s))
    | Some x =>
        let old := response_batch x s in
        let mem := copy_leftover buffer (BatchData old) in
        let '(r, evs, e) := recv (sizeof_T * BatchLen - BufferSize buffer) evs (Rerrno s) in
        match r with
        | Bytes data =>
            '(batchSize, buffer, mem) ← split_received sizeof_T BatchLen data buffer mem;
            let bs := <[x := MkBatch mem batchSize (BatchFd old) (Auth old)]> (RBatches s) in
            if has_room (RPushes s) then
              Ret (evs, MkReceiver buffer (Gen curVal) pool bs (RResponses s ++ [x]) (S (RPushes s)) e)
            else
              Ret (evs, MkReceiver buffer (Gen curVal) (LocalRelease PoolSize x pool).2 bs (RResponses s) (S (RPushes s)) e)
        | _ =>
            let bs := <[x := MkBatch mem (BatchSize old) (BatchFd old) (Auth old)]> (RBatches s) in
            let buffer := match e with ECONN => clearBuffer buffer | _ => buffer end in
            Ret (evs, MkReceiver buffer (Gen curVal) (LocalRelease PoolSize x pool).2 bs (RResponses s) (RPushes s) e)
        end
    end.

Context (kp : nat) (HP : PoolSize = (2 ^ kp)%nat) (Hkp : (kp <= 62)%nat) (HBL : (0 < BatchLen)%nat).

(** A call that finds bytes queues one batch with the whole messages among them,
    possibly none, and keeps the rest. *)
Lemma ProcessResponses_ok curVal b bs evs s q held :
  Fd curVal <> -1 -> BufferGen s = Gen curVal -> objbuf_rep sizeof_T (RBuffer s) q -> (length q < sizeof_T)%nat ->
  (forall x, length (BatchData (response_batch x s)) = sizeof_T * BatchLen)%nat ->
  pool_holds PoolSize (RPool s) held -> (length held < PoolSize)%nat -> (forall n, has_room n = true) ->
  aligned sizeof_T (length q) (Avail b bs :: evs) = true ->
  exists evs' s' x q', ProcessResponses curVal (Avail b bs :: evs) s = Ret (evs', s') /\
    RResponses s' = RResponses s ++ [x] /\ objbuf_rep sizeof_T (RBuffer s') q' /\
    take (sizeof_T * BatchSize (response_batch x s')) (BatchData (response_batch x s')) ++ q' ++ event_bytes evs'
      = q ++ event_bytes (Avail b bs :: evs) /\
    pool_holds PoolSize (RPool s') (x :: held).
Proof.
  intros Hfd Hgen Hrep Hq Hmem Hpool Hheld Hroom Hal. unfold ProcessResponses. rewrite (proj2 (Z.eqb_neq _ _) Hfd), Hgen, Z.eqb_refl.
  destruct (acquire_fresh PoolSize kp HP Hkp (RPool s) held Hpool Hheld) as (x & pool & -> & Hpool1 & Hx). cbn [negb].
  pose proof Hrep as (_ & Hs & _ & _). rewrite Hs.
  destruct (aligned_recv sizeof_T BatchLen (length q) b bs evs ltac:(cbn; lia) HBL Hq Hal) as (Hcap & Hpart & _).
  destruct (recv_avail (sizeof_T * BatchLen - length q) b bs evs (Rerrno s)) as (evs' & -> & Hbytes & _); [nia|].
  set (data := take _ (b :: bs)) in *.
  destruct (split_received_ok sizeof_T BatchLen ltac:(cbn; lia) (RBuffer s) q data (BatchData (response_batch x s)) Hrep (Hmem x) Hcap Hpart)
    as (b' & mem' & -> & Hl' & Htk & Hrep'). cbn [mbind result_bind]. rewrite Hroom.
  eexists evs', _, x, _. split; [reflexivity|]. cbn [RResponses RBuffer RPool]. split_and!; [done|exact Hrep'| |done].
  unfold response_batch. cbn [RBatches]. rewrite lookup_insert_eq. cbn [default id BatchData BatchSize].
  rewrite Hbytes. cbn [event_bytes]. set (t := (length q + length data)%nat) in *.
  assert (HD : take (sizeof_T * (t / sizeof_T)) mem' ++ (if (t <? sizeof_T)%nat then q ++ data else []) = q ++ data).
  { destruct (Nat.ltb_spec t sizeof_T) as [Hlt|Hge].
    - rewrite (Nat.div_small t) by done. by rewrite Nat.mul_0_r, take_0.
    - destruct Hpart as [|Hm]; [lia|]. pose proof (Nat.div_mod_eq t sizeof_T) as E. rewrite Hm, Nat.add_0_r in E.
      rewrite <- E, Htk. by rewrite app_nil_r. }
  rewrite app_assoc, HD, <- app_assoc. f_equal. rewrite app_assoc. unfold data. by rewrite take_drop.
Qed.
End ResponseReceiver.

(** ** ClientMessageSender *)

Section MessageSender.
Definition sizeof_Confirmation : nat := width confirmation_codec.
Definition resend_capacity : nat := GatewayEpollReceiveBatchSize * sizeof_Confirmation.

Record MessageSender := MkSender {
  MBuffers : list BytesBuffer;            (* ConfirmationBuffer, by descriptor *)
  MWire : list (Z * list Z)               (* descriptor and bytes taken, in order *)
}.
Implicit Type s : MessageSender.

Definition log_bytes (fd : Z) (bytes : list Z) s : MessageSender := MkSender (MBuffers s) (MWire s ++ [(fd, bytes)]).
Definition set_mbuffer (fd : Z) (b : BytesBuffer) s : MessageSender :=
  MkSender (<[Z.to_nat fd := b]> (MBuffers s)) (MWire s).

(** The loop of [DrainBuffer<OrderConfirmation>]: -1 is added to [totalSent]
    before it is looked at.  The result is [None] when the loop ended and
    [Some totalSent] after an error. *)
Fixpoint ms_drain_loop (outs : list SendReturn) (fd : Z) (data : list Z) (bufferSize totalSent : Z) s
    : result (option Z * list SendReturn * MessageSender) :=
  if bufferSize <=? totalSent then Ret (None, outs, s)
  else
    match outs with
    | [] => Crash Blocked
    | Sent n :: outs =>
        let k := taken n (Z.to_nat (bufferSize - totalSent)) in
        ms_drain_loop outs fd data bufferSize (u64 (totalSent + Z.of_nat k))
          (log_bytes fd (take k (drop (Z.to_nat totalSent) data)) s)
    | Interrupted :: outs => ms_drain_loop outs fd data bufferSize (u64 (totalSent - 1)) s
    | Failed :: outs => Ret (Some (u64 (totalSent - 1)), outs, s)
    end.

Definition ms_DrainBuffer (fd : Z) (outs : list SendReturn) s : result (bool * list SendReturn * MessageSender) :=
  b ← at_ (MBuffers s) fd;
  '(stop, outs, s) ← ms_drain_loop outs fd (GetData b) (GetSize b) 0 s;
  match stop with
  | None => Ret (true, outs, set_mbuffer fd (Clear b) s)
  | Some totalSent => b ← Shift resend_capacity totalSent b; Ret (false, outs, set_mbuffer fd b s)
  end.

(** [SendOrderConfirmation]: [bytes] is the confirmation from [totalSent] on. *)
Fixpoint SendOrderConfirmation (outs : list SendReturn) (fd : Z) (bytes : list Z) s : result (list SendReturn * MessageSender) :=
  match bytes with
  | [] => Ret (outs, s)
  | _ =>
      match outs with
      | [] => Crash Blocked
      | Sent n :: outs =>
          let k := taken n (length bytes) in
          SendOrderConfirmation outs fd (drop k bytes) (log_bytes fd (take k bytes) s)
      | Interrupted :: outs => SendOrderConfirmation outs fd bytes s
      | Failed :: outs =>
          b ← at_ (MBuffers s) fd;
          Ret (outs, set_mbuffer fd (Add bytes (Z.of_nat (length bytes)) b) s)
      end
  end.

(** One message of [StartLoop]. *)
Definition send_message (m : ClientMessage) (outs : list SendReturn) s : result (list SendReturn * MessageSender) :=
  let bytes := enc confirmation_codec (Confirmation m) in
  '(drained, outs, s) ← ms_DrainBuffer (MsgFd m) outs s;
  if negb drained then
    b ← at_ (MBuffers s) (MsgFd m);
    if CanAdd resend_capacity (Z.of_nat sizeof_Confirmation) b then
      Ret (outs, set_mbuffer (MsgFd m) (Add bytes (Z.of_nat sizeof_Confirmation) b) s)
    else Ret (outs, s)
  else SendOrderConfirmation outs (MsgFd m) bytes s.

Fixpoint send_messages (ms : list ClientMessage) (outs : list SendReturn) s : result (list SendReturn * MessageSender) :=
  match ms with
  | [] => Ret (outs, s)
  | m :: ms => '(outs, s) ← send_message m outs s; send_messages ms outs s
  end.

(** What a client has received. *)
Definition received_by (fd : Z) s : list Z := MWire s ≫= (fun e => if e.1 =? fd then e.2 else []).

Definition is_sent (o : SendReturn) : Prop := match o with Sent _ => True | _ => False end.

Lemma SendOrderConfirmation_ok outs fd bytes s :
  Forall is_sent outs -> (length bytes <= length outs)%nat ->
  exists outs' s', SendOrderConfirmation outs fd bytes s = Ret (outs', s') /\ Forall is_sent outs' /\
    (length outs <= length outs' + length bytes)%nat /\ MBuffers s' = MBuffers s /\
    forall fd', received_by fd' s' = received_by fd' s ++ (if fd =? fd' then bytes else []).
Proof.
  intros HF. revert bytes s. induction HF as [|o outs Ho HF IH]; intros bytes s Hl.
  - destruct bytes; [|simpl in Hl; lia]. exists [], s. split_and!; try done. intros fd'. by destruct (fd =? fd'); rewrite app_nil_r.
  - destruct bytes as [|c bytes].
    + exists (o :: outs), s. split_and!; try done; [by constructor|cbn; lia|]. intros fd'. by destruct (fd =? fd'); rewrite app_nil_r.
    + destruct o as [n| |]; try done. cbn [SendOrderConfirmation]. set (k := taken n (length (c :: bytes))).
      assert (Hk : (0 < k)%nat) by (unfold k, taken; lia).
      destruct (IH (drop k (c :: bytes)) (log_bytes fd (take k (c :: bytes)) s)) as (outs' & s' & HR & H1 & H2 & H3 & H4).
      { rewrite length_drop. cbn [length] in *. lia. }
      exists outs', s'. rewrite length_drop in H2. cbn [length] in *. split; [exact HR|]. split_and!; try done; [lia|].
      intros fd'. rewrite H4. unfold received_by, log_bytes. cbn [MWire]. rewrite bind_app. cbn [mbind list_bind fst snd].
      rewrite app_nil_r. destruct (fd =? fd'); [|by rewrite !app_nil_r].
      rewrite <- app_assoc. f_equal. by rewrite take_drop.
Qed.

(** Every resend buffer is empty, and every descriptor has one. *)
Definition idle s : Prop := length (MBuffers s) = GatewayMaxClients /\ Forall (fun b => BSize b = 0) (MBuffers s).

(** C32: while the sockets take bytes, however few at a time, the sender returns and
    every client has received exactly the confirmations addressed to it, whole and
    in the order of the queue. *)
Theorem confirmations_reach_clients ms outs s :
  idle s -> Forall is_sent outs -> (length ms * sizeof_Confirmation <= length outs)%nat ->
  Forall (fun m => 0 <= MsgFd m < Z.of_nat GatewayMaxClients /\ fits confirmation_codec (Confirmation m)) ms ->
  exists outs' s', send_messages ms outs s = Ret (outs', s') /\ idle s' /\
    forall fd, received_by fd s' =
      received_by fd s ++ ((Confirmation <$> filter (fun m => MsgFd m = fd) ms) ≫= enc confirmation_codec).
Proof.
  intros Hi Ho Hl HF. revert outs s Hi Ho Hl. induction HF as [|m ms [Hfd Hfit] _ IH]; intros outs s Hi Ho Hl; cbn [send_messages length] in *.
  { exists outs, s. split_and!; try done. intros fd. by rewrite app_nil_r. }
  destruct Hi as [HL HB]. destruct (lookup_lt_is_Some_2 (MBuffers s) (Z.to_nat (MsgFd m))) as [b Hb]; [lia|].
  assert (Hb0 : BSize b = 0) by (rewrite Forall_lookup in HB; by eapply HB).
  unfold send_message, ms_DrainBuffer, at_. rewrite Hb. cbn [mbind result_bind]. unfold GetSize. rewrite Hb0.
  assert (HD : ms_drain_loop outs (MsgFd m) (GetData b) 0 0 s = Ret (None, outs, s)) by by destruct outs.
  rewrite HD. cbn [mbind result_bind negb].
  destruct (SendOrderConfirmation_ok outs (MsgFd m) (enc confirmation_codec (Confirmation m)) (set_mbuffer (MsgFd m) (Clear b) s))
    as (outs1 & s1 & -> & Ho1 & Hl1 & HB1 & HR1); [done|rewrite enc_length by done; unfold sizeof_Confirmation in *; lia|].
  cbn [mbind result_bind]. rewrite enc_length in Hl1 by done.
  destruct (IH outs1 s1) as (outs2 & s2 & -> & Hi2 & HR2).
  { unfold idle. rewrite HB1. cbn [set_mbuffer MBuffers]. split; [by rewrite length_insert|]. by apply Forall_insert. }
  { done. }
  { unfold sizeof_Confirmation in *. lia. }
  exists outs2, s2. split_and!; [done|apply Hi2..|]. intros fd. rewrite HR2, HR1.
  change (received_by fd (set_mbuffer (MsgFd m) (Clear b) s)) with (received_by fd s). rewrite filter_cons, <- app_assoc. f_equal.
  destruct (Z.eqb_spec (MsgFd m) fd) as [->|Hne]; [rewrite decide_True by done|rewrite decide_False by done]; done.
Qed.

(** A resend that is interrupted before it starts drops everything: [totalSent]
    wraps around to the largest [size_t] and the loop ends as if all was sent. *)
Lemma interrupted_resend_loses_bytes b outs s :
  at_ (MBuffers s) 0 = Ret b -> 0 < BSize b < 2 ^ 64 - 1 ->
  ms_DrainBuffer 0 (Interrupted :: outs) s = Ret (true, outs, set_mbuffer 0 (Clear b) s).
Proof.
  intros Hb Hs. unfold ms_DrainBuffer. rewrite Hb. cbn [mbind result_bind ms_drain_loop]. unfold GetSize.
  rewrite (proj2 (Z.leb_gt _ _)) by lia. change (u64 (0 - 1)) with (2 ^ 64 - 1).
  assert (HD : ms_drain_loop outs 0 (GetData b) (BSize b) (2 ^ 64 - 1) s = Ret (None, outs, s)).
  { destruct outs; cbn [ms_drain_loop]; by rewrite (proj2 (Z.leb_le _ _)) by lia. }
  by rewrite HD.
Qed.
End MessageSender.

Definition ex_messages : list ClientMessage :=
  [MkMessage 4 (MkConfirmation 1 7 Accepted); MkMessage 5 (MkConfirmation 2 3 InvalidPrice); MkMessage 4 (MkConfirmation 3 8 BadClientId)].
Definition ex_sender : MessageSender := MkSender (replicate GatewayMaxClients (MkBytes (replicate resend_capacity 0) 0)) [].

(** A socket that takes two bytes per call. *)
Lemma confirmations_reach_clients_witness :
  exists outs' s', send_messages ex_messages (replicate 27 (Sent 1)) ex_sender = Ret (outs', s') /\
    received_by 4 s' = [1; 0; 0; 0; 7; 0; 0; 0; 0; 3; 0; 0; 0; 8; 0; 0; 0; 8] /\ length (received_by 5 s') = 9%nat.
Proof.
  destruct (confirmations_reach_clients ex_messages (replicate 27 (Sent 1)) ex_sender) as (outs' & s' & H1 & _ & H3).
  - split; [reflexivity|]. by apply Forall_replicate.
  - by apply Forall_replicate.
  - vm_compute. lia.
  - unfold ex_messages. repeat (apply Forall_cons; split; [split; [split; vm_compute; congruence|unfold confirmation_codec; fields; [split; vm_compute; congruence..|enum_in]]|]). constructor.
  - exists outs', s'. split; [exact H1|]. rewrite !H3. split; vm_compute; reflexivity.
Defined.
