(* ===== verification/TradingSession.v ===== *)
(** The client's connections (src/market_client/include): the trading session of a
    client with its gateway (trading_session.hpp) and the one-shot balance query to
    the account service (client_details_poller.hpp).

    The operating system is a parameter: [send i n] is what the [i]-th call of
    [::send], for [n] bytes, returns, and incoming bytes are a list of pieces.  The
    other threads change [running_] at any time: [running i] is the value of the
    [i]-th load by the reader thread.  Logging and the 100 ms sleep are left out.

    Main results: what is sent is a prefix of the message, and the whole message if
    and only if [send_all] returns true; confirmations are read back whole and in
    order; the answer to a balance query is the account's published state. *)

From stdpp Require Import strings.
From S2P Require Import Prelude WireTypes Codec Buffers GatewayStates OrderRouter AccountStates AccountService WireFormats.

(** ** Sockets *)

Section Sockets.
Context (send : nat -> nat -> Z).

(** [sends] calls of [::send] made, and the bytes the kernel has taken. *)
Record Socket := MkSocket { sends : nat; wire : list Z }.

(** The loop of [send_all] from [sent] bytes; [data] is what is left. *)
Fixpoint send_loop (fuel : nat) (data : list Z) (k : Socket) : result (bool * Socket) :=
  match fuel with
  | O => Crash OutOfFuel
  | S fuel =>
      if (0 <? length data)%nat then
        let n := send (sends k) (length data) in
        if n <=? 0 then Ret (false, MkSocket (S (sends k)) (wire k))
        else send_loop fuel (drop (Z.to_nat n) data) (MkSocket (S (sends k)) (wire k ++ take (Z.to_nat n) data))
      else Ret (true, k)
  end.
Definition send_all (data : list Z) (k : Socket) : result (bool * Socket) := send_loop (S (length data)) data k.

(** Documented behaviour of [send]: it never takes more than it is given. *)
Definition send_contract : Prop := forall i n, send i n <= Z.of_nat n.

Lemma session_send_loop_ok fuel data k :
  send_contract -> (length data < fuel)%nat ->
  exists ok k' out rest, send_loop fuel data k = Ret (ok, k') /\ data = out ++ rest /\ wire k' = wire k ++ out /\
    (ok = true <-> rest = []).
Proof.
  intros HC. revert data k. induction fuel as [|fuel IH]; intros data k Hf; [lia|]. cbn [send_loop].
  destruct (Nat.ltb_spec 0 (length data)) as [Hl|Hl].
  - destruct (Z.leb_spec (send (sends k) (length data)) 0) as [Hn|Hn].
    + exists false. eexists _, [], data. split; [done|]. rewrite app_nil_r. split; [done|]. split; [done|].
      split; [done|]. intros ->. simpl in Hl. lia.
    + specialize (HC (sends k) (length data)). set (n := Z.to_nat (send (sends k) (length data))).
      destruct (IH (drop n data) (MkSocket (S (sends k)) (wire k ++ take n data))) as (ok & k' & out & rest & -> & Hd & Hw & Hok).
      { rewrite length_drop. lia. }
      exists ok, k', (take n data ++ out), rest. rewrite <- !app_assoc, <- Hd, take_drop. rewrite Hw. cbn [wire].
      by rewrite <- app_assoc.
  - assert (data = []) as -> by (destruct data; [done|simpl in Hl; lia]).
    exists true, k, [], []. by rewrite !app_nil_r.
Qed.

(** [send_all] returns, has sent a prefix of the message, and all of it if and only
    if it says so. *)
Lemma send_all_ok data k :
  send_contract ->
  exists ok k' out rest, send_all data k = Ret (ok, k') /\ data = out ++ rest /\ wire k' = wire k ++ out /\
    (ok = true <-> rest = []).
Proof. intros HC. apply session_send_loop_ok; [done|lia]. Qed.
End Sockets.

(** ** Blocking reads *)

(** The bytes that arrive, in pieces; [Closed] is the end of the stream or an
    error, which both end a read. *)
Inductive Piece := Chunk (b : Z) (bs : list Z) | Closed.

Definition recv_block (limit : nat) (ps : list Piece) : option (list Z * list Piece) :=
  match ps with
  | [] => None
  | Closed :: ps => Some ([], Closed :: ps)
  | Chunk b bs :: ps =>
      let l := b :: bs in
      Some (take limit l, match drop limit l with [] => ps | c :: cs => Chunk c cs :: ps end)
  end.

(** [None]: the thread is blocked in [recv]. *)
Fixpoint recv_loop (fuel len : nat) (got : list Z) (ps : list Piece) : option (option (list Z) * list Piece) :=
  match fuel with
  | O => None
  | S fuel =>
      if (length got <? len)%nat then
        match recv_block (len - length got) ps with
        | None => None
        | Some ([], ps) => Some (None, ps)
        | Some (x, ps) => recv_loop fuel len (got ++ x) ps
        end
      else Some (Some got, ps)
  end.
Definition recv_all (len : nat) (ps : list Piece) : option (option (list Z) * list Piece) := recv_loop (S len) len [] ps.

Fixpoint piece_bytes (ps : list Piece) : list Z :=
  match ps with [] => [] | Chunk b bs :: ps => b :: bs ++ piece_bytes ps | Closed :: _ => [] end.

Lemma recv_loop_ok fuel len got ps x rest :
  (len < fuel + length got)%nat -> (length got <= len)%nat -> piece_bytes ps = x ++ rest -> length x = (len - length got)%nat ->
  exists ps', recv_loop fuel len got ps = Some (Some (got ++ x), ps') /\ piece_bytes ps' = rest /\
    (Closed ∈ ps -> Closed ∈ ps').
Proof.
  revert got ps x. induction fuel as [|fuel IH]; intros got ps x Hf Hg Hb Hx; [lia|]. cbn [recv_loop].
  destruct (Nat.ltb_spec (length got) len) as [Hl|Hl].
  - destruct ps as [|[b bs|] ps]; [destruct x; simpl in *; (done || lia)| |destruct x; simpl in *; (done || lia)].
    cbn [recv_block piece_bytes] in *. set (l := b :: bs) in *. set (lim := (len - length got)%nat) in *.
    change (b :: bs ++ piece_bytes ps) with (l ++ piece_bytes ps) in Hb.
    assert (Hne : exists c cs, take lim l = c :: cs).
    { unfold l. destruct lim eqn:E; [lia|]. cbn [take]. eauto. }
    destruct Hne as (c & cs & Hc). rewrite Hc, <- Hc.
    assert (exists x2, x = take lim l ++ x2) as [x2 ->].
    { exists (take (lim - length l) (piece_bytes ps)). rewrite <- take_app, Hb. by rewrite take_app_le, take_ge by lia. }
    rewrite <- (take_drop lim l) in Hb at 1. rewrite <- !app_assoc in Hb. apply app_inv_head in Hb.
    rewrite length_app in Hx.
    destruct (IH (got ++ take lim l) (match drop lim l with [] => ps | c :: cs => Chunk c cs :: ps end) x2)
      as (ps' & HR & Hbs & Hcl).
    { rewrite length_app, Hc. simpl. lia. }
    { rewrite length_app, length_take. lia. }
    { rewrite <- Hb. by destruct (drop lim l). }
    { rewrite length_app. lia. }
    exists ps'. rewrite HR, <- app_assoc. split_and!; [done..|]. intros Hin. apply Hcl.
    apply elem_of_cons in Hin as [?|Hin]; [done|]. destruct (drop lim l); set_solver.
  - exists ps. assert (x = []) as -> by (destruct x; [done|simpl in Hx; lia]). rewrite app_nil_r. done.
Qed.

Lemma recv_all_ok len ps x rest :
  piece_bytes ps = x ++ rest -> length x = len ->
  exists ps', recv_all len ps = Some (Some x, ps') /\ piece_bytes ps' = rest /\ (Closed ∈ ps -> Closed ∈ ps').
Proof. intros Hb Hx. apply (recv_loop_ok (S len) len [] ps x rest); simpl; try lia; done. Qed.

(** ** The session *)

Inductive SessionState := Disconnected | Connecting | SConnected | Failed.
#[export] Instance SessionState_eq_dec : EqDecision SessionState.
Proof. solve_decision. Defined.

Record Session := MkSession {
  sfd : Z;                       (* std::atomic<int>, -1: none *)
  client_id : Z;                 (* uint32_t *)
  key : list Z;                  (* std::array<uint8_t, 32> *)
  sstate : SessionState;
  srunning : bool;
  reader_started : bool;         (* reader_thread_.joinable() *)
  slast_error : string;
  sock : Socket;
  confirmations : list Gateways.ClientConfirmation;   (* pushed to the queue *)
  shut : list Z;                 (* descriptors passed to shutdown() *)
  closed : list Z                (* descriptors passed to close() *)
}.
Definition session0 : Session :=
  MkSession (-1) 0 (replicate 32 0) Disconnected false false EmptyString (MkSocket 0 []) [] [] [].

Section Session.
Context (send : nat -> nat -> Z).
Implicit Types (s : Session).

Definition set_state (st : SessionState) s : Session :=
  MkSession (sfd s) (client_id s) (key s) st (srunning s) (reader_started s) (slast_error s) (sock s) (confirmations s)
    (shut s) (closed s).
Definition set_last_error (e : string) s : Session :=
  MkSession (sfd s) (client_id s) (key s) (sstate s) (srunning s) (reader_started s) e (sock s) (confirmations s)
    (shut s) (closed s).
Definition set_fd (fd : Z) s : Session :=
  MkSession fd (client_id s) (key s) (sstate s) (srunning s) (reader_started s) (slast_error s) (sock s) (confirmations s)
    (shut s) (closed s).
Definition set_sock (k : Socket) s : Session :=
  MkSession (sfd s) (client_id s) (key s) (sstate s) (srunning s) (reader_started s) (slast_error s) k (confirmations s)
    (shut s) (closed s).
Definition set_threads (run started : bool) s : Session :=
  MkSession (sfd s) (client_id s) (key s) (sstate s) run started (slast_error s) (sock s) (confirmations s)
    (shut s) (closed s).
Definition set_credentials (id : Z) (k : list Z) s : Session :=
  MkSession (sfd s) id k (sstate s) (srunning s) (reader_started s) (slast_error s) (sock s) (confirmations s)
    (shut s) (closed s).
Definition close_fd (fd : Z) s : Session :=
  MkSession (sfd s) (client_id s) (key s) (sstate s) (srunning s) (reader_started s) (slast_error s) (sock s) (confirmations s)
    (shut s) (closed s ++ [fd]).
Definition shutdown_fd (fd : Z) s : Session :=
  MkSession (sfd s) (client_id s) (key s) (sstate s) (srunning s) (reader_started s) (slast_error s) (sock s) (confirmations s)
    (shut s ++ [fd]) (closed s).
Definition push_confirmation (c : Gateways.ClientConfirmation) s : Session :=
  MkSession (sfd s) (client_id s) (key s) (sstate s) (srunning s) (reader_started s) (slast_error s) (sock s)
    (confirmations s ++ [c]) (shut s) (closed s).

Definition session_send (data : list Z) s : result (bool * Session) :=
  '(ok, k) ← send_all send data (sock s); Ret (ok, set_sock k s).

(** The failure path of [connect] once the socket exists. *)
Definition fail_connect (e : string) s : Session :=
  set_fd (-1) (close_fd (sfd s) (set_last_error e (set_state Failed s))).

(** What [socket()], [inet_pton()] and [connect()] return, and the text of the last
    error. *)
Definition connect (host : string) (id : Z) (k : list Z) (socket_ret pton_ret connect_ret : Z) (strerror : string) s
    : result Session :=
  let s := set_credentials id k (set_state Connecting s) in
  let s := set_fd socket_ret s in
  if socket_ret <? 0 then Ret (set_last_error "socket() failed" (set_state Failed s))
  else if negb (pton_ret =? 1) then Ret (fail_connect ("invalid host: " +:+ host) s)
  else if connect_ret <? 0 then Ret (fail_connect ("connect() failed: " +:+ strerror) s)
  else
    '(ok, s) ← session_send (enc Gateways.ClientRequest (MkAuthRequest char_A (client_id s) (key s))) s;
    if negb ok then Ret (fail_connect "failed sending ClientRequest" s)
    else Ret (set_threads true true (set_state SConnected s)).

(** [std::clamp(asset, 0, 65535)] *)
Definition clamp_asset (asset : Z) : Z := if asset <? 0 then 0 else if 65535 <? asset then 65535 else asset.

Definition new_order (local_order_id : Z) (type : OrderType) (side : OrderSide) (price amount asset : Z) s : Order :=
  MkOrder price local_order_id local_order_id (client_id s) amount (clamp_asset asset) type side EXECUTE.
Definition send_order (local_order_id : Z) (type : OrderType) (side : OrderSide) (price amount asset : Z) s
    : result (bool * Session) :=
  if negb (bool_decide (sstate s = SConnected)) then Ret (false, s)
  else session_send (enc Gateways.Order (new_order local_order_id type side price amount asset s)) s.

(** Price 0, type LIMIT and side BUY, whatever the order to cancel. *)
Definition new_cancel (local_order_id order_id_to_cancel asset : Z) s : Order :=
  MkOrder 0 local_order_id local_order_id (client_id s) order_id_to_cancel (clamp_asset asset) LIMIT BUY CANCEL_ORDER.
Definition send_cancel_order (local_order_id order_id_to_cancel asset : Z) s : result (bool * Session) :=
  if negb (bool_decide (sstate s = SConnected)) then Ret (false, s)
  else session_send (enc Gateways.Order (new_cancel local_order_id order_id_to_cancel asset s)) s.

(** The reader thread: [n] loads of [running_] made so far.  [None]: blocked. *)
Fixpoint read_loop (running : nat -> bool) (fuel n : nat) (ps : list Piece) s : option (list Piece * Session) :=
  match fuel with
  | O => None
  | S fuel =>
      if running n then
        match recv_all 9 ps with
        | None => None
        | Some (None, ps) =>
            Some (ps, if running (S n) then set_last_error "connection closed by peer" (set_state Failed s) else s)
        | Some (Some bytes, ps) =>
            match dec Gateways.OrderConfirmation bytes with
            | Some (conf, _) => read_loop running fuel (S n) ps (push_confirmation conf s)
            | None => None
            end
        end
      else Some (ps, s)
  end.
(** [fd_.exchange(-1)], then [close]. *)
Definition reader (running : nat -> bool) (fuel : nat) (ps : list Piece) s : option (list Piece * Session) :=
  match read_loop running fuel 0 ps s with
  | None => None
  | Some (ps, s) => Some (ps, if 0 <=? sfd s then close_fd (sfd s) (set_fd (-1) s) else s)
  end.

(** [disconnect] up to the join, and after it: the reader runs in between. *)
Definition disconnect_request s : result Session :=
  s ← (if bool_decide (sstate s = SConnected) && (0 <=? sfd s) then
         '(_, s) ← session_send (enc Gateways.ClientRequest (MkAuthRequest char_D (client_id s) (key s))) s; Ret s
       else Ret s);
  let s := set_threads false (reader_started s) s in
  Ret (if 0 <=? sfd s then shutdown_fd (sfd s) s else s).
Definition disconnect_joined s : Session := set_state Disconnected (set_threads (srunning s) false s).
End Session.

(** ** The reader *)

(** A read that cannot be completed before the end of the stream. *)
Lemma recv_loop_short fuel len got ps :
  (len < fuel + length got)%nat -> (length got + length (piece_bytes ps) < len)%nat -> Closed ∈ ps ->
  exists ps', recv_loop fuel len got ps = Some (None, ps').
Proof.
  revert got ps. induction fuel as [|fuel IH]; intros got ps Hf Hl Hc; [lia|]. cbn [recv_loop].
  rewrite (proj2 (Nat.ltb_lt _ _)) by lia. destruct ps as [|[b bs|] ps]; [by apply elem_of_nil in Hc| |cbn; by eexists].
  cbn [recv_block piece_bytes length] in *. rewrite length_app in Hl.
  rewrite take_ge, drop_ge by (cbn [length]; lia). apply IH; [rewrite length_app; simpl; lia|rewrite length_app; simpl; lia|].
  by apply elem_of_cons in Hc as [?|?].
Qed.

Lemma session_read_loop_ok running fuel n confs tl ps s :
  piece_bytes ps = (confs ≫= enc confirmation_codec) ++ tl -> Forall (fits confirmation_codec) confs ->
  (length tl < 9)%nat -> Closed ∈ ps -> (length confs < fuel)%nat ->
  exists m ps' s', read_loop running fuel n ps s = Some (ps', s') /\
    confirmations s' = confirmations s ++ (client_confirmation <$> take m confs) /\
    sfd s' = sfd s /\ closed s' = closed s /\
    ((forall i, running i = true) -> (length confs <= m)%nat /\ sstate s' = Failed).
Proof.
  revert fuel n ps s. induction confs as [|c confs IH]; intros [|fuel] n ps s Hb HF Ht Hc Hf; cbn [length] in Hf; try lia; cbn [read_loop].
  all: destruct (running n) eqn:Hn; [|exists 0%nat, ps, s; cbn; rewrite app_nil_r; split_and!; try done;
    intros Hr; by rewrite Hr in Hn].
  - cbn in Hb. destruct (recv_loop_short 10 9 [] ps) as [ps' HR]; [simpl; lia|rewrite Hb; simpl; lia|done|].
    unfold recv_all. rewrite HR. exists 0%nat. eexists _, _. split; [done|]. cbn. rewrite app_nil_r.
    destruct (running (S n)) eqn:Hn'; split_and!; try done. intros Hr. by rewrite Hr in Hn'.
  - apply Forall_cons in HF as [Hfit HF]. rewrite bind_cons, <- app_assoc in Hb.
    destruct (recv_all_ok 9 ps _ _ Hb (enc_length confirmation_codec c Hfit)) as (ps1 & -> & Hb1 & Hc1).
    rewrite <- (app_nil_r (enc confirmation_codec c)), confirmation_read by done.
    destruct (IH fuel (S n) ps1 (push_confirmation (client_confirmation c) s) Hb1 HF Ht (Hc1 Hc) ltac:(lia))
      as (m & ps' & s' & HR & E1 & E2 & E3 & E4).
    exists (S m), ps', s'. split; [exact HR|]. rewrite E1. cbn [take fmap list_fmap confirmations push_confirmation].
    rewrite <- app_assoc. split_and!; try done. intros Hr. destruct (E4 Hr). split; [cbn [length]; lia|done].
Qed.

(** C33: confirmations are read whole and in order, in whatever pieces they arrive,
    until the session is told to stop or the connection ends; a message cut short
    is never delivered, the reader always returns, and it closes the descriptor
    exactly once. *)
Theorem reader_delivers_confirmations running fuel confs tl ps s :
  piece_bytes ps = (confs ≫= enc confirmation_codec) ++ tl -> Forall (fits confirmation_codec) confs ->
  (length tl < 9)%nat -> Closed ∈ ps -> (length confs < fuel)%nat -> 0 <= sfd s ->
  exists m ps' s', reader running fuel ps s = Some (ps', s') /\
    confirmations s' = confirmations s ++ (client_confirmation <$> take m confs) /\
    sfd s' = -1 /\ closed s' = closed s ++ [sfd s] /\
    ((forall i, running i = true) -> (length confs <= m)%nat /\ sstate s' = Failed).
Proof.
  intros Hb HF Ht Hc Hf Hfd. destruct (session_read_loop_ok running fuel 0 confs tl ps s Hb HF Ht Hc Hf) as (m & ps' & s' & HR & E1 & E2 & E3 & E4).
  unfold reader. rewrite HR, E2. rewrite (proj2 (Z.leb_le 0 (sfd s))) by done. exists m. eexists _, _. split; [done|]. cbn.
  rewrite E3. done.
Qed.

(** Two confirmations and three bytes of a third, in pieces of 5, 9 and 7 bytes. *)
Definition ex_confs : list OrderConfirmation := [MkConfirmation 1 7 Accepted; MkConfirmation 2 8 InsufficientFunds].
Definition ex_pieces : list Piece := [Chunk 1 [0; 0; 0; 7]; Chunk 0 [0; 0; 0; 2; 0; 0; 0; 8]; Chunk 0 [0; 0; 1; 3; 0; 0]; Closed].

Lemma reader_delivers_confirmations_witness :
  exists ps' s', reader (fun _ => true) 3 ex_pieces (set_fd 4 session0) = Some (ps', s') /\
    confirmations s' = client_confirmation <$> ex_confs /\ closed s' = [4] /\ sstate s' = Failed.
Proof.
  destruct (reader_delivers_confirmations (fun _ => true) 3 ex_confs [3; 0; 0] ex_pieces (set_fd 4 session0))
    as (m & ps' & s' & HR & E1 & _ & E3 & E4); [reflexivity| |simpl; lia|unfold ex_pieces; set_solver|simpl; lia|simpl; lia|].
  { repeat (apply Forall_cons; split; [unfold confirmation_codec; fields; [split; vm_compute; congruence..|enum_in]|]). constructor. }
  destruct (E4 ltac:(done)) as [Hm Hs]. exists ps', s'. split_and!; try done. rewrite E1, take_ge by done. done.
Defined.

(** ** Balance queries *)

Definition CDP_MAX_POSITIONS : nat := 16.

Record ClientBalanceSnapshot := MkBalanceSnapshot {
  b_client_id : Z;
  b_ok : bool;
  b_error : string;
  b_positions : list (Z * Z * Z)      (* asset, confirmed, attempt *)
}.
Definition query_failed (id : Z) (e : string) : ClientBalanceSnapshot := MkBalanceSnapshot id false e [].

Definition query_positions (resp : ClientAccountSnapshot) : list (Z * Z * Z) :=
  (fun i => (nth i (SnAssetId resp) 0, nth i (SnConfirmed resp) 0, nth i (SnAttempt resp) 0)) <$> seq 0 CDP_MAX_POSITIONS.

(** One query: the result, the socket after it, and the next value of the static
    counter [next_client_fd]; [None]: blocked in [recv]. *)
Definition query (send : nat -> nat -> Z) (cdp_host : string) (id : Z) (k : list Z) (gateway_id : Z)
    (socket_ret pton_ret connect_ret : Z) (strerror : string) (ps : list Piece) (next_client_fd : Z)
    : result (option ClientBalanceSnapshot * list Z * Z) :=
  let client_fd := next_client_fd in
  let next := u32 (next_client_fd + 1) in
  if socket_ret <? 0 then Ret (Some (query_failed id "socket() failed"), [], next)
  else if negb (pton_ret =? 1) then Ret (Some (query_failed id ("invalid CDP host: " +:+ cdp_host)), [], next)
  else if connect_ret <? 0 then Ret (Some (query_failed id ("connect() to CDP failed: " +:+ strerror)), [], next)
  else
    '(ok, c) ← send_all send (enc Gateways.GatewayConnection gateway_id) (MkSocket 0 []);
    if negb ok then Ret (Some (query_failed id "failed sending GatewayConnection"), wire c, next)
    else
      '(ok, c) ← send_all send (enc Gateways.GatewayRequest (MkRequest char_A id k client_fd gateway_id)) c;
      if negb ok then Ret (Some (query_failed id "failed sending GatewayRequest"), wire c, next)
      else
        let codec := Gateways.ClientRequestResponse CDP_MAX_POSITIONS in
        match recv_all (width codec) ps with
        | None => Ret (None, wire c, next)
        | Some (None, _) =>
            Ret (Some (query_failed id "no/short response from CDP (check MaxPositions)"), wire c, next)
        | Some (Some bytes, _) =>
            match dec codec bytes with
            | None => Ret (None, wire c, next)
            | Some (resp, _) =>
                if negb (SnStatus resp =? char_A) then
                  Ret (Some (query_failed id (if SnStatus resp =? char_C then "wrong credentials"
                                              else "refused (check GatewayId is authorized for this client)")), wire c, next)
                else Ret (Some (MkBalanceSnapshot id true EmptyString (query_positions resp)), wire c, next)
            end
        end.

(** An account whose fields are in the ranges of their types. *)
Definition account_in_range (s : AccountState) : Prop :=
  fits (array MaxPositions (uint 2)) (AAssetId (ameta s)) /\ fits (array MaxPositions sint64) (AConfirmed s) /\
  fits (array MaxPositions sint64) (AAttempt s).

(** The positions of an account. *)
Definition account_positions (s : AccountState) : list (Z * Z * Z) :=
  zip (zip (AAssetId (ameta s)) (AConfirmed s)) (AAttempt s).

Lemma nth_seq_zip (a b c : list Z) :
  length a = length b -> length a = length c ->
  (fun i => (nth i a 0, nth i b 0, nth i c 0)) <$> seq 0 (length a) = zip (zip a b) c.
Proof.
  revert b c. induction a as [|x a IH]; intros [|y b] [|z c] H1 H2; try (done || (simpl in *; lia)).
  cbn [length]. rewrite <- cons_seq, fmap_cons. cbn [nth zip zip_with]. f_equal.
  rewrite <- fmap_S_seq, <- list_fmap_compose. apply (IH b c); simpl in *; lia.
Qed.

Lemma answer_fits sha256 s m resp :
  account_in_range s -> in_u32 (QClientId m) -> in_u32 (QClientFd m) -> answer sha256 s m = Some resp -> fits snapshot_codec resp.
Proof.
  intros (H1 & H2 & H3) Hid Hfd. unfold answer.
  assert (HZ : forall st, 0 <= st < 2 ^ 8 ->
    fits snapshot_codec (MkSnapshot st 0 (QClientId m) (QClientFd m) (vzero MaxPositions) (vzero MaxPositions) (vzero MaxPositions))).
  { intros st Hst. unfold snapshot_codec. cbn [fits struct pair_codec fst snd SnStatus SnSequenceId SnClientId SnClientFd SnAssetId SnConfirmed SnAttempt].
    split; [split; [split; [split; [split; [split|]|]|]|]|].
    all: try (split; [done|apply Forall_replicate; split; vm_compute; congruence]); try done. }
  destruct (RequestType m =? char_A); [|done]. destruct (_ && _); [intros [= <-]; by apply HZ|].
  destruct (negb _); [intros [= <-]; by apply HZ|]. intros [= <-]. unfold snapshot_codec.
  cbn [fits struct pair_codec fst snd SnStatus SnSequenceId SnClientId SnClientFd SnAssetId SnConfirmed SnAttempt].
  split; [split; [split; [split; [split; [split|]|]|]|]|]; done.
Qed.

Lemma send_all_whole send data c :
  send_contract send -> (forall i n, (0 < n)%nat -> 0 < send i n) ->
  exists n, send_all send data c = Ret (true, MkSocket n (wire c ++ data)).
Proof.
  intros HC Hs. assert (HL : forall fuel data c, (length data < fuel)%nat ->
    exists n, send_loop send fuel data c = Ret (true, MkSocket n (wire c ++ data))).
  { clear data c. induction fuel as [|fuel IH]; intros data c Hf; [lia|]. cbn [send_loop].
    destruct (Nat.ltb_spec 0 (length data)) as [Hl|Hl].
    - specialize (Hs (sends c) _ Hl). specialize (HC (sends c) (length data)). rewrite (proj2 (Z.leb_gt _ _)) by done.
      destruct (IH (drop (Z.to_nat (send (sends c) (length data))) data)
        (MkSocket (S (sends c)) (wire c ++ take (Z.to_nat (send (sends c) (length data))) data))) as [n ->].
      { rewrite length_drop. lia. }
      exists n. cbn [wire]. by rewrite <- app_assoc, take_drop.
    - destruct data; [|simpl in Hl; lia]. exists (sends c). rewrite app_nil_r. by destruct c. }
  apply HL. lia.
Qed.

(** C34: a balance query returns the account.  With a network that takes and
    delivers every byte, in any pieces, the query sends the handshake and the
    request that the service decodes, and the snapshot it returns is the published
    state of the account, position by position, if and only if the gateway is
    authorised (or is number 10, which the service always lets through) and the key
    matches; otherwise it is an error. *)
Theorem balance_query_roundtrip send sha256 host id k gw err ps nfd s resp rest :
  send_contract send -> (forall i n, (0 < n)%nat -> 0 < send i n) ->
  account_in_range s -> in_u32 id -> in_u32 nfd -> 0 <= gw < 2 ^ 16 -> fits (array 32 (uint 1)) k ->
  answer sha256 s (MkRequest char_A id k nfd gw) = Some resp -> piece_bytes ps = enc snapshot_codec resp ++ rest ->
  exists snap bytes, query send host id k gw 3 1 0 err ps nfd = Ret (Some snap, bytes, u32 (nfd + 1)) /\
    (exists bytes', dec handshake_codec bytes = Some (gw, bytes') /\
       dec routed_request_codec bytes' = Some (MkRequest char_A id k nfd gw, [])) /\
    (b_ok snap = true <-> (Authorized (ameta s) = gw \/ gw = 10) /\ CheckKey sha256 k s = true) /\
    (b_ok snap = true -> b_positions snap = account_positions s).
Proof.
  intros HC Hs Hrange Hid Hnfd Hgw Hk HA Hps. unfold query. change (3 <? 0) with false. change (negb (1 =? 1)) with false.
  change (0 <? 0) with false. cbv iota.
  destruct (send_all_whole send (enc Gateways.GatewayConnection gw) (MkSocket 0 []) HC Hs) as [n1 ->]. cbn [mbind result_bind negb wire app].
  set (m := MkRequest char_A id k nfd gw) in *.
  destruct (send_all_whole send (enc Gateways.GatewayRequest m) (MkSocket n1 (enc Gateways.GatewayConnection gw)) HC Hs) as [n2 ->].
  cbn [mbind result_bind negb wire app].
  assert (Hfit : fits snapshot_codec resp) by exact (answer_fits sha256 s m resp Hrange Hid Hnfd HA).
  assert (Hm : fits routed_request_codec m).
  { unfold routed_request_codec. cbn [fits struct pair_codec fst snd]. split; [split; [split; [split|]|]|]; try done. }
  destruct (recv_all_ok (width (Gateways.ClientRequestResponse CDP_MAX_POSITIONS)) ps _ _ Hps) as (ps' & -> & _).
  { by rewrite (enc_length snapshot_codec). }
  rewrite <- (app_nil_r (enc snapshot_codec resp)), (dec_enc snapshot_codec resp [] Hfit : dec (Gateways.ClientRequestResponse CDP_MAX_POSITIONS) _ = _).
  assert (HD : exists bytes', dec handshake_codec (enc Gateways.GatewayConnection gw ++ enc Gateways.GatewayRequest m) = Some (gw, bytes') /\
    dec routed_request_codec bytes' = Some (m, [])).
  { exists (enc Gateways.GatewayRequest m). split; [by apply (dec_enc handshake_codec)|].
    rewrite <- (app_nil_r (enc Gateways.GatewayRequest m)). by apply (dec_enc routed_request_codec). }
  unfold answer in HA. cbn [RequestType QGatewayId QKey QClientId QClientFd m] in HA. change (char_A =? char_A) with true in HA. cbv iota in HA.
  destruct (Z.eqb_spec (Authorized (ameta s)) gw) as [Ha|Ha], (Z.eqb_spec gw 10) as [H10|H10], (CheckKey sha256 k s) eqn:HK;
    cbn [negb andb] in HA; injection HA as <-; cbn [SnStatus]; eexists _, _; (split; [reflexivity|]); (split; [exact HD|]).
  all: cbn [b_ok b_positions]; try (split; [split; [discriminate|intros [[?|?] ?]; congruence]|discriminate]).
  all: split; [split; [intros _; split; [tauto|done]|done]|]; intros _; unfold query_positions, account_positions;
    cbn [SnAssetId SnConfirmed SnAttempt]; destruct Hrange as ([L1 _] & [L2 _] & [L3 _]).
  all: change CDP_MAX_POSITIONS with MaxPositions; rewrite <- L1 at 1; apply nth_seq_zip; congruence.
Qed.

(** A network that takes and delivers one byte at a time. *)
Definition byte_send (_ n : nat) : Z := Z.min 1 (Z.of_nat n).
Definition byte_pieces (bs : list Z) : list Piece := (fun b => Chunk b []) <$> bs.
Definition ex_balance : AccountState :=
  MkAccount (MkMeta 1 (replicate 32 5) (Z.of_nat <$> seq 0 16) 3 (-1)) (replicate MaxPositions 900) (replicate MaxPositions (-7)).
Definition ex_answer : ClientAccountSnapshot :=
  MkSnapshot char_A 0 1 42 (Z.of_nat <$> seq 0 16) (replicate MaxPositions 900) (replicate MaxPositions (-7)).

Lemma balance_query_roundtrip_witness :
  exists snap bytes, query byte_send "127.0.0.1" 1 (replicate 32 5) 3 3 1 0 "" (byte_pieces (enc snapshot_codec ex_answer)) 42
      = Ret (Some snap, bytes, 43) /\ b_ok snap = true /\ b_positions snap = account_positions ex_balance.
Proof.
  destruct (balance_query_roundtrip byte_send (fun k => k) "127.0.0.1" 1 (replicate 32 5) 3 ""
    (byte_pieces (enc snapshot_codec ex_answer)) 42 ex_balance ex_answer []) as (snap & bytes & HQ & _ & Hok & Hpos).
  - intros i n. unfold byte_send. lia.
  - intros i n Hn. unfold byte_send. lia.
  - split_and!; (split; [reflexivity|]); [|apply Forall_replicate; split; vm_compute; congruence..].
    repeat (apply Forall_cons; split; [split; vm_compute; congruence|]). constructor.
  - split; vm_compute; congruence.
  - split; vm_compute; congruence.
  - lia.
  - split; [reflexivity|]. apply Forall_replicate. split; vm_compute; congruence.
  - reflexivity.
  - vm_compute. reflexivity.
  - assert (HO : b_ok snap = true) by (apply Hok; split; [left; reflexivity|reflexivity]).
    exists snap, bytes. split_and!; [exact HQ|exact HO|by apply Hpos].
Defined.
