(* ===== verification/System.v ===== *)
(** The services together: the reports of a matching engine applied by the
    account service, the account service's answer installed by a gateway, and the
    gateway's risk check of the next order.

    Main results: the reports of an engine's run, applied by the account service,
    conserve every asset over all accounts; scenarios in which the services,
    each behaving as specified above, disagree on what a client may still spend. *)

From S2P Require Import Prelude WireTypes BookSpec Interfaces BidAsk Engine GatewayStates OrderRouter.
From S2P Require Import GatewayWriter AccountStates AccountService.
From S2P Require FlatHashMap.

(** ** Conservation

    What an account holds of an asset, and all accounts together: the confirmed
    amounts of the published states. *)
Fixpoint held (a : Z) (ids amounts : list Z) : Z :=
  match ids, amounts with
  | id :: ids, x :: amounts => (if id =? a then x else 0) + held a ids amounts
  | _, _ => 0
  end.
Definition account_held (a : Z) (t : AccountSlot) : Z :=
  held a (AAssetId (ameta (acc_GetClientState t))) (AConfirmed (acc_GetClientState t)).
Definition accounts_held (a : Z) (cs : AccountStates) : Z := zsum (account_held a <$> cs).

(** The account service's thread on the batches its consumer pops. *)
Fixpoint acc_Handle_batches (bs : list (list OrderStateReport)) (cs : AccountStates) : result AccountStates :=
  match bs with
  | [] => Ret cs
  | b :: bs => cs ← acc_Handle_batch b cs; acc_Handle_batches bs cs
  end.

(** An account no batch is being applied to. *)
Definition settled (t : AccountSlot) : Prop := exists s q, acc_rep t (MkAView s q s q).

(** A delta has one position to go to, unless it is zero. *)
Definition covers (ids : list Z) (a d : Z) : Prop := d = 0 \/ length (filter (eq a) ids) = 1%nat.
Definition acc_ids (t : AccountSlot) : list Z := AAssetId (ameta (acc_GetClientState t)).
Definition covered (ids : list Z) (r : OrderStateReport) : Prop :=
  covers ids (BoughtAssetId r) (BoughtDelta r) /\ covers ids (SoldAssetId r) (SoldDelta r).
Definition creditable (cs : AccountStates) (r : OrderStateReport) : Prop :=
  0 <= RClientId r /\ exists ids, (acc_ids <$> cs) !! Z.to_nat (RClientId r) = Some ids /\ covered ids r.
Definition accounts_ok (cs : AccountStates) : Prop :=
  Forall (fun t => settled t /\ length (acc_ids t) = MaxPositions) cs.

#[global] Instance covered_dec ids r : Decision (covered ids r).
Proof. unfold covered, covers. apply _. Defined.
#[global] Instance creditable_dec cs r : Decision (creditable cs r).
Proof.
  refine (match (acc_ids <$> cs) !! Z.to_nat (RClientId r) as o
            return (acc_ids <$> cs) !! Z.to_nat (RClientId r) = o -> Decision (creditable cs r) with
          | Some ids => fun E => cast_if_and (decide (0 <= RClientId r)) (decide (covered ids r))
          | None => fun E => right _
          end eq_refl); unfold creditable; rewrite E; naive_solver.
Defined.

Lemma held_none a ids id x v : id ∉ ids \/ a <> id -> held a ids (add_asset ids id x v) = held a ids v.
Proof.
  revert v. induction ids as [|i ids IH]; intros [|y v] H; try done. cbn [add_asset held]. rewrite IH by set_solver.
  destruct (Z.eqb_spec i id), (Z.eqb_spec i a); subst; try done. set_solver.
Qed.

Lemma held_zero a ids id v : cong64 (held a ids (add_asset ids id 0 v)) (held a ids v).
Proof.
  revert v. induction ids as [|i ids IH]; intros [|y v]; try done. cbn [add_asset held]. rewrite IH.
  apply cong64_add; [|done]. destruct (i =? id), (i =? a); try done. rewrite cong64_s64. by rewrite Z.add_0_r.
Qed.

Lemma held_add a ids id x v :
  (length ids <= length v)%nat -> covers ids id x ->
  cong64 (held a ids (add_asset ids id x v)) (held a ids v + if id =? a then x else 0).
Proof.
  intros Hl [->|Hc]. { rewrite held_zero. destruct (id =? a); by rewrite Z.add_0_r. }
  destruct (Z.eqb_spec id a) as [<-|Hne]; [|rewrite held_none, Z.add_0_r by auto; done].
  revert v Hl Hc. induction ids as [|i ids IH]; intros [|y v] Hl Hc; try (done || (simpl in Hl; lia)).
  cbn [add_asset held]. rewrite filter_cons in Hc. destruct (decide (id = i)) as [<-|Hne].
  - rewrite Z.eqb_refl, held_none.
    + rewrite cong64_s64. replace (y + x + held id ids v) with (y + held id ids v + x) by lia. done.
    + left. intros Hin. cbn [length] in Hc. injection Hc as Hc.
      apply nil_length_inv in Hc. assert (Hf : id ∈ filter (eq id) ids) by (apply list_elem_of_filter; done).
      rewrite Hc in Hf. by apply elem_of_nil in Hf.
  - destruct (Z.eqb_spec i id); [congruence|]. cbn [length] in Hl. rewrite IH by (done || lia). rewrite !Z.add_0_l. done.
Qed.

Definition own (id : Z) (rs : list OrderStateReport) : list OrderStateReport := filter (fun r => RClientId r = id) rs.

Lemma client_ops_held a id rs v :
  let e := aedit v in
  let ids := AAssetId (ameta e) in
  (length ids <= length (AConfirmed e))%nat ->
  Forall (covered ids) (own id rs) ->
  let e' := aedit (aview_run (acc_client_ops id rs) v) in
  ameta e' = ameta e /\ cong64 (held a ids (AConfirmed e')) (held a ids (AConfirmed e) + total_flow a (own id rs)).
Proof.
  revert v. induction rs as [|r rs IH]; intros v e ids Hl Hc.
  { split; [done|]. cbn. by rewrite Z.add_0_r. }
  unfold own in *. rewrite filter_cons in Hc |- *. cbn [acc_client_ops]. unfold aview_run. rewrite foldl_app.
  destruct (decide (RClientId r = id)) as [He|He]; [rewrite (proj2 (Z.eqb_eq _ _) He)|rewrite (proj2 (Z.eqb_neq _ _) He)];
    [|exact (IH v Hl Hc)].
  apply Forall_cons in Hc as [[Hb Hs] Hc].
  set (v1 := foldl _ v (acc_report_ops r)).
  change (foldl _ v1 (acc_client_ops id rs)) with (aview_run (acc_client_ops id rs) v1).
  assert (Hm : ameta (aedit v1) = ameta e) by reflexivity.
  assert (HC : AConfirmed (aedit v1) = add_asset ids (SoldAssetId r) (SoldDelta r)
                 (add_asset ids (BoughtAssetId r) (BoughtDelta r) (AConfirmed e))) by reflexivity.
  destruct (IH v1) as [IH1 IH2]; [rewrite Hm, HC, !add_asset_length; done|by rewrite Hm|].
  split; [by rewrite IH1|]. rewrite Hm in IH2. fold ids in IH2. rewrite IH2, HC.
  rewrite !held_add by (rewrite ?add_asset_length; done). 
  set (l := filter _ rs). change (total_flow a (r :: l)) with (flow a r + total_flow a l). unfold flow.
  apply eq_subrelation; [apply _|]. lia.
Qed.

Lemma client_ops_none id rs : (forall r, r ∈ rs -> RClientId r <> id) -> acc_client_ops id rs = [].
Proof.
  induction rs as [|r rs IH]; intros H; [done|]. cbn [acc_client_ops]. rewrite IH by set_solver.
  destruct (Z.eqb_spec (RClientId r) id); [|done]. exfalso. by apply (H r); [set_solver|].
Qed.

(** A settled account after a batch: settled again, with the deltas of its reports. *)
Lemma batch_state id rs t s q :
  acc_rep t (MkAView s q s q) ->
  exists q', acc_rep (acc_run (acc_batch_ops id rs) t)
    (let s' := aedit (aview_run (acc_client_ops id rs) (MkAView s q s q)) in MkAView s' q' s' q').
Proof.
  intros HR. set (v := MkAView s q s q).
  assert (HR' : acc_rep (acc_run (acc_batch_ops id rs) t) (aview_run (acc_batch_ops id rs) v)).
  { apply acc_run_rep; [|exact HR]. unfold acc_batch_ops. apply Forall_app. split; [|destruct (existsb _ _); repeat constructor].
    clear. induction rs as [|r rs IH]; [constructor|]. cbn [acc_client_ops]. apply Forall_app. split; [|exact IH].
    destruct (_ =? _); repeat constructor. }
  unfold acc_batch_ops in HR' |- *. destruct (existsb _ rs) eqn:Hex.
  - unfold aview_run in HR'. rewrite foldl_app in HR'. by eexists.
  - rewrite app_nil_r in HR' |- *. exists q. rewrite client_ops_none in HR' |- *; [exact HR'|..].
    all: intros r Hr He; apply not_true_iff_false in Hex; apply Hex, existsb_exists; exists r.
    all: split; [by apply list_elem_of_In|by apply Z.eqb_eq].
Qed.

Lemma settled_published t s q q' : acc_rep t (MkAView s q s q') -> acc_GetClientState t = s.
Proof. intros HR. exact (ar_pub _ _ HR). Qed.

Lemma batch_account_held a id rs t :
  settled t ->
  length (acc_ids t) = MaxPositions ->
  Forall (covered (acc_ids t)) (own id rs) ->
  let t' := acc_run (acc_batch_ops id rs) t in
  settled t' /\ acc_ids t' = acc_ids t /\
  cong64 (account_held a t') (account_held a t + total_flow a (own id rs)).
Proof.
  intros (s & q & HR) Hl Hc t'. destruct (batch_state id rs t s q HR) as [q' HR']. cbv zeta in HR'.
  pose proof (settled_published _ _ _ _ HR) as Hp. pose proof (settled_published _ _ _ _ HR') as Hp'.
  unfold account_held, acc_ids in *. fold t' in Hp', HR'. rewrite Hp in *. rewrite Hp'.
  destruct (client_ops_held a id rs (MkAView s q s q)) as [Hm Hh]; cbn [aedit] in *; try done.
  { rewrite Hl. destruct (am_pub _ _ _ _ _ _ (ar_confirmed _ _ HR)) as [E _]. cbn [apub] in E. by rewrite E. }
  rewrite Hm. split_and!; try done. by eexists _, _.
Qed.

Lemma own_flows a rs n :
  Forall (fun r => 0 <= RClientId r < Z.of_nat n) rs ->
  zsum ((fun i => total_flow a (own (Z.of_nat i) rs)) <$> seq 0 n) = total_flow a rs.
Proof.
  induction 1 as [|r rs Hr _ IH]; [by apply zsum_zero|].
  change (total_flow a (r :: rs)) with (flow a r + total_flow a rs). rewrite <- IH.
  rewrite <- (zsum_single (flow a r) (Z.to_nat (RClientId r)) n) at 1 by lia. rewrite <- zsum_add. f_equal.
  apply list_fmap_ext. intros _ i _. unfold own. rewrite filter_cons.
  destruct (decide (RClientId r = Z.of_nat i)), (decide (i = Z.to_nat (RClientId r))); (done || lia).
Qed.

(** A batch moves the accounts by what its reports announce. *)
Lemma batch_accounts_held rs cs :
  accounts_ok cs -> Forall (creditable cs) rs ->
  exists cs', acc_Handle_batch rs cs = Ret cs' /\ accounts_ok cs' /\ acc_ids <$> cs' = acc_ids <$> cs /\
    forall a, cong64 (accounts_held a cs') (accounts_held a cs + total_flow a rs).
Proof.
  intros Hok Hcr. unfold accounts_ok in *. rewrite Forall_lookup in Hok.
  assert (Hk : Forall (known cs) rs).
  { eapply Forall_impl; [exact Hcr|]. intros r (H0 & ids & Hl & _). apply lookup_lt_Some in Hl.
    rewrite length_fmap in Hl. unfold known. lia. }
  destruct (acc_Handle_batch_ok rs cs Hk) as (cs' & HB & Hcs). exists cs'. split; [done|].
  assert (Hi : forall i, cs' !! i = acc_run (acc_batch_ops (Z.of_nat i) rs) <$> cs !! i).
  { intros i. specialize (Hcs (Z.of_nat i)). rewrite Nat2Z.id in Hcs. apply Hcs. lia. }
  assert (HL : length cs' = length cs).
  { pose proof (Hi (length cs)) as H1. pose proof (Hi (length cs')) as H2.
    rewrite (lookup_ge_None_2 cs) in H1 by done. apply lookup_ge_None_1 in H1.
    rewrite (lookup_ge_None_2 cs') in H2 by done. symmetry in H2. apply fmap_None, lookup_ge_None_1 in H2. lia. }
  assert (Hone : forall i t, cs !! i = Some t -> forall a,
    let t' := acc_run (acc_batch_ops (Z.of_nat i) rs) t in
    settled t' /\ acc_ids t' = acc_ids t /\ cong64 (account_held a t') (account_held a t + total_flow a (own (Z.of_nat i) rs))).
  { intros i t Ht a. destruct (Hok _ _ Ht) as [Hs Hlen].
    apply batch_account_held; try done. apply Forall_forall. intros r [He Hr]%list_elem_of_filter.
    rewrite Forall_forall in Hcr. destruct (Hcr r Hr) as (H0 & ids & Hl & Hc). rewrite He, Nat2Z.id, list_lookup_fmap, Ht in Hl. by injection Hl as <-. }
  split_and!.
  - apply Forall_lookup. intros i t'. rewrite Hi. destruct (cs !! i) as [t|] eqn:Ht; [|done]. intros [= <-].
    destruct (Hone i t Ht 0) as (Hs & Hids & _). split; [done|]. rewrite Hids. by destruct (Hok _ _ Ht).
  - apply list_eq. intros i. rewrite !list_lookup_fmap, Hi. destruct (cs !! i) as [t|] eqn:Ht; [|done].
    cbn. f_equal. by destruct (Hone i t Ht 0) as (_ & Hids & _).
  - intros a. unfold accounts_held. rewrite (zsum_lookup _ cs'), (zsum_lookup _ cs), HL.
    rewrite <- (own_flows a rs (length cs)) by exact Hk. rewrite <- zsum_add. apply zsum_cong.
    intros i Hin%elem_of_seq. rewrite Hi. destruct (lookup_lt_is_Some_2 cs i) as [t Ht]; [lia|]. rewrite Ht.
    by destruct (Hone i t Ht a) as (_ & _ & Hh).
Qed.

#[global] Instance total_flow_perm a : Proper ((≡ₚ) ==> eq) (total_flow a).
Proof. intros rs rs' HP. induction HP; cbn; unfold total_flow in *; lia. Qed.

Lemma batches_accounts_held bs cs :
  accounts_ok cs -> Forall (creditable cs) (concat bs) ->
  exists cs', acc_Handle_batches bs cs = Ret cs' /\ accounts_ok cs' /\
    forall a, cong64 (accounts_held a cs') (accounts_held a cs + total_flow a (concat bs)).
Proof.
  revert cs. induction bs as [|b bs IH]; intros cs Hok Hcr.
  { exists cs. split_and!; try done. intros a. cbn. by rewrite Z.add_0_r. }
  cbn [concat] in Hcr. apply Forall_app in Hcr as [Hb Hcr]. cbn [acc_Handle_batches].
  destruct (batch_accounts_held b cs Hok Hb) as (cs1 & -> & Hok1 & Hids & Hh). cbn [mbind result_bind].
  destruct (IH cs1 Hok1) as (cs2 & -> & Hok2 & Hh2); [unfold creditable in *; by rewrite Hids|].
  exists cs2. split_and!; try done. intros a. cbn [concat]. rewrite Hh2, Hh, total_flow_app. by rewrite Z.add_assoc.
Qed.

(** The reports of a run, whatever their numbers, batches and order. *)
Lemma run_conserves a reqs n batches cs :
  concat batches ≡ₚ number n (spec_run a reqs empty_book).1.2 -> accounts_ok cs -> Forall (creditable cs) (concat batches) ->
  exists cs', acc_Handle_batches batches cs = Ret cs' /\ accounts_ok cs' /\
    forall asset, cong64 (accounts_held asset cs') (accounts_held asset cs).
Proof.
  intros HP Hok Hcr. destruct (batches_accounts_held batches cs Hok Hcr) as (cs' & HB & Hok' & Hh).
  exists cs'. split_and!; try done. intros asset. rewrite Hh, HP.
  pose proof (spec_run_balanced a reqs empty_book asset) as [k Hk]. rewrite number_flow, Hk. by exists k.
Qed.

(** Trading neither creates nor destroys anything.  The reports of a run of the
    matching engine, split in batches and reordered in any way, are applied by the
    account service without a fault, and for every asset, cash included, the total
    held by all accounts is what it was, modulo the 64 bits of the amounts, provided
    that every client the reports name has an account with one position per asset it
    trades. *)
Theorem accounts_conserve_assets z renv benv a p rs bs sb sa reqs :
  sizes_ok z -> (forall n, renv n = BidAsk.Accepted) -> (forall n, benv n = BidAsk.Accepted) ->
  valid_run z (u32 a) reqs empty_book ->
  exists s0 s, engine_init z a p rs bs sb sa = Ret s0 /\ engine_run z renv benv reqs s0 = Ret s /\
    forall batches cs,
      concat batches ≡ₚ BidAsk.Sent (OutgoingOrders s) -> accounts_ok cs -> Forall (creditable cs) (concat batches) ->
      exists cs', acc_Handle_batches batches cs = Ret cs' /\ accounts_ok cs' /\
        forall asset, cong64 (accounts_held asset cs') (accounts_held asset cs).
Proof.
  intros Hz H1 H2 Hv. destruct (engine_run_ok z renv benv a p rs bs sb sa reqs Hz H1 H2 Hv) as (s0 & s & G1 & G2 & G3).
  exists s0, s. split_and!; try done. intros batches cs HP. apply (run_conserves (u32 a) reqs (u32 rs)).
  destruct (spec_run (u32 a) reqs empty_book) as [[b reps] ups]. destruct G3 as (_ & HS & _). cbn [fst snd]. by rewrite <- HS.
Qed.

(** ** Scenarios *)

(** The reports of a run of the engine of asset 3. *)
Definition engine_reports (reqs : list Order) : result (list OrderStateReport) :=
  s0 ← engine_init demo_sizes 3 100 0 0 1 2;
  s ← engine_run demo_sizes accept_all accept_all reqs s0;
  Ret (BidAsk.Sent (OutgoingOrders s)).

(** An account with cash and a number of asset 3. *)
Definition funded (id cash units : Z) : AccountState :=
  MkAccount (MkMeta id (replicate 32 5) (0 :: 3 :: replicate 14 999) 3 (-1))
    (cash :: units :: vzero 14) (vzero MaxPositions).
Definition accounts (cash units : Z) : AccountStates :=
  [aslot_init account_init; aslot_init (funded 1 cash 0); aslot_init (funded 2 0 units)].

(** Ten accounts; three of them trade, and their reports arrive in two batches. *)
Definition ten_accounts : AccountStates := replicate 10 (aslot_init (funded 0 5000 100)).

Lemma ten_accounts_ok : accounts_ok ten_accounts.
Proof.
  apply Forall_replicate. split; [|reflexivity]. exists (funded 0 5000 100), 0. apply acc_rep_init.
  all: split; [reflexivity|]. all: refine (bool_decide_unpack _ _). all: vm_compute; exact I.
Qed.

Lemma accounts_conserve_assets_witness :
  exists rs cs', engine_reports demo_requests = Ret rs /\
    acc_Handle_batches [drop 3 rs; take 3 rs] ten_accounts = Ret cs' /\
    cong64 (accounts_held 0 cs') 50000 /\ cong64 (accounts_held 3 cs') 1000.
Proof.
  destruct (accounts_conserve_assets demo_sizes accept_all accept_all 3 100 0 0 1 2 demo_requests)
    as (s0 & s & G1 & G2 & HC); [exact demo_sizes_ok|done|done|exact demo_valid|].
  assert (HE : engine_reports demo_requests = Ret (BidAsk.Sent (OutgoingOrders s))).
  { unfold engine_reports. rewrite G1. cbn [mbind result_bind]. by rewrite G2. }
  exists (BidAsk.Sent (OutgoingOrders s)).
  destruct (HC [drop 3 (BidAsk.Sent (OutgoingOrders s)); take 3 (BidAsk.Sent (OutgoingOrders s))] ten_accounts)
    as (cs' & HB & _ & Hh).
  - cbn [concat]. rewrite app_nil_r, Permutation_app_comm. by rewrite take_drop.
  - exact ten_accounts_ok.
  - clear - HE. revert HE. generalize (BidAsk.Sent (OutgoingOrders s)). intros l HE.
    vm_compute in HE. injection HE as <-. refine (bool_decide_unpack _ _). vm_compute. exact I.
  - exists cs'. split_and!; [done|done|exact (Hh 0)|exact (Hh 3)].
Defined.

Abbreviation Writer := (ClientStatesWriter (M := FlatHashMap.FlatHashMap (V := Z))).
Abbreviation gw_ops := (fhm_ops 0 1).

Definition gateway0 : Writer := writer_init (states_init 8) (FlatHashMap.fhm_empty 0 2).

(** Client 1 logs in through gateway 3, on descriptor 4. *)
Definition login (accs : AccountStates) (w : Writer) : result Writer :=
  c ← acc_on 1 acc_GetClientState accs;
  match answer (fun k => k) c (MkRequest char_A 1 (replicate 32 5) 4 3) with
  | Some sn => Handle_response (ops := gw_ops) sn w
  | None => Ret w
  end.

(** The risk check of orders of client 1, and what it leaves. *)
Fixpoint check_all (s : ClientState) (orders : list Order) (la : list Z) (ls : Z)
    : list OrderConfirmationStatus * list Z * Z :=
  match orders with
  | [] => ([], la, ls)
  | o :: orders =>
      let '(st, la, ls) := CheckOrderRisk s la ls o 1 in
      let '(sts, la, ls) := check_all s orders la ls in (st :: sts, la, ls)
  end.

Definition client1 (w : Writer) : result ClientState := on_client 4 GetClientState (States w).

(** What client 1 has, and the check of [next], after logging in, sending
    [orders], and the gateway handling the reports of the engine's run on
    [reqs]. *)
Definition after_session (cash : Z) (orders reqs : list Order) (next : Order)
    : result (Z * Z * list OrderConfirmationStatus) :=
  w ← login (accounts cash 10) gateway0;
  s ← client1 w;
  let '(sts, la, ls) := check_all s orders attempts_Clear 0 in
  rs ← engine_reports reqs;
  w ← Handle_batch (ops := gw_ops) rs w;
  s ← client1 w;
  let '(st, _, _) := CheckOrderRisk s la ls next 1 in
  Ret (GetAssetConfirmed 0 s, s64 (GetAssetAttempt 0 s + nth 0 la 0), sts ++ [st]).

(** The same client after the account service handled the reports and the client
    logged in again. *)
Definition after_relogin (cash : Z) (reqs : list Order) (next : Order) : result (Z * Z * OrderConfirmationStatus) :=
  rs ← engine_reports reqs;
  accs ← acc_Handle_batch rs (accounts cash 10);
  w ← login accs gateway0;
  s ← client1 w;
  let '(st, _, _) := CheckOrderRisk s attempts_Clear 0 next 1 in
  Ret (GetAssetConfirmed 0 s, GetAssetAttempt 0 s, st).

(** Cash spent by an order that trades on arrival can be spent again.  The
    engine reports no reservation for such an order but releases one with every
    fill, so that the account ends with a negative attempt; after the next login
    the gateway accepts an order worth the whole initial balance from a client
    whose confirmed cash is 0. *)
Theorem spent_cash_returns_after_login :
  after_relogin 1000 [demo_sell 1 2 100 10; demo_buy 2 1 100 10] (demo_buy 3 1 100 10)
  = Ret (0, -1000, Accepted).
Proof. vm_compute. reflexivity. Qed.

(** The same with the gateway's own copy of the reports: it handled them before
    the client logs in again, so that they are in its buffer. *)
Definition after_shared_relogin (cash : Z) (reqs : list Order) : result (Z * Z * (Z * Z)) :=
  rs ← engine_reports reqs;
  accs ← acc_Handle_batch rs (accounts cash 10);
  w ← Handle_batch (ops := gw_ops) rs gateway0;
  w ← login accs w;
  s ← client1 w;
  held ← acc_on 1 (fun t => let a := acc_GetClientState t in (nth 0 (AConfirmed a) 0, nth 1 (AConfirmed a) 0)) accs;
  Ret (GetAssetConfirmed 0 s, GetAssetConfirmed 3 s, held).

(** Trades an account already has are counted again by the gateway at the next
    login: the answer of the account service carries the sequence number 0,
    whatever reports the account includes, and the gateway replays every report it
    has buffered since.  Here client 1 buys 4 for 400: the account has 600 and 4, the
    gateway lets it trade on 200 and 8.  Another order comes first, so that its
    report has the number 0. *)
Theorem relogin_counts_trade_twice :
  after_shared_relogin 1000 [demo_sell 1 2 200 1; demo_buy 2 1 100 4; demo_sell 3 2 100 4] = Ret (200, 8, (600, 4)).
Proof. vm_compute. reflexivity. Qed.

(** Price improvement stays reserved: a buy at 110 filled at 100 reserved 1100 and
    releases 1000, so that the 100 left cannot be spent in the session. *)
Lemma price_improvement_stays_reserved :
  after_session 1100 [demo_buy 2 1 110 10] [demo_sell 1 2 100 10; demo_buy 2 1 110 10] (demo_buy 3 1 100 1)
  = Ret (100, 100, [Accepted; InsufficientFunds]).
Proof. vm_compute. reflexivity. Qed.

(** A cancelled order reserves its amount a second time: the report of the
    cancellation carries the reservation with the sign of an addition. *)
Lemma cancel_reserves_twice :
  after_session 1000 [demo_buy 2 1 100 10] [demo_buy 2 1 100 10; demo_cancel 1 2 BUY] (demo_buy 3 1 100 1)
  = Ret (1000, 2000, [Accepted; InsufficientFunds]).
Proof. vm_compute. reflexivity. Qed.

(** When an order rests first and trades at its price, the session is consistent:
    what was reserved is released, and what is left can be spent. *)
Lemma resting_order_releases_reservation :
  after_session 1500 [demo_buy 2 1 100 10] [demo_buy 2 1 100 10; demo_sell 1 2 100 10] (demo_buy 3 1 100 5)
  = Ret (500, 0, [Accepted; Accepted]).
Proof. vm_compute. reflexivity. Qed.
