(* ===== verification/Dashboard.v ===== *)
(** The dashboard of the market client (src/market_client): the state its render
    thread keeps (include/app_state.hpp), the queues that feed it
    (include/mpsc_queue.hpp), the packet handlers of the two multicast feeds and
    the draining of the queues once per frame (src/main.cpp).

    [double] is a parameter [D]: receive times are only stored here; the candles, which
    compute with them, are in MarketCharts.v.  Ordered maps are [gmap]s with [map_begin] for
    [begin()->first]; a 32-bit [State] with no enumerator has no counterpart
    here, and a packet that holds one is read as [None].

    Main results: fed with the updates of a matching engine, in whatever packets
    and frames, the dashboard shows the depth of every level of the engine's book
    and its best prices; and it prints exactly the trades of the run. *)

From stdpp Require Import strings.
From Stdlib Require Import Sorting.Sorted.
From S2P Require Import Prelude WireTypes Codec BookSpec Feed Engine GatewayStates AccountStates AccountService WireFormats System.
From S2P Require SkipList BidAsk BidAskProofs.

(** ** MpscQueue

    Every operation holds the mutex; the queue is its contents, oldest first. *)
Module Mpsc.
Section Queue.
Context {T : Type}.

Definition push (x : T) (q : list T) : list T := q ++ [x].

(** The loop of [drain_all]: [out] is the vector under construction. *)
Fixpoint drain_loop (fuel : nat) (q out : list T) : option (list T * list T) :=
  match fuel with
  | O => None
  | S fuel => match q with [] => Some (out, []) | x :: q => drain_loop fuel q (out ++ [x]) end
  end.
Definition drain_all (q : list T) : option (list T * list T) := drain_loop (S (length q)) q [].

Definition try_pop (q : list T) : option T * list T :=
  match q with [] => (None, []) | x :: q => (Some x, q) end.

(** The producers and the render thread take turns; [got] is what the latter has
    taken out. *)
Inductive event := EPush (producer : nat) (x : T) | EDrain | EPop.
Definition step (e : event) (s : list T * list T) : option (list T * list T) :=
  let '(q, got) := s in
  match e with
  | EPush _ x => Some (push x q, got)
  | EDrain => '(out, q) ← drain_all q; Some (q, got ++ out)
  | EPop => let '(x, q) := try_pop q in Some (q, got ++ option_list x)
  end.
Fixpoint run (es : list event) (s : list T * list T) : option (list T * list T) :=
  match es with [] => Some s | e :: es => s ← step e s; run es s end.

Definition pushed (es : list event) : list T := omap (fun e => match e with EPush _ x => Some x | _ => None end) es.

Lemma drain_loop_ok q out fuel : (length q < fuel)%nat -> drain_loop fuel q out = Some (out ++ q, []).
Proof.
  revert out fuel. induction q as [|x q IH]; intros out [|fuel] Hf; cbn [length] in Hf; try lia; cbn [drain_loop].
  - by rewrite app_nil_r.
  - rewrite IH by lia. by rewrite <- app_assoc.
Qed.
Lemma drain_all_ok q : drain_all q = Some (q, []).
Proof. unfold drain_all. by rewrite drain_loop_ok by lia. Qed.

(** Nothing is lost, duplicated or reordered: what was taken out and what is still
    queued are the items pushed, in the order of the pushes. *)
Lemma run_fifo es q got : exists q' got', run es (q, got) = Some (q', got') /\ got' ++ q' = got ++ q ++ pushed es.
Proof.
  revert q got. induction es as [|e es IH]; intros q got; cbn [run].
  { exists q, got. by rewrite app_nil_r. }
  destruct e as [p x| |]; cbn [step]; rewrite ?drain_all_ok; cbn [mbind option_bind].
  - destruct (IH (push x q) got) as (q' & got' & -> & He). exists q', got'. split; [done|]. rewrite He.
    unfold push, pushed. cbn [omap list_omap]. by rewrite <- !app_assoc.
  - destruct (IH [] (got ++ q)) as (q' & got' & -> & He). exists q', got'. split; [done|]. rewrite He. by rewrite <- app_assoc.
  - destruct q as [|x q]; cbn [try_pop option_list mbind option_bind].
    + destruct (IH [] (got ++ option_list None)) as (q' & got' & -> & He). exists q', got'. split; [done|]. rewrite He. by rewrite app_nil_r.
    + destruct (IH q (got ++ option_list (Some x))) as (q' & got' & -> & He). exists q', got'. split; [done|]. rewrite He. by rewrite <- app_assoc.
Qed.
End Queue.
End Mpsc.

(** ** Order book *)

(** [begin()->first] of a [std::map] with comparator [before]. *)
Definition map_begin {V} (before : Z -> Z -> bool) (m : gmap Z V) : option Z :=
  foldr (fun k acc => match acc with
                      | None => Some k
                      | Some j => if before k j then Some k else Some j
                      end) None (map_to_list m).*1.

Record ClientBook := MkClientBook { cbids : gmap Z Z; casks : gmap Z Z }.
Definition client_book0 : ClientBook := MkClientBook ∅ ∅.

(** The body of [apply], written out for each of the two maps in the source: the
    change of the depth, and the map. *)
Definition apply_level (price depth : Z) (m : gmap Z Z) : Z * gmap Z Z :=
  let old_depth := default 0 (m !! price) in
  (s64 (depth - old_depth), if depth =? 0 then delete price m else <[price := depth]> m).

Definition apply (u : OrderBookUpdate) (b : ClientBook) : Z * ClientBook :=
  if USide u =? ORDER_BOOK_UPDATE_BUY then
    let '(d, m) := apply_level (UPrice u) (Depth u) (cbids b) in (d, MkClientBook m (casks b))
  else
    let '(d, m) := apply_level (UPrice u) (Depth u) (casks b) in (d, MkClientBook (cbids b) m).

(** ** Trades and history *)

Record TradePrint D := MkPrint { p_time : D; p_price : Z; p_qty : Z }.
Record QuoteSample D := MkQuote { q_time : D; q_bid : Z; q_ask : Z }.
Arguments MkPrint {D}. Arguments p_time {D}. Arguments p_price {D}. Arguments p_qty {D}.
Arguments MkQuote {D}. Arguments q_time {D}. Arguments q_bid {D}. Arguments q_ask {D}.

(** Asset, price and quantity, if [r] is the buyer's leg of a fill.  The division
    is that of [int64_t]. *)
Definition decode_trade (r : OrderStateReport) : option (Z * Z * Z) :=
  if negb (bool_decide (State r = FILL)) && negb (bool_decide (State r = PARTIAL_FILL)) then None
  else if (BoughtAssetId r =? 0) || negb (SoldAssetId r =? 0) || (BoughtDelta r <=? 0) || (0 <=? SoldDelta r) then None
  else Some (BoughtAssetId r, s64 (Z.quot (s64 (- SoldDelta r)) (BoughtDelta r)), u32 (BoughtDelta r)).

(** ** The state of the render thread *)

Definition kMaxTrades : Z := 200000.
Definition kMaxQuotes : Z := 200000.
Definition kMaxTradeFeed : Z := 200000.

Record MatchingEngineInfo := MkEngineInfo { me_addr : string; me_asset_id : Z; me_status : string }.
Record AddrStatusInfo := MkAddrStatus { as_addr : string; as_status : string }.
Inductive EtcdResourceKind := KMatchingEngine | KClientDetailsProvider | KSocketGateway | KUnknown.
Inductive EtcdEventKind := ESnapshot | EPut | EDelete.
Record EtcdEvent := MkEtcdEvent {
  ev_kind : EtcdEventKind;
  ev_resource_kind : EtcdResourceKind;
  ev_key : string;
  ev_id : option Z;
  ev_raw_value : string;
  ev_matching_engine : option MatchingEngineInfo;
  ev_addr_status : option AddrStatusInfo
}.

Record LiveBalance := MkBalance {
  positions : gmap Z (Z * Z);      (* asset -> (confirmed, attempt) *)
  has_snapshot : bool;
  last_error : string
}.
Definition balance0 : LiveBalance := MkBalance ∅ false EmptyString.

(** [positions[asset_id].first += delta]: the element is created if absent. *)
Definition apply_confirmed_delta (asset delta : Z) (b : LiveBalance) : LiveBalance :=
  let '(c, a) := default (0, 0) (positions b !! asset) in
  MkBalance (<[asset := (s64 (c + delta), a)]> (positions b)) (has_snapshot b) (last_error b).
Definition apply_attempt_delta (asset delta : Z) (b : LiveBalance) : LiveBalance :=
  let '(c, a) := default (0, 0) (positions b !! asset) in
  MkBalance (<[asset := (c, s64 (a + delta))]> (positions b)) (has_snapshot b) (last_error b).

(** The entry of the feed is the report without its timestamps, which are 0 in
    the default build. *)
Abbreviation TradeFeedEntry := OrderStateReport.

Section AppState.
Context {D : Type}.

Record AssetMarketHistory := MkHistory { trades : list (TradePrint D); quotes : list (QuoteSample D) }.
Definition history0 : AssetMarketHistory := MkHistory [] [].

(** [push_back], then [pop_front] when over the cap. *)
Definition push_capped {A} (cap : Z) (x : A) (l : list A) : list A :=
  let l := l ++ [x] in if cap <? Z.of_nat (length l) then tail l else l.

Definition add_trade (time : D) (price qty : Z) (h : AssetMarketHistory) : AssetMarketHistory :=
  MkHistory (push_capped kMaxTrades (MkPrint time price qty) (trades h)) (quotes h).
Definition add_quote (time : D) (bid ask : Z) (h : AssetMarketHistory) : AssetMarketHistory :=
  match last (quotes h) with
  | Some b => if (q_bid b =? bid) && (q_ask b =? ask) then h
              else MkHistory (trades h) (push_capped kMaxQuotes (MkQuote time bid ask) (quotes h))
  | None => MkHistory (trades h) (push_capped kMaxQuotes (MkQuote time bid ask) (quotes h))
  end.

Record AppState := MkApp {
  order_books : gmap Z ClientBook;
  market_history : gmap Z AssetMarketHistory;
  book_updates_received : Z;     (* uint64_t *)
  order_reports_received : Z;    (* uint64_t *)
  trades_decoded : Z;            (* uint64_t *)
  trade_feed : list TradeFeedEntry;
  etcd_entries : gmap string string;
  matching_engines : gmap string MatchingEngineInfo;
  cdp_endpoints : gmap string AddrStatusInfo;
  socket_gateways : gmap Z AddrStatusInfo;
  balances : gmap Z LiveBalance
}.
Definition app0 : AppState := MkApp ∅ ∅ 0 0 0 [] ∅ ∅ ∅ ∅ ∅.

Implicit Types (s : AppState).

Definition etcd_entries_touch (ev : EtcdEvent) s : AppState :=
  let es := match ev_kind ev with
            | EDelete => delete (ev_key ev) (etcd_entries s)
            | _ => <[ev_key ev := ev_raw_value ev]> (etcd_entries s)
            end in
  MkApp (order_books s) (market_history s) (book_updates_received s) (order_reports_received s) (trades_decoded s)
    (trade_feed s) es (matching_engines s) (cdp_endpoints s) (socket_gateways s) (balances s).

Definition set_services (me : gmap string MatchingEngineInfo) (cdp : gmap string AddrStatusInfo)
    (gw : gmap Z AddrStatusInfo) s : AppState :=
  MkApp (order_books s) (market_history s) (book_updates_received s) (order_reports_received s) (trades_decoded s)
    (trade_feed s) (etcd_entries s) me cdp gw (balances s).

(** What an event does to the table of its kind: erase, replace, or nothing when
    the value did not parse. *)
Definition etcd_put {K V} `{Countable K} (kind : EtcdEventKind) (k : K) (v : option V) (m : gmap K V) : gmap K V :=
  match kind with
  | EDelete => delete k m
  | _ => match v with Some v => <[k := v]> m | None => m end
  end.

Definition apply_etcd_event (ev : EtcdEvent) s : AppState :=
  let s := etcd_entries_touch ev s in
  match ev_resource_kind ev with
  | KMatchingEngine =>
      set_services (etcd_put (ev_kind ev) (ev_key ev) (ev_matching_engine ev) (matching_engines s))
        (cdp_endpoints s) (socket_gateways s) s
  | KClientDetailsProvider =>
      set_services (matching_engines s)
        (etcd_put (ev_kind ev) (ev_key ev) (ev_addr_status ev) (cdp_endpoints s)) (socket_gateways s) s
  | KSocketGateway =>
      match ev_id ev with
      | None => s
      | Some id =>
          set_services (matching_engines s) (cdp_endpoints s)
            (etcd_put (ev_kind ev) id (ev_addr_status ev) (socket_gateways s)) s
      end
  | KUnknown => s
  end.

Definition set_feed (feed : list TradeFeedEntry) s : AppState :=
  MkApp (order_books s) (market_history s) (book_updates_received s) (order_reports_received s) (trades_decoded s)
    feed (etcd_entries s) (matching_engines s) (cdp_endpoints s) (socket_gateways s) (balances s).
Definition set_balances (bs : gmap Z LiveBalance) s : AppState :=
  MkApp (order_books s) (market_history s) (book_updates_received s) (order_reports_received s) (trades_decoded s)
    (trade_feed s) (etcd_entries s) (matching_engines s) (cdp_endpoints s) (socket_gateways s) bs.

Definition push_trade (e : TradeFeedEntry) s : AppState :=
  let feed := trade_feed s ++ [e] in
  set_feed (if kMaxTradeFeed <? Z.of_nat (length feed) then drop (Z.to_nat (Z.of_nat (length feed) - kMaxTradeFeed)) feed
            else feed) s.

(** [0] stands for an empty side. *)
Definition best_bid (b : ClientBook) : Z := default 0 (map_begin (fun k j => j <? k) (cbids b)).
Definition best_ask (b : ClientBook) : Z := default 0 (map_begin Z.ltb (casks b)).

Definition record_book_update (u : OrderBookUpdate) (recv_time : D) s : AppState :=
  let book := (apply u (default client_book0 (order_books s !! UAssetId u))).2 in
  let h := add_quote recv_time (best_bid book) (best_ask book) (default history0 (market_history s !! UAssetId u)) in
  MkApp (<[UAssetId u := book]> (order_books s)) (<[UAssetId u := h]> (market_history s))
    (u64 (book_updates_received s + 1)) (order_reports_received s) (trades_decoded s)
    (trade_feed s) (etcd_entries s) (matching_engines s) (cdp_endpoints s) (socket_gateways s) (balances s).

Definition record_order_report (r : OrderStateReport) (recv_time : D) s : AppState :=
  match decode_trade r with
  | None =>
      MkApp (order_books s) (market_history s) (book_updates_received s) (u64 (order_reports_received s + 1))
        (trades_decoded s) (trade_feed s) (etcd_entries s) (matching_engines s) (cdp_endpoints s) (socket_gateways s)
        (balances s)
  | Some (asset, price, qty) =>
      let h := add_trade recv_time price qty (default history0 (market_history s !! asset)) in
      MkApp (order_books s) (<[asset := h]> (market_history s)) (book_updates_received s)
        (u64 (order_reports_received s + 1)) (u64 (trades_decoded s + 1)) (trade_feed s) (etcd_entries s)
        (matching_engines s) (cdp_endpoints s) (socket_gateways s) (balances s)
  end.

Definition balance_report (r : OrderStateReport) (b : LiveBalance) : LiveBalance :=
  apply_attempt_delta (SoldAssetId r) (SoldAttemptDelta r)
    (apply_confirmed_delta (SoldAssetId r) (SoldDelta r)
       (apply_confirmed_delta (BoughtAssetId r) (BoughtDelta r) b)).
Definition apply_trade_to_balance (r : OrderStateReport) s : AppState :=
  match balances s !! RClientId r with
  | None => s
  | Some b => set_balances (<[RClientId r := balance_report r b]> (balances s)) s
  end.

(** ** Packets and frames *)

(** The handlers of the two feeds: the messages of a packet, each stamped with the
    time of the packet; a packet of another size is dropped. *)
Definition on_packet {A} (c : Codec A) (recv_time : D) (data : list Z) : option (list (D * A)) :=
  let len := length data in
  if (len =? 0)%nat || negb (len mod width c =? 0)%nat then Some []
  else match dec_n c (len / width c)%nat data with
       | Some (l, _) => Some ((fun m => (recv_time, m)) <$> l)
       | None => None
       end.
Definition on_report_packet : D -> list Z -> option (list (D * OrderStateReport)) := on_packet Gateways.OrderStateReport.
Definition on_update_packet : D -> list Z -> option (list (D * OrderBookUpdate)) := on_packet Gateways.OrderBookUpdate.

Definition frame_report s (e : D * OrderStateReport) : AppState :=
  let '(recv_time, r) := e in
  record_order_report r recv_time (apply_trade_to_balance r (push_trade r s)).
Definition frame_update s (e : D * OrderBookUpdate) : AppState :=
  let '(recv_time, u) := e in
  if UAssetId u =? 0 then s else record_book_update u recv_time s.

(** The part of a frame that drains the queues into the state. *)
Definition frame (etcd : list EtcdEvent) (reports : list (D * OrderStateReport)) (updates : list (D * OrderBookUpdate)) s
    : AppState :=
  let s := foldl (fun s ev => apply_etcd_event ev s) s etcd in
  let s := foldl frame_report s reports in
  foldl frame_update s updates.

End AppState.
Arguments AssetMarketHistory : clear implicits.
Arguments AppState : clear implicits.

(** ** The book view *)

Section Books.
Context {D : Type}.
Implicit Types (s : AppState D).

Definition book_of (a : Z) s : ClientBook := default client_book0 (order_books s !! a).
Definition book_maps (b : ClientBook) : gmap Z Z * gmap Z Z := (cbids b, casks b).

(** The frames of a session: what each one drains from the three queues. *)
Definition Frame : Type := list EtcdEvent * list (D * OrderStateReport) * list (D * OrderBookUpdate).
Definition run_frames (fs : list Frame) s : AppState D := foldl (fun s '(e, r, u) => frame e r u s) s fs.
Definition frame_updates (fs : list Frame) : list (D * OrderBookUpdate) := fs ≫= snd.
Definition frame_reports (fs : list Frame) : list (D * OrderStateReport) := fs ≫= (fun f => f.1.2).

Lemma apply_feed u b : in_u32 (Depth u) -> book_maps (apply u b).2 = feed (book_maps b) u.
Proof.
  intros Hd. unfold apply, feed, apply_level, set_level. rewrite (u32_small (Depth u)) by done.
  by destruct (USide u =? ORDER_BOOK_UPDATE_BUY).
Qed.

Lemma etcd_books evs s : order_books (foldl (fun s ev => apply_etcd_event ev s) s evs) = order_books s.
Proof.
  revert s. induction evs as [|ev evs IH]; intros s; [done|]. cbn [foldl]. rewrite IH. unfold apply_etcd_event.
  destruct (ev_resource_kind ev); try done. by destruct (ev_id ev).
Qed.

Lemma reports_books rs s : order_books (foldl frame_report s rs) = order_books s.
Proof.
  revert s. induction rs as [|[t r] rs IH]; intros s; [done|]. cbn [foldl]. rewrite IH. cbn [frame_report].
  unfold record_order_report, apply_trade_to_balance.
  destruct (decode_trade r) as [[[? ?] ?]|]; by destruct (balances (push_trade r s) !! RClientId r).
Qed.

Lemma update_book a s e :
  a <> 0 -> book_of a (frame_update s e) = if UAssetId e.2 =? a then (apply e.2 (book_of a s)).2 else book_of a s.
Proof.
  intros Ha. destruct e as [t u]. cbn [frame_update snd]. unfold book_of.
  destruct (Z.eqb_spec (UAssetId u) 0) as [E0|]; destruct (Z.eqb_spec (UAssetId u) a) as [E|]; [congruence|done|..]; cbn [record_book_update order_books].
  - by rewrite <- E, lookup_insert_eq.
  - by rewrite lookup_insert_ne.
Qed.

(** The book of an asset depends on the updates of that asset alone, in order. *)
Lemma frames_book a fs s :
  a <> 0 ->
  book_of a (run_frames fs s) =
  foldl (fun b u => (apply u b).2) (book_of a s) (filter (fun u => UAssetId u = a) (frame_updates fs).*2).
Proof.
  intros Ha. revert s. induction fs as [|[[es rs] us] fs IH]; intros s; [done|].
  unfold run_frames, frame_updates in *. cbn [foldl]. rewrite bind_cons, fmap_app, filter_app, foldl_app, IH. f_equal.
  unfold frame. cbn [snd]. 
  assert (H0 : book_of a (foldl frame_report (foldl (fun s ev => apply_etcd_event ev s) s es) rs) = book_of a s).
  { unfold book_of. by rewrite reports_books, etcd_books. }
  rewrite <- H0. generalize (foldl frame_report (foldl (fun s ev => apply_etcd_event ev s) s es) rs). clear s H0.
  induction us as [|e us IHu]; intros s; [done|]. cbn [foldl fmap list_fmap]. rewrite IHu, update_book, filter_cons by done.
  case_decide as He; [by rewrite (proj2 (Z.eqb_eq _ _) He)|by rewrite (proj2 (Z.eqb_neq _ _) He)].
Qed.

Lemma apply_feeds us b :
  Forall (fun u => in_u32 (Depth u)) us -> book_maps (foldl (fun b u => (apply u b).2) b us) = foldl feed (book_maps b) us.
Proof.
  intros HF. revert b. induction HF as [|u us Hu _ IH]; intros b; [done|]. cbn [foldl]. by rewrite IH, apply_feed.
Qed.

(** Packets: each holds the bytes of at least one message. *)
Lemma on_packet_enc {A} (c c' : Codec A) (t : D) l :
  agree c c' -> (0 < width c)%nat -> l <> [] -> Forall (fits c) l ->
  on_packet c' t (l ≫= enc c) = Some ((fun m => (t, m)) <$> l).
Proof.
  intros [Hw Hag] H0 Hl HF. unfold on_packet. rewrite (enc_stream_length c) by done. rewrite Hw in *.
  rewrite Nat.div_mul, Nat.Div0.mod_mul by lia.
  destruct (Nat.eqb_spec (length l * width c') 0) as [Hz|_]; [destruct l; [done|simpl in Hz; lia]|]. cbn [orb negb Nat.eqb].
  assert (Hd : dec_n c' (length l) (l ≫= enc c) = Some (l, [])).
  { clear Hl. induction HF as [|a l Ha HF IH]; [done|]. cbn [length dec_n]. rewrite bind_cons, Hag by done.
    cbn [mbind option_bind]. by rewrite IH. }
  by rewrite Hd.
Qed.

(** What the receiver threads queue for packets of [us], received at [t]. *)
Definition received {A} (handler : D -> list Z -> option (list (D * A))) (c : Codec A) (packets : list (D * list A))
    : option (list (D * A)) :=
  (fun l => concat l) <$> mapM (fun p : D * list A => handler p.1 (p.2 ≫= enc c)) packets.
Definition stamped {A} (packets : list (D * list A)) : list (D * A) := packets ≫= (fun p => (fun m => (p.1, m)) <$> p.2).

Lemma received_stamped {A} (c c' : Codec A) packets :
  agree c c' -> (0 < width c)%nat -> Forall (fun p => p.2 <> [] /\ Forall (fits c) p.2) packets ->
  received (on_packet c') c packets = Some (stamped packets).
Proof.
  intros Hag H0 HF. unfold received, stamped.
  assert (HM : mapM (fun p : D * list A => on_packet c' p.1 (p.2 ≫= enc c)) packets =
               Some ((fun p : D * list A => (fun m => (p.1, m)) <$> p.2) <$> packets)).
  { induction HF as [|[t l] ps [Hl Hf] _ IH]; [done|]. cbn [mapM fmap list_fmap]. rewrite (on_packet_enc c c') by done.
    cbn [mbind option_bind]. by rewrite IH. }
  rewrite HM. cbn. f_equal. clear. induction packets as [|p ps IH]; [done|]. rewrite bind_cons. cbn. by rewrite IH.
Qed.

Lemma stamped_msgs {A} (packets : list (D * list A)) : (stamped packets).*2 = concat packets.*2.
Proof.
  unfold stamped. induction packets as [|[t l] ps IH]; [done|]. rewrite bind_cons, fmap_app, IH. cbn [fmap list_fmap concat snd].
  f_equal. rewrite <- list_fmap_compose. by apply list_fmap_id.
Qed.

End Books.

(** *** Best prices *)

Lemma map_begin_least {V} asc (m : gmap Z V) p :
  is_Some (m !! p) -> (forall k, is_Some (m !! k) -> k = p \/ SkipList.comp asc p k = true) ->
  map_begin (SkipList.comp asc) m = Some p.
Proof.
  intros [v Hp] Hle. unfold map_begin.
  assert (Hin : p ∈ (map_to_list m).*1).
  { apply list_elem_of_fmap. exists (p, v). split; [done|]. by apply elem_of_map_to_list. }
  assert (Hall : forall k, k ∈ (map_to_list m).*1 -> k = p \/ SkipList.comp asc p k = true).
  { intros k ([k' v'] & -> & Hk)%list_elem_of_fmap. apply Hle. apply elem_of_map_to_list in Hk. by exists v'. }
  revert Hin Hall. generalize (map_to_list m).*1. intros l. clear m v Hp Hle. intros Hin Hall.
  assert (Hnone : forall l, (forall k, k ∈ l -> k = p \/ SkipList.comp asc p k = true) ->
    let r := foldr (fun k acc => match acc with None => Some k | Some j => if SkipList.comp asc k j then Some k else Some j end) None l in
    (p ∈ l -> r = Some p) /\ (forall j, r = Some j -> j = p \/ SkipList.comp asc p j = true)).
  { clear. induction l as [|k l IH]; intros Hall; cbn [foldr]; [split; [set_solver|done]|].
    destruct IH as [I1 I2]; [set_solver|]. cbv zeta in I1, I2 |- *. set (r := foldr _ None l) in *.
    assert (Hk : k = p \/ SkipList.comp asc p k = true) by (apply Hall; set_solver).
    destruct r as [j|].
    - specialize (I2 j eq_refl). destruct (SkipList.comp asc k j) eqn:Ec.
      + split; [|intros j' [= <-]; done]. intros [->|Hl]%elem_of_cons; [done|]. specialize (I1 Hl). injection I1 as ->.
        destruct Hk as [->|Hk]; [done|]. exfalso. unfold SkipList.comp in *. destruct asc; apply Z.ltb_lt in Hk, Ec; lia.
      + split; [|intros j' [= <-]; done]. intros [->|Hl]%elem_of_cons; [|by apply I1]. destruct I2 as [->|I2]; [done|]. congruence.
    - split; [|intros j' [= <-]; done]. intros [->|Hl]%elem_of_cons; [done|]. by specialize (I1 Hl). }
  by apply Hnone.
Qed.

Lemma mirrors_best asc m L :
  mirrors m L -> sorted_side asc L -> Forall (fun lv => 0 < depth lv.2 < 2 ^ 32) L ->
  map_begin (SkipList.comp asc) m = head L.*1.
Proof.
  intros Hm Hs HF. destruct L as [|[p os] L].
  { assert (m = ∅) as -> by (by apply map_empty). done. }
  unfold sorted_side in Hs. cbn [fmap list_fmap fst head] in *. apply StronglySorted_inv in Hs as [Hs HL].
  apply Forall_cons in HF as [Hd HF]. cbn [snd] in Hd. rewrite Forall_forall in HL. apply map_begin_least.
  - rewrite Hm, depth_at_cons, Z.eqb_refl, depth_at_absent; [|intros Hin%HL; unfold SkipList.comp in Hin; destruct asc; apply Z.ltb_lt in Hin; lia].
    unfold shown. rewrite u32_small by lia. destruct (Z.eqb_spec (depth os + 0) 0); [lia|done].
  - intros k Hk. destruct (decide (k ∈ L.*1)) as [Hin|Hni]; [right; by apply HL|].
    destruct (decide (k = p)) as [->|Hne]; [by left|]. rewrite Hm, depth_at_absent in Hk; [by destruct Hk|]. set_solver.
Qed.

Lemma level_depth_pos L : pos_side L -> Forall level_ok L -> Forall (fun lv => 0 < depth lv.2) L.
Proof.
  unfold pos_side. induction L as [|[p os] L IH]; intros Hp HL; [constructor|]. rewrite side_orders_cons in Hp.
  apply Forall_app in Hp as [Ho Hp]. apply Forall_cons in HL as [[Hne _] HL]. constructor; [|by apply IH]. cbn [snd] in *.
  destruct os as [|o os]; [done|]. apply Forall_cons in Ho as [Ho Hos]. unfold pos_order in Ho.
  assert (0 <= depth os); [|change (depth (o :: os)) with (Amount o + depth os); lia].
  clear -Hos. induction Hos as [|o os Ho _ IH]; [done|]. change (depth (o :: os)) with (Amount o + depth os).
  unfold pos_order in Ho. lia.
Qed.

(** *** The updates of an engine *)

Definition engine_update (asset : Z) (u : OrderBookUpdate) : Prop :=
  in_u32 (Depth u) /\ UAssetId u = u16 asset /\ fits update_codec u.

Lemma engine_update_number asset n u : engine_update asset u -> engine_update asset (set_USequenceId (u32 n) u).
Proof.
  intros (H1 & H2 & H3). split_and!; try done. revert H3. unfold update_codec, set_USequenceId.
  cbn [fits struct pair_codec fst snd UPrice USequenceId Depth UAssetId USide]. intros ((((P1 & _) & P3) & P4) & P5).
  split_and!; try done. apply u32_range.
Qed.

Lemma request_updates asset o b :
  Forall (engine_update asset) (request asset o b).2.
Proof.
  assert (H : forall sd p d, engine_update asset (depth_update asset sd p d)).
  { intros. split_and!; [apply u32_range|done|apply update_fits]. }
  unfold request, exec_order, cancel_order. destruct (Action o).
  - destruct (match_levels _ _ _ _) as [[q L'] ts].
    assert (HF : Forall (engine_update asset)
      ((fun tr => depth_update asset (opposite (Side o)) (t_price tr) (t_depth tr)) <$> ts)).
    { apply Forall_fmap, Forall_forall. intros tr _. apply H. }
    destruct (0 <? q); [|done]. destruct (Type_ o); [|done]. apply Forall_app. split; [done|]. by apply Forall_singleton.
  - destruct (find_order _ _); [|constructor]. destruct (_ =? _); [|constructor]. by apply Forall_singleton.
Qed.

Lemma run_updates asset reqs b n :
  Forall (engine_update asset) (number_up n (spec_run asset reqs b).2).
Proof.
  assert (HF : Forall (engine_update asset) (spec_run asset reqs b).2).
  { revert b. induction reqs as [|o r IH]; intros b; cbn [spec_run]; [constructor|].
    pose proof (request_updates asset o b) as H1. destruct (request asset o b) as [[b1 rs1] us1]. specialize (IH b1).
    destruct (spec_run asset r b1) as [[b2 rs2] us2]. by apply Forall_app. }
  revert n. induction HF as [|u us Hu _ IH]; intros n; cbn [number_up]; [constructor|]. constructor; [|done]. by apply engine_update_number.
Qed.

Lemma admissible_requests_ok z asset reqs b :
  valid_run z asset reqs b -> Forall (fun o => in_s64 (Price o)) reqs -> requests_ok asset reqs b.
Proof.
  unfold valid_run. intros Hv HF. revert b Hv. induction HF as [|o r Ho _ IH]; intros b Hv; [done|]. destruct Hv as [Ha Hv].
  split; [|by apply IH]. split; [done|]. unfold BidAskProofs.admissible in Ha. intros E. rewrite E in Ha.
  destruct Ha as [Ha Hroom]. split; [lia|]. intros HT. destruct (Hroom HT) as (_ & Hk & _). intros Hin. apply Hk.
  unfold BidAskProofs.book_orders. rewrite fmap_app. unfold side_ids in Hin. destruct (Side o); set_solver.
Qed.

(** *** What the dashboard shows of the book *)

(** The view of asset [a] in [s] is that of the book [b]: the depth of every level,
    modulo the 32 bits of the field, and, when no level exceeds them, the best
    prices, 0 standing for none. *)
Definition shows_book {D} (a : Z) (s : AppState D) (b : Book) : Prop :=
  book_mirrors (book_maps (book_of a s)) b /\
  (Forall (fun lv => depth lv.2 < 2 ^ 32) (bids b ++ asks b) ->
   best_bid (book_of a s) = default 0 (head (bids b).*1) /\ best_ask (book_of a s) = default 0 (head (asks b).*1)).

Lemma mirrors_shows {D} a (s : AppState D) b :
  book_wf b -> book_ok b -> book_mirrors (book_maps (book_of a s)) b -> shows_book a s b.
Proof.
  intros Hwf Hok Hm. split; [done|]. intros [HB HA]%Forall_app. pose proof (Hm BUY) as Mb. pose proof (Hm SELL) as Ma.
  pose proof (wf_side BUY b Hwf) as [Sb Pb]. pose proof (wf_side SELL b Hwf) as [Sa Pa].
  assert (Hd : forall L, Forall (fun lv => depth lv.2 < 2 ^ 32) L -> Forall (fun lv => 0 < depth lv.2) L ->
    Forall (fun lv : Z * list Order => 0 < depth lv.2 < 2 ^ 32) L).
  { intros L H1 H2. rewrite Forall_forall in H1, H2 |- *. intros lv Hlv. split; auto. }
  unfold best_bid, best_ask. split; f_equal.
  - exact (mirrors_best false _ _ Mb Sb (Hd _ HB (level_depth_pos _ Pb (proj1 (Hok BUY))))).
  - exact (mirrors_best true _ _ Ma Sa (Hd _ HA (level_depth_pos _ Pa (proj1 (Hok SELL))))).
Qed.

(** C9: the dashboard shows the engine's book.  Take a run of an engine that
    [valid_run] admits (room in pools and maps; no cancel that names the wrong side,
    such as those the client sends for sells, no amount 0, id in use or sentinel
    price), with every report and update accepted; split the updates it queued into
    packets of one or more, interleave them with the packets of other assets, receive
    all of them, in order, at any times and drain them in any frames, together with
    any reports and discovery events, in a dashboard that has no book of the asset
    yet: its view of the asset is that of the book the engine holds. *)
Theorem dashboard_shows_engine_book {D} z renv benv a p rs bs sb sa reqs :
  sizes_ok z -> (forall n, renv n = BidAsk.Accepted) -> (forall n, benv n = BidAsk.Accepted) ->
  valid_run z (u32 a) reqs empty_book -> Forall (fun o => in_s64 (Price o)) reqs -> 0 < a < 2 ^ 16 ->
  exists s0 s b, engine_init z a p rs bs sb sa = Ret s0 /\ engine_run z renv benv reqs s0 = Ret s /\ holds z s b /\
    forall (packets : list (D * list OrderBookUpdate)) (fs : list (Frame (D := D))) app,
      Forall (fun p => p.2 <> [] /\ Forall (fits update_codec) p.2) packets ->
      filter (fun u => UAssetId u = a) (concat packets.*2) = BidAsk.Sent (BidAsk.OutgoingBook s) ->
      received on_update_packet update_codec packets = Some (frame_updates fs) ->
      order_books app !! a = None ->
      shows_book a (run_frames fs app) b.
Proof.
  intros Hz H1 H2 Hv Hp Ha. destruct (engine_run_ok z renv benv a p rs bs sb sa reqs Hz H1 H2 Hv) as (s0 & s & G1 & G2 & G3).
  pose proof (spec_run_wf (u32 a) reqs empty_book empty_book_wf (BidAskProofs.admissible_pos _ _ _ _ _ _ Hv)) as Hwf.
  pose proof (spec_run_feed (u32 a) reqs empty_book (∅, ∅) empty_book_wf empty_book_ok
    (admissible_requests_ok _ _ _ _ Hv Hp) empty_mirrors) as HF.
  pose proof (run_updates (u32 a) reqs empty_book (u32 bs)) as HU.
  destruct (spec_run (u32 a) reqs empty_book) as [[b reps] ups]. destruct G3 as (Hh & _ & Hs), HF as [Hok Hm].
  cbn [fst snd] in *. exists s0, s, b. split_and!; try done. intros packets fs app Hpk Hf Hr Happ.
  apply mirrors_shows; try done. unfold on_update_packet in Hr.
  rewrite (received_stamped update_codec Gateways.OrderBookUpdate) in Hr; [|split; [reflexivity|apply dec_enc]|cbn; lia|done].
  injection Hr as Hr. rewrite frames_book by lia. rewrite <- Hr, stamped_msgs, Hf, Hs, apply_feeds, feed_number.
  - unfold book_of. by rewrite Happ.
  - eapply Forall_impl; [exact HU|]. by intros u [? _].
Qed.

Definition demo_updates (s : Engine) : list OrderBookUpdate := BidAsk.Sent (BidAsk.OutgoingBook s).
(** An update of another asset, then those of the run, one per packet, in two
    frames. *)
Definition demo_packets (us : list OrderBookUpdate) : list (nat * list OrderBookUpdate) :=
  (7%nat, [FillUpdate 0 10 55 5 0]) :: ((fun u => (8%nat, [u])) <$> us).
Definition demo_frames {A} (l : list (nat * A)) : list (list EtcdEvent * list (nat * OrderStateReport) * list (nat * A)) :=
  [([], [], take 3 l); ([], [], drop 3 l)].

Lemma dashboard_shows_engine_book_witness :
  exists s0 s b, engine_init demo_sizes 3 100 0 0 1 2 = Ret s0 /\
    engine_run demo_sizes accept_all accept_all demo_requests s0 = Ret s /\ holds demo_sizes s b /\
    shows_book 3 (run_frames (demo_frames (stamped (demo_packets (demo_updates s)))) app0) b.
Proof.
  destruct (dashboard_shows_engine_book (D := nat) demo_sizes accept_all accept_all 3 100 0 0 1 2 demo_requests)
    as (s0 & s & b & G1 & G2 & Hh & HC); [exact demo_sizes_ok|done|done|exact demo_valid| |lia|].
  { repeat (apply Forall_cons; split; [split; vm_compute; congruence|]). constructor. }
  exists s0, s, b. split_and!; try done.
  assert (HU : Forall (engine_update (u32 3)) (demo_updates s)).
  { pose proof (run_updates (u32 3) demo_requests empty_book (u32 0)) as HU.
    destruct (engine_run_ok demo_sizes accept_all accept_all 3 100 0 0 1 2 demo_requests demo_sizes_ok)
      as (s0' & s' & G1' & G2' & G3); try done; [exact demo_valid|]. rewrite G1 in G1'. injection G1' as <-.
    rewrite G2 in G2'. injection G2' as <-.
    destruct (spec_run (u32 3) demo_requests empty_book) as [[b' reps] ups]. destruct G3 as (_ & _ & G3).
    unfold demo_updates. by rewrite G3. }
  assert (HP : Forall (fun p => p.2 <> [] /\ Forall (fits update_codec) p.2) (demo_packets (demo_updates s))).
  { constructor; [split; [done|]; apply Forall_singleton, update_fits|]. apply Forall_fmap. eapply Forall_impl; [exact HU|].
    intros u (_ & _ & Hu). split; [done|]. by apply Forall_singleton. }
  apply (HC (demo_packets (demo_updates s))); [exact HP| | |done].
  - cbn [demo_packets fmap list_fmap snd concat app]. rewrite filter_cons_False by (vm_compute; congruence).
    rewrite <- list_fmap_compose. fold (demo_updates s). clear -HU.
    induction HU as [|u us (_ & Hu & _) _ IH]; [done|]. cbn [fmap list_fmap concat app compose snd].
    rewrite filter_cons_True by (rewrite Hu; done). by rewrite IH.
  - unfold on_update_packet. rewrite (received_stamped update_codec Gateways.OrderBookUpdate); [|split; [reflexivity|apply dec_enc]|cbn; lia|done].
    f_equal. unfold frame_updates, demo_frames. cbn [mbind list_bind snd]. by rewrite app_nil_r, take_drop.
Defined.

(** ** The trade prints *)

Definition trade_of (a : Z) (r : OrderStateReport) : option (Z * Z) :=
  match decode_trade r with Some (a', p, q) => if a' =? a then Some (p, q) else None | None => None end.

Lemma decode_buyer asset p t left o :
  0 < asset < 2 ^ 16 -> 0 < t < 2 ^ 32 -> 0 < p -> t * p < 2 ^ 63 ->
  decode_trade (buyer_report asset p t left o) = Some (asset, p, t).
Proof.
  intros Ha Ht Hp Hv. unfold decode_trade, buyer_report, FillReport. cbn [State BoughtAssetId SoldAssetId BoughtDelta SoldDelta].
  assert (Hn : 0 < t * p) by nia. assert (Hpv : p < 2 ^ 63) by nia.
  rewrite (s64_small t), (s64_small (- (t * p))) by (unfold in_s64; lia).
  assert (u16 asset = asset) as -> by (apply Z.mod_small; lia). change (u16 0) with 0.
  assert (negb (bool_decide (status left = FILL)) && negb (bool_decide (status left = PARTIAL_FILL)) = false) as ->.
  { unfold status. by destruct (0 <? left). }
  rewrite (proj2 (Z.eqb_neq asset 0)), (proj2 (Z.leb_gt t 0)), (proj2 (Z.leb_gt 0 (- (t * p)))) by lia. cbn [orb negb Z.eqb].
  rewrite Z.opp_involutive, (s64_small (t * p)), Z.mul_comm, Z.quot_mul, (s64_small p), u32_small by (unfold in_s64; lia). done.
Qed.

(** Only fills bought for cash are printed. *)
Lemma decode_seller asset p t left o : decode_trade (seller_report asset p t left o) = None.
Proof. unfold decode_trade, seller_report, status. destruct (0 <? left); done. Qed.
Lemma decode_ack asset o att id st : decode_trade (ack_report asset o att id st) = None.
Proof.
  unfold decode_trade, ack_report. destruct (Side o); cbn [State BoughtAssetId SoldAssetId BoughtDelta SoldDelta FillReport].
  all: change (s64 0) with 0; rewrite (Z.leb_refl 0), !orb_true_r; by destruct (_ && _).
Qed.
Lemma decode_reject o : decode_trade (reject_report o) = None.
Proof. done. Qed.

Section Prints.
Context (a : Z) (Ha : 0 < a < 2 ^ 16).

Lemma trade_of_none r : decode_trade r = None -> trade_of a r = None.
Proof. unfold trade_of. by intros ->. Qed.

Lemma trades_prints o ts :
  Forall trade_priced ts -> omap (trade_of a) (ts ≫= trade_reports a o) = (fun tr => (t_price tr, t_qty tr)) <$> ts.
Proof.
  induction 1 as [|tr ts (Hq & Hp & Hv) _ IH]; [done|]. rewrite bind_cons, omap_app, IH, fmap_cons. unfold trade_reports.
  assert (HB : forall left o, trade_of a (buyer_report a (t_price tr) (t_qty tr) left o) = Some (t_price tr, t_qty tr)).
  { intros. unfold trade_of. rewrite decode_buyer, Z.eqb_refl by done. done. }
  assert (HS : forall left o, trade_of a (seller_report a (t_price tr) (t_qty tr) left o) = None).
  { intros. apply trade_of_none, decode_seller. }
  destruct (Side o); cbn [omap list_omap]; by rewrite HB, HS.
Qed.

Lemma request_prints o b :
  book_wf b -> book_priced b -> (Action o = EXECUTE -> 0 < Amount o /\ priced o) ->
  omap (trade_of a) (request a o b).1.2 = (fun tr => (t_price tr, t_qty tr)) <$> request_trades o b.
Proof.
  intros Hwf Hb Ho. destruct (request_priced a o b Hwf Hb Ho) as [_ Ht]. unfold request, request_trades in *.
  assert (Hack : forall att id st, omap (trade_of a) [ack_report a o att id st] = []).
  { intros. cbn [omap list_omap]. by rewrite trade_of_none by apply decode_ack. }
  destruct (Action o).
  - unfold exec_order. destruct (match_levels _ _ _ _) as [[q L'] ts]. cbn [snd] in *.
    destruct (0 <? q); [destruct (Type_ o)|]; cbn [fst snd]; rewrite ?omap_app, trades_prints, ?Hack, ?app_nil_r by done; done.
  - unfold cancel_order. destruct (find_order _ _) as [r|]; [destruct (_ =? _)|]; cbn [fst snd omap list_omap]; [|done..].
    by rewrite trade_of_none by apply decode_ack.
Qed.

Lemma run_prints reqs b n :
  book_wf b -> book_priced b -> Forall (fun o => Action o = EXECUTE -> 0 < Amount o /\ priced o) reqs ->
  omap (trade_of a) (number n (spec_run a reqs b).1.2) = (fun tr => (t_price tr, t_qty tr)) <$> run_trades a reqs b.
Proof.
  intros Hwf Hb HF.
  assert (HN : forall m rs, omap (trade_of a) (number m rs) = omap (trade_of a) rs).
  { intros m rs. revert m. induction rs as [|r rs IH]; intros m; [done|]. cbn [number omap list_omap].
    change (list_omap _ _ (trade_of a) ?l) with (omap (trade_of a) l). by rewrite IH. }
  rewrite HN. revert b Hwf Hb. induction HF as [|o r Ho _ IH]; intros b Hwf Hb; [done|]. cbn [spec_run run_trades].
  pose proof (request_prints o b Hwf Hb Ho) as HR. destruct (request_priced a o b Hwf Hb Ho) as [Hb1 _].
  pose proof (request_wf a o b Hwf (fun E => proj1 (Ho E))) as Hwf1.
  destruct (request a o b) as [[b1 rs1] us1]. cbn [fst snd] in *. specialize (IH b1 Hwf1 Hb1).
  destruct (spec_run a r b1) as [[b2 rs2] us2]. cbn [fst snd] in *. by rewrite omap_app, fmap_app, HR, IH.
Qed.
End Prints.

Section History.
Context {D : Type}.
Implicit Types (s : AppState D).

Definition trades_of (a : Z) s : list (TradePrint D) := trades (default history0 (market_history s !! a)).
Definition print_of (a : Z) (e : D * OrderStateReport) : option (TradePrint D) :=
  '(p, q) ← trade_of a e.2; Some (MkPrint e.1 p q).

(** The last [cap] elements. *)
Definition lastn {A} (cap : Z) (l : list A) : list A := drop (Z.to_nat (Z.of_nat (length l) - cap)) l.

Lemma push_capped_lastn {A} cap x (l : list A) : Z.of_nat (length l) <= cap -> push_capped cap x l = lastn cap (l ++ [x]).
Proof.
  intros Hl. unfold push_capped, lastn. rewrite length_app. cbn [length]. destruct (Z.ltb_spec cap (Z.of_nat (length l + 1))).
  - replace (Z.to_nat _) with 1%nat by lia. by destruct (l ++ [x]).
  - by replace (Z.to_nat _) with 0%nat by lia.
Qed.
Lemma lastn_length {A} cap (l : list A) : 0 <= cap -> Z.of_nat (length (lastn cap l)) <= cap.
Proof. intros. unfold lastn. rewrite length_drop. lia. Qed.
Lemma lastn_app {A} cap (l xs : list A) : 0 <= cap -> lastn cap (lastn cap l ++ xs) = lastn cap (l ++ xs).
Proof.
  intros Hc. unfold lastn. rewrite !length_app, length_drop. set (n := Z.to_nat (Z.of_nat (length l) - cap)).
  rewrite <- (drop_app_le l xs n) by lia. rewrite drop_drop. f_equal. lia.
Qed.

Lemma push_capped_all {A} cap (l xs : list A) :
  Z.of_nat (length l) <= cap -> foldl (fun l x => push_capped cap x l) l xs = lastn cap (l ++ xs).
Proof.
  revert l. induction xs as [|x xs IH]; intros l Hl; cbn [foldl].
  { rewrite app_nil_r. unfold lastn. by replace (Z.to_nat _) with 0%nat by lia. }
  rewrite push_capped_lastn, IH, lastn_app, <- app_assoc by (done || lia || (apply lastn_length; lia)). done.
Qed.

Lemma update_trades a s e : trades_of a (frame_update s e) = trades_of a s.
Proof.
  destruct e as [t u]. cbn [frame_update]. destruct (_ =? 0); [done|]. unfold trades_of. cbn [record_book_update market_history].
  destruct (decide (UAssetId u = a)) as [->|Hne]; [|by rewrite lookup_insert_ne]. rewrite lookup_insert_eq. cbn [default].
  unfold add_quote. destruct (last _) as [q|]; [destruct (_ && _)|]; done.
Qed.
Lemma etcd_trades a ev s : trades_of a (apply_etcd_event ev s) = trades_of a s.
Proof. unfold apply_etcd_event. destruct (ev_resource_kind ev); try done. by destruct (ev_id ev). Qed.
Lemma report_trades a s e :
  trades_of a (frame_report s e) =
  from_option (fun x => push_capped kMaxTrades x (trades_of a s)) (trades_of a s) (print_of a e).
Proof.
  destruct e as [t r]. cbn [frame_report]. unfold print_of, trade_of. cbn [fst snd].
  set (s1 := apply_trade_to_balance r (push_trade r s)).
  assert (E : market_history s1 = market_history s).
  { unfold s1, apply_trade_to_balance. by destruct (_ !! _). }
  unfold record_order_report, trades_of. destruct (decode_trade r) as [[[a' p] q]|]; cbn [market_history]; rewrite E; [|done].
  destruct (Z.eqb_spec a' a) as [->|Hne]; [by rewrite lookup_insert_eq|by rewrite lookup_insert_ne].
Qed.

Lemma foldl_keep {A B C} (f : A -> B -> A) (g : A -> C) l x : (forall x y, g (f x y) = g x) -> g (foldl f x l) = g x.
Proof. intros H. revert x. induction l as [|y l IH]; intros x; [done|]. cbn [foldl]. by rewrite IH, H. Qed.

Lemma frames_trades a fs s :
  trades_of a (run_frames fs s) =
  foldl (fun l x => push_capped kMaxTrades x l) (trades_of a s) (omap (print_of a) (frame_reports fs)).
Proof.
  revert s. induction fs as [|[[es rs] us] fs IH]; intros s; [done|].
  unfold run_frames, frame_reports in *. cbn [foldl]. rewrite bind_cons, omap_app, foldl_app, IH. f_equal.
  unfold frame. cbn [fst snd]. rewrite (foldl_keep frame_update (trades_of a)) by (intros; apply update_trades).
  rewrite <- (foldl_keep (fun s ev => apply_etcd_event ev s) (trades_of a) es s) by (intros; apply etcd_trades).
  generalize (foldl (fun s ev => apply_etcd_event ev s) s es). clear s IH.
  induction rs as [|e rs IHr]; intros s; [done|]. cbn [foldl omap list_omap]. rewrite IHr, report_trades.
  by destruct (print_of a e).
Qed.
End History.

Definition mentions (a : Z) (r : OrderStateReport) : Prop := BoughtAssetId r = a \/ SoldAssetId r = a.
#[export] Instance mentions_dec a r : Decision (mentions a r).
Proof. unfold mentions. apply _. Defined.

Lemma trade_of_mentions a r : ~ mentions a r -> trade_of a r = None.
Proof.
  intros Hm. unfold trade_of, decode_trade. destruct (_ && _); [done|]. destruct (_ || _); [done|].
  destruct (Z.eqb_spec (BoughtAssetId r) a); [|done]. exfalso. apply Hm. by left.
Qed.
Lemma omap_mentions a (rs : list OrderStateReport) : omap (trade_of a) rs = omap (trade_of a) (filter (mentions a) rs).
Proof.
  induction rs as [|r rs IH]; [done|]. rewrite filter_cons. case_decide as Hm; cbn [omap list_omap].
  - change (list_omap _ _ (trade_of a) ?l) with (omap (trade_of a) l). by rewrite IH.
  - by rewrite trade_of_mentions.
Qed.

(** C28: the dashboard prints the trades of the run.  The wire has no price; the
    dashboard recovers it from the cash leg of the buyer's report.  Whatever the
    packets, their times, the frames and the reports of other assets, its history
    of the asset is, up to the cap, the list of the executions of the run, each
    once, in order, with its price and quantity; provided that prices are positive
    and the value of every order fits in 63 bits. *)
Theorem dashboard_prints_trades {D} z renv benv a p rs bs sb sa reqs :
  sizes_ok z -> (forall n, renv n = BidAsk.Accepted) -> (forall n, benv n = BidAsk.Accepted) ->
  valid_run z (u32 a) reqs empty_book -> Forall (fun o => Action o = EXECUTE -> priced o) reqs -> 0 < a < 2 ^ 16 ->
  exists s0 s, engine_init z a p rs bs sb sa = Ret s0 /\ engine_run z renv benv reqs s0 = Ret s /\
    forall (packets : list (D * list OrderStateReport)) (fs : list (Frame (D := D))) app,
      Forall (fun p => p.2 <> [] /\ Forall (fits report_codec) p.2) packets ->
      filter (mentions a) (concat packets.*2) = filter (mentions a) (BidAsk.Sent (BidAsk.OutgoingOrders s)) ->
      received on_report_packet report_codec packets = Some (frame_reports fs) ->
      market_history app !! a = None ->
      (fun x => (p_price x, p_qty x)) <$> trades_of a (run_frames fs app) =
      lastn kMaxTrades ((fun tr => (t_price tr, t_qty tr)) <$> run_trades a reqs empty_book).
Proof.
  intros Hz H1 H2 Hv Hp Ha. destruct (engine_run_ok z renv benv a p rs bs sb sa reqs Hz H1 H2 Hv) as (s0 & s & G1 & G2 & G3).
  assert (HE : Forall (fun o => Action o = EXECUTE -> 0 < Amount o /\ priced o) reqs).
  { pose proof (BidAskProofs.admissible_pos _ _ _ _ _ _ Hv) as HE. rewrite Forall_forall in HE, Hp |- *. intros o Ho E. auto. }
  rewrite (u32_small a) in * by lia.
  pose proof (run_prints a Ha reqs empty_book (u32 rs) empty_book_wf ltac:(intros []; constructor) HE) as HR.
  destruct (spec_run a reqs empty_book) as [[b reps] ups]. destruct G3 as (_ & Hs & _). cbn [fst snd] in *.
  exists s0, s. split_and!; try done. intros packets fs app Hpk Hf Hr Happ. unfold on_report_packet in Hr.
  rewrite (received_stamped report_codec Gateways.OrderStateReport) in Hr; [|split; [reflexivity|apply dec_enc]|cbn; lia|done].
  injection Hr as Hr. rewrite frames_trades, push_capped_all; unfold trades_of; rewrite Happ; [|unfold kMaxTrades; cbn; lia]. cbn [default trades history0 Datatypes.app].
  unfold lastn. rewrite fmap_drop. rewrite <- HR, <- Hs, omap_mentions, <- Hf, <- omap_mentions, <- stamped_msgs, Hr.
  assert (HO : forall evs : list (D * OrderStateReport),
    (fun x => (p_price x, p_qty x)) <$> omap (print_of a) evs = omap (trade_of a) evs.*2).
  { induction evs as [|[t r] evs IH]; [done|]. cbn [fmap list_fmap omap list_omap snd]. unfold print_of at 1. cbn [snd fst].
    destruct (trade_of a r) as [[p' q']|]; cbn; by rewrite <- IH. }
  rewrite <- HO, length_fmap. done.
Qed.

(** The reports of a run fit the layout. *)
Lemma request_reports_fit asset o b : Forall (fits report_codec) (request asset o b).1.2.
Proof.
  assert (HA : forall att id st o, fits report_codec (ack_report asset o att id st)).
  { intros att id st o'. unfold ack_report. destruct (Side o'); apply report_fits. }
  unfold request, exec_order, cancel_order. destruct (Action o).
  - destruct (match_levels _ _ _ _) as [[q L'] ts].
    assert (HF : Forall (fits report_codec) (ts ≫= trade_reports asset o)).
    { induction ts as [|tr ts IH]; [constructor|]. rewrite bind_cons. apply Forall_app. split; [|done].
      unfold trade_reports. destruct (Side o); repeat (apply Forall_cons; split; [apply report_fits|]); constructor. }
    destruct (0 <? q); [|done]. destruct (Type_ o); (apply Forall_app; split; [done|]; by apply Forall_singleton).
  - destruct (find_order _ _); [destruct (_ =? _)|]; apply Forall_singleton; [apply HA|apply report_fits..].
Qed.

Lemma run_reports_fit asset reqs b n : Forall (fits report_codec) (number n (spec_run asset reqs b).1.2).
Proof.
  assert (HF : Forall (fits report_codec) (spec_run asset reqs b).1.2).
  { revert b. induction reqs as [|o r IH]; intros b; cbn [spec_run]; [constructor|].
    pose proof (request_reports_fit asset o b) as H1. destruct (request asset o b) as [[b1 rs1] us1]. specialize (IH b1).
    destruct (spec_run asset r b1) as [[b2 rs2] us2]. by apply Forall_app. }
  revert n. induction HF as [|r rs Hr _ IH]; intros n; cbn [number]; [constructor|]. constructor; [|done].
  revert Hr. unfold report_codec, set_RSequenceId.
  cbn [fits struct pair_codec fst snd BoughtDelta SoldDelta SoldAttemptDelta RSequenceId RClientId ROrderId TradeId
       BoughtAssetId SoldAssetId State].
  intros (((((((((P1 & P2) & P3) & _) & P5) & P6) & P7) & P8) & P9) & P10). split_and!; try done. apply u32_range.
Qed.

(** Both reports of a match in one packet, the rest one by one. *)
Definition demo_report_packets (rs : list OrderStateReport) : list (nat * list OrderStateReport) :=
  (5%nat, take 2 rs) :: ((fun r => (6%nat, [r])) <$> drop 2 rs).
Definition demo_report_frames (l : list (nat * OrderStateReport)) : list (Frame (D := nat)) :=
  [([], take 1 l, []); ([], drop 1 l, [])].

Lemma demo_report_packets_ok (rs : list OrderStateReport) :
  Forall (fits report_codec) rs -> (2 < length rs)%nat ->
  Forall (fun p => p.2 <> [] /\ Forall (fits report_codec) p.2) (demo_report_packets rs) /\
  concat (demo_report_packets rs).*2 = rs /\
  received on_report_packet report_codec (demo_report_packets rs) =
    Some (frame_reports (demo_report_frames (stamped (demo_report_packets rs)))).
Proof.
  intros HF Hlen. assert (HP : Forall (fun p => p.2 <> [] /\ Forall (fits report_codec) p.2) (demo_report_packets rs)).
  { constructor; [split; [|by apply Forall_take]; destruct rs; [simpl in Hlen; lia|done]|]. apply Forall_fmap.
    eapply Forall_impl; [by apply Forall_drop|]. intros r Hr. split; [done|]. by apply Forall_singleton. }
  split_and!; [done| |].
  - unfold demo_report_packets. cbn [fmap list_fmap concat snd]. rewrite <- (take_drop 2 rs) at 3. f_equal.
    generalize (drop 2 rs). intros l. induction l as [|r l IH]; [done|]. cbn. by rewrite IH.
  - unfold on_report_packet. rewrite (received_stamped report_codec Gateways.OrderStateReport); [|split; [reflexivity|apply dec_enc]|cbn; lia|done].
    f_equal. unfold frame_reports, demo_report_frames. cbn [mbind list_bind snd fst]. by rewrite app_nil_r, take_drop.
Qed.

Lemma dashboard_prints_trades_witness :
  exists s0 s, engine_init demo_sizes 3 100 0 0 1 2 = Ret s0 /\
    engine_run demo_sizes accept_all accept_all demo_requests s0 = Ret s /\
    (fun x => (p_price x, p_qty x)) <$>
      trades_of 3 (run_frames (demo_report_frames (stamped (demo_report_packets (BidAsk.Sent (BidAsk.OutgoingOrders s))))) app0)
    = [(101, 5); (100, 7); (103, 6)].
Proof.
  destruct (dashboard_prints_trades (D := nat) demo_sizes accept_all accept_all 3 100 0 0 1 2 demo_requests)
    as (s0 & s & G1 & G2 & HC); [exact demo_sizes_ok|done|done|exact demo_valid| |lia|].
  { repeat (apply Forall_cons; split; [intros E; first [discriminate E|split_and!; vm_compute; congruence]|]). constructor. }
  exists s0, s. split_and!; try done. set (rs := BidAsk.Sent (BidAsk.OutgoingOrders s)) in *.
  assert (HF : Forall (fits report_codec) rs /\ (2 < length rs)%nat).
  { destruct (engine_run_ok demo_sizes accept_all accept_all 3 100 0 0 1 2 demo_requests demo_sizes_ok)
      as (s0' & s' & G1' & G2' & G3); try done; [exact demo_valid|]. rewrite G1 in G1'. injection G1' as <-.
    rewrite G2 in G2'. injection G2' as <-. pose proof (run_reports_fit (u32 3) demo_requests empty_book (u32 0)) as HF.
    destruct (spec_run (u32 3) demo_requests empty_book) as [[b' reps] ups] eqn:ES. destruct G3 as (_ & G3 & _).
    unfold rs. rewrite G3. split; [done|]. vm_compute in ES. injection ES as _ <- _. vm_compute. lia. }
  destruct HF as [HF Hlen].
  destruct (demo_report_packets_ok rs HF Hlen) as (HP & HC1 & HC2).
  rewrite (HC (demo_report_packets rs)); [vm_compute; reflexivity|exact HP|by rewrite HC1|exact HC2|done].
Defined.
