(* ===== verification/ClientSystem.v ===== *)
(** The client and the services together: a login and orders from the client's
    session to the gateway's batches and the account service's answer, the balance
    the dashboard keeps, and the cancel requests the client sends.

    Main results: what a session sends is what the gateway decodes, through any
    pieces of the stream; a login reaches the account service as the request it
    expects; a balance that starts from the account service's answer and is moved
    by the reports stays that of the account; cancelling a sell leaves it in the
    book. *)

From stdpp Require Import strings.
From S2P Require Import Prelude WireTypes Codec SpscQueue StoragePool Consumer Buffers EpollServer BookSpec Engine GatewayStates.
From S2P Require Import AccountStates AccountService WireFormats GatewayServers TradingSession System Dashboard.
From S2P Require OrderRouter.

(** ** Orders *)

Inductive Call :=
| Place (local_id : Z) (type : OrderType) (side : OrderSide) (price amount asset : Z)
| Withdraw (local_id target asset : Z).

Section Calls.
Context (send : nat -> nat -> Z).

Definition call_order (s : Session) (c : Call) : Order :=
  match c with
  | Place i t sd p a x => new_order i t sd p a x s
  | Withdraw i target x => new_cancel i target x s
  end.
Definition do_call (c : Call) (s : Session) : result (bool * Session) :=
  match c with
  | Place i t sd p a x => send_order send i t sd p a x s
  | Withdraw i target x => send_cancel_order send i target x s
  end.
Fixpoint do_calls (cs : list Call) (s : Session) : result (list bool * Session) :=
  match cs with
  | [] => Ret ([], s)
  | c :: cs => '(ok, s) ← do_call c s; '(oks, s) ← do_calls cs s; Ret (ok :: oks, s)
  end.

(** Arguments in the ranges of their types. *)
Definition call_ok (c : Call) : Prop :=
  match c with
  | Place i _ _ p a _ => in_u32 i /\ in_s64 p /\ in_u32 a
  | Withdraw i target _ => in_u32 i /\ in_u32 target
  end.

Lemma clamp_asset_range a : 0 <= clamp_asset a < 2 ^ 16.
Proof. unfold clamp_asset. repeat zcase; lia. Qed.

Lemma call_order_in_range s c : in_u32 (client_id s) -> call_ok c -> order_in_range (call_order s c).
Proof.
  intros Hid Hc. unfold order_in_range.
  destruct c; cbn [call_order new_order new_cancel Price OrderId ClientOrderId ClientId Amount AssetId call_ok] in *;
    unfold in_u32, in_s64 in *; split_and!; try apply clamp_asset_range; lia.
Qed.

Lemma do_call_wire c s :
  send_contract send -> (forall i n, (0 < n)%nat -> 0 < send i n) -> sstate s = SConnected ->
  exists n, do_call c s = Ret (true, set_sock (MkSocket n (wire (sock s) ++ enc order_codec (call_order s c))) s).
Proof.
  intros HC Hs HS.
  assert (H : forall data, exists n, session_send send data s = Ret (true, set_sock (MkSocket n (wire (sock s) ++ data)) s)).
  { intros data. unfold session_send. destruct (send_all_whole send data (sock s) HC Hs) as [n ->]. by exists n. }
  destruct c; cbn [do_call call_order]; unfold send_order, send_cancel_order; rewrite bool_decide_true by done; cbn [negb]; rewrite client_order_bytes; apply H.
Qed.

Lemma do_calls_wire cs s :
  send_contract send -> (forall i n, (0 < n)%nat -> 0 < send i n) -> sstate s = SConnected ->
  exists s', do_calls cs s = Ret (replicate (length cs) true, s') /\
    wire (sock s') = wire (sock s) ++ ((call_order s <$> cs) ≫= enc order_codec).
Proof.
  intros HC Hs. revert s. induction cs as [|c cs IH]; intros s HS; cbn [do_calls].
  { exists s. by rewrite app_nil_r. }
  destruct (do_call_wire c s HC Hs HS) as [n ->]. cbn [mbind result_bind].
  destruct (IH (set_sock (MkSocket n (wire (sock s) ++ enc order_codec (call_order s c))) s) HS) as (s' & -> & Hw).
  cbn [mbind result_bind]. exists s'. split; [done|]. rewrite Hw, fmap_cons, bind_cons, app_assoc.
  by rewrite (list_fmap_ext _ (call_order s) cs) by (intros _ [] _; reflexivity).
Qed.
End Calls.

Abbreviation gw_read PoolSize req dis room :=
  (readMessage (gateway_derived PoolSize req dis) (width order_codec) (width auth_request_codec) GatewayEpollReceiveBatchSize PoolSize room).
Abbreviation gw_connection := (connection (D := GatewayServer) (width order_codec) has_state).
Abbreviation gw_memory_ok := (memory_ok (D := GatewayServer) (width order_codec) GatewayEpollReceiveBatchSize).
Abbreviation gw_batch := (batch_of (D := GatewayServer) (width order_codec) GatewayEpollReceiveBatchSize).
Abbreviation gw_payload := (payload (D := GatewayServer) (width order_codec) GatewayEpollReceiveBatchSize).

(** The read event that takes the orders of [calls], for any invariant [I] of the
    gateway and any property [J] its handler gives to the batches. *)
Lemma gateway_reads_calls I J s calls PoolSize kp req dis room fuel fd evs st held :
  keeps_batches (gateway_derived PoolSize req dis) I J -> in_u32 (client_id s) -> Forall call_ok calls ->
  PoolSize = (2 ^ kp)%nat -> (kp <= 62)%nat -> (forall n, room n = true) ->
  event_bytes evs = (call_order s <$> calls) ≫= enc order_codec -> aligned (width order_codec) 0 evs = true ->
  connection (width order_codec) I st fd [] -> gw_memory_ok st -> FirstMessage st !! Z.to_nat fd = Some false ->
  pool_holds PoolSize (SPool st) held -> (length held + length calls < PoolSize)%nat -> (length (event_bytes evs) < fuel)%nat ->
  exists st' xs, gw_read PoolSize req dis room fuel fd evs st = Ret ([], st') /\ Outgoing st' = Outgoing st ++ xs /\
    gw_payload st' xs = (call_order s <$> calls) ≫= enc order_codec /\ Forall (fits order_codec) (call_order s <$> calls) /\
    connection (width order_codec) I st' fd [] /\ gw_memory_ok st' /\
    Forall (fun x => BatchFd (gw_batch x st') = fd /\ (0 < BatchSize (gw_batch x st'))%nat /\ J fd (gw_batch x st')) xs.
Proof.
  intros HK Hid Hcalls HP Hkp Hroom Hwire Hal Hconn Hmem Hfm Hpool Hlen Hfuel.
  assert (Hfit : Forall (fits order_codec) (call_order s <$> calls)).
  { apply Forall_fmap. eapply Forall_impl; [exact Hcalls|]. intros c Hc. apply order_fits. by apply call_order_in_range. }
  assert (Hbytes : length (event_bytes evs) = (length calls * width order_codec)%nat).
  { rewrite Hwire, enc_stream_length by done. by rewrite length_fmap. }
  destruct (readMessage_ok (gateway_derived PoolSize req dis) (width order_codec) (width auth_request_codec)
    GatewayEpollReceiveBatchSize PoolSize room kp HP Hkp ltac:(vm_compute; lia) ltac:(vm_compute; lia) I J HK Hroom
    fuel fd evs st [] held Hconn Hmem Hpool (fun _ => Hfm)) as (st' & xs & q' & HR & Ho & Hc' & Hpay & HF & _ & Hm' & _).
  { cbn [length]. rewrite Nat.add_0_l, Hbytes, Nat.div_mul by (vm_compute; lia). done. }
  { done. }
  { done. }
  assert (Hq' : q' = []).
  { apply (payload_rest (width order_codec) GatewayEpollReceiveBatchSize PoolSize kp HP Hkp ltac:(vm_compute; lia)
      ltac:(vm_compute; lia) st' xs q' (length calls) Hm'); [apply Hc'|]. rewrite Hpay. exact Hbytes. }
  subst q'. rewrite app_nil_r in Hpay. cbn [app] in Hpay. rewrite Hwire in Hpay. exists st', xs. by split_and!.
Qed.

(** C10: orders arrive as they were sent.  Let a connected session place and cancel
    any orders, over a network that takes every byte, and let the bytes arrive at
    the gateway in any pieces that do not end inside a message after completing
    another: every call reports success, the gateway's read event returns, and the
    batches it queues for the router decode to exactly the orders of the calls, in
    order, with the session's client id. *)
Theorem client_orders_reach_gateway send calls s PoolSize kp req dis room :
  send_contract send -> (forall i n, (0 < n)%nat -> 0 < send i n) -> sstate s = SConnected -> in_u32 (client_id s) ->
  Forall call_ok calls -> PoolSize = (2 ^ kp)%nat -> (kp <= 62)%nat -> (forall n, room n = true) ->
  exists s', do_calls send calls s = Ret (replicate (length calls) true, s') /\
    forall fuel fd evs st held,
      wire (sock s') = wire (sock s) ++ event_bytes evs -> aligned (width order_codec) 0 evs = true ->
      gw_connection st fd [] -> gw_memory_ok st -> FirstMessage st !! Z.to_nat fd = Some false ->
      pool_holds PoolSize (SPool st) held -> (length held + length calls < PoolSize)%nat ->
      (length (event_bytes evs) < fuel)%nat ->
      exists st' xs, gw_read PoolSize req dis room fuel fd evs st = Ret ([], st') /\ Outgoing st' = Outgoing st ++ xs /\
        dec_stream order_codec (length calls) (gw_payload st' xs) = Some (call_order s <$> calls, []) /\
        gw_connection st' fd [].
Proof.
  intros HC Hs HS Hid Hcalls HP Hkp Hroom. destruct (do_calls_wire send calls s HC Hs HS) as (s' & HD & Hw).
  exists s'. split; [exact HD|]. intros fuel fd evs st held Hwire Hal Hconn Hmem Hfm Hpool Hlen Hfuel.
  rewrite Hw in Hwire. apply app_inv_head in Hwire.
  destruct (gateway_reads_calls has_state _ s calls PoolSize kp req dis room fuel fd evs st held
    (gateway_keeps_batches PoolSize req dis) Hid Hcalls HP Hkp Hroom (eq_sym Hwire) Hal Hconn Hmem Hfm Hpool Hlen Hfuel)
    as (st' & xs & HR & Ho & Hpay & Hfit & Hc' & _).
  exists st', xs. split_and!; [exact HR|exact Ho| |exact Hc'].
  rewrite Hpay, <- (app_nil_r (_ ≫= _)). rewrite <- (length_fmap (call_order s) calls).
  apply dec_stream_enc; [exact Hfit|vm_compute; lia|done].
Qed.

(** ** A concrete gateway *)

Definition to_event (l : list Z) : list RecvEvent := match l with [] => [] | b :: bs => [Avail b bs] end.
(** A message in two halves, the rest in one piece. *)
Definition halves (l : list Z) : list RecvEvent := to_event (take 20 l) ++ to_event (take 20 (drop 20 l)) ++ to_event (drop 40 l).

Definition pool4 : StoragePool := default ex_pool0 (storage_init 4).
Lemma pool4_holds : pool_holds 4 pool4 [].
Proof. by apply (fresh_pool 4 2 eq_refl ltac:(lia)). Qed.

Definition always (_ : nat) : bool := true.
Definition demo_gateway : GatewayServer := MkGateway 3 (states_init 8) [] 0 pool4 ∅ [] 0.
Definition demo_server (first : bool) : Server (D := GatewayServer) :=
  MkServer (replicate 8 (MkObjectBuffer (replicate 40 0) 0)) (replicate 8 first) pool4 ∅ [] 0 EAGAIN [] demo_gateway.

Lemma demo_server_memory first : gw_memory_ok (demo_server first).
Proof. intros x. unfold batch_of. cbn [Batches demo_server]. rewrite lookup_empty. reflexivity. Qed.
Lemma demo_buffer_rep : objbuf_rep (width order_codec) (MkObjectBuffer (replicate 40 0) 0) [].
Proof. unfold objbuf_rep. vm_compute. split_and!; (done || lia). Qed.

Definition demo_session : Session := set_credentials 7 (replicate 32 9) (set_state SConnected session0).
Definition demo_calls : list Call := [Place 1 LIMIT SELL 100 10 3; Withdraw 2 1 3].

Lemma client_orders_reach_gateway_witness :
  exists s' st' xs, do_calls byte_send demo_calls demo_session = Ret ([true; true], s') /\
    gw_read 4 always always always 99 5 (halves (wire (sock s'))) (demo_server false) = Ret ([], st') /\ Outgoing st' = xs /\
    dec_stream order_codec 2 (gw_payload st' xs) =
      Some ([MkOrder 100 1 1 7 10 3 LIMIT SELL EXECUTE; MkOrder 0 2 2 7 1 3 LIMIT BUY CANCEL_ORDER], []).
Proof.
  destruct (client_orders_reach_gateway byte_send demo_calls demo_session 4 2 always always always) as (s' & HD & HC).
  - intros i n. unfold byte_send. lia.
  - intros i n Hn. unfold byte_send. lia.
  - reflexivity.
  - split; vm_compute; congruence.
  - unfold demo_calls. repeat (apply Forall_cons; split; [repeat split; vm_compute; congruence|]). constructor.
  - reflexivity.
  - lia.
  - done.
  - assert (HS : exists w, s' = w) by by eexists. destruct HS as [w Hw]. vm_compute in HD. injection HD as <-.
    edestruct (HC 99%nat 5 (halves (wire (sock w))) (demo_server false) []) as (st' & xs & H1 & H2 & H3 & _).
    + subst w. vm_compute. reflexivity.
    + subst w. vm_compute. reflexivity.
    + split; [lia|]. split; [vm_compute; lia|]. split; [by eexists|]. eexists. split; [reflexivity|exact demo_buffer_rep].
    + apply demo_server_memory.
    + reflexivity.
    + exact pool4_holds.
    + cbn. lia.
    + subst w. vm_compute. lia.
    + eexists _, st', xs. split; [vm_compute; reflexivity|]. split_and!; [subst w; exact H1|exact H2|exact H3].
Defined.

(** ** Logins *)

(** What the forwarder sends the account service, on [v], for the queued request [x]. *)
Definition forwarded (v : Z) (st : Server (D := GatewayServer)) (x : nat) : option (Z * list Z) :=
  r ← GReqHeap (derived st) !! x; SendRequest v r (OrderRouter.Sent (width routed_request_codec)).

(** C31: a login reaches the account service as the request it expects.  Let the
    client connect over a network that takes every byte, the bytes of its login
    arrive at the gateway in any pieces, and the gateway have a request object
    left: the session is connected, the gateway queues one request, with the
    client's id and key, the descriptor of the connection and the gateway's own
    number, opens the connection for orders, and what the forwarder sends the
    account service for it decodes to that request. *)
Theorem client_login_reaches_account_service send host id k err s PoolSize kp req dis room :
  send_contract send -> (forall i n, (0 < n)%nat -> 0 < send i n) -> in_u32 id -> fits (array 32 (uint 1)) k ->
  wire (sock s) = [] -> PoolSize = (2 ^ kp)%nat -> (kp <= 62)%nat -> (forall n, req n = true) ->
  exists s', connect send host id k 3 1 0 err s = Ret s' /\ sstate s' = SConnected /\
    forall fuel fd evs st held rheld v,
      event_bytes evs = wire (sock s') -> only_data evs -> waiting (D := GatewayServer) (width order_codec) st fd [] ->
      gw_memory_ok st -> pool_holds PoolSize (SPool st) held -> (length held < PoolSize)%nat -> (0 < fuel)%nat ->
      pool_holds PoolSize (GReqPool (derived st)) rheld -> (length rheld < PoolSize)%nat ->
      has_state fd (derived st) -> in_u32 fd -> 0 <= GServerId (derived st) < 2 ^ 16 -> Fd v <> -1 ->
      exists st' x bytes, gw_read PoolSize req dis room fuel fd evs st = Ret ([], st') /\ gw_connection st' fd [] /\
        GRequests (derived st') = GRequests (derived st) ++ [x] /\
        forwarded v st' x = Some (Fd v, bytes) /\
        dec routed_request_codec bytes = Some (MkRequest char_A id k fd (GServerId (derived st)), []).
Proof.
  intros HC Hs Hid Hk Hw HP Hkp Hreq. unfold connect. change (3 <? 0) with false. change (negb (1 =? 1)) with false.
  change (0 <? 0) with false. cbv iota. unfold session_send. set (m := MkAuthRequest char_A _ _).
  destruct (send_all_whole send (enc Gateways.ClientRequest m) (sock (set_fd 3 (set_credentials id k (set_state Connecting s)))) HC Hs)
    as [n ->]. cbn [mbind result_bind negb]. eexists. split; [reflexivity|]. split; [reflexivity|].
  intros fuel fd evs st held rheld v Hev Hdata Hwait Hmem Hpool Hheld Hfuel Hrp Hrl HS Hfd Hgid Hv.
  cbn [sock set_threads set_state set_sock wire set_fd set_credentials] in Hev. rewrite Hw in Hev. cbn [app] in Hev.
  rewrite client_request_bytes in Hev.
  assert (Hm : fits auth_request_codec m).
  { unfold auth_request_codec. cbn [fits struct pair_codec fst snd]. split; [split; [done|exact Hid]|exact Hk]. }
  pose proof (handshake_ok (gateway_derived PoolSize req dis) (width order_codec) (width auth_request_codec)
    GatewayEpollReceiveBatchSize PoolSize room kp HP Hkp ltac:(vm_compute; lia) ltac:(vm_compute; lia) has_state
    fuel fd evs st [] held eq_refl Hwait Hdata ltac:(vm_compute; lia) ltac:(vm_compute; lia)) as HH.
  rewrite Hev in HH. cbn [app length] in HH. rewrite (enc_length auth_request_codec m Hm), Nat.ltb_irrefl in HH.
  destruct (gw_first_message PoolSize req kp HP Hkp m fd (derived st) rheld [] Hm Hrp Hrl Hreq) as (x & d & HF & Hq & Hh & _ & _ & Hst & _).
  rewrite app_nil_r in HF.
  destruct (HH ltac:(lia) Hmem Hpool Hheld Hfuel d HF) as (st' & HR & _ & Hc & Hd & _).
  { unfold has_state. by rewrite Hst. }
  set (r := MkRequest char_A id k fd (GServerId (derived st))).
  destruct (SendRequest_whole v r Hv) as (bytes & HSR & HD).
  { unfold routed_request_codec. cbn [fits struct pair_codec fst snd]. split; [split; [split; [split|]|]|]; try done. }
  exists st', x, bytes. split_and!; [exact HR|exact Hc|by rewrite Hd| |exact HD].
  unfold forwarded. rewrite Hd, Hh. exact HSR.
Qed.

Lemma client_login_reaches_account_service_witness :
  exists s' st' x bytes, connect byte_send "127.0.0.1" 7 (replicate 32 9) 3 1 0 "" session0 = Ret s' /\
    gw_read 4 always always always 9 5 (halves (wire (sock s'))) (demo_server true) = Ret ([], st') /\
    forwarded 6 st' x = Some (6, bytes) /\
    dec routed_request_codec bytes = Some (MkRequest char_A 7 (replicate 32 9) 5 3, []).
Proof.
  destruct (client_login_reaches_account_service byte_send "127.0.0.1" 7 (replicate 32 9) "" session0 4 2 always always always)
    as (s' & HD & _ & HC).
  - intros i n. unfold byte_send. lia.
  - intros i n Hn. unfold byte_send. lia.
  - split; vm_compute; congruence.
  - split; [reflexivity|]. apply Forall_replicate. split; vm_compute; congruence.
  - reflexivity.
  - reflexivity.
  - lia.
  - done.
  - assert (HS : exists w, s' = w) by by eexists. destruct HS as [w Hw]. vm_compute in HD. injection HD as <-.
    edestruct (HC 9%nat 5 (halves (wire (sock w))) (demo_server true) [] [] 6) as (st' & x & bytes & H1 & _ & _ & H4 & H5).
    + subst w. vm_compute. reflexivity.
    + subst w. vm_compute. repeat constructor.
    + split; [lia|]. split; [reflexivity|]. eexists. split; [reflexivity|exact demo_buffer_rep].
    + apply demo_server_memory.
    + exact pool4_holds.
    + cbn. lia.
    + lia.
    + exact pool4_holds.
    + cbn. lia.
    + by eexists.
    + split; vm_compute; congruence.
    + cbn. lia.
    + vm_compute. congruence.
    + eexists _, st', x, bytes. split; [vm_compute; reflexivity|]. split_and!; [subst w; exact H1|exact H4|exact H5].
Defined.

(** ** Balances *)

(** [drain_balance_results] for one result. *)
Definition drain_balance_result {D} (snap : ClientBalanceSnapshot) (s : AppState D) : AppState D :=
  let bal := default balance0 (balances s !! b_client_id snap) in
  let bal :=
    if b_ok snap then
      MkBalance (foldl (fun m '(a, c, t) => <[a := (c, t)]> m) ∅ (b_positions snap)) true EmptyString
    else MkBalance (positions bal) (has_snapshot bal) (b_error snap) in
  set_balances (<[b_client_id snap := bal]> (balances s)) s.

(** The balance [b] is that of the account [s], position by position. *)
Definition tracks (b : LiveBalance) (s : AccountState) : Prop :=
  forall i a c t, AAssetId (ameta s) !! i = Some a -> AConfirmed s !! i = Some c -> AAttempt s !! i = Some t ->
    positions b !! a = Some (c, t).

Lemma install_tracks l (m : gmap Z (Z * Z)) a c t :
  NoDup (l.*1.*1) -> (a, c, t) ∈ l -> foldl (fun m '(a, c, t) => <[a := (c, t)]> m) m l !! a = Some (c, t).
Proof.
  revert m. induction l as [|[[a' c'] t'] l IH]; intros m HN Hin; [by apply elem_of_nil in Hin|].
  cbn [fmap list_fmap fst] in HN. apply NoDup_cons in HN as [Hn HN]. cbn [foldl].
  apply elem_of_cons in Hin as [[= <- <- <-]|Hin]; [|by apply IH]. clear IH HN.
  assert (HK : forall l (m : gmap Z (Z * Z)), (a ∉ l.*1.*1) -> foldl (fun m '(a, c, t) => <[a := (c, t)]> m) m l !! a = m !! a).
  { clear. induction l as [|[[a' c'] t'] l IH]; intros m Hn; [done|]. cbn [fmap list_fmap fst] in Hn. cbn [foldl].
    rewrite IH by set_solver. rewrite lookup_insert_ne by set_solver. done. }
  rewrite HK by done. by rewrite lookup_insert_eq.
Qed.

(** The result of a query, once drained, is the account's balance. *)
Lemma query_tracks {D} snap s (st : AppState D) :
  b_ok snap = true -> b_positions snap = account_positions s -> NoDup (AAssetId (ameta s)) ->
  length (AConfirmed s) = length (AAssetId (ameta s)) -> length (AAttempt s) = length (AAssetId (ameta s)) ->
  exists b, balances (drain_balance_result snap st) !! b_client_id snap = Some b /\ tracks b s.
Proof.
  intros Hok Hp HN H1 H2. unfold drain_balance_result. rewrite Hok, Hp. cbn [balances set_balances]. rewrite lookup_insert_eq.
  eexists. split; [done|]. intros i a c t Ha Hc Ht. cbn [positions]. apply install_tracks.
  - unfold account_positions. rewrite !fst_zip; [done|..]; rewrite ?length_zip; lia.
  - unfold account_positions. apply list_elem_of_lookup. exists i. apply lookup_zip_Some. cbn [fst snd].
    split; [|done]. apply lookup_zip_Some. by split.
Qed.

Lemma lookup_add_asset ids a x v i :
  add_asset ids a x v !! i =
  match ids !! i, v !! i with Some id, Some y => Some (if id =? a then s64 (y + x) else y) | _, o => o end.
Proof.
  revert v i. induction ids as [|id ids IH]; intros [|y v] [|i]; cbn [add_asset lookup list_lookup]; try done; by destruct (ids !! i).
Qed.

Lemma lookup_confirmed a d b k :
  positions (apply_confirmed_delta a d b) !! k =
  if k =? a then (let '(c, t) := default (0, 0) (positions b !! a) in Some (s64 (c + d), t)) else positions b !! k.
Proof.
  unfold apply_confirmed_delta. destruct (default (0, 0) (positions b !! a)) as [c t]. cbn [positions].
  destruct (Z.eqb_spec k a) as [->|Hne]; [by rewrite lookup_insert_eq|by rewrite lookup_insert_ne].
Qed.
Lemma lookup_attempt a d b k :
  positions (apply_attempt_delta a d b) !! k =
  if k =? a then (let '(c, t) := default (0, 0) (positions b !! a) in Some (c, s64 (t + d))) else positions b !! k.
Proof.
  unfold apply_attempt_delta. destruct (default (0, 0) (positions b !! a)) as [c t]. cbn [positions].
  destruct (Z.eqb_spec k a) as [->|Hne]; [by rewrite lookup_insert_eq|by rewrite lookup_insert_ne].
Qed.

(** A report moves both alike. *)
Lemma report_tracks b s r v q q' :
  v = MkAView s q s q' -> tracks b s -> Forall in_s64 (AAttempt s) ->
  let s' := aedit (aview_run (acc_report_ops r) v) in
  tracks (balance_report r b) s' /\ Forall in_s64 (AAttempt s').
Proof.
  intros -> HT HF s'.
  assert (Hids : AAssetId (ameta s') = AAssetId (ameta s)) by done.
  assert (HC : AConfirmed s' = add_asset (AAssetId (ameta s)) (SoldAssetId r) (SoldDelta r)
    (add_asset (AAssetId (ameta s)) (BoughtAssetId r) (BoughtDelta r) (AConfirmed s))) by done.
  assert (HA : AAttempt s' = add_asset (AAssetId (ameta s)) (SoldAssetId r) (SoldAttemptDelta r)
    (add_asset (AAssetId (ameta s)) (BoughtAssetId r) 0 (AAttempt s))) by done.
  clearbody s'. split.
  - intros i a c t. rewrite Hids, HC, HA. intros Ha. rewrite !lookup_add_asset, Ha.
    destruct (AConfirmed s !! i) as [c0|] eqn:Hc0; [|done]. destruct (AAttempt s !! i) as [t0|] eqn:Ht0; [|done].
    intros [= <-] [= <-]. specialize (HT i a c0 t0 Ha Hc0 Ht0). rewrite Forall_lookup in HF. specialize (HF _ _ Ht0).
    unfold balance_report. rewrite lookup_attempt, !lookup_confirmed, Z.eqb_refl.
    destruct (Z.eqb_spec a (SoldAssetId r)) as [<-|E2], (Z.eqb_spec a (BoughtAssetId r)) as [<-|E1];
      rewrite ?HT; cbn [default from_option id]; rewrite ?Z.add_0_r, ?(s64_small t0) by done; done.
  - rewrite HA. apply Forall_lookup. intros i x. rewrite !lookup_add_asset. rewrite Forall_lookup in HF.
    destruct (AAssetId (ameta s) !! i), (AAttempt s !! i) as [t0|] eqn:Ht0; try done; intros [= <-]; [|by eapply HF].
    repeat destruct (_ =? _); try apply s64_range; by eapply HF.
Qed.

(** The reports of one client, applied by both. *)
Lemma reports_track id rs b s q q' :
  tracks b s -> Forall in_s64 (AAttempt s) ->
  let s' := aedit (aview_run (acc_client_ops id rs) (MkAView s q s q')) in
  tracks (foldl (fun b r => balance_report r b) b (own id rs)) s' /\ Forall in_s64 (AAttempt s').
Proof.
  assert (HG : forall rs b v, tracks b (aedit v) -> Forall in_s64 (AAttempt (aedit v)) ->
    let s' := aedit (aview_run (acc_client_ops id rs) v) in
    tracks (foldl (fun b r => balance_report r b) b (own id rs)) s' /\ Forall in_s64 (AAttempt s')).
  { clear. induction rs as [|r rs IH]; intros b v HT HF; [done|]. cbn [acc_client_ops]. unfold own in *. rewrite filter_cons.
    unfold aview_run. rewrite foldl_app. destruct (Z.eqb_spec (RClientId r) id) as [He|He].
    - rewrite decide_True by done. cbn [foldl]. destruct (report_tracks b (aedit v) r _ 0 0 eq_refl HT HF) as [HT1 HF1].
      apply IH; [exact HT1|exact HF1].
    - rewrite decide_False by done. cbn [foldl]. by apply IH. }
  intros HT HF. by apply HG.
Qed.

Lemma frames_balance {D} id (fs : list (Frame (D := D))) s b :
  balances s !! id = Some b ->
  balances (run_frames fs s) !! id = Some (foldl (fun b r => balance_report r b) b (own id (frame_reports fs).*2)).
Proof.
  revert s b. induction fs as [|[[es rs] us] fs IH]; intros s b Hb; [done|].
  unfold run_frames, frame_reports in *. cbn [foldl]. rewrite bind_cons, fmap_app. unfold own in *. rewrite filter_app, foldl_app.
  apply IH. unfold frame. cbn [fst snd]. rewrite (foldl_keep frame_update (fun s => balances s !! id)) by
    (intros s' [t u]; cbn [frame_update]; by destruct (_ =? 0)).
  rewrite <- (foldl_keep (fun s ev => apply_etcd_event ev s) (fun s => balances s !! id) es s) in Hb by
    (intros s' ev; unfold apply_etcd_event; destruct (ev_resource_kind ev); try done; by destruct (ev_id ev)).
  revert Hb. generalize (foldl (fun s ev => apply_etcd_event ev s) s es). clear s IH. revert b.
  induction rs as [|[t r] rs IHr]; intros b s Hb; [done|]. cbn [foldl fmap list_fmap snd]. rewrite filter_cons.
  assert (HR : forall s', balances (record_order_report r t s') = balances s').
  { intros s'. unfold record_order_report. by destruct (decode_trade r) as [[[? ?] ?]|]. }
  destruct (decide (RClientId r = id)) as [He|He]; cbn [foldl]; apply IHr; cbn [frame_report]; rewrite HR; unfold apply_trade_to_balance;
    cbn [balances push_trade set_feed].
  - rewrite He, Hb. cbn [balances set_balances]. by rewrite lookup_insert_eq.
  - destruct (balances s !! RClientId r); [|done]. cbn [balances set_balances]. by rewrite lookup_insert_ne.
Qed.

(** C35: the dashboard's balance stays the account's.  If it is the account's
    published balance at some point, and the dashboard and the account service then
    receive the same reports of the client, the one in whatever frames, the other
    in whatever batches, among any reports of others, then the account service
    applies them without a fault and the two agree again on every position of the
    account, confirmed and attempted. *)
Theorem live_balance_tracks_account {D} (fs : list (Frame (D := D))) app b batches cs id t :
  0 <= id -> cs !! Z.to_nat id = Some t -> settled t -> Forall in_s64 (AAttempt (acc_GetClientState t)) ->
  Forall (known cs) (concat batches) -> own id (frame_reports fs).*2 = own id (concat batches) ->
  balances app !! id = Some b -> tracks b (acc_GetClientState t) ->
  exists cs' t' b', acc_Handle_batches batches cs = Ret cs' /\ cs' !! Z.to_nat id = Some t' /\
    balances (run_frames fs app) !! id = Some b' /\ tracks b' (acc_GetClientState t').
Proof.
  intros Hid Ht (s & q & HR) HF Hk Hown Hb HT. rewrite (settled_published _ _ _ _ HR) in HF, HT.
  rewrite (frames_balance id fs app b Hb), Hown. clear Hown Hb.
  revert cs t s q b Ht HR HF Hk HT. induction batches as [|rs batches IH]; intros cs t s q b Ht HR HF Hk HT.
  { exists cs, t, b. cbn. rewrite (settled_published _ _ _ _ HR). done. }
  cbn [concat] in *. apply Forall_app in Hk as [Hk1 Hk2]. cbn [acc_Handle_batches].
  destruct (acc_Handle_batch_ok rs cs Hk1) as (cs1 & -> & Hcs1). cbn [mbind result_bind].
  destruct (batch_state id rs t s q HR) as [q1 HR1]. cbv zeta in HR1.
  destruct (reports_track id rs b s q q HT HF) as [HT1 HF1]. cbv zeta in HT1, HF1.
  assert (Hk3 : Forall (known cs1) (concat batches)).
  { assert (Hlen : (length cs <= length cs1)%nat).
    { apply Nat.le_ngt. intros Hlt. destruct (lookup_lt_is_Some_2 cs (length cs1) Hlt) as [t0 Ht0].
      specialize (Hcs1 (Z.of_nat (length cs1)) ltac:(lia)). rewrite Nat2Z.id, Ht0 in Hcs1.
      by rewrite lookup_ge_None_2 in Hcs1 by lia. }
    eapply Forall_impl; [exact Hk2|]. unfold known. intros r Hr. lia. }
  destruct (IH cs1 (acc_run (acc_batch_ops id rs) t) _ q1 _ ltac:(by rewrite Hcs1, Ht by done) HR1 HF1 Hk3 HT1) as (cs' & t' & b' & H1 & H2 & H3 & H4).
  exists cs', t', b'. split_and!; [exact H1|exact H2| |exact H4]. rewrite <- H3. unfold own. by rewrite filter_app, foldl_app.
Qed.

(** Client 1 buys three of asset 3 for 30; the dashboard sees it in two frames. *)
Definition demo_fills : list OrderStateReport :=
  [FillReport 3 (-30) (-30) 1 1 100 1 3 0 FILL; FillReport 30 (-3) (-3) 2 2 101 1 0 3 FILL].
Definition demo_app : AppState nat :=
  drain_balance_result (MkBalanceSnapshot 1 true EmptyString (account_positions (funded 1 1000 0))) app0.

Lemma live_balance_tracks_account_witness :
  exists cs' t' b', acc_Handle_batches [demo_fills] (accounts 1000 10) = Ret cs' /\ cs' !! 1%nat = Some t' /\
    balances (run_frames [([], [(0%nat, FillReport 3 (-30) (-30) 1 1 100 1 3 0 FILL)], []); ([], [], [])] demo_app) !! 1 = Some b' /\
    tracks b' (acc_GetClientState t') /\ positions b' !! 0 = Some (970, -30) /\ positions b' !! 3 = Some (3, 0).
Proof.
  destruct (live_balance_tracks_account (D := nat)
    [([], [(0%nat, FillReport 3 (-30) (-30) 1 1 100 1 3 0 FILL)], []); ([], [], [])] demo_app
    (default balance0 (balances demo_app !! 1)) [demo_fills] (accounts 1000 10) 1 (aslot_init (funded 1 1000 0)))
    as (cs' & t' & b' & H1 & H2 & H3 & H4).
  - lia.
  - reflexivity.
  - exists (funded 1 1000 0), 0. apply acc_rep_init. all: split; [reflexivity|].
    all: refine (bool_decide_unpack _ _). all: vm_compute; exact I.
  - refine (bool_decide_unpack _ _). vm_compute. exact I.
  - refine (bool_decide_unpack _ _). vm_compute. exact I.
  - vm_compute. reflexivity.
  - reflexivity.
  - assert (HN : forall i a c t, AAssetId (ameta (funded 1 1000 0)) !! i = Some a -> AConfirmed (funded 1 1000 0) !! i = Some c ->
      AAttempt (funded 1 1000 0) !! i = Some t -> positions (default balance0 (balances demo_app !! 1)) !! a = Some (c, t)).
    { intros i a c t Ha Hc Ht. do 16 (destruct i as [|i]; [vm_compute in Ha, Hc, Ht; injection Ha as <-; injection Hc as <-;
        injection Ht as <-; reflexivity|]). vm_compute in Ha. destruct i; discriminate. }
    exact HN.
  - exists cs', t', b'. split_and!; [exact H1|exact H2|exact H3|exact H4|..].
    all: vm_compute in H3; injection H3 as <-; reflexivity.
Defined.

(** ** Cancels *)

(** C40: the client cannot cancel a sell.  Take an engine after any run of requests
    that [valid_run] admits, every report and update accepted, any sell [r] that
    rests in it and any session of the client it belongs to, and the request that
    session sends to cancel it, with any id the gateway gives the request.  Its side
    is BUY, and the engine takes the order from the side the request says: it
    reports [r] as cancelled (with the cash a buy would have locked) and a depth of 0
    among the bids, but the two sides, the levels and the nodes do not change and [r]
    keeps its place; its id is forgotten, so that every further cancel is rejected;
    its node is free while it is still linked; and if [r] is the oldest order of
    the best ask, the next buy of a smaller amount that reaches its price trades with
    it. *)
Theorem client_cancel_leaves_sell_matchable z renv benv a p rs bs sb sa reqs sess i asset id r :
  sizes_ok z -> (forall n, renv n = BidAsk.Accepted) -> (forall n, benv n = BidAsk.Accepted) ->
  valid_run z (u32 a) reqs empty_book ->
  let b := (spec_run (u32 a) reqs empty_book).1.1 in
  find_order (order_key r) (asks b) = Some r -> ClientId r = client_id sess ->
  let cancel := set_OrderId id (call_order sess (Withdraw i (order_key r) asset)) in
  exists s0 s s' x, engine_init z a p rs bs sb sa = Ret s0 /\ engine_run z renv benv reqs s0 = Ret s /\
    engine_run z renv benv [cancel] s = Ret s' /\
    BidAsk.Sent (BidAsk.OutgoingOrders s') = BidAsk.Sent (BidAsk.OutgoingOrders s) ++ number (BidAsk.ReportSequenceId s)
      [FillReport 0 0 (Amount r * Price r) 0 (ClientId r) (OrderId r) 0 (u32 a) 0 CANCEL] /\
    BidAsk.Sent (BidAsk.OutgoingBook s') = BidAsk.Sent (BidAsk.OutgoingBook s) ++
      number_up (BidAsk.OrderBookSequenceId s) [FillUpdate 0 0 (Price r) (u32 a) ORDER_BOOK_UPDATE_BUY] /\
    (BidAsk.Bid s' = BidAsk.Bid s /\ BidAsk.Ask s' = BidAsk.Ask s) /\
    (OrderBook.heap (BidAsk.store s') = OrderBook.heap (BidAsk.store s) /\
     OrderBook.levels (BidAsk.store s') = OrderBook.levels (BidAsk.store s)) /\
    OrderBook.resting (OrderBook.heap (BidAsk.store s')) x = r /\
    (exists free, SingleThreadedPool.pool_rep (NodePoolSize z) (OrderBook.OrderNodePool (BidAsk.store s')) (free ++ [x])) /\
    (exists s'', engine_run z renv benv [cancel] s' = Ret s'' /\
       BidAsk.Sent (BidAsk.OutgoingOrders s'') = BidAsk.Sent (BidAsk.OutgoingOrders s') ++
         number (BidAsk.ReportSequenceId s') [reject_report cancel]) /\
    (forall o os rest, asks b = (Price r, r :: os) :: rest -> Action o = EXECUTE -> Side o = BUY ->
       0 < Amount o < Amount r -> Price r <= Price o ->
       exists s'', engine_run z renv benv [o] s' = Ret s'' /\
         BidAsk.Sent (BidAsk.OutgoingOrders s'') = BidAsk.Sent (BidAsk.OutgoingOrders s') ++
           number (BidAsk.ReportSequenceId s')
             [buyer_report (u32 a) (Price r) (Amount o) 0 o; seller_report (u32 a) (Price r) (Amount o) (Amount r - Amount o) r]).
Proof.
  intros Hz H1 H2 Hv b Hf Hcl cancel.
  destruct (engine_run_ok z renv benv a p rs bs sb sa reqs Hz H1 H2 Hv) as (s0 & s & G0 & G1 & G2).
  pose proof (spec_run_wf (u32 a) reqs empty_book empty_book_wf (BidAskProofs.admissible_pos _ _ _ _ _ _ Hv)) as Hwf.
  assert (Ha : BidAsk.MarketAssetId s = u32 a) by (exact (engine_run_asset z renv benv a p rs bs sb sa reqs s0 s Hz H1 H2 Hv G0 G1)).
  unfold b in *. clear b. destruct (spec_run (u32 a) reqs empty_book) as [[b reps] ups]. cbn [fst] in *. destruct G2 as [Hh _].
  destruct (engine_other_side z renv benv s b cancel r Hz H1 H2 Hh Hwf eq_refl Hf Hcl eq_refl)
    as (s' & x & G3 & HP & (s2 & G4 & E2) & HT).
  exists s0, s, s', x. do 3 (split; [done|]). destruct HP as [E Hbk _ Hhp Hlv Hx _ (free & _ & _ & Hfree)].
  destruct (BidAskProofs.emits_accepted _ _ _ _ _ _ H1 H2 E) as [S1 S2]. rewrite Ha in S1, S2.
  split; [exact S1|]. split; [exact S2|]. split; [exact (conj (Hbk BUY) (Hbk SELL))|]. split; [done|]. split; [by rewrite Hhp|].
  split; [by exists free|]. split.
  - exists s2. split; [exact G4|]. exact (proj1 (BidAskProofs.emits_accepted _ _ _ _ _ _ H1 H2 E2)).
  - intros o os rest Hb Ho Hsd Hq Hp. destruct (HT o os rest Hb Ho Hsd Hq) as (s3 & left & G5 & E3).
    { rewrite Hsd. by apply Z.leb_le. }
    exists s3. split; [exact G5|]. rewrite (proj1 (BidAskProofs.emits_accepted _ _ _ _ _ _ H1 H2 E3)), Ha.
    unfold trade_reports. by rewrite Hsd.
Qed.

Definition cancel_session : Session := set_credentials 9 [] session0.

Lemma client_cancel_leaves_sell_matchable_witness :
  exists s0 s s' s'', engine_init demo_sizes 3 100 0 0 1 2 = Ret s0 /\
    engine_run demo_sizes accept_all accept_all [demo_sell 1 9 100 10] s0 = Ret s /\
    engine_run demo_sizes accept_all accept_all [set_OrderId 5 (call_order cancel_session (Withdraw 2 1 3))] s = Ret s' /\
    engine_run demo_sizes accept_all accept_all [demo_buy 3 7 100 4] s' = Ret s'' /\
    BidAsk.Sent (BidAsk.OutgoingOrders s'') = BidAsk.Sent (BidAsk.OutgoingOrders s') ++
      [FillReport 4 (-400) (-400) 2 7 3 0 3 0 FILL; FillReport 400 (-4) (-4) 3 9 1 0 0 3 PARTIAL_FILL].
Proof.
  destruct (client_cancel_leaves_sell_matchable demo_sizes accept_all accept_all 3 100 0 0 1 2 [demo_sell 1 9 100 10]
    cancel_session 2 3 5 (demo_sell 1 9 100 10)) as (s0 & s & s' & x & G0 & G1 & G2 & S1 & _ & _ & _ & _ & _ & _ & HT).
  - exact demo_sizes_ok.
  - done.
  - done.
  - refine (bool_decide_unpack _ _). vm_compute. exact I.
  - vm_compute. reflexivity.
  - reflexivity.
  - destruct (HT (demo_buy 3 7 100 4) [] []) as (s'' & G3 & S3); [vm_compute; reflexivity|done|done|cbn; lia|cbn; lia|].
    exists s0, s, s', s''. do 4 (split; [assumption|]). rewrite S3. f_equal.
    vm_compute in G0. injection G0 as <-. vm_compute in G1. injection G1 as <-. vm_compute in G2. injection G2 as <-.
    vm_compute. reflexivity.
Defined.

(** A buy of the whole amount fills the order the client was told is cancelled. *)
Example cancelled_sell_is_filled :
  report_trace demo_sizes
    [demo_sell 1 9 100 10; call_order cancel_session (Withdraw 2 1 3); demo_buy 3 7 100 10] =
  Some [(1, ADD); (1, CANCEL); (3, FILL); (1, FILL)].
Proof. vm_compute. reflexivity. Qed.
