(* ===== verification/Exchange.v ===== *)
(** The whole path of a report: a run of the matching engine, its emitter, the wire,
    the receiver of the account service, and the accounts.

    Main result: trading conserves every asset over all accounts, with the reports
    carried by packets that arrive in any order within the receiver's window. *)

From stdpp Require Import numbers.
From S2P Require Import Prelude WireTypes Codec SpscQueue StoragePool Consumer Buffers BookSpec BidAsk Engine AccountStates AccountService.
From S2P Require Import WireFormats UdpMulticast UdpReceiver Multicast System Dashboard.

(** The objects the receiver passed on, read as the structs they hold. *)
Definition decode_reports (bss : list (list Z)) : option (list OrderStateReport) := mapM (fun bs => fst <$> dec report_codec bs) bss.

Lemma decode_enc rs : Forall (fits report_codec) rs -> decode_reports (enc report_codec <$> rs) = Some rs.
Proof.
  unfold decode_reports. induction 1 as [|r rs Hr _ IH]; [done|]. rewrite fmap_cons. cbn [mapM].
  pose proof (dec_enc report_codec r [] Hr) as HD. rewrite app_nil_r in HD. rewrite HD. cbn [fmap option_fmap option_map fst mbind option_bind].
  by rewrite IH.
Qed.

(** The emitter numbers the reports anew. *)
Lemma stamped_number m n rs : UdpMulticast.stamped m (number n rs) = number m rs.
Proof. revert m n. induction rs as [|r rs IH]; intros m n; [done|]. cbn [number UdpMulticast.stamped]. by rewrite IH. Qed.

Section Exchange.
Context `{dk : Dpdk} `{!DpdkLaws dk}.
Context (BatchSize RingBufferSize PoolSize k kp : nat) (HSize : RingBufferSize = (2 ^ k)%nat) (Hk : (k < 32)%nat).
Context (HPool : PoolSize = (2 ^ kp)%nat) (Hkp : (kp <= 62)%nat) (HPP : (0 < ObjectsPerPacket (T := OrderStateReport))%nat).

(** C4: trading neither creates nor destroys anything.  Take a run of the
    matching engine that [valid_run] admits (room in pools and maps, and no cancel
    that names the wrong side, amount 0, id in use or sentinel price) in which every
    report and update is accepted by its pool and queue; let its emitter send the
    reports in whatever batches, each packet being allocated and taken by the card,
    and let the packets come to the receiver of the account service in any order
    within its window.  What the receiver passes on are the reports of the run, in
    order; the account service applies them, in any batches, without a fault; and for
    every asset, cash included, the total held by all accounts is what it was, modulo
    the 64 bits of the amounts, provided that every client the reports name has an
    account with one position per asset it trades. *)
Theorem exchange_conserves_assets z renv benv a p rs bs sb sa reqs :
  sizes_ok z -> (forall n, renv n = Accepted) -> (forall n, benv n = Accepted) -> valid_run z (u32 a) reqs empty_book ->
  exists s0 s, engine_init z a p rs bs sb sa = Ret s0 /\ engine_run z renv benv reqs s0 = Ret s /\
    forall card srcIp dstIp srcPort dstPort objects out,
      mac_ok card -> Forall (batch_ok BatchSize) out -> (concat out).*2 = Sent (OutgoingOrders s) ->
      Z.of_nat (length (concat out)) <= 2 ^ 32 - 1 ->
      let sent := UdpMulticast.stamped 0 (concat out).*2 in
      let n := Z.of_nat (length sent) in
      exists e0 e', emitter_init 0 0 card srcIp dstIp srcPort dstPort objects = Ret e0 /\
        emit BatchSize (fun _ => true) (MTU + width rte_ether_hdr) (fun _ k => k) out e0 = Ret e' /\
        carry_ranges (stream no_report sent) n dstIp dstPort (OnWire e') /\
        forall A fl r, receiving RingBufferSize PoolSize (fun _ => true) n (stream no_report sent) A fl r ->
          (forall i, 0 <= i < n -> i ∈ A) -> decode_reports (Passed r) = Some sent /\
          forall batches cs, concat batches = sent -> accounts_ok cs -> Forall (creditable cs) sent ->
            exists cs', acc_Handle_batches batches cs = Ret cs' /\
              forall asset, cong64 (accounts_held asset cs') (accounts_held asset cs).
Proof.
  intros Hz H1 H2 Hv. destruct (engine_run_ok z renv benv a p rs bs sb sa reqs Hz H1 H2 Hv) as (s0 & s & G1 & G2 & G3).
  exists s0, s. split; [done|]. split; [done|]. intros card srcIp dstIp srcPort dstPort objects out Hcard HB Hout Hn sent n.
  assert (HS : Sent (OutgoingOrders s) = number (u32 rs) (spec_run (u32 a) reqs empty_book).1.2)
    by (destruct (spec_run (u32 a) reqs empty_book) as [[b reps] ups]; apply G3).
  assert (Hfit : Forall (fits report_codec) (concat out).*2) by (rewrite Hout, HS; apply run_reports_fit).
  destruct (emission_reaches BatchSize RingBufferSize PoolSize k kp HSize Hk HPool Hkp no_report card srcIp dstIp srcPort dstPort objects out
    HPP Hcard HB Hfit Hn) as (e0 & e' & E1 & E2 & E3 & E4).
  exists e0, e'. split_and!; [exact E1|exact E2|exact E3|]. intros A fl r HR HA. rewrite (E4 A fl r HR HA).
  split; [apply decode_enc; exact (stamped_fits (T := OrderStateReport) 0 _ Hfit)|].
  intros batches cs Hc Hok Hcr. rewrite <- Hc in Hcr.
  destruct (run_conserves (u32 a) reqs 0 batches cs) as (cs' & HC & _ & Hh); [|done|done|by exists cs'].
  rewrite Hc. unfold sent. by rewrite Hout, HS, stamped_number.
Qed.
End Exchange.

(** ** A concrete run

    The reports of a short run go out in one batch; its packets arrive in the
    opposite order, and ten accounts are updated in two batches. *)

Definition numbered (rs : list OrderStateReport) : list (nat * OrderStateReport) := zip (seq 0 (length rs)) rs.

Lemma exchange_conserves_assets_witness :
  exists rs e0 e' r cs', engine_reports demo_requests = Ret rs /\
    emitter_init 0 0 demo_card 0x0A000001 0xEF010101 4000 5000 ∅ = Ret e0 /\
    emit (dk := demo_dpdk) 16 (fun _ => true) 1514 (fun _ k => k) [numbered rs] e0 = Ret e' /\
    demo_Receive (on_arrival (reverse (OnWire e'))) demo_receiver = Ret r /\ decode_reports (Passed r) = Some rs /\
    acc_Handle_batches [take 3 rs; drop 3 rs] ten_accounts = Ret cs' /\
    cong64 (accounts_held 0 cs') 50000 /\ cong64 (accounts_held 3 cs') 1000.
Proof.
  destruct (exchange_conserves_assets (dk := demo_dpdk) 16 64 64 6 6 eq_refl ltac:(lia) eq_refl ltac:(lia) ltac:(vm_compute; lia)
    demo_sizes accept_all accept_all 3 100 0 0 1 2 demo_requests) as (s0 & s & G1 & G2 & HC);
    [exact demo_sizes_ok|done|done|exact demo_valid|].
  assert (HE : engine_reports demo_requests = Ret (Sent (OutgoingOrders s))).
  { unfold engine_reports. rewrite G1. cbn [mbind result_bind]. by rewrite G2. }
  assert (HF : Forall (fits report_codec) (Sent (OutgoingOrders s))).
  { destruct (engine_run_ok demo_sizes accept_all accept_all 3 100 0 0 1 2 demo_requests demo_sizes_ok) as (s0' & s' & G1' & G2' & G3);
      [done|done|exact demo_valid|]. rewrite G1 in G1'. injection G1' as <-. rewrite G2 in G2'. injection G2' as <-.
    pose proof (run_reports_fit (u32 3) demo_requests empty_book (u32 0)) as HF.
    destruct (spec_run (u32 3) demo_requests empty_book) as [[b reps] ups]. destruct G3 as (_ & -> & _). exact HF. }
  revert HE HF HC. generalize (Sent (OutgoingOrders s)). intros rs HE HF HC. clear G1 G2.
  destruct (ex_intro (fun l => rs = l /\ engine_reports demo_requests = Ret l) rs (conj eq_refl HE)) as (l & Hl & HE').
  vm_compute in HE'. injection HE' as HE'.
  destruct (HC demo_card 0x0A000001 0xEF010101 4000 5000 ∅ [numbered rs]) as (e0 & e' & E1 & E2 & E3 & E4).
  - exact demo_card_ok.
  - apply Forall_singleton. subst l rs. split; [refine (bool_decide_unpack _ _); vm_compute; exact I|vm_compute; lia].
  - subst l rs. vm_compute. reflexivity.
  - subst l rs. vm_compute. congruence.
  - assert (H2 : (concat [numbered rs]).*2 = rs) by (subst l rs; vm_compute; reflexivity). rewrite H2 in E3, E4.
    assert (H3 : UdpMulticast.stamped 0 rs = rs) by (subst l rs; vm_compute; reflexivity).
    destruct (demo_reversed rs (OnWire e') HF ltac:(subst l rs; vm_compute; lia) E3) as (r & A & fl & HR & Hrec & HA).
    destruct (E4 A fl r Hrec HA) as [HD Hacc]. rewrite H3 in HD, Hacc.
    destruct (Hacc [take 3 rs; drop 3 rs] ten_accounts) as (cs' & HB & Hh).
    + cbn [concat]. by rewrite app_nil_r, take_drop.
    + exact ten_accounts_ok.
    + subst l rs. refine (bool_decide_unpack _ _). vm_compute. exact I.
    + exists rs, e0, e', r, cs'. split_and!; [exact HE|exact E1|exact E2|exact HR|exact HD|exact HB|exact (Hh 0)|exact (Hh 3)].
Defined.
