(* ===== verification/OrderPath.v ===== *)
(** The whole path of an order: calls of a client's session, the wire, the epoll
    server of the gateway, the router and its risk check, the wire, the ingress
    server of the matching engine
    (src/market_server/matching_engine/include/order_ingress_server.hpp) and its
    execution loop.

    Main result: the engine executes exactly the orders the risk check accepted,
    in the order the client placed them. *)

From stdpp Require Import numbers.
From S2P Require Import Prelude WireTypes Codec StoragePool Consumer Buffers EpollServer BookSpec BidAsk Engine GatewayStates.
From S2P Require Import WireFormats GatewayServers TradingSession ClientSystem.
From S2P Require OrderRouter.

(** ** Batches of orders *)

(** The orders of a batch, whose memory the server filled with bytes. *)
Definition batch_orders (b : ObjectBatch Z) : option (list Order) :=
  fst <$> dec_stream order_codec (BatchSize b) (take (width order_codec * BatchSize b) (BatchData b)).

Section Batches.
Context {D : Type} (BatchLen : nat) (s : Server (D := D)).
Abbreviation batch_at := (fun x => batch_of (width order_codec) BatchLen x s).

(** Batches that hold the bytes of [os] hold the orders [os], each batch a
    segment of them. *)
Lemma batches_decode xs os :
  memory_ok (width order_codec) BatchLen s -> Forall (fits order_codec) os ->
  payload (width order_codec) BatchLen s xs = os ≫= enc order_codec ->
  exists oss, Forall2 (fun x l => batch_orders (batch_at x) = Some l) xs oss /\ concat oss = os.
Proof.
  intros Hm. revert os. induction xs as [|x xs IH]; intros os Hos Hp.
  - exists []. split; [constructor|]. cbn [concat]. destruct os as [|o os]; [done|]. exfalso.
    apply (f_equal length) in Hp. rewrite enc_stream_length in Hp by done.
    assert (0 < width order_codec)%nat by (vm_compute; lia). change (length (payload (width order_codec) BatchLen s [])) with 0%nat in Hp.
    cbn [length] in Hp. lia.
  - unfold payload in Hp. rewrite bind_cons in Hp. fold (payload (width order_codec) BatchLen s xs) in Hp.
    set (b := batch_of (width order_codec) BatchLen x s) in *.
    assert (Hn : length (take (width order_codec * BatchSize b) (BatchData b)) = (Nat.min (BatchSize b) BatchLen * width order_codec)%nat).
    { rewrite length_take. unfold b. rewrite (Hm x), Nat.mul_min_distr_l. apply Nat.mul_comm. }
    set (n := Nat.min (BatchSize b) BatchLen) in *. pose proof (take_drop n os) as Htd.
    assert (Hlo : (n <= length os)%nat).
    { apply (f_equal length) in Hp. rewrite length_app, Hn, enc_stream_length in Hp by done.
      assert (0 < width order_codec)%nat by (vm_compute; lia). nia. }
    pose proof Hos as Hsplit. rewrite <- Htd in Hsplit. apply Forall_app in Hsplit as [H1 H2].
    rewrite <- Htd, bind_app in Hp.
    assert (HL : length (take n os ≫= enc order_codec) = (n * width order_codec)%nat)
      by (rewrite enc_stream_length by done; by rewrite length_take_le).
    apply app_inj_1 in Hp as [Hp1 Hp2]; [|by rewrite HL].
    destruct (IH (drop n os) H2 Hp2) as (oss & HF & Hc). exists (take n os :: oss). split; [|cbn [concat]; by rewrite Hc].
    constructor; [|done]. fold b. unfold batch_orders. rewrite Hp1, <- (app_nil_r (_ ≫= _)), dec_stream_enc; [done|done|vm_compute; lia|].
    rewrite length_take_le by done. lia.
Qed.
End Batches.

(** ** The router

    The batches the gateway queued, consumed in order; the queue hands them over
    in the order they were pushed. *)

Section Router.
Context (st : Server (D := GatewayServer)).

Fixpoint route_batches (xs : list nat) (outs : list OrderRouter.SendOutcome) (r : OrderRouter.Router)
    : result (list OrderRouter.SendOutcome * OrderRouter.Router) :=
  match xs with
  | [] => Ret (outs, r)
  | x :: xs =>
      os ← deref (batch_orders (gw_batch x st));
      '(outs, r) ← OrderRouter.route_orders (GStates (derived st)) (BatchFd (gw_batch x st)) (Auth (gw_batch x st)) os outs r;
      route_batches xs outs r
  end.

Lemma route_batches_concat fd auth xs oss outs r :
  Forall (fun x => BatchFd (gw_batch x st) = fd /\ Auth (gw_batch x st) = auth) xs ->
  Forall2 (fun x l => batch_orders (gw_batch x st) = Some l) xs oss ->
  route_batches xs outs r = OrderRouter.route_orders (GStates (derived st)) fd auth (concat oss) outs r.
Proof.
  intros HF H2. revert outs r HF. induction H2 as [|x l xs oss Hx _ IH]; intros outs r HF; [done|].
  apply Forall_cons in HF as [[Hfd Ha] HF]. cbn [route_batches concat]. rewrite Hx, Hfd, Ha, OrderRouter.route_orders_app.
  cbn [deref mbind result_bind]. destruct (OrderRouter.route_orders _ _ _ l outs r) as [[outs1 r1]|]; [|done].
  cbn [mbind result_bind]. by apply IH.
Qed.
End Router.

#[local] Existing Instance OrderRouter.status_eq_dec.

(** The accepted orders of asset [a], as they are forwarded. *)
Definition accepted_orders (a : Z) (cs : list (OrderRouter.OrderConfirmation * Order)) : list Order :=
  (filter (fun co => OrderRouter.Status co.1 = OrderRouter.Accepted /\ AssetId co.2 = a) cs).*2.

Lemma forwarded_accepted eng f a cs :
  Forall (fun co => Fd (nth (Z.to_nat (AssetId co.2)) eng 0) = f <-> AssetId co.2 = a) cs ->
  OrderRouter.forwarded eng f cs = accepted_orders a cs ≫= enc order_codec.
Proof.
  induction 1 as [|[c o] cs Hf _ IH]; [done|]. cbn [OrderRouter.forwarded]. rewrite IH. cbn [snd] in Hf.
  unfold accepted_orders. rewrite filter_cons. cbn [fst snd].
  destruct (decide (OrderRouter.Status c = OrderRouter.Accepted /\ AssetId o = a)) as [[H1 H2]|H].
  - rewrite decide_True by (split; [exact H1|by apply Hf]). rewrite fmap_cons, bind_cons. cbn [snd].
    rewrite order_codec_bytes. reflexivity.
  - rewrite decide_False; [reflexivity|]. intros [H1 H2]. apply H. split; [exact H1|by apply Hf].
Qed.

(** Routed orders are the client's, with an id. *)
Lemma route_spec_orders s auth gw orders la ls count :
  Forall (fun co => exists o id, o ∈ orders /\ in_u32 id /\ co.2 = set_OrderId id o)
    (OrderRouter.route_spec s auth gw orders la ls count).
Proof.
  revert la ls count. induction orders as [|o orders IH]; intros la ls count; [constructor|].
  cbn [OrderRouter.route_spec]. unfold OrderRouter.route_spec1.
  destruct (OrderRouter.CheckOrderRisk s la ls o auth) as [[st la'] ls']. constructor.
  - eexists o, _. split; [left|]. split; [|reflexivity]. unfold in_u32, u32. apply Z.mod_pos_bound. lia.
  - eapply Forall_impl; [apply IH|]. intros co (o' & id & Ho & Hid & E). exists o', id. split; [by right|done].
Qed.
Lemma accepted_fit a cs orders :
  Forall order_in_range orders -> Forall (fun co => exists o id, o ∈ orders /\ in_u32 id /\ co.2 = set_OrderId id o) cs ->
  Forall (fits order_codec) (accepted_orders a cs).
Proof.
  intros Hor Hcs. rewrite Forall_forall in Hor. rewrite Forall_forall in Hcs. unfold accepted_orders. apply Forall_fmap, Forall_forall.
  intros co [_ Hco]%list_elem_of_filter. destruct (Hcs co Hco) as (o & id & Ho & Hid & E). unfold compose. rewrite E.
  apply order_fits. destruct (Hor o Ho) as (R1 & _ & R). unfold in_u32 in Hid.
  split; [exact R1|]. split; [cbn [OrderId set_OrderId]; lia|exact R].
Qed.

(** ** The engine *)

(** [OrderIngressServer]: no handler of its own. *)
Definition OrderIngressServer : Derived unit :=
  MkDerived false (fun _ d => Ret d) (fun _ d => Ret d) (fun _ _ d => Ret d) (fun b _ d => Ret (b, d)).

Lemma ingress_keeps_batches : keeps_batches OrderIngressServer (fun _ _ => True) (fun _ _ => True).
Proof. intros b fd d _ Hb. by exists b, d. Qed.

Abbreviation me_read PoolSize room :=
  (readMessage OrderIngressServer (width order_codec) 0 MeEpollReceiveBatchSize PoolSize room).
Abbreviation me_connection := (connection (D := unit) (width order_codec) (fun _ _ => True)).
Abbreviation me_memory_ok := (memory_ok (D := unit) (width order_codec) MeEpollReceiveBatchSize).
Abbreviation me_batch := (batch_of (D := unit) (width order_codec) MeEpollReceiveBatchSize).

Section EngineLoop.
Context (z : Sizes) (renv benv : nat -> Answer) (PoolSize : nat).
Context (st : Server (D := unit)).

(** Iterations of [MarketExecutionLoop] over the batches the ingress server
    queued; each is given back to the pool. *)
Fixpoint execute_batches (xs : list nat) (p : StoragePool) (s : Engine) : result (StoragePool * Engine) :=
  match xs with
  | [] => Ret (p, s)
  | x :: xs =>
      os ← deref (batch_orders (me_batch x st));
      let '(released, p) := FreeElement PoolSize x p in
      s ← engine_loop z renv benv (Some os) released s;
      execute_batches xs p s
  end.

Lemma execute_batches_run kp xs oss held p s s' :
  PoolSize = (2 ^ kp)%nat -> (kp <= 62)%nat -> pool_holds PoolSize p (xs ++ held) ->
  Forall2 (fun x l => batch_orders (me_batch x st) = Some l) xs oss ->
  engine_run z renv benv (concat oss) s = Ret s' ->
  exists p', execute_batches xs p s = Ret (p', s') /\ pool_holds PoolSize p' held.
Proof.
  intros HP Hkp Hp H2. revert p s Hp. induction H2 as [|x l xs oss Hx _ IH]; intros p s Hp HR; cbn [concat] in HR.
  - injection HR as <-. by exists p.
  - unfold engine_run in HR. rewrite run_batch_app in HR. cbn [execute_batches]. rewrite Hx. cbn [deref mbind result_bind].
    destruct (free_one PoolSize PoolSize kp kp HP Hkp HP Hkp x p (xs ++ held) Hp) as (p1 & -> & Hp1).
    unfold engine_loop, MarketExecutionLoop. destruct (run_batch _ _ _ _ l s) as [s1|] eqn:E1; [|done].
    cbn [mbind result_bind] in HR |- *. by apply IH.
Qed.
End EngineLoop.

(** Everything the router sent for asset [a] reaches the engine: the read event of
    its ingress server returns, and the loop over the batches it queued runs the
    orders in order. *)
Lemma engine_executes_stream z renv benv PoolSize kp room fuel fd evs st held orders s s' :
  PoolSize = (2 ^ kp)%nat -> (kp <= 62)%nat -> (forall n, room n = true) -> Forall (fits order_codec) orders ->
  event_bytes evs = orders ≫= enc order_codec -> aligned (width order_codec) 0 evs = true ->
  me_connection st fd [] -> me_memory_ok st -> pool_holds PoolSize (SPool st) held ->
  (length held + length orders < PoolSize)%nat -> (length (event_bytes evs) < fuel)%nat ->
  engine_run z renv benv orders s = Ret s' ->
  exists st' xs p', me_read PoolSize room fuel fd evs st = Ret ([], st') /\ Outgoing st' = Outgoing st ++ xs /\
    execute_batches z renv benv PoolSize st' xs (SPool st') s = Ret (p', s') /\ pool_holds PoolSize p' held /\
    me_connection st' fd [].
Proof.
  intros HP Hkp Hroom Hfit Hev Hal Hc Hm Hp Hlen Hf HR.
  assert (Hbytes : length (event_bytes evs) = (length orders * width order_codec)%nat) by (by rewrite Hev, enc_stream_length).
  destruct (readMessage_ok OrderIngressServer (width order_codec) 0 MeEpollReceiveBatchSize PoolSize room kp HP Hkp
    ltac:(vm_compute; lia) ltac:(vm_compute; lia) (fun _ _ => True) (fun _ _ => True) ingress_keeps_batches Hroom
    fuel fd evs st [] held Hc Hm Hp (fun H : false = true => ltac:(discriminate)))
    as (st' & xs & q' & E1 & Ho & Hc' & Hpay & _ & Hp' & Hm' & _).
  { cbn [length]. rewrite Nat.add_0_l, Hbytes, Nat.div_mul by (vm_compute; lia). done. }
  { done. }
  { done. }
  assert (Hq' : q' = []).
  { apply (payload_rest (width order_codec) MeEpollReceiveBatchSize PoolSize kp HP Hkp ltac:(vm_compute; lia)
      ltac:(vm_compute; lia) st' xs q' (length orders) Hm'); [apply Hc'|]. rewrite Hpay. exact Hbytes. }
  subst q'. rewrite app_nil_r in Hpay. cbn [app] in Hpay. rewrite Hev in Hpay.
  destruct (batches_decode MeEpollReceiveBatchSize st' xs orders Hm' Hfit Hpay) as (oss & H2 & Hcat).
  rewrite <- Hcat in HR.
  destruct (execute_batches_run z renv benv PoolSize st' kp xs oss held (SPool st') s s' HP Hkp Hp' H2 HR) as (p' & HX & Hp2).
  exists st', xs, p'. by split_and!.
Qed.

(** ** From the client to the book *)

Section OrderPath.
Context (GwPool gkp MePool mkp : nat) (HGP : GwPool = (2 ^ gkp)%nat) (Hgkp : (gkp <= 62)%nat).
Context (HMP : MePool = (2 ^ mkp)%nat) (Hmkp : (mkp <= 62)%nat).
Context (req dis groom mroom : nat -> bool) (Hgroom : forall n, groom n = true) (Hmroom : forall n, mroom n = true).

(** C5: every order the gateway accepts is executed, and nothing else.  A
    connected session on a network that takes its bytes places and cancels orders; the
    bytes come to the gateway in aligned pieces (none ends inside a message after
    completing another: the servers lose the framing of such a stream); the router
    takes the batches the gateway queued, checks each order against the client's
    published state, numbers and forwards it, each order having a connected engine
    and every send going through; the bytes it sends to the engine of asset [a] come
    to the engine's ingress server, again in aligned pieces; the execution loop takes
    the batches queued there.  Then every call reports success, no stage faults before
    the engine, and every order has one confirmation, in order.  And if the orders of
    asset [a] that the risk check accepted are a sequence that [valid_run] admits and
    every report and update is accepted, the engine executes exactly them, in the
    order of the calls: its book and the reports and updates it queued are those of
    price-time priority matching on them.  ([valid_run] excludes the cancels of
    resting sells, which the client sends with the side BUY; what becomes of those is
    C40.) *)
Theorem orders_reach_book send calls sess a f t z renv benv s b :
  send_contract send -> (forall i n, (0 < n)%nat -> 0 < send i n) -> sstate sess = SConnected -> in_u32 (client_id sess) ->
  Forall call_ok calls -> let orders := call_order sess <$> calls in
  sizes_ok z -> (forall n, renv n = Accepted) -> (forall n, benv n = Accepted) -> holds z s b ->
  exists sess', do_calls send calls sess = Ret (replicate (length calls) true, sess') /\
  forall fuel fd evs gst gheld r outs la ls,
    wire (sock sess') = wire (sock sess) ++ event_bytes evs -> aligned (width order_codec) 0 evs = true ->
    let cs := GStates (derived gst) in
    connection (width order_codec) (fun fd d => GStates d = cs /\ cs !! Z.to_nat fd = Some t) gst fd [] -> gw_memory_ok gst ->
    FirstMessage gst !! Z.to_nat fd = Some false -> pool_holds GwPool (SPool gst) gheld ->
    (length gheld + length calls < GwPool)%nat -> (length (event_bytes evs) < fuel)%nat ->
    fd < Z.of_nat GatewayMaxClients -> GetClientAuth t <> 0 ->
    OrderRouter.ready r -> Forall (OrderRouter.routable (OrderRouter.MatchingEngines r)) orders ->
    Forall (fun o => Fd (nth (Z.to_nat (AssetId o)) (OrderRouter.MatchingEngines r) 0) = f <-> AssetId o = a) orders ->
    Forall OrderRouter.works outs -> (length calls * OrderRouter.sizeof_Order <= length outs)%nat ->
    OrderRouter.LocalAttempt r !! Z.to_nat fd = Some la -> OrderRouter.LocalSessionId r !! Z.to_nat fd = Some ls ->
    let routed := OrderRouter.route_spec (GetClientState t) (GetClientAuth t) (OrderRouter.GatewayId r) orders la ls
                    (OrderRouter.OrdersCount r) in
    let accepted := accepted_orders a routed in
    exists gst' xs outs' r', gw_read GwPool req dis groom fuel fd evs gst = Ret ([], gst') /\ Outgoing gst' = Outgoing gst ++ xs /\
      route_batches gst' xs outs r = Ret (outs', r') /\
      OrderRouter.Confirmations r' = OrderRouter.Confirmations r ++ ((fun co => OrderRouter.MkMessage fd co.1) <$> routed) /\
    forall mfuel mfd mevs mst mheld,
      OrderRouter.stream f (OrderRouter.Wire r') = OrderRouter.stream f (OrderRouter.Wire r) ++ event_bytes mevs ->
      aligned (width order_codec) 0 mevs = true -> me_connection mst mfd [] -> me_memory_ok mst ->
      pool_holds MePool (SPool mst) mheld -> (length mheld + length accepted < MePool)%nat ->
      (length (event_bytes mevs) < mfuel)%nat -> valid_run z (MarketAssetId s) accepted b ->
      let '(b', reps, ups) := spec_run (MarketAssetId s) accepted b in
      exists mst' ys p' s', me_read MePool mroom mfuel mfd mevs mst = Ret ([], mst') /\ Outgoing mst' = Outgoing mst ++ ys /\
        execute_batches z renv benv MePool mst' ys (SPool mst') s = Ret (p', s') /\ pool_holds MePool p' mheld /\
        holds z s' b' /\ Sent (OutgoingOrders s') = Sent (OutgoingOrders s) ++ number (ReportSequenceId s) reps /\
        Sent (OutgoingBook s') = Sent (OutgoingBook s) ++ number_up (OrderBookSequenceId s) ups.
Proof.
  intros HC Hs HS Hid Hcalls orders Hz H1 H2 Hb. destruct (do_calls_wire send calls sess HC Hs HS) as (sess' & HD & Hw).
  exists sess'. split; [exact HD|]. intros fuel fd evs gst gheld r outs la ls Hwire Hal cs Hconn Hmem Hfm Hpool Hlen Hfuel
    Hfd Hauth HR Hrt Heng Hwk Houts Hla Hls routed accepted.
  rewrite Hw in Hwire. apply app_inv_head in Hwire.
  destruct (gateway_reads_calls _ _ sess calls GwPool gkp req dis groom fuel fd evs gst gheld
    (gateway_stamps_batches GwPool req dis cs t) Hid Hcalls HGP Hgkp Hgroom (eq_sym Hwire) Hal Hconn Hmem Hfm Hpool Hlen Hfuel)
    as (gst' & xs & ER & Ho & Hpay & Hfit & Hc' & Hm' & HJ).
  destruct (batches_decode GatewayEpollReceiveBatchSize gst' xs orders Hm' Hfit Hpay) as (oss & HF2 & Hcat).
  destruct Hc' as (Hfd0 & _ & [Hcs' Ht] & _).
  destruct (OrderRouter.route_orders_ok cs fd (GetClientAuth t) t (conj Hfd0 Hfd) Ht Hauth orders outs r la ls
    HR Hrt Hwk ltac:(unfold orders; rewrite length_fmap; exact Houts) Hla Hls) as (outs' & r' & Erun & Hconf & Hstr).
  exists gst', xs, outs', r'. split; [exact ER|]. split; [exact Ho|]. split.
  { rewrite (route_batches_concat gst' fd (GetClientAuth t) xs oss), Hcat, Hcs'; [exact Erun| |exact HF2].
    eapply Forall_impl; [exact HJ|]. intros x (Hx1 & _ & Hx2). by split. }
  split; [exact Hconf|]. intros mfuel mfd mevs mst mheld Hms Hmal Hmc Hmm Hmp Hml Hmf Hv.
  pose proof (route_spec_orders (GetClientState t) (GetClientAuth t) (OrderRouter.GatewayId r) orders la ls (OrderRouter.OrdersCount r)) as Hro.
  assert (Hin : Forall order_in_range orders).
  { apply Forall_fmap. eapply Forall_impl; [exact Hcalls|]. intros c Hc. by apply call_order_in_range. }
  pose proof (accepted_fit a routed orders Hin Hro) as Hafit.
  rewrite Hstr in Hms. apply app_inv_head in Hms. rewrite (forwarded_accepted _ f a) in Hms.
  2: { rewrite Forall_forall in Heng. eapply Forall_impl; [exact Hro|]. intros co (o & id & Hoin & _ & ->). exact (Heng o Hoin). }
  pose proof (engine_run_from z renv benv s b accepted Hz H1 H2 Hb Hv) as HE.
  destruct (spec_run (MarketAssetId s) accepted b) as [[b' reps] ups]. destruct HE as (s' & Hrun & Hb' & E1 & E2).
  destruct (engine_executes_stream z renv benv MePool mkp mroom mfuel mfd mevs mst mheld accepted s s' HMP Hmkp Hmroom Hafit
    (eq_sym Hms) Hmal Hmc Hmm Hmp Hml Hmf Hrun) as (mst' & ys & p' & F1 & F2 & F3 & F4 & _).
  exists mst', ys, p', s'. by split_and!.
Qed.
End OrderPath.

(** ** A concrete path

    Client 7 has 1000 units of cash, 100 of them committed, and 20 of asset 5.  It
    offers 10 at 100, asks for 30 at 50, which it cannot pay, and buys 4 at 100. *)

Definition path_calls : list Call := [Place 1 LIMIT SELL 100 10 5; Place 2 LIMIT BUY 50 30 5; Place 3 LIMIT BUY 100 4 5].
Definition path_gateway : Server (D := GatewayServer) :=
  MkServer (replicate 8 (MkObjectBuffer (replicate 40 0) 0)) (replicate 8 false) pool4 ∅ [] 0 EAGAIN []
    (MkGateway 3 OrderRouter.ex_states [] 0 pool4 ∅ [] 0).
Definition path_ingress : Server (D := unit) :=
  MkServer (replicate 8 (MkObjectBuffer (replicate 40 0) 0)) [] pool4 ∅ [] 0 EAGAIN [] tt.
Definition path_accepted : list Order :=
  [MkOrder 100 10 1 7 10 5 LIMIT SELL EXECUTE; MkOrder 100 12 3 7 4 5 LIMIT BUY EXECUTE].

Lemma path_ingress_memory : me_memory_ok path_ingress.
Proof. intros x. unfold batch_of. cbn [Batches path_ingress]. rewrite lookup_empty. reflexivity. Qed.
Lemma path_gateway_memory : gw_memory_ok path_gateway.
Proof. intros x. unfold batch_of. cbn [Batches path_gateway]. rewrite lookup_empty. reflexivity. Qed.
Lemma path_valid : valid_run demo_sizes (u32 5) path_accepted empty_book.
Proof. refine (bool_decide_unpack _ _). vm_compute. exact I. Qed.

(** What the router sends to the engine when the client's bytes are [w]. *)
Definition path_stream (w : list Z) : list Z :=
  match gw_read 4 always always always 200 4 (halves w) path_gateway with
  | Ret (_, gst) =>
      match route_batches gst (Outgoing gst) (OrderRouter.all_sent 120) OrderRouter.ex_router with
      | Ret (_, r) => OrderRouter.stream 9 (OrderRouter.Wire r)
      | Crash _ => []
      end
  | Crash _ => []
  end.

Lemma orders_reach_book_witness :
  exists sess' gst' xs outs' r' mst' ys s0 p' s',
    do_calls byte_send path_calls demo_session = Ret ([true; true; true], sess') /\
    gw_read 4 always always always 200 4 (halves (wire (sock sess'))) path_gateway = Ret ([], gst') /\ Outgoing gst' = xs /\
    route_batches gst' xs (OrderRouter.all_sent 120) OrderRouter.ex_router = Ret (outs', r') /\
    me_read 4 always 200 6 (halves (OrderRouter.stream 9 (OrderRouter.Wire r'))) path_ingress = Ret ([], mst') /\ Outgoing mst' = ys /\
    engine_init demo_sizes 5 100 0 0 1 2 = Ret s0 /\
    execute_batches demo_sizes accept_all accept_all 4 mst' ys (SPool mst') s0 = Ret (p', s') /\
    holds demo_sizes s' (spec_run 5 path_accepted empty_book).1.1.
Proof.
  destruct (engine_init_holds demo_sizes 5 100 0 0 1 2 demo_sizes_ok) as (s0 & E0 & Hh & Ha & _).
  destruct (orders_reach_book 4 2 4 2 eq_refl ltac:(lia) eq_refl ltac:(lia) always always always always (fun _ => eq_refl) (fun _ => eq_refl)
    byte_send path_calls demo_session 5 9 (slot_init OrderRouter.ex_client) demo_sizes accept_all accept_all s0 empty_book) as (sess' & HD & HC).
  - intros i n. unfold byte_send. lia.
  - intros i n Hn. unfold byte_send. lia.
  - reflexivity.
  - split; vm_compute; congruence.
  - unfold path_calls. repeat (apply Forall_cons; split; [repeat split; vm_compute; congruence|]). constructor.
  - exact demo_sizes_ok.
  - done.
  - done.
  - exact Hh.
  - assert (HS : exists w, w = wire (sock sess')) by by eexists. destruct HS as [w Hw].
    assert (Ew : w = wire (sock (match do_calls byte_send path_calls demo_session with Ret (_, s) => s | Crash _ => demo_session end)))
      by (rewrite HD; exact Hw). vm_compute in Ew.
    destruct (HC 200%nat 4 (halves w) path_gateway [] OrderRouter.ex_router (OrderRouter.all_sent 120) OrderRouter.attempts_Clear 0)
      as (gst' & xs & outs' & r' & G1 & G2 & G3 & G4 & HM).
    + rewrite <- Hw. rewrite Ew. vm_compute. reflexivity.
    + rewrite Ew. vm_compute. reflexivity.
    + split; [lia|]. split; [vm_compute; lia|]. split; [split; reflexivity|]. eexists. split; [reflexivity|exact demo_buffer_rep].
    + exact path_gateway_memory.
    + reflexivity.
    + exact pool4_holds.
    + cbn. lia.
    + rewrite Ew. vm_compute. lia.
    + vm_compute. reflexivity.
    + vm_compute. discriminate.
    + exact OrderRouter.ex_router_ready.
    + repeat constructor; vm_compute; congruence.
    + repeat constructor; vm_compute; congruence.
    + apply Forall_replicate. split; [reflexivity|by exists 24%nat].
    + vm_compute. lia.
    + reflexivity.
    + reflexivity.
    + assert (HS : exists v, v = OrderRouter.stream 9 (OrderRouter.Wire r')) by by eexists. destruct HS as [v Hv].
      assert (Ev : v = path_stream w) by (unfold path_stream; rewrite G1; cbn [app Outgoing path_gateway] in G2; rewrite G2, G3; exact Hv).
      rewrite Ew in Ev. vm_compute in Ev.
      pose proof (HM 200%nat 6 (halves v) path_ingress []) as HM'.
      replace (accepted_orders _ _) with path_accepted in HM' by (vm_compute; reflexivity). rewrite Ha in HM'.
      destruct HM' as (mst' & ys & p' & s' & F1 & F2 & F3 & F4 & F5 & _).
      * rewrite <- Hv, Ev. vm_compute. reflexivity.
      * rewrite Ev. vm_compute. reflexivity.
      * split; [lia|]. split; [vm_compute; lia|]. split; [exact I|]. eexists. split; [reflexivity|exact demo_buffer_rep].
      * exact path_ingress_memory.
      * exact pool4_holds.
      * cbn. lia.
      * rewrite Ev. vm_compute. lia.
      * exact path_valid.
      * exists sess', gst', xs, outs', r', mst', ys, s0, p', s'. rewrite <- Hw, <- Hv.
        split_and!; [exact HD|exact G1|exact G2|exact G3|exact F1|exact F2|exact E0|exact F3|exact F5].
Defined.

(** ** Ids of several gateways *)

(** The confirmation keeps 32 bits of the id, and the order gets what it keeps:
    the gateway's number, in the top 16 bits, is lost. *)
Lemma order_id_is_count g n : u32 (OrderRouter.full_order_id g n) = u32 n.
Proof.
  unfold OrderRouter.full_order_id, OrderRouter.COUNTER_MASK, u32, u64. rewrite <- !Z.land_ones by lia. apply Z.bits_inj'. intros i Hi.
  rewrite !Z.land_spec, Z.lor_spec, !Z.land_spec. change (2 ^ 48 - 1) with (Z.ones 48).
  destruct (Z.ltb_spec i 32).
  - rewrite Z.shiftl_spec_low by lia. rewrite !Z.ones_spec_low by lia. by rewrite !andb_true_r.
  - rewrite (Z.ones_spec_high 32) by lia. by rewrite !andb_false_r.
Qed.

(** Two gateways number their orders alike. *)
Theorem gateways_share_order_ids g g' n : u32 (OrderRouter.full_order_id g n) = u32 (OrderRouter.full_order_id g' n).
Proof. by rewrite !order_id_is_count. Qed.

(** Two clients of two gateways rest a buy under the same id: the second cannot
    cancel its order, whose cancel is rejected, and once the first has cancelled
    its own nothing refers to the second order any more, which trades. *)
Theorem shared_id_order_cannot_be_cancelled :
  report_trace demo_sizes
    [demo_buy 1 7 100 10; demo_buy 1 8 99 5; demo_cancel 8 1 BUY; demo_cancel 7 1 BUY; demo_cancel 8 1 BUY; demo_sell 3 9 99 15] =
  Some [(1, ADD); (1, ADD); (99, REJECT); (1, CANCEL); (99, REJECT); (3, PARTIAL_FILL); (1, FILL); (3, ADD)].
Proof. vm_compute. reflexivity. Qed.
