(* ===== verification/TextParse.v ===== *)
(** Text: the functions of the C and C++ libraries that the services use to read
    addresses, identifiers and keys ([std::string::rfind], [substr], [std::stoi],
    [std::atoi], [std::from_chars], [sscanf] with [%2x]), and the numerals they
    read back.

    Main results: each of them reads a decimal numeral back to its value, and
    splitting at the last separator recovers the two parts. *)

From stdpp Require Import strings.
From S2P Require Import Prelude.
From Stdlib Require Import Ascii.

Abbreviation str_app := String.append (only parsing).

(** ** Positions *)

(** [s.rfind(c)]; [None] is [npos]. *)
Fixpoint rfind (c : ascii) (s : string) : option nat :=
  match s with
  | EmptyString => None
  | String d s =>
      match rfind c s with
      | Some i => Some (S i)
      | None => if Ascii.eqb d c then Some 0%nat else None
      end
  end.

(** [s.substr(n)] and [s.substr(0, n)]. *)
Fixpoint substr_from (n : nat) (s : string) : string :=
  match n, s with
  | S n, String _ s => substr_from n s
  | _, _ => s
  end.
Fixpoint substr_to (n : nat) (s : string) : string :=
  match n, s with
  | S n, String c s => String c (substr_to n s)
  | _, _ => EmptyString
  end.

(** [s.rfind(p, 0) == 0]: [s] starts with [p]. *)
Fixpoint starts_with (p s : string) : bool :=
  match p, s with
  | EmptyString, _ => true
  | String c p, String d s => Ascii.eqb c d && starts_with p s
  | _, _ => false
  end.

Lemma starts_with_app p s : starts_with p (p +:+ s) = true.
Proof. induction p as [|c p IH]; [done|]. change (Ascii.eqb c c && starts_with p (p +:+ s) = true). by rewrite Ascii.eqb_refl, IH. Qed.

Lemma substr_from_app p s : substr_from (String.length p) (p +:+ s) = s.
Proof. induction p as [|c p IH]; [by destruct s|]. exact IH. Qed.
Lemma substr_from_S p c s : substr_from (String.length p + 1) (p +:+ String c s) = s.
Proof. induction p as [|d p IH]; [by destruct s|]. exact IH. Qed.
Lemma substr_to_app p s : substr_to (String.length p) (p +:+ s) = p.
Proof. induction p as [|c p IH]; [by destruct s|]. change (String c (substr_to (String.length p) (p +:+ s)) = String c p). by rewrite IH. Qed.

(** The last occurrence is the one that nothing follows. *)
Lemma rfind_none c s : rfind c s = None <-> c ∉ String.list_ascii_of_string s.
Proof.
  induction s as [|d s IH]; cbn [rfind String.list_ascii_of_string]; [set_solver|].
  destruct (rfind c s) as [i|]; [split; [done|]; intros H; exfalso; apply not_elem_of_cons in H as [_ H]; by apply IH in H|].
  destruct (Ascii.eqb_spec d c) as [->|Hne]; rewrite not_elem_of_cons; [split; [done|]; tauto|].
  split; [|done]. intros _. split; [congruence|by apply IH].
Qed.
Lemma rfind_app p c s : c ∉ String.list_ascii_of_string s -> rfind c (p +:+ String c s) = Some (String.length p).
Proof.
  intros Hs. induction p as [|d p IH].
  - change (rfind c (String c s) = Some 0%nat). cbn [rfind]. apply rfind_none in Hs. by rewrite Hs, Ascii.eqb_refl.
  - change (rfind c (String d (p +:+ String c s)) = Some (S (String.length p))). cbn [rfind]. by rewrite IH.
Qed.

(** ** Numbers *)

Definition is_space (c : ascii) : bool := let n := Z.of_N (N_of_ascii c) in ((9 <=? n) && (n <=? 13)) || (n =? 32).
Definition digit_of (c : ascii) : option Z := let n := Z.of_N (N_of_ascii c) in if (48 <=? n) && (n <=? 57) then Some (n - 48) else None.

Fixpoint skip_spaces (s : string) : string :=
  match s with
  | String c s' => if is_space c then skip_spaces s' else s
  | EmptyString => s
  end.

(** An optional sign: whether the number is negative, and the rest. *)
Definition read_sign (s : string) : bool * string :=
  match s with
  | String c s' => if Ascii.eqb c "-" then (true, s') else if Ascii.eqb c "+" then (false, s') else (false, s)
  | EmptyString => (false, s)
  end.

(** The longest prefix of digits. *)
Fixpoint digits_of (s : string) : list Z :=
  match s with
  | String c s => match digit_of c with Some d => d :: digits_of s | None => [] end
  | EmptyString => []
  end.

Definition value (ds : list Z) : Z := foldl (fun a d => 10 * a + d) 0 ds.

(** The number [strtol] reads in base 10, before its bounds; [None] when it finds
    none. *)
Definition scan_decimal (s : string) : option Z :=
  let '(neg, s) := read_sign (skip_spaces s) in
  match digits_of s with
  | [] => None
  | ds => Some (if neg then - value ds else value ds)
  end.

(** [std::stoi]; [None] when it throws. *)
Definition stoi (s : string) : option Z :=
  z ← scan_decimal s; if (- 2 ^ 31 <=? z) && (z <? 2 ^ 31) then Some z else None.

(** [std::atoi]: [strtol] stops at the bounds of [long], the result is cut to [int]. *)
Definition atoi (s : string) : Z :=
  match scan_decimal s with
  | None => 0
  | Some z => s32 (Z.max (- 2 ^ 63) (Z.min (2 ^ 63 - 1) z))
  end.

(** [std::from_chars] to [uint32_t]: no space, no sign. *)
Definition from_chars_u32 (s : string) : option Z :=
  match digits_of s with
  | [] => None
  | ds => if value ds <? 2 ^ 32 then Some (value ds) else None
  end.

(** ** Numerals *)

Definition digit (d : Z) : ascii := ascii_of_N (Z.to_N (48 + d)).
Fixpoint numeral (ds : list Z) : string :=
  match ds with [] => EmptyString | d :: ds => String (digit d) (numeral ds) end.

(** A numeral of at least one digit. *)
Definition is_numeral (ds : list Z) : Prop := ds <> [] /\ Forall (fun d => 0 <= d <= 9) ds.

Lemma digit_N d : 0 <= d <= 9 -> Z.of_N (N_of_ascii (digit d)) = 48 + d.
Proof. intros H. unfold digit. rewrite N_ascii_embedding by lia. lia. Qed.
Lemma digit_of_digit d : 0 <= d <= 9 -> digit_of (digit d) = Some d.
Proof. intros H. unfold digit_of. rewrite digit_N by done. destruct (Z.leb_spec 48 (48 + d)), (Z.leb_spec (48 + d) 57); try lia. cbn [andb]. f_equal. lia. Qed.
Lemma digit_not_space d : 0 <= d <= 9 -> is_space (digit d) = false.
Proof. intros H. unfold is_space. rewrite digit_N by done. lia. Qed.
Lemma digit_ne d c : 0 <= d <= 9 -> digit_of c = None -> digit d <> c.
Proof. intros H Hc <-. by rewrite digit_of_digit in Hc. Qed.

(** What follows a numeral does not start with a digit. *)
Definition ends_number (s : string) : Prop := match s with String c _ => digit_of c = None | EmptyString => True end.

Lemma digits_of_numeral ds rest : Forall (fun d => 0 <= d <= 9) ds -> ends_number rest -> digits_of (numeral ds +:+ rest) = ds.
Proof.
  intros HF Hr. induction HF as [|d ds Hd _ IH].
  - change (digits_of rest = []). destruct rest as [|c rest]; [done|]. cbn in *. by rewrite Hr.
  - change (digits_of (String (digit d) (numeral ds +:+ rest)) = d :: ds). cbn [digits_of]. by rewrite digit_of_digit, IH.
Qed.

Lemma str_app_nil (s : string) : s +:+ EmptyString = s.
Proof. induction s as [|c s IH]; [done|]. change (String c (s +:+ EmptyString) = String c s). by rewrite IH. Qed.

Lemma scan_numeral ds rest : is_numeral ds -> ends_number rest -> scan_decimal (numeral ds +:+ rest) = Some (value ds).
Proof.
  intros [Hne HF] Hr. destruct ds as [|d ds]; [done|]. pose proof (Forall_inv HF) as Hd. cbv beta in Hd.
  unfold scan_decimal. change (numeral (d :: ds) +:+ rest) with (String (digit d) (numeral ds +:+ rest)).
  cbn [skip_spaces]. rewrite digit_not_space by done. cbn [read_sign].
  destruct (Ascii.eqb_spec (digit d) "-") as [E|_]; [by eapply digit_ne in E|].
  destruct (Ascii.eqb_spec (digit d) "+") as [E|_]; [by eapply digit_ne in E|].
  change (String (digit d) (numeral ds +:+ rest)) with (numeral (d :: ds) +:+ rest). by rewrite digits_of_numeral.
Qed.

Lemma stoi_numeral ds : is_numeral ds -> 0 <= value ds < 2 ^ 31 -> stoi (numeral ds) = Some (value ds).
Proof.
  intros Hn Hv. unfold stoi. rewrite <- (str_app_nil (numeral ds)), scan_numeral by done. cbn [mbind option_bind].
  destruct (Z.leb_spec (- 2 ^ 31) (value ds)), (Z.ltb_spec (value ds) (2 ^ 31)); (done || lia).
Qed.
Lemma atoi_numeral ds rest : is_numeral ds -> ends_number rest -> 0 <= value ds < 2 ^ 31 -> atoi (numeral ds +:+ rest) = value ds.
Proof.
  intros Hn Hr Hv. unfold atoi. rewrite scan_numeral by done. rewrite Z.min_r, Z.max_r by lia. apply s32_small. lia.
Qed.
Lemma from_chars_numeral ds rest :
  is_numeral ds -> ends_number rest -> from_chars_u32 (numeral ds +:+ rest) = if value ds <? 2 ^ 32 then Some (value ds) else None.
Proof. intros [Hne HF] Hr. unfold from_chars_u32. rewrite digits_of_numeral by done. by destruct ds. Qed.

(** A numeral has no separator. *)
Lemma numeral_no_char ds c : Forall (fun d => 0 <= d <= 9) ds -> digit_of c = None -> c ∉ String.list_ascii_of_string (numeral ds).
Proof.
  intros HF Hc. induction HF as [|d ds Hd _ IH]; cbn [numeral String.list_ascii_of_string]; [set_solver|].
  apply not_elem_of_cons. split; [|done]. intros E. symmetry in E. by eapply digit_ne in E.
Qed.
Lemma numeral_split p c ds :
  is_numeral ds -> digit_of c = None ->
  rfind c (p +:+ String c (numeral ds)) = Some (String.length p).
Proof. intros [_ HF] Hc. apply rfind_app. by apply numeral_no_char. Qed.
