(* ===== verification/Discovery.v ===== *)
(** Service discovery over etcd: what the services register
    (matching_engine.hpp, account_service.cpp and order_router.hpp under
    src/market_server, [EtcdClientSetUp]) and how the order router follows it
    (order_router.hpp: [connectToService], [etcdOnMEResponse],
    [etcdOnAccountServiceResponse], [EtcdClientSetUp]).

    The JSON library is a parameter ([Json], with what is used of it in
    [JsonLaws]); so are the answers of the network.  etcd is the sequence of
    changes under a prefix: a listing shows the entries after some of them, and a
    watch started at the next revision reports the others, in order.

    Main results: the router's table of engines follows the registrations, through
    the first listing and the watch, and no socket is lost. *)

From stdpp Require Import strings gmap.
From S2P Require Import Prelude WireTypes Codec Buffers WireFormats TextParse.
From S2P Require OrderRouter.
From Stdlib Require Import Ascii.

(** ** JSON objects *)

Inductive JField := FStr (s : string) | FInt (z : Z).

Fixpoint field (k : string) (fs : list (string * JField)) : option JField :=
  match fs with
  | [] => None
  | (k', f) :: fs => if String.eqb k k' then Some f else field k fs
  end.

(** [None] is an exception: of [parse], [parse_error]; of the others, [type_error]. *)
Class Json := {
  json : Type;
  parse : string -> option json;
  dump : list (string * JField) -> option string;          (* json({...}).dump() *)
  at_string : json -> string -> option string;             (* const std::string s = val[key] *)
  at_uint32 : json -> string -> option Z;                  (* val[key].get<uint32_t>() *)
  value_string : json -> string -> string -> option string; (* val.value(key, text) *)
  value_int : json -> string -> Z -> option Z              (* val.value(key, number) *)
}.

(** ASCII text, which [dump] accepts. *)
Definition plain (s : string) : Prop := Forall (fun c => (Ascii.N_of_ascii c < 128)%N) (String.list_ascii_of_string s).
Definition plain_fields (fs : list (string * JField)) : Prop :=
  NoDup fs.*1 /\ Forall (fun kf => plain kf.1 /\ match kf.2 with FStr s => plain s | FInt _ => True end) fs.

Class JsonLaws (J : Json) : Prop := {
  (* what is printed is read back, field by field *)
  dump_parse fs : plain_fields fs -> exists v j, dump fs = Some v /\ parse v = Some j /\
    (forall k s, field k fs = Some (FStr s) -> at_string j k = Some s /\ forall d, value_string j k d = Some s) /\
    (forall k z, field k fs = Some (FInt z) ->
      (0 <= z < 2 ^ 32 -> at_uint32 j k = Some z) /\ (- 2 ^ 31 <= z < 2 ^ 31 -> forall d, value_int j k d = Some z)) /\
    (forall k, field k fs = None -> (forall d, value_string j k d = Some d) /\ forall d, value_int j k d = Some d);
  (* the empty text is not a document *)
  parse_empty : parse "" = None
}.

(** ** Registrations *)

Definition Env : Type := string -> option string.
(** [std::getenv(k) ?: d] *)
Definition getenv (env : Env) (k d : string) : string := default d (env k).

Section Registrations.
Context {J : Json}.

(** The key and the value each service writes. *)
Definition engine_registration (env : Env) : option (string * string) :=
  let symbol := getenv env "SYMBOL" "1" in
  let listen := getenv env "LISTEN_ADDR" "127.0.0.1:8080" in
  v ← dump [("addr", FStr listen); ("asset_id", FInt (atoi symbol)); ("status", FStr "active")];
  Some ("/matching-engines/" +:+ symbol, v).

Definition account_registration (env : Env) : option (string * string) :=
  let listen := getenv env "LISTEN_ADDR" "127.0.0.1:8082" in
  v ← dump [("addr", FStr listen); ("status", FStr "active")];
  Some ("/account-service/0", v).

Definition gateway_registration (env : Env) : option (string * string) :=
  let machine_id := getenv env "MACHINE_ID" "0" in
  let listen := getenv env "LISTEN_ADDR" "localhost:8081" in
  v ← dump [("ip", FStr listen); ("status", FStr "active")];
  Some ("/socket-gateways/" +:+ machine_id, v).
End Registrations.

(** ** The router *)

Inductive EventType := PUT | DELETE_ | INVALID.
Record Event := MkEvent { event_type : EventType; kv_key : string; kv_value : string }.
Record Response := MkResponse { error_code : Z; events : list Event }.

(** What [socket] and [connect] answer; the socket does not block. *)
Inductive ConnectResult := NoSocket | Refused (fd : Z) | Connected (fd : Z) | InProgress (fd : Z).

(** [Sockets] are the sockets opened and not closed, with their peers;
    [Handshakes] what [send] took, in order. *)
Record Watch := MkWatch {
  MatchingEngines : list Z;             (* std::array<VersionedFd, MaxAssets> *)
  AccountFd : Z;                        (* VersionedFd & *)
  Sockets : gmap Z (string * Z);
  Connects : nat;
  Handshakes : list (Z * list Z)
}.

Implicit Type w : Watch.
Definition set_table (m : list Z) w : Watch := MkWatch m (AccountFd w) (Sockets w) (Connects w) (Handshakes w).
Definition set_account (v : Z) w : Watch := MkWatch (MatchingEngines w) v (Sockets w) (Connects w) (Handshakes w).
Definition close (fd : Z) w : Watch :=
  MkWatch (MatchingEngines w) (AccountFd w) (delete fd (Sockets w)) (Connects w) (Handshakes w).
Definition opened (fd : Z) (peer : string * Z) w : Watch :=
  MkWatch (MatchingEngines w) (AccountFd w) (<[fd := peer]> (Sockets w)) (S (Connects w)) (Handshakes w).
Definition tried w : Watch := MkWatch (MatchingEngines w) (AccountFd w) (Sockets w) (S (Connects w)) (Handshakes w).
Definition log_handshake (fd : Z) (bs : list Z) w : Watch :=
  MkWatch (MatchingEngines w) (AccountFd w) (Sockets w) (Connects w) (Handshakes w ++ [(fd, bs)]).

(** An exception in a function that is [noexcept], or that nothing catches. *)
Definition thrown {A} (o : option A) : result A := match o with Some a => Ret a | None => Crash Terminate end.

Section Router.
Context {J : Json} (env : Env).
(* the answer to the n-th connection, with the descriptors in use *)
Context (net : nat -> gset Z -> string -> Z -> ConnectResult).

Definition connectToService (service_addr : string) w : result (Z * Watch) :=
  match rfind ":"%char service_addr with
  | None => Ret (-1, w)
  | Some colon =>
      let ip := substr_to colon service_addr in
      port ← thrown (stoi (substr_from (colon + 1) service_addr));
      match net (Connects w) (dom (Sockets w)) ip (u16 port) with
      | NoSocket => Ret (-1, tried w)
      | Refused fd => Ret (-1, close fd (opened fd (ip, u16 port) w))
      | Connected fd | InProgress fd => Ret (fd, opened fd (ip, u16 port) w)
      end
  end.

(** [SwitchFd] of a slot, and the old descriptor closed. *)
Definition replace_engine (symbol_id newFd : Z) w : result Watch :=
  v ← OrderRouter.at_ (MatchingEngines w) symbol_id;
  let w := set_table (<[Z.to_nat symbol_id := SwitchFd newFd v]> (MatchingEngines w)) w in
  Ret (if Fd v =? -1 then w else close (Fd v) w).

Definition on_me_event (ev : Event) w : result Watch :=
  match event_type ev with
  | PUT =>
      val ← thrown (parse (kv_value ev));
      service_addr ← thrown (at_string val "addr");
      symbol_id ← thrown (at_uint32 val "asset_id");
      '(newFd, w) ← connectToService service_addr w;
      replace_engine symbol_id newFd w
  | DELETE_ =>
      let key := kv_key ev in
      n ← thrown (stoi (substr_from (match rfind "/"%char key with Some i => i + 1 | None => 0 end) key));
      replace_engine (u32 n) (-1) w
  | INVALID => Ret w
  end.

Fixpoint on_me_events (evs : list Event) w : result Watch :=
  match evs with
  | [] => Ret w
  | ev :: evs => w ← on_me_event ev w; on_me_events evs w
  end.

Definition etcdOnMEResponse (resp : Response) w : result Watch :=
  if negb (error_code resp =? 0) then Ret w else on_me_events (events resp) w.

(** The loop that sends the handshake; on a descriptor that is -1 [send] fails.
    [false]: given up. *)
Fixpoint send_handshake (outs : list OrderRouter.SendReturn) (fd : Z) (data : list Z) (totalSent : nat) w
    : result (bool * list OrderRouter.SendReturn * Watch) :=
  if (length data <=? totalSent)%nat then Ret (true, outs, w)
  else if fd =? -1 then Ret (false, outs, w)
  else
    match outs with
    | [] => Crash Blocked
    | OrderRouter.Sent n :: outs =>
        let k := OrderRouter.taken n (length data - totalSent) in
        send_handshake outs fd data (totalSent + k) (log_handshake fd (take k (drop totalSent data)) w)
    | OrderRouter.Interrupted :: outs => send_handshake outs fd data totalSent w
    | OrderRouter.Failed :: outs => Ret (false, outs, w)
    end.

Definition handshake_bytes (machine_id : Z) : list Z := enc handshake_codec (u16 machine_id).

(** [false]: the handler returned in the middle of the response. *)
Definition on_account_event (ev : Event) (outs : list OrderRouter.SendReturn) w
    : result (bool * list OrderRouter.SendReturn * Watch) :=
  match event_type ev with
  | PUT =>
      val ← thrown (parse (kv_value ev));
      account_addr ← thrown (at_string val "addr");
      '(newFd, w) ← connectToService account_addr w;
      id ← thrown (stoi (getenv env "MACHINE_ID" "0"));
      '(ok, outs, w) ← send_handshake outs newFd (handshake_bytes id) 0 w;
      if negb ok then Ret (false, outs, w)
      else
        let oldFd := Fd (AccountFd w) in
        let w := set_account (SwitchFd newFd (AccountFd w)) w in
        Ret (true, outs, if oldFd =? -1 then w else close oldFd w)
  | DELETE_ =>
      let oldFd := Fd (AccountFd w) in
      let w := set_account (SwitchFd (-1) (AccountFd w)) w in
      Ret (true, outs, if oldFd =? -1 then w else close oldFd w)
  | INVALID => Ret (true, outs, w)
  end.

Fixpoint on_account_events (evs : list Event) (outs : list OrderRouter.SendReturn) w
    : result (list OrderRouter.SendReturn * Watch) :=
  match evs with
  | [] => Ret (outs, w)
  | ev :: evs =>
      '(more, outs, w) ← on_account_event ev outs w;
      if (more : bool) then on_account_events evs outs w else Ret (outs, w)
  end.

Definition etcdOnAccountServiceResponse (resp : Response) (outs : list OrderRouter.SendReturn) w
    : result (list OrderRouter.SendReturn * Watch) :=
  if negb (error_code resp =? 0) then Ret (outs, w) else on_account_events (events resp) outs w.

(** The engines found by the first listing. *)
Fixpoint connect_engines (values : list string) w : result Watch :=
  match values with
  | [] => Ret w
  | value :: values =>
      val ← thrown (parse value);
      curAddr ← thrown (at_string val "addr");
      symbol_id ← thrown (at_uint32 val "asset_id");
      '(fd, w) ← connectToService curAddr w;
      w ← (if fd =? -1 then Ret w
           else v ← OrderRouter.at_ (MatchingEngines w) symbol_id;
                Ret (set_table (<[Z.to_nat symbol_id := SwitchFd fd v]> (MatchingEngines w)) w));
      connect_engines values w
  end.

(** The account services found by the first listing; [false]: given up. *)
Fixpoint connect_accounts (id : Z) (values : list string) (outs : list OrderRouter.SendReturn) w
    : result (bool * list OrderRouter.SendReturn * Watch) :=
  match values with
  | [] => Ret (true, outs, w)
  | value :: values =>
      val ← thrown (parse value);
      curAddr ← thrown (at_string val "addr");
      '(fd, w) ← connectToService curAddr w;
      '(ok, outs, w) ← send_handshake outs fd (handshake_bytes id) 0 w;
      if negb ok then Ret (false, outs, w)
      else connect_accounts id values outs (if fd =? -1 then w else set_account (SwitchFd fd (AccountFd w)) w)
  end.

(** [engines] and [accounts] are the values listed under the two prefixes.  The
    result: what is registered, whether the watchers are started. *)
Definition EtcdClientSetUp (engines accounts : list string) (outs : list OrderRouter.SendReturn) w
    : result ((string * string) * bool * list OrderRouter.SendReturn * Watch) :=
  kv ← thrown (gateway_registration env);
  w ← connect_engines engines w;
  id ← thrown (stoi (getenv env "MACHINE_ID" "0"));
  '(ok, outs, w) ← connect_accounts id accounts outs w;
  Ret (kv, ok, outs, w).

(** The members before the constructor's body. *)
Definition watch_init : Watch := MkWatch (replicate (Z.to_nat MaxAssets) vfd_default) vfd_default ∅ 0 [].
End Router.

(** ** Sockets

    Who holds a descriptor: an entry of the table, the account slot, or the
    handler that just connected it ([x], -1 when there is none). *)

Inductive Holder := HEngine (i : nat) | HAccount | HNew.
#[export] Instance Holder_eq_dec : EqDecision Holder.
Proof. solve_decision. Defined.

Definition held (x : Z) w (h : Holder) : Z :=
  match h with
  | HEngine i => match MatchingEngines w !! i with Some v => Fd v | None => -1 end
  | HAccount => Fd (AccountFd w)
  | HNew => x
  end.

(** Every descriptor held is open, every open socket is held, by one holder. *)
Record consistent (x : Z) w : Prop := {
  cs_len : length (MatchingEngines w) = Z.to_nat MaxAssets;
  cs_open : forall h, held x w h <> -1 -> is_Some (Sockets w !! held x w h);
  cs_owned : forall fd, is_Some (Sockets w !! fd) -> exists h, held x w h = fd;
  cs_inj : forall h h', held x w h = held x w h' -> held x w h <> -1 -> h = h';
  cs_fd : forall fd, is_Some (Sockets w !! fd) -> 0 <= fd < 2 ^ 31
}.

(** The peer of a holder's connection. *)
Definition peer w (h : Holder) : option (string * Z) := Sockets w !! held (-1) w h.

Lemma held_range x w h : consistent x w -> -1 <= held x w h < 2 ^ 31.
Proof.
  intros HC. destruct (decide (held x w h = -1)) as [->|Hne]; [lia|].
  pose proof (cs_fd _ _ HC _ (cs_open _ _ HC h Hne)). lia.
Qed.

Lemma watch_init_consistent : consistent (-1) watch_init.
Proof.
  split.
  - reflexivity.
  - intros h. destruct h as [i| |]; cbn [held watch_init MatchingEngines AccountFd]; try done.
    destruct (replicate (Z.to_nat MaxAssets) vfd_default !! i) as [v|] eqn:E; [|done].
    apply lookup_replicate in E as [-> _]. done.
  - intros fd [p Hp]. cbn [Sockets watch_init] in Hp. by rewrite lookup_empty in Hp.
  - intros h h' _. destruct h as [i| |]; cbn [held watch_init MatchingEngines AccountFd]; try done.
    destruct (replicate (Z.to_nat MaxAssets) vfd_default !! i) as [v|] eqn:E; [|done].
    apply lookup_replicate in E as [-> _]. done.
  - intros fd [p Hp]. cbn [Sockets watch_init] in Hp. by rewrite lookup_empty in Hp.
Qed.

Lemma size_list_le (l : list Z) : (size (list_to_set l : gset Z) <= length l)%nat.
Proof.
  induction l as [|z l IH]; [by rewrite list_to_set_nil, size_empty|]. rewrite list_to_set_cons, size_union_alt, size_singleton.
  cbn [length]. assert (size ((list_to_set l : gset Z) ∖ {[z]}) <= size (list_to_set l : gset Z))%nat by (apply subseteq_size; set_solver). lia.
Qed.

(** The holders, and a bound on the sockets. *)
Definition holders : list Holder := HAccount :: HNew :: (HEngine <$> seq 0 (Z.to_nat MaxAssets)).
Lemma sockets_bounded x w : consistent x w -> (size (dom (Sockets w)) <= Z.to_nat MaxAssets + 2)%nat.
Proof.
  intros HC. assert (H : dom (Sockets w) ⊆ list_to_set (held x w <$> holders)).
  { intros fd Hfd%elem_of_dom. destruct (cs_owned _ _ HC fd Hfd) as (h & Hh). apply elem_of_list_to_set, list_elem_of_fmap.
    exists h. split; [done|]. unfold holders. destruct h as [i| |]; [|left|right; left]. right. right.
    apply list_elem_of_fmap_2, elem_of_seq. split; [lia|]. cbn [held] in Hh. pose proof (cs_fd _ _ HC fd Hfd).
    destruct (MatchingEngines w !! i) as [v|] eqn:E; [|lia]. apply lookup_lt_Some in E. rewrite (cs_len _ _ HC) in E. lia. }
  etrans; [by apply subseteq_size|]. etrans; [apply size_list_le|]. rewrite length_fmap. reflexivity.
Qed.

Lemma peer_minus_one w h : consistent (-1) w -> held (-1) w h = -1 -> peer w h = None.
Proof.
  intros HC E. unfold peer. rewrite E. apply eq_None_not_Some. intros H. pose proof (cs_fd _ _ HC _ H). lia.
Qed.

(** A holder takes the new descriptor, and the one it had is closed. *)
Lemma take_over (h0 : Holder) x w w' :
  h0 <> HNew -> consistent x w -> length (MatchingEngines w') = Z.to_nat MaxAssets ->
  held (-1) w' h0 = x -> (forall h, h <> h0 -> h <> HNew -> held (-1) w' h = held x w h) ->
  Sockets w' = (if held x w h0 =? -1 then Sockets w else delete (held x w h0) (Sockets w)) ->
  consistent (-1) w' /\ peer w' h0 = Sockets w !! x /\ (forall h, h <> h0 -> h <> HNew -> peer w' h = Sockets w !! held x w h).
Proof.
  intros Hh0 HC Hlen Hx Hother HS. set (old := held x w h0) in *.
  assert (Hold : forall fd, fd <> -1 -> fd <> old -> Sockets w' !! fd = Sockets w !! fd).
  { intros fd H1 H2. rewrite HS. destruct (old =? -1); [done|]. by rewrite lookup_delete_ne. }
  assert (Hx_old : x <> -1 -> x <> old).
  { intros Hx1 Heq. apply Hh0. symmetry. by apply (cs_inj _ _ HC HNew h0). }
  assert (Hh_old : forall h, h <> h0 -> h <> HNew -> held x w h <> -1 -> held x w h <> old).
  { intros h H1 _ H2 Heq. apply H1. by apply (cs_inj _ _ HC h h0). }
  assert (Hm1 : Sockets w' !! (-1) = None).
  { rewrite HS. destruct (Z.eqb_spec old (-1)) as [_|Hne]; [|rewrite lookup_delete_ne by done];
      apply eq_None_not_Some; intros H; pose proof (cs_fd _ _ HC _ H); lia. }
  assert (Hm2 : Sockets w !! (-1) = None).
  { apply eq_None_not_Some; intros H; pose proof (cs_fd _ _ HC _ H); lia. }
  assert (Hin : forall fd, is_Some (Sockets w' !! fd) -> is_Some (Sockets w !! fd) /\ (fd = old -> old = -1)).
  { intros fd [p Hp]. rewrite HS in Hp. destruct (Z.eqb_spec old (-1)); [split; [by exists p|done]|].
    apply lookup_delete_Some in Hp as [H1 H2]. split; [by exists p|]. intros ->. done. }
  split; [split|split].
  - exact Hlen.
  - intros h Hh. destruct (decide (h = h0)) as [->|Hne].
    + rewrite Hx in Hh |- *. rewrite Hold by auto. by apply (cs_open _ _ HC HNew).
    + destruct (decide (h = HNew)) as [->|Hn]; [done|]. rewrite Hother in Hh |- * by done.
      rewrite Hold by auto. by apply (cs_open _ _ HC h).
  - intros fd Hfd. destruct (Hin fd Hfd) as [Hfd' Ho]. destruct (cs_owned _ _ HC fd Hfd') as (h & Hh).
    assert (Hfd1 : fd <> -1) by (intros ->; by rewrite Hm2 in Hfd'; destruct Hfd').
    destruct (decide (h = h0)) as [->|Hne]; [exfalso; apply Hfd1; rewrite <- Hh; fold old; apply Ho; by rewrite <- Hh|].
    destruct (decide (h = HNew)) as [->|Hn]; [exists h0; by rewrite Hx|]. exists h. by rewrite Hother.
  - intros h h' Heq Hne.
    assert (Hval : forall h1, h1 <> HNew -> held (-1) w' h1 = if decide (h1 = h0) then held x w HNew else held x w h1).
    { intros h1 H1. case_decide as E; [subst; done|by apply Hother]. }
    destruct (decide (h = HNew)) as [->|Hn]; [done|]. destruct (decide (h' = HNew)) as [->|Hn']; [by rewrite Heq in Hne|].
    rewrite !Hval in Heq by done. rewrite Hval in Hne by done.
    do 2 case_decide; subst; try done; [| |by apply (cs_inj _ _ HC)]; exfalso.
    + apply Hn'. symmetry. by apply (cs_inj _ _ HC).
    + apply Hn. by apply (cs_inj _ _ HC).
  - intros fd Hfd. apply (cs_fd _ _ HC), (Hin fd Hfd).
  - unfold peer. rewrite Hx. destruct (decide (x = -1)) as [->|Hne]; [by rewrite Hm1, Hm2|]. apply Hold; auto.
  - intros h H1 H2. unfold peer. rewrite Hother by done.
    destruct (decide (held x w h = -1)) as [->|Hne]; [by rewrite Hm1, Hm2|]. apply Hold; auto.
Qed.

Lemma SwitchFd_fd fd v : -1 <= fd < 2 ^ 31 -> Fd (SwitchFd fd v) = fd.
Proof. intros H. unfold SwitchFd. apply pack_fd. unfold in_s32. lia. Qed.

Lemma held_table m w i x : held x (set_table m w) (HEngine i) = match m !! i with Some v => Fd v | None => -1 end.
Proof. done. Qed.

Lemma replace_engine_ok id newFd w :
  consistent newFd w -> (Z.to_nat id < Z.to_nat MaxAssets)%nat ->
  exists w', replace_engine id newFd w = Ret w' /\ consistent (-1) w' /\ peer w' (HEngine (Z.to_nat id)) = Sockets w !! newFd /\
    (forall h, h <> HEngine (Z.to_nat id) -> h <> HNew -> peer w' h = Sockets w !! held newFd w h) /\
    AccountFd w' = AccountFd w /\ Handshakes w' = Handshakes w.
Proof.
  intros HC Hid. pose proof (held_range newFd w HNew HC) as Hr. cbn [held] in Hr. unfold replace_engine.
  destruct (OrderRouter.at_lt (MatchingEngines w) id) as (v & Hv & ->); [by rewrite (cs_len _ _ HC)|]. cbn [mbind result_bind].
  set (m := <[Z.to_nat id := SwitchFd newFd v]> (MatchingEngines w)). set (w' := if Fd v =? -1 then _ else _).
  pose proof (lookup_lt_Some _ _ _ Hv) as Hlt.
  assert (Hm : MatchingEngines w' = m) by (unfold w'; by destruct (Fd v =? -1)).
  destruct (take_over (HEngine (Z.to_nat id)) newFd w w') as (H1 & H2 & H3); try done.
  - rewrite Hm. unfold m. rewrite length_insert. apply (cs_len _ _ HC).
  - cbn [held]. rewrite Hm. unfold m. rewrite list_lookup_insert_eq by done. by apply SwitchFd_fd.
  - intros h Hh Hn. destruct h as [i| |]; [|unfold w'; by destruct (Fd v =? -1)|done]. cbn [held]. rewrite Hm. unfold m.
    rewrite list_lookup_insert_ne; [done|]. intros E. apply Hh. by rewrite E.
  - cbn [held]. rewrite Hv. unfold w'. by destruct (Fd v =? -1).
  - exists w'. split_and!; try done; unfold w'; by destruct (Fd v =? -1).
Qed.

Section Following.
Context {J : Json} `{!JsonLaws J} (env : Env).
Context (net : nat -> gset Z -> string -> Z -> ConnectResult).

(** The system hands out descriptors that are not in use. *)
Definition net_fresh : Prop := forall n used ip port,
  match net n used ip port with
  | NoSocket => True
  | Refused fd | Connected fd | InProgress fd => 0 <= fd < 2 ^ 31 /\ fd ∉ used
  end.
(** Every connection is made, or under way, as long as there are few. *)
Definition net_connects : Prop := forall n used ip port, (size used <= Z.to_nat MaxAssets + 2)%nat ->
  exists fd, net n used ip port = Connected fd \/ net n used ip port = InProgress fd.

Context (Hfresh : net_fresh).

Lemma opened_consistent fd p w : 0 <= fd < 2 ^ 31 -> fd ∉ dom (Sockets w) -> consistent (-1) w -> consistent fd (opened fd p w).
Proof.
  intros Hr Hf HC. apply not_elem_of_dom in Hf.
  assert (Hne : forall h, h <> HNew -> held (-1) w h <> fd).
  { intros h Hh E. destruct (cs_open _ _ HC h ltac:(lia)) as [q Hq]. rewrite E in Hq. congruence. }
  assert (Hheld : forall h, held fd (opened fd p w) h = if decide (h = HNew) then fd else held (-1) w h) by (by intros []).
  split.
  - apply (cs_len _ _ HC).
  - intros h Hh. rewrite Hheld in *. cbn [Sockets opened]. case_decide as E; [rewrite lookup_insert_eq; by eexists|].
    rewrite lookup_insert_ne by (symmetry; by apply Hne). by apply (cs_open _ _ HC).
  - intros f [q Hq]. cbn [Sockets opened] in Hq. apply lookup_insert_Some in Hq as [[<- _]|[Hfn Hq]]; [by exists HNew|].
    destruct (cs_owned _ _ HC f (ex_intro _ q Hq)) as (h & Hh). exists h. rewrite Hheld. case_decide as E; [|done].
    subst h. cbn [held] in Hh. subst f. pose proof (cs_fd _ _ HC _ (ex_intro _ q Hq)). lia.
  - intros h h'. rewrite !Hheld. do 2 case_decide; subst; try done.
    + intros E. exfalso. by apply (Hne h').
    + intros E. exfalso. by apply (Hne h).
    + apply (cs_inj _ _ HC).
  - intros f [q Hq]. cbn [Sockets opened] in Hq. apply lookup_insert_Some in Hq as [[<- _]|[_ Hq]]; [done|]. apply (cs_fd _ _ HC). by exists q.
Qed.

(** The tables are those of [w]; a new socket is [fd]. *)
Definition connected (fd : Z) (p : string * Z) w w' : Prop :=
  MatchingEngines w' = MatchingEngines w /\ AccountFd w' = AccountFd w /\ Handshakes w' = Handshakes w /\
  Sockets w' = (if fd =? -1 then Sockets w else <[fd := p]> (Sockets w)) /\ (fd = -1 \/ Sockets w !! fd = None) /\ consistent fd w'.

Lemma tried_consistent w : consistent (-1) w -> consistent (-1) (tried w).
Proof. intros []. by split. Qed.
Lemma refused_consistent fd p w : fd ∉ dom (Sockets w) -> consistent (-1) w -> consistent (-1) (close fd (opened fd p w)).
Proof.
  intros Hf HC. assert (E : close fd (opened fd p w) = tried w); [|rewrite E; by apply tried_consistent].
  unfold close, opened, tried. cbn. rewrite delete_insert_id; [done|]. by apply not_elem_of_dom.
Qed.

(** [connectToService] returns for every address with a port. *)
Lemma connectToService_ok ip pds w :
  consistent (-1) w -> is_numeral pds -> value pds < 2 ^ 16 -> 0 <= value pds ->
  exists fd w', connectToService net (ip +:+ String ":" (numeral pds)) w = Ret (fd, w') /\ connected fd (ip, value pds) w w' /\
    (net_connects -> fd <> -1).
Proof.
  intros HC Hn Hv Hv0. unfold connectToService. rewrite (numeral_split ip ":" pds Hn eq_refl).
  rewrite substr_to_app, substr_from_S, stoi_numeral by (done || lia). cbn [thrown mbind result_bind].
  assert (Hu : u16 (value pds) = value pds) by (unfold u16; rewrite Z.mod_small; lia). rewrite Hu.
  pose proof (Hfresh (Connects w) (dom (Sockets w)) ip (value pds)) as HF.
  destruct (net (Connects w) (dom (Sockets w)) ip (value pds)) as [|fd|fd|fd] eqn:EN.
  - exists (-1), (tried w). split; [done|]. split; [split_and!; try done; [by left|by apply tried_consistent]|].
    intros HN. destruct (HN (Connects w) (dom (Sockets w)) ip (value pds) (sockets_bounded _ _ HC)) as (f & [E|E]); congruence.
  - exists (-1), (close fd (opened fd (ip, value pds) w)). split; [done|]. destruct HF as [Hr Hf]. split.
    + split_and!; try done; [|by left|by apply refused_consistent]. cbn [Z.eqb]. cbn.
      rewrite delete_insert_id; [done|]. by apply not_elem_of_dom.
    + intros HN. destruct (HN (Connects w) (dom (Sockets w)) ip (value pds) (sockets_bounded _ _ HC)) as (f & [E|E]); congruence.
  - destruct HF as [Hr Hf]. exists fd, (opened fd (ip, value pds) w). split; [done|]. split; [|lia].
    split_and!; try done; [|right; by apply not_elem_of_dom|by apply opened_consistent].
    destruct (Z.eqb_spec fd (-1)); [lia|done].
  - destruct HF as [Hr Hf]. exists fd, (opened fd (ip, value pds) w). split; [done|]. split; [|lia].
    split_and!; try done; [|right; by apply not_elem_of_dom|by apply opened_consistent].
    destruct (Z.eqb_spec fd (-1)); [lia|done].
Qed.

Lemma connected_held fd p w w' h : connected fd p w w' -> h <> HNew -> held fd w' h = held (-1) w h.
Proof. intros (E1 & E2 & _) Hh. destruct h as [i| |]; cbn [held]; [by rewrite E1|by rewrite E2|done]. Qed.
Lemma connected_peer fd p w w' h : connected fd p w w' -> consistent (-1) w -> h <> HNew -> Sockets w' !! held fd w' h = peer w h.
Proof.
  intros HC Hw Hh. rewrite (connected_held _ _ _ _ _ HC Hh). unfold peer. destruct HC as (_ & _ & _ & -> & Hn & Hc').
  destruct (Z.eqb_spec fd (-1)) as [_|Hne]; [done|]. rewrite lookup_insert_ne; [done|]. intros E.
  destruct Hn as [|Hn]; [done|]. rewrite E in Hn. destruct (cs_open _ _ Hw h ltac:(by rewrite <- E)) as [q Hq]. congruence.
Qed.
Lemma connected_new fd p w w' : connected fd p w w' -> fd <> -1 -> Sockets w' !! fd = Some p.
Proof. intros (_ & _ & _ & -> & _) Hne. destruct (Z.eqb_spec fd (-1)); [done|]. apply lookup_insert_eq. Qed.

(** ** Registrations of engines *)

(** The names of the assets: the value of [SYMBOL]. *)
Context (name : Z -> list Z) (Hname : forall a, 0 <= a < MaxAssets -> is_numeral (name a) /\ value (name a) = a).

Definition engine_key (a : Z) : string := "/matching-engines/" +:+ numeral (name a).
Definition engine_env (a : Z) (ip : string) (pds : list Z) : Env := fun k =>
  if String.eqb k "SYMBOL" then Some (numeral (name a))
  else if String.eqb k "LISTEN_ADDR" then Some (ip +:+ String ":" (numeral pds)) else None.

(** What happens under [/matching-engines/]: an engine registers, or its lease
    ends. *)
Inductive Change := Joins (a : Z) (ip : string) (pds : list Z) | Leaves (a : Z).
Definition change_ok (c : Change) : Prop :=
  match c with
  | Joins a ip pds => 0 <= a < MaxAssets /\ plain ip /\ is_numeral pds /\ 0 <= value pds < 2 ^ 16
  | Leaves a => 0 <= a < MaxAssets
  end.
Definition change_event (c : Change) : option Event :=
  match c with
  | Joins a ip pds => '(k, v) ← engine_registration (engine_env a ip pds); Some (MkEvent PUT k v)
  | Leaves a => Some (MkEvent DELETE_ (engine_key a) "")
  end.

(** The address of the engine of each asset, and its port in digits. *)
Abbreviation Registry := (gmap Z (string * list Z)).
Definition register (reg : Registry) (c : Change) : Registry :=
  match c with Joins a ip pds => <[a := (ip, pds)]> reg | Leaves a => delete a reg end.
Definition address (e : string * list Z) : string * Z := (e.1, value e.2).

Lemma plain_app s s' : plain s -> plain s' -> plain (s +:+ s').
Proof.
  intros H H'. unfold plain in *. assert (E : String.list_ascii_of_string (s +:+ s') = String.list_ascii_of_string s ++ String.list_ascii_of_string s').
  { clear. induction s as [|c s IH]; [done|]. change (c :: String.list_ascii_of_string (s +:+ s') = c :: String.list_ascii_of_string s ++ String.list_ascii_of_string s'). by rewrite IH. }
  rewrite E. by apply Forall_app.
Qed.
Lemma plain_numeral ds : Forall (fun d => 0 <= d <= 9) ds -> plain (numeral ds).
Proof.
  unfold plain. induction 1 as [|d ds Hd _ IH]; cbn [numeral String.list_ascii_of_string]; constructor; [|done].
  pose proof (digit_N d Hd). lia.
Qed.
Lemma plain_addr ip pds : plain ip -> is_numeral pds -> plain (ip +:+ String ":" (numeral pds)).
Proof.
  intros H1 [_ H2]. apply plain_app; [done|]. apply plain_numeral in H2. constructor; [reflexivity|exact H2].
Qed.

(** What the router reads back from an engine's registration. *)
Lemma engine_registration_ok a ip pds :
  change_ok (Joins a ip pds) ->
  exists v j, engine_registration (engine_env a ip pds) = Some (engine_key a, v) /\ parse v = Some j /\
    at_string j "addr" = Some (ip +:+ String ":" (numeral pds)) /\ at_uint32 j "asset_id" = Some a /\
    (forall d, value_string j "addr" d = Some (ip +:+ String ":" (numeral pds))) /\ (forall d, value_int j "asset_id" d = Some a) /\
    (forall d, value_string j "status" d = Some "active").
Proof.
  intros (Ha & Hip & Hp & Hv). destruct (Hname a Ha) as [Hn Hna]. unfold MaxAssets in Ha. unfold engine_registration.
  change (getenv (engine_env a ip pds) "SYMBOL" "1") with (numeral (name a)).
  change (getenv (engine_env a ip pds) "LISTEN_ADDR" "127.0.0.1:8080") with (ip +:+ String ":" (numeral pds)).
  assert (Hat : atoi (numeral (name a)) = a) by (rewrite <- (str_app_nil (numeral _)), atoi_numeral by (done || lia); exact Hna).
  rewrite Hat. destruct (dump_parse [("addr", FStr (ip +:+ String ":" (numeral pds))); ("asset_id", FInt a); ("status", FStr "active")])
    as (v & j & -> & Hj & HS & HI & _).
  - split; [by apply (bool_decide_unpack _); vm_compute|].
    apply Forall_cons. split; [split; [by apply (bool_decide_unpack _); vm_compute|by apply plain_addr]|].
    apply Forall_cons. split; [split; [by apply (bool_decide_unpack _); vm_compute|done]|].
    apply Forall_singleton. split; by apply (bool_decide_unpack _); vm_compute.
  - exists v, j. cbn [mbind option_bind]. 
    split_and!; [done|done|by apply (HS "addr")|apply (HI "asset_id" a eq_refl); lia|by apply (HS "addr")|
      apply (HI "asset_id" a eq_refl); lia|by apply (HS "status")].
Qed.

(** The table of engines shows the registry. *)
Definition tracks w (reg : Registry) : Prop :=
  forall a, 0 <= a < MaxAssets -> peer w (HEngine (Z.to_nat a)) = address <$> reg !! a.

Lemma tracks_update a e w w' reg :
  0 <= a < MaxAssets -> tracks w reg -> peer w' (HEngine (Z.to_nat a)) = address <$> e ->
  (forall h, h <> HEngine (Z.to_nat a) -> h <> HNew -> peer w' h = peer w h) ->
  tracks w' (match e with Some e => <[a := e]> reg | None => delete a reg end).
Proof.
  intros Ha HT He Ho b Hb. destruct (decide (a = b)) as [<-|Hne].
  - rewrite He. destruct e as [e|]; [by rewrite lookup_insert_eq|by rewrite lookup_delete_eq].
  - rewrite Ho by (intros [= E]; lia || done). rewrite (HT b Hb). f_equal.
    destruct e; [by rewrite lookup_insert_ne|by rewrite lookup_delete_ne].
Qed.

Context (Hconn : net_connects).

Lemma on_me_event_ok c ev w reg :
  consistent (-1) w -> tracks w reg -> change_ok c -> change_event c = Some ev ->
  exists w', on_me_event net ev w = Ret w' /\ consistent (-1) w' /\ tracks w' (register reg c) /\
    peer w' HAccount = peer w HAccount /\ Handshakes w' = Handshakes w.
Proof.
  intros HC HT Hc Hev. destruct c as [a ip pds|a]; cbn [change_event] in Hev.
  - destruct (engine_registration_ok a ip pds Hc) as (v & j & E & Hj & H1 & H2 & _). rewrite E in Hev. injection Hev as <-.
    destruct Hc as (Ha & _ & Hp & Hv). unfold on_me_event. cbn [event_type kv_value]. rewrite Hj. cbn [thrown mbind result_bind].
    rewrite H1. cbn [thrown mbind result_bind]. rewrite H2. cbn [thrown mbind result_bind].
    destruct (connectToService_ok ip pds w HC Hp ltac:(lia) ltac:(lia)) as (fd & w1 & -> & Hcon & Hfd). specialize (Hfd Hconn).
    cbn [mbind result_bind]. pose proof Hcon as (_ & _ & HH & _ & _ & Hc1).
    destruct (replace_engine_ok a fd w1 Hc1 ltac:(lia)) as (w2 & -> & Hc2 & Hp2 & Ho2 & _ & HH2). exists w2.
    assert (Ho : forall h, h <> HEngine (Z.to_nat a) -> h <> HNew -> peer w2 h = peer w h).
    { intros h X Y. rewrite Ho2 by done. by apply (connected_peer fd (ip, value pds)). }
    split_and!; [done|done| |by apply Ho|by rewrite HH2].
    apply (tracks_update a (Some (ip, pds)) w w2 reg); [done|done| |done]. rewrite Hp2. by apply connected_new with w.
  - injection Hev as <-. unfold on_me_event. cbn [event_type kv_key]. unfold engine_key.
    destruct (Hname a Hc) as [Hn Hna].
    change ("/matching-engines/" +:+ numeral (name a)) with ("/matching-engines" +:+ String "/" (numeral (name a))).
    rewrite (numeral_split "/matching-engines" "/" (name a) Hn eq_refl), substr_from_S.
    cbn [change_ok] in Hc. assert (0 <= a < 128) by (exact Hc).
    rewrite stoi_numeral by (done || lia). cbn [thrown mbind result_bind]. rewrite Hna.
    rewrite u32_small by lia. destruct (replace_engine_ok a (-1) w HC ltac:(lia)) as (w2 & -> & Hc2 & Hp2 & Ho2 & _ & HH2). exists w2.
    split_and!; [done|done| |by apply Ho2|done].
    apply (tracks_update a None w w2 reg); [done|done| |].
    + rewrite Hp2. apply eq_None_not_Some. intros H1. pose proof (cs_fd _ _ HC _ H1). lia.
    + intros h X Y. by apply Ho2.
Qed.

Lemma on_me_events_ok log evs w reg :
  consistent (-1) w -> tracks w reg -> Forall change_ok log -> mapM change_event log = Some evs ->
  exists w', on_me_events net evs w = Ret w' /\ consistent (-1) w' /\ tracks w' (foldl register reg log) /\
    peer w' HAccount = peer w HAccount /\ Handshakes w' = Handshakes w.
Proof.
  intros HC HT Hl HM. apply mapM_Some in HM. revert w reg HC HT Hl.
  induction HM as [|c ev log evs Hev _ IH]; intros w reg HC HT Hl; [by exists w|].
  apply Forall_cons in Hl as [Hc Hl]. cbn [on_me_events foldl].
  destruct (on_me_event_ok c ev w reg HC HT Hc Hev) as (w1 & -> & HC1 & HT1 & HA1 & HH1). cbn [mbind result_bind].
  destruct (IH w1 _ HC1 HT1 Hl) as (w2 & -> & HC2 & HT2 & HA2 & HH2). exists w2.
  split_and!; [done|done|done|by rewrite HA2|by rewrite HH2].
Qed.

(** The responses of the watch, in order. *)
Fixpoint me_responses (rs : list Response) w : result Watch :=
  match rs with [] => Ret w | r :: rs => w ← etcdOnMEResponse net r w; me_responses rs w end.

Lemma on_me_events_app l1 l2 w : on_me_events net (l1 ++ l2) w = (w ← on_me_events net l1 w; on_me_events net l2 w).
Proof.
  revert w. induction l1 as [|ev l1 IH]; intros w; [done|]. cbn [app on_me_events]. destruct (on_me_event net ev w); [|done].
  cbn [mbind result_bind]. apply IH.
Qed.
Lemma me_responses_concat rs w :
  Forall (fun r => error_code r = 0) rs -> me_responses rs w = on_me_events net (rs ≫= events) w.
Proof.
  intros HF. revert w. induction HF as [|r rs Hr _ IH]; intros w; [done|]. rewrite bind_cons. cbn [me_responses].
  rewrite on_me_events_app. unfold etcdOnMEResponse. rewrite Hr. cbn [Z.eqb negb].
  destruct (on_me_events net (events r) w); [|done]. cbn [mbind result_bind]. apply IH.
Qed.

(** ** The first listing *)

(** The entries under the prefix after some changes. *)
Definition store_event (st : gmap string string) (ev : Event) : gmap string string :=
  match event_type ev with
  | PUT => <[kv_key ev := kv_value ev]> st
  | DELETE_ => delete (kv_key ev) st
  | INVALID => st
  end.

(** [values] is a listing of the store, in any order. *)
Definition listing (st : gmap string string) (values : list string) : Prop :=
  exists kvs, NoDup kvs.*1 /\ list_to_map kvs = st /\ values = kvs.*2.

Definition entry_of (r : Z * (string * list Z)) : option (string * string) :=
  engine_registration (engine_env r.1 r.2.1 r.2.2).
Definition entry_ok (r : Z * (string * list Z)) : Prop := change_ok (Joins r.1 r.2.1 r.2.2).

Lemma engine_key_inj a b : 0 <= a < MaxAssets -> 0 <= b < MaxAssets -> engine_key a = engine_key b -> a = b.
Proof.
  intros Ha Hb E. apply (f_equal (substr_from (String.length "/matching-engines/"))) in E. unfold engine_key in E.
  rewrite !substr_from_app in E. destruct (Hname a Ha) as [[_ Hn] <-], (Hname b Hb) as [[_ Hm] <-].
  apply (f_equal digits_of) in E. rewrite <- (str_app_nil (numeral (name a))), <- (str_app_nil (numeral (name b))) in E.
  rewrite !digits_of_numeral in E by done. by rewrite E.
Qed.

Lemma entry_of_ok r : entry_ok r -> exists v, entry_of r = Some (engine_key r.1, v).
Proof. intros H. destruct (engine_registration_ok _ _ _ H) as (v & j & E & _). by exists v. Qed.

Lemma registry_key r k v : entry_ok r -> entry_of r = Some (k, v) -> k = engine_key r.1.
Proof. intros H E. destruct (entry_of_ok r H) as (v' & E'). rewrite E' in E. apply (f_equal (fmap fst)) in E. cbn in E. congruence. Qed.

(** The store holds the registrations of the registry. *)
Definition store_rep (st : gmap string string) (reg : Registry) : Prop :=
  map_Forall (fun a e => entry_ok (a, e)) reg /\
  forall k v, st !! k = Some v <-> exists a e, reg !! a = Some e /\ entry_of (a, e) = Some (k, v).

Lemma store_rep_delete st reg a :
  0 <= a < MaxAssets -> store_rep st reg -> store_rep (delete (engine_key a) st) (delete a reg).
Proof.
  intros Ha [Hok HS]. split; [by apply map_Forall_delete|]. intros k v. rewrite lookup_delete_Some, HS. split.
  - intros [Hk (b & e & Hb & He)]. exists b, e. split; [|done]. rewrite lookup_delete_ne; [done|]. intros <-.
    apply Hk. symmetry. exact (registry_key _ _ _ (Hok _ _ Hb) He).
  - intros (b & e & Hb & He). apply lookup_delete_Some in Hb as [Hne Hb]. split; [|by exists b, e]. intros <-. apply Hne.
    apply engine_key_inj; [done|apply (Hok _ _ Hb)|exact (registry_key _ _ _ (Hok _ _ Hb) He)].
Qed.

Lemma store_rep_step st reg c ev :
  store_rep st reg -> change_ok c -> change_event c = Some ev -> store_rep (store_event st ev) (register reg c).
Proof.
  intros HR Hc Hev. destruct c as [a ip pds|a]; cbn [change_event] in Hev.
  - destruct (entry_of_ok (a, (ip, pds)) Hc) as (v & E). unfold entry_of in E. cbn [fst snd] in E. rewrite E in Hev.
    injection Hev as <-. pose proof Hc as (Ha & _). destruct (store_rep_delete st reg a Ha HR) as [Hok HS].
    unfold store_event. cbn [event_type kv_key kv_value register]. rewrite <- (insert_delete_eq st), <- (insert_delete_eq reg).
    split; [by apply map_Forall_insert_2|]. intros k v'. rewrite lookup_insert_Some, HS. split.
    + intros [[<- <-]|[Hk (b & e & Hb & He)]]; [exists a, (ip, pds); split; [by rewrite lookup_insert_eq|exact E]|].
      exists b, e. split; [|done]. apply lookup_delete_Some in Hb as [Hne Hb]. by rewrite lookup_insert_ne, lookup_delete_ne.
    + intros (b & e & Hb & He). apply lookup_insert_Some in Hb as [[<- <-]|[Hne Hb]].
      * left. unfold entry_of in He. cbn [fst snd] in He. rewrite E in He. by injection He as <- <-.
      * right. split; [|by exists b, e]. pose proof (Hok b e Hb) as Hob. rewrite (registry_key _ _ _ Hob He).
        intros HE. apply Hne. apply engine_key_inj; [done|apply Hob|exact HE].
  - injection Hev as <-. by apply store_rep_delete.
Qed.

Lemma store_rep_log log evs st reg :
  store_rep st reg -> Forall change_ok log -> mapM change_event log = Some evs ->
  store_rep (foldl store_event st evs) (foldl register reg log).
Proof.
  intros HR Hl HM. apply mapM_Some in HM. revert st reg HR Hl.
  induction HM as [|c ev log evs Hev _ IH]; intros st reg HR Hl; [done|]. apply Forall_cons in Hl as [Hc Hl].
  cbn [foldl]. apply IH; [|done]. by apply store_rep_step.
Qed.

Lemma choose_list {A B} (P : A -> B -> Prop) l : Forall (fun a => exists b, P a b) l -> exists l', Forall2 P l l'.
Proof. induction 1 as [|a l [b Hb] _ [l' IH]]; [by exists []|]. exists (b :: l'). by constructor. Qed.

(** A listing shows each registration of the registry once. *)
Lemma listing_entries st reg values :
  store_rep st reg -> listing st values ->
  exists regs, NoDup regs.*1 /\ list_to_map regs = reg /\ Forall entry_ok regs /\
    Forall2 (fun v r => exists k, entry_of r = Some (k, v)) values regs.
Proof.
  intros [Hok HS] (kvs & HN & Hst & ->).
  destruct (choose_list (fun kv r => reg !! r.1 = Some r.2 /\ entry_of r = Some kv) kvs) as (regs & HF).
  { apply Forall_forall. intros [k v] Hin. assert (E : st !! k = Some v) by (rewrite <- Hst; by apply elem_of_list_to_map_1).
    apply HS in E as (a & e & H1 & H2). by exists (a, e). }
  assert (Hall : Forall (fun r => reg !! r.1 = Some r.2 /\ entry_ok r) regs).
  { clear HN Hst. induction HF as [|kv r kvs regs [H1 _] _ IH]; constructor; [|done]. split; [done|].
    destruct r as [a e]. exact (Hok a e H1). }
  assert (Hkeys : kvs.*1 = engine_key <$> regs.*1).
  { clear HN Hst. induction HF as [|kv r kvs regs [_ H2] _ IH]; [done|]. apply Forall_cons in Hall as [[_ Hr] Hall].
    rewrite !fmap_cons, IH by done. f_equal. destruct kv as [k v]. exact (registry_key _ _ _ Hr H2). }
  assert (HNr : NoDup regs.*1) by (rewrite Hkeys in HN; by apply NoDup_fmap_1 in HN).
  exists regs. split; [done|]. split; [|split; [eapply Forall_impl; [exact Hall|]; by intros ? []|]].
  - apply map_eq. intros a. apply option_eq. intros e. rewrite <- elem_of_list_to_map by done. rewrite Forall_forall in Hall. split.
    + intros Hin. by destruct (Hall _ Hin).
    + intros Hr. destruct (entry_of_ok (a, e) (Hok a e Hr)) as (v & E).
      assert (Es : st !! engine_key a = Some v) by (apply HS; by exists a, e).
      rewrite <- Hst in Es. apply elem_of_list_to_map_2 in Es.
      apply list_elem_of_lookup in Es as [i Hi]. destruct (Forall2_lookup_l _ _ _ _ _ HF Hi) as ([b e'] & Hb & H1 & H2).
      apply list_elem_of_lookup_2 in Hb. cbn [fst snd] in H1. pose proof (registry_key _ _ _ (Hok b e' H1) H2) as Hk. cbn [fst] in Hk.
      assert (b = a) as -> by (apply engine_key_inj; [apply (Hok b e' H1)|apply (Hok a e Hr)|done]). by replace e with e' by congruence.
  - clear HN Hst Hkeys HNr Hall. induction HF as [|kv r kvs regs [_ H2] _ IH]; [constructor|]. rewrite fmap_cons. constructor; [|done].
    exists kv.1. rewrite H2. by destruct kv.
Qed.

Lemma free_slot id fd w v :
  MatchingEngines w !! Z.to_nat id = Some v -> Fd v = -1 ->
  replace_engine id fd w = Ret (set_table (<[Z.to_nat id := SwitchFd fd v]> (MatchingEngines w)) w).
Proof. intros Hv Hf. unfold replace_engine. rewrite (OrderRouter.at_Some _ _ _ Hv). cbn [mbind result_bind]. by rewrite Hf. Qed.

(** The table after the first listing. *)
Lemma connect_engines_ok values regs w reg :
  Forall2 (fun v r => exists k, entry_of r = Some (k, v)) values regs -> Forall entry_ok regs -> NoDup regs.*1 ->
  (forall r, r ∈ regs -> reg !! r.1 = None) -> consistent (-1) w -> tracks w reg ->
  exists w', connect_engines net values w = Ret w' /\ consistent (-1) w' /\ tracks w' (list_to_map regs ∪ reg) /\
    AccountFd w' = AccountFd w /\ Handshakes w' = Handshakes w.
Proof.
  intros HF. revert w reg. induction HF as [|v [a [ip pds]] values regs [k Hk] _ IH]; intros w reg Hok HN Hnew HC HT.
  { exists w. rewrite list_to_map_nil, (left_id_L ∅ (∪)). by split_and!. }
  apply Forall_cons in Hok as [Hr Hok]. rewrite fmap_cons in HN. apply NoDup_cons in HN as [Hni HN]. cbn [fst] in Hni.
  destruct (engine_registration_ok a ip pds Hr) as (v' & j & E & Hj & H1 & H2 & _). unfold entry_of in Hk. cbn [fst snd] in Hk.
  rewrite E in Hk. injection Hk as _ <-. pose proof Hr as (Ha & _ & Hp & Hv). cbn [fst snd] in Ha, Hp, Hv.
  cbn [connect_engines]. rewrite Hj. cbn [thrown mbind result_bind]. rewrite H1. cbn [thrown mbind result_bind]. rewrite H2.
  cbn [thrown mbind result_bind]. destruct (connectToService_ok ip pds w HC Hp ltac:(lia) ltac:(lia)) as (fd & w1 & -> & Hcon & Hfd).
  specialize (Hfd Hconn). cbn [mbind result_bind]. destruct (Z.eqb_spec fd (-1)); [done|].
  pose proof Hcon as (E1 & E2 & HH & _ & _ & Hc1).
  destruct (OrderRouter.at_lt (MatchingEngines w1) a) as (u & Hu & ->); [rewrite (cs_len _ _ Hc1); lia|]. cbn [mbind result_bind].
  assert (Hu1 : Fd u = -1).
  { destruct (decide (Fd u = -1)) as [|Hne]; [done|]. exfalso. pose proof (HT a Ha) as Hpe.
    pose proof (Hnew (a, (ip, pds)) ltac:(left)) as Hn. cbn [fst] in Hn. rewrite Hn in Hpe. unfold peer in Hpe. cbn [held] in Hpe. rewrite <- E1, Hu in Hpe.
    destruct (cs_open _ _ HC (HEngine (Z.to_nat a))) as [q Hq]; cbn [held] in *; rewrite <- E1, Hu in *; [done|].
    rewrite Hq in Hpe. done. }
  destruct (replace_engine_ok a fd w1 Hc1 ltac:(lia)) as (w2 & ER & Hc2 & Hp2 & Ho2 & HA2 & HH2).
  rewrite (free_slot a fd w1 u Hu Hu1) in ER. injection ER as ER. rewrite ER.
  destruct (IH w2 (<[a := (ip, pds)]> reg) Hok HN) as (w3 & -> & Hc3 & HT3 & HA3 & HH3).
  - intros r Hin. rewrite lookup_insert_ne; [apply Hnew; by right|]. intros E'. apply Hni. rewrite E'. by apply list_elem_of_fmap_2.
  - done.
  - apply (tracks_update a (Some (ip, pds)) w w2 reg); [done|done| |].
    + rewrite Hp2. by apply connected_new with w.
    + intros h X Y. rewrite Ho2 by done. by apply (connected_peer fd (ip, value pds)).
  - exists w3. split_and!; [done|done| |by rewrite HA3, HA2|by rewrite HH3, HH2].
    rewrite list_to_map_cons, <- insert_union_l, insert_union_r; [done|]. by apply not_elem_of_list_to_map_1.
Qed.

(** ** The account service *)

Definition is_sent (o : OrderRouter.SendReturn) : Prop := match o with OrderRouter.Sent _ => True | _ => False end.

(** Only the bytes sent differ. *)
Definition with_handshakes (hs : list (Z * list Z)) w : Watch :=
  MkWatch (MatchingEngines w) (AccountFd w) (Sockets w) (Connects w) hs.

Lemma with_handshakes_consistent x hs w : consistent x w -> consistent x (with_handshakes hs w).
Proof.
  intros [H1 H2 H3 H4 H5]. assert (E : forall h, held x (with_handshakes hs w) h = held x w h) by (by intros []).
  split; [done| | | |done].
  - intros h. rewrite E. apply H2.
  - intros fd Hfd. destruct (H3 fd Hfd) as [h Hh]. exists h. by rewrite E.
  - intros h h'. rewrite !E. apply H4.
Qed.

Lemma send_handshake_ok outs fd data total w :
  Forall is_sent outs -> fd <> -1 -> (total <= length data)%nat -> (length data - total <= length outs)%nat ->
  exists outs' bs, send_handshake outs fd data total w = Ret (true, outs', with_handshakes (Handshakes w ++ bs) w) /\
    OrderRouter.stream fd bs = drop total data /\ Forall is_sent outs' /\ (length outs <= length outs' + (length data - total))%nat.
Proof.
  intros HF Hfd. revert total w. induction HF as [|o outs Ho HF IH]; intros total w Ht Hl; cbn [length] in Hl.
  - exists [], []. cbn [send_handshake]. destruct (Nat.leb_spec (length data) total); [|lia]. rewrite drop_ge by lia.
    rewrite app_nil_r. split_and!; try done; [by destruct w|simpl; lia].
  - cbn [send_handshake]. destruct (Nat.leb_spec (length data) total) as [Hle|Hgt].
    { exists (o :: outs), []. rewrite drop_ge by lia. rewrite app_nil_r. split_and!; try done; [by destruct w|by constructor|lia]. }
    destruct (Z.eqb_spec fd (-1)) as [|_]; [done|]. destruct o as [n| |]; try done.
    set (k := OrderRouter.taken n (length data - total)).
    assert (Hk : (1 <= k <= length data - total)%nat) by (unfold k, OrderRouter.taken; lia).
    destruct (IH (total + k)%nat (log_handshake fd (take k (drop total data)) w) ltac:(lia) ltac:(lia)) as (outs' & bs & -> & Hs & Hf & Hl').
    exists outs', ((fd, take k (drop total data)) :: bs). split_and!; [|cbn [OrderRouter.stream]|done|simpl; lia].
    + unfold with_handshakes, log_handshake. cbn. by rewrite <- app_assoc.
    + rewrite Z.eqb_refl, Hs, <- drop_drop. apply take_drop.
Qed.

Definition account_env (ip : string) (pds : list Z) : Env := fun k =>
  if String.eqb k "LISTEN_ADDR" then Some (ip +:+ String ":" (numeral pds)) else None.

Lemma account_registration_ok ip pds :
  plain ip -> is_numeral pds ->
  exists v j, account_registration (account_env ip pds) = Some ("/account-service/0", v) /\ parse v = Some j /\
    at_string j "addr" = Some (ip +:+ String ":" (numeral pds)).
Proof.
  intros Hip Hp. unfold account_registration.
  change (getenv (account_env ip pds) "LISTEN_ADDR" "127.0.0.1:8082") with (ip +:+ String ":" (numeral pds)).
  destruct (dump_parse [("addr", FStr (ip +:+ String ":" (numeral pds))); ("status", FStr "active")]) as (v & j & -> & Hj & HS & _).
  - split; [by apply (bool_decide_unpack _); vm_compute|].
    apply Forall_cons. split; [split; [by apply (bool_decide_unpack _); vm_compute|by apply plain_addr]|].
    apply Forall_singleton. split; by apply (bool_decide_unpack _); vm_compute.
  - exists v, j. cbn [mbind option_bind]. split_and!; [done|done|by apply (HS "addr")].
Qed.

(** The account service's slot takes a connection on which the handshake went out. *)
Lemma account_slot_ok fd w w' :
  consistent fd w -> MatchingEngines w' = MatchingEngines w -> AccountFd w' = SwitchFd fd (AccountFd w) ->
  Sockets w' = (if Fd (AccountFd w) =? -1 then Sockets w else delete (Fd (AccountFd w)) (Sockets w)) ->
  consistent (-1) w' /\ peer w' HAccount = Sockets w !! fd /\ Fd (AccountFd w') = fd /\
  (forall i, peer w' (HEngine i) = Sockets w !! held fd w (HEngine i)).
Proof.
  intros HC HM HA HS. pose proof (held_range fd w HNew HC) as Hr. cbn [held] in Hr.
  destruct (take_over HAccount fd w w') as (H1 & H2 & H3); try done.
  - rewrite HM. apply (cs_len _ _ HC).
  - cbn [held]. rewrite HA. by apply SwitchFd_fd.
  - intros h X Y. destruct h as [i| |]; try done. cbn [held]. by rewrite HM.
  - split_and!; try done; [rewrite HA; by apply SwitchFd_fd|]. intros i. by apply H3.
Qed.

(** A registration of the account service that appears after the start: the router
    connects, sends the whole handshake, and only then replaces and closes the
    connection it had. *)
Lemma on_account_put_ok ip pds v gid outs w :
  consistent (-1) w -> plain ip -> is_numeral pds -> 0 <= value pds < 2 ^ 16 ->
  account_registration (account_env ip pds) = Some ("/account-service/0", v) ->
  stoi (getenv env "MACHINE_ID" "0") = Some gid -> Forall is_sent outs -> (2 <= length outs)%nat ->
  exists outs' w' bs, on_account_event env net (MkEvent PUT "/account-service/0" v) outs w = Ret (true, outs', w') /\
    consistent (-1) w' /\ peer w' HAccount = Some (ip, value pds) /\ (forall i, peer w' (HEngine i) = peer w (HEngine i)) /\
    Handshakes w' = Handshakes w ++ bs /\ OrderRouter.stream (Fd (AccountFd w')) bs = handshake_bytes gid.
Proof.
  intros HC Hip Hp Hv HR Hg Ho Hl. destruct (account_registration_ok ip pds Hip Hp) as (v' & j & E & Hj & H1).
  rewrite HR in E. injection E as <-. unfold on_account_event. cbn [event_type kv_value]. rewrite Hj. cbn [thrown mbind result_bind].
  rewrite H1. cbn [thrown mbind result_bind].
  destruct (connectToService_ok ip pds w HC Hp ltac:(lia) ltac:(lia)) as (fd & w1 & -> & Hcon & Hfd). specialize (Hfd Hconn).
  cbn [mbind result_bind]. rewrite Hg. cbn [thrown mbind result_bind]. pose proof Hcon as (E1 & E2 & HH & _ & _ & Hc1).
  destruct (send_handshake_ok outs fd (handshake_bytes gid) 0 w1 Ho Hfd ltac:(lia)) as (outs' & bs & -> & Hs & _); [simpl; lia|].
  cbn [mbind result_bind negb]. set (w2 := with_handshakes _ w1). set (w3 := if _ =? _ then _ else _).
  assert (Hc2 : consistent fd w2) by (by apply with_handshakes_consistent).
  destruct (account_slot_ok fd w2 w3 Hc2) as (F1 & F2 & F3 & F4);
    [unfold w3; by destruct (_ =? _)|unfold w3; by destruct (_ =? _)|unfold w3; by destruct (_ =? _)|].
  exists outs', w3, bs. split; [done|]. split; [done|]. split; [rewrite F2; exact (connected_new _ _ _ _ Hcon Hfd)|].
  split; [intros i; rewrite F4; exact (connected_peer _ _ _ _ (HEngine i) Hcon HC ltac:(done))|].
  split; [unfold w3, w2; destruct (_ =? _); cbn; by rewrite HH|]. rewrite F3, Hs. by rewrite drop_0.
Qed.

(** The values listed under [/account-service/]. *)
Definition account_values (acct : option (string * list Z)) : option (list string) :=
  match acct with
  | None => Some []
  | Some (ip, pds) => kv ← account_registration (account_env ip pds); Some [kv.2]
  end.
Definition acct_ok (acct : option (string * list Z)) : Prop :=
  match acct with None => True | Some (ip, pds) => plain ip /\ is_numeral pds /\ 0 <= value pds < 2 ^ 16 end.

Lemma connect_accounts_ok acct values gid outs w :
  consistent (-1) w -> Fd (AccountFd w) = -1 -> acct_ok acct -> account_values acct = Some values -> Forall is_sent outs ->
  (2 <= length outs)%nat ->
  exists outs' w' bs, connect_accounts net gid values outs w = Ret (true, outs', w') /\ consistent (-1) w' /\
    peer w' HAccount = address <$> acct /\ (forall i, peer w' (HEngine i) = peer w (HEngine i)) /\
    Handshakes w' = Handshakes w ++ bs /\
    OrderRouter.stream (Fd (AccountFd w')) bs = match acct with None => [] | Some _ => handshake_bytes gid end.
Proof.
  intros HC HA Hok Hval Ho Hl. destruct acct as [[ip pds]|]; cbn [account_values] in Hval.
  2: { injection Hval as <-. exists outs, w, []. rewrite app_nil_r. split_and!; try done. by apply peer_minus_one. }
  destruct Hok as (Hip & Hp & Hv). destruct (account_registration_ok ip pds Hip Hp) as (v & j & E & Hj & H1).
  rewrite E in Hval. cbn [mbind option_bind snd] in Hval. injection Hval as <-. cbn [connect_accounts].
  rewrite Hj. cbn [thrown mbind result_bind]. rewrite H1. cbn [thrown mbind result_bind].
  destruct (connectToService_ok ip pds w HC Hp ltac:(lia) ltac:(lia)) as (fd & w1 & -> & Hcon & Hfd). specialize (Hfd Hconn).
  cbn [mbind result_bind]. pose proof Hcon as (E1 & E2 & HH & _ & _ & Hc1).
  destruct (send_handshake_ok outs fd (handshake_bytes gid) 0 w1 Ho Hfd ltac:(lia)) as (outs' & bs & -> & Hs & _); [simpl; lia|].
  cbn [mbind result_bind negb]. set (w2 := with_handshakes _ w1). destruct (Z.eqb_spec fd (-1)) as [|_]; [done|].
  set (w3 := set_account _ w2).
  assert (Hc2 : consistent fd w2) by (by apply with_handshakes_consistent).
  destruct (account_slot_ok fd w2 w3 Hc2 eq_refl eq_refl) as (F1 & F2 & F3 & F4).
  { change (AccountFd w2) with (AccountFd w1). by rewrite E2, HA. }
  exists outs', w3, bs. split; [done|]. split; [done|]. split; [rewrite F2; exact (connected_new _ _ _ _ Hcon Hfd)|].
  split; [intros i; rewrite F4; exact (connected_peer _ _ _ _ (HEngine i) Hcon HC ltac:(done))|].
  split; [cbn; by rewrite HH|]. rewrite F3, Hs. by rewrite drop_0.
Qed.

Lemma gateway_registration_ok :
  plain (getenv env "LISTEN_ADDR" "localhost:8081") ->
  exists v j, gateway_registration env = Some ("/socket-gateways/" +:+ getenv env "MACHINE_ID" "0", v) /\ parse v = Some j /\
    (forall d, value_string j "ip" d = Some (getenv env "LISTEN_ADDR" "localhost:8081")) /\ (forall d, value_string j "status" d = Some "active").
Proof.
  intros Hl. unfold gateway_registration.
  destruct (dump_parse [("ip", FStr (getenv env "LISTEN_ADDR" "localhost:8081")); ("status", FStr "active")]) as (v & j & -> & Hj & HS & _).
  - split; [by apply (bool_decide_unpack _); vm_compute|].
    apply Forall_cons. split; [split; [by apply (bool_decide_unpack _); vm_compute|done]|].
    apply Forall_singleton. split; by apply (bool_decide_unpack _); vm_compute.
  - exists v, j. cbn [mbind option_bind]. split_and!; [done|done|by apply (HS "ip")|by apply (HS "status")].
Qed.

(** C19: the router follows the engines that are registered, while the network
    answers.  Engines come and go, each registering under its asset with a well-formed
    entry; the gateway starts, lists what is there, connects, greets the account
    service, and then receives every later change from its watch, grouped into
    responses in any way.  Every connection succeeds at once or is under way
    ([net_connects]) and the two sends of the handshake go through, also on a
    connection that is under way.  Then the start succeeds and installs the watches,
    no event faults, the connection in the slot of each asset leads to the address
    its engine registered last, or there is none if the engine has left, the account
    service got the whole handshake, and the sockets open are exactly those the slots
    hold.  (If the handshake cannot be sent yet, the start gives up discovery:
    [slow_account_service_disables_discovery].) *)
Theorem router_follows_engines log1 log2 evs1 evs2 engines accounts acct gid resps outs :
  Forall change_ok (log1 ++ log2) -> mapM change_event log1 = Some evs1 -> mapM change_event log2 = Some evs2 ->
  listing (foldl store_event ∅ evs1) engines -> acct_ok acct -> account_values acct = Some accounts ->
  plain (getenv env "LISTEN_ADDR" "localhost:8081") -> stoi (getenv env "MACHINE_ID" "0") = Some gid ->
  Forall is_sent outs -> (2 <= length outs)%nat ->
  Forall (fun r => error_code r = 0) resps -> resps ≫= events = evs2 ->
  exists kv outs' w1 w2, EtcdClientSetUp env net engines accounts outs watch_init = Ret (kv, true, outs', w1) /\
    me_responses resps w1 = Ret w2 /\ consistent (-1) w2 /\ tracks w2 (foldl register ∅ (log1 ++ log2)) /\
    peer w2 HAccount = address <$> acct /\
    OrderRouter.stream (Fd (AccountFd w1)) (Handshakes w1) = match acct with None => [] | Some _ => handshake_bytes gid end.
Proof.
  intros Hok HM1 HM2 HL Hacct Hav Hpl Hg Ho Hlo Hrs Hev. apply Forall_app in Hok as [Hok1 Hok2].
  assert (H0 : store_rep ∅ ∅).
  { split; [by apply map_Forall_empty|]. intros k v. rewrite lookup_empty. split; [done|]. intros (a & e & Ha & _). by rewrite lookup_empty in Ha. }
  pose proof (store_rep_log log1 evs1 ∅ ∅ H0 Hok1 HM1) as HR.
  destruct (listing_entries _ _ engines HR HL) as (regs & HN & Hmap & Heok & HF).
  assert (HT0 : tracks watch_init ∅).
  { intros a Ha. rewrite lookup_empty. apply peer_minus_one; [exact watch_init_consistent|]. cbn [held watch_init MatchingEngines].
    destruct (replicate (Z.to_nat MaxAssets) vfd_default !! Z.to_nat a) as [v|] eqn:E; [|done].
    apply lookup_replicate in E as [-> _]. done. }
  destruct (connect_engines_ok engines regs watch_init ∅ HF Heok HN ltac:(intros r _; apply lookup_empty) watch_init_consistent HT0)
    as (w1 & E1 & Hc1 & Ht1 & Ha1 & Hh1).
  destruct (connect_accounts_ok acct accounts gid outs w1 Hc1 ltac:(by rewrite Ha1) Hacct Hav Ho Hlo)
    as (outs' & w2 & bs & E2 & Hc2 & Hp2 & Hpe2 & Hh2 & Hb2).
  destruct (gateway_registration_ok Hpl) as (v & j & EG & _).
  assert (Ht2 : tracks w2 (foldl register ∅ log1)).
  { intros a Ha. rewrite Hpe2, (Ht1 a Ha), Hmap. by rewrite (right_id_L ∅ (∪)). }
  destruct (on_me_events_ok log2 evs2 w2 _ Hc2 Ht2 Hok2 HM2) as (w3 & E3 & Hc3 & Ht3 & Hp3 & Hh3).
  eexists _, outs', w2, w3. split.
  { unfold EtcdClientSetUp. rewrite EG. cbn [thrown mbind result_bind]. rewrite E1. cbn [mbind result_bind]. rewrite Hg.
    cbn [thrown mbind result_bind]. rewrite E2. reflexivity. }
  rewrite me_responses_concat, Hev, foldl_app, Hp3 by done. split_and!; try done.
  by rewrite Hh2, Hh1.
Qed.
End Following.

(** ** Any registrations, any network

    Whatever the entries are and whatever the connections do, a watch that returns
    has neither lost a socket nor kept one that is closed. *)

Section AnyNetwork.
Context {J : Json} (net : nat -> gset Z -> string -> Z -> ConnectResult) (Hfresh : net_fresh net).

Lemma connectToService_consistent addr w fd w' :
  consistent (-1) w -> connectToService net addr w = Ret (fd, w') -> consistent fd w'.
Proof.
  intros HC. unfold connectToService. destruct (rfind ":" addr) as [colon|]; [|by intros [= <- <-]].
  destruct (stoi (substr_from (colon + 1) addr)) as [port|]; [|done]. cbn [thrown mbind result_bind].
  pose proof (Hfresh (Connects w) (dom (Sockets w)) (substr_to colon addr) (u16 port)) as HF.
  destruct (net _ _ _ _) as [|f|f|f]; intros [= <- <-].
  - by apply tried_consistent.
  - apply refused_consistent; [apply HF|done].
  - apply opened_consistent; [apply HF|apply HF|done].
  - apply opened_consistent; [apply HF|apply HF|done].
Qed.

Lemma replace_engine_consistent id fd w w' : consistent fd w -> replace_engine id fd w = Ret w' -> consistent (-1) w'.
Proof.
  intros HC HR. destruct (MatchingEngines w !! Z.to_nat id) as [v|] eqn:E.
  - destruct (replace_engine_ok id fd w HC) as (w2 & E2 & H2 & _); [|by rewrite E2 in HR; injection HR as <-].
    rewrite <- (cs_len _ _ HC). by eapply lookup_lt_Some.
  - unfold replace_engine, OrderRouter.at_ in HR. by rewrite E in HR.
Qed.

Lemma on_me_event_consistent ev w w' : consistent (-1) w -> on_me_event net ev w = Ret w' -> consistent (-1) w'.
Proof.
  intros HC. unfold on_me_event. destruct (event_type ev).
  - destruct (parse (kv_value ev)) as [j|]; [|done]. cbn [thrown mbind result_bind].
    destruct (at_string j "addr") as [addr|]; [|done]. cbn [thrown mbind result_bind].
    destruct (at_uint32 j "asset_id") as [id|]; [|done]. cbn [thrown mbind result_bind].
    destruct (connectToService net addr w) as [[fd w1]|] eqn:E; [|done]. cbn [mbind result_bind].
    apply replace_engine_consistent. by eapply connectToService_consistent.
  - destruct (stoi _) as [n|]; [|done]. cbn [thrown mbind result_bind]. by apply replace_engine_consistent.
  - by intros [= <-].
Qed.

(** The watch of the engines never loses a socket.  For any entries and any
    outcome of the connections, as long as the system hands out descriptors that
    are not in use: when the handlers of a sequence of responses return, the open
    sockets are again exactly those in the table, each in one slot, every
    connection that was replaced or refused having been closed. *)
Theorem engine_watch_keeps_sockets rs w w' :
  consistent (-1) w -> me_responses net rs w = Ret w' -> consistent (-1) w'.
Proof.
  revert w. induction rs as [|r rs IH]; intros w HC; cbn [me_responses]; [by intros [= <-]|].
  destruct (etcdOnMEResponse net r w) as [w1|] eqn:E; [|done]. cbn [mbind result_bind]. apply IH. clear IH.
  unfold etcdOnMEResponse in E. destruct (negb _); [by injection E as <-|]. revert w HC E.
  induction (events r) as [|ev evs IH]; intros w HC; cbn [on_me_events]; [by intros [= <-]|].
  destruct (on_me_event net ev w) as [w2|] eqn:E2; [|done]. cbn [mbind result_bind]. apply IH. by eapply on_me_event_consistent.
Qed.
End AnyNetwork.

(** ** A concrete registry

    A printer of objects that its parser inverts, and a system that hands out the
    least free descriptor. *)

#[export] Instance JField_eq_dec : EqDecision JField.
Proof. solve_decision. Defined.
#[export] Instance JField_countable : Countable JField :=
  inj_countable' (fun f => match f with FStr s => inl s | FInt z => inr z end)
    (fun x => match x with inl s => FStr s | inr z => FInt z end) ltac:(by intros []).

Fixpoint print_pos (p : positive) : string :=
  match p with xH => "." | xO p => String "0" (print_pos p) | xI p => String "1" (print_pos p) end.
Fixpoint read_pos (s : string) : option positive :=
  match s with
  | EmptyString => None
  | String c s => if Ascii.eqb c "." then Some xH else p ← read_pos s; Some (if Ascii.eqb c "0" then xO p else xI p)
  end.
Lemma read_print p : read_pos (print_pos p) = Some p.
Proof. induction p as [p IH|p IH|]; cbn; [by rewrite IH|by rewrite IH|done]. Qed.

#[export] Instance demo_json : Json := {|
  json := list (string * JField);
  parse s := p ← read_pos s; decode p;
  dump fs := Some (print_pos (encode fs));
  at_string j k := match field k j with Some (FStr s) => Some s | _ => None end;
  at_uint32 j k := match field k j with Some (FInt z) => Some (u32 z) | _ => None end;
  value_string j k d := match field k j with Some (FStr s) => Some s | Some (FInt _) => None | None => Some d end;
  value_int j k d := match field k j with Some (FInt z) => Some (s32 z) | Some (FStr _) => None | None => Some d end
|}.

#[export] Instance demo_json_laws : JsonLaws demo_json.
Proof.
  split; [|done]. intros fs _. exists (print_pos (encode fs)), fs. split; [done|]. split; [|split; [|split]].
  - cbn [parse demo_json]. rewrite read_print. cbn [mbind option_bind]. apply decode_encode.
  - intros k s E. cbn. by rewrite E.
  - intros k z E. cbn. rewrite E. split; intros Hz; [by rewrite u32_small|intros d; by rewrite s32_small].
  - intros k E. cbn. by rewrite E.
Qed.

Definition free_fd (used : gset Z) : option Z := snd <$> list_find (fun z => z ∉ used) (seqZ 0 131).
Definition demo_net (_ : nat) (used : gset Z) (_ : string) (_ : Z) : ConnectResult :=
  match free_fd used with Some fd => Connected fd | None => NoSocket end.

Lemma demo_net_fresh : net_fresh demo_net.
Proof.
  intros n used ip port. unfold demo_net, free_fd. destruct (list_find _ _) as [[i fd]|] eqn:E; [|done]. cbn.
  apply list_find_Some in E as (E & Hf & _). apply lookup_seqZ in E as [-> Hi]. lia || (split; [lia|done]).
Qed.
Lemma demo_net_connects : net_connects demo_net.
Proof.
  intros n used ip port Hs. unfold demo_net, free_fd. destruct (list_find _ _) as [[i fd]|] eqn:E; [by exists fd; left|].
  exfalso. apply list_find_None in E.
  assert (H : (list_to_set (seqZ 0 131) : gset Z) ⊆ used).
  { intros z Hz%elem_of_list_to_set. rewrite Forall_forall in E. specialize (E z Hz). cbv beta in E. by destruct (decide (z ∈ used)). }
  apply subseteq_size in H. rewrite size_list_to_set in H by apply NoDup_seqZ. rewrite length_seqZ in H.
  change (Z.to_nat MaxAssets) with 128%nat in Hs. lia.
Qed.

Definition demo_name (a : Z) : list Z := if a <? 10 then [a] else if a <? 100 then [a / 10; a mod 10] else [1; (a / 10) mod 10; a mod 10].
Lemma demo_name_ok a : 0 <= a < MaxAssets -> is_numeral (demo_name a) /\ value (demo_name a) = a.
Proof.
  unfold MaxAssets. intros Ha. unfold demo_name, is_numeral, value.
  destruct (Z.ltb_spec a 10); [|destruct (Z.ltb_spec a 100)]; cbn [foldl]; (split; [split; [done|]; repeat constructor; Z.div_mod_to_equations; lia|]);
    Z.div_mod_to_equations; lia.
Qed.

(** Engines 3 and 12 are there when the gateway starts; then engine 3 leaves and
    engine 7 registers, twice. *)
Definition demo_env : Env := fun k => if String.eqb k "MACHINE_ID" then Some "5" else None.
Definition demo_log1 : list Change := [Joins 3 "10.0.0.3" [8; 0]; Joins 12 "10.0.0.12" [9; 0; 0; 0]].
Definition demo_log2 : list Change := [Leaves 3; Joins 7 "10.0.0.7" [8; 1]; Joins 7 "10.0.0.8" [8; 2]].
Definition demo_events (log : list Change) : list Event := default [] (mapM (change_event demo_name) log).
Definition demo_account : option (string * list Z) := Some ("10.0.0.2", [8; 0; 8; 2]).
Definition demo_listing : list string := (map_to_list (foldl store_event ∅ (demo_events demo_log1))).*2.
Definition demo_accounts : list string := default [] (account_values demo_account).
Definition demo_responses : list Response := [MkResponse 0 (take 1 (demo_events demo_log2)); MkResponse 0 (drop 1 (demo_events demo_log2))].

#[local] Instance plain_dec s : Decision (plain s).
Proof. unfold plain. apply _. Defined.
Lemma plain_ok s : bool_decide (plain s) = true -> plain s.
Proof. apply bool_decide_eq_true_1. Qed.

Lemma router_follows_engines_witness :
  exists kv outs' w1 w2,
    EtcdClientSetUp demo_env demo_net demo_listing demo_accounts [OrderRouter.Sent 0; OrderRouter.Sent 0] watch_init = Ret (kv, true, outs', w1) /\
    me_responses demo_net demo_responses w1 = Ret w2 /\ consistent (-1) w2 /\
    peer w2 (HEngine 3) = None /\ peer w2 (HEngine 12) = Some ("10.0.0.12", 9000) /\ peer w2 (HEngine 7) = Some ("10.0.0.8", 82) /\
    peer w2 HAccount = Some ("10.0.0.2", 8082) /\ OrderRouter.stream (Fd (AccountFd w1)) (Handshakes w1) = [5; 0].
Proof.
  destruct (router_follows_engines demo_env demo_net demo_net_fresh demo_name demo_name_ok demo_net_connects demo_log1 demo_log2
    (demo_events demo_log1) (demo_events demo_log2) demo_listing demo_accounts demo_account 5 demo_responses
    [OrderRouter.Sent 0; OrderRouter.Sent 0]) as (kv & outs' & w1 & w2 & H1 & H2 & H3 & H4 & H5 & H6).
  - unfold demo_log1, demo_log2, app, change_ok, is_numeral, MaxAssets. 
    repeat (apply Forall_cons; split; [repeat split; first [lia|done|apply plain_ok; reflexivity|repeat constructor; lia|vm_compute; congruence]|]). constructor.
  - vm_compute. reflexivity.
  - vm_compute. reflexivity.
  - exists (map_to_list (foldl store_event ∅ (demo_events demo_log1))). split; [apply NoDup_fst_map_to_list|]. split; [apply list_to_map_to_list|done].
  - split; [apply plain_ok; reflexivity|]. split; [split; [done|repeat constructor; lia]|vm_compute; split; congruence].
  - vm_compute. reflexivity.
  - apply plain_ok; reflexivity.
  - reflexivity.
  - repeat constructor.
  - simpl. lia.
  - repeat constructor.
  - vm_compute. reflexivity.
  - exists kv, outs', w1, w2. split; [exact H1|]. split; [exact H2|]. split; [exact H3|].
    split; [apply (H4 3); vm_compute; split; congruence|]. split; [apply (H4 12); vm_compute; split; congruence|].
    split; [apply (H4 7); vm_compute; split; congruence|]. split; [exact H5|exact H6].
Defined.

Lemma engine_watch_keeps_sockets_witness :
  exists w', me_responses demo_net demo_responses watch_init = Ret w' /\ consistent (-1) w'.
Proof.
  assert (H : exists w', me_responses demo_net demo_responses watch_init = Ret w') by (eexists; vm_compute; reflexivity).
  destruct H as [w' Hw']. exists w'. split; [exact Hw'|].
  exact (engine_watch_keeps_sockets demo_net demo_net_fresh demo_responses watch_init w' watch_init_consistent Hw').
Defined.

(** A start at which the account service cannot be greeted at once, its connection
    being under way, ends before the watches: the gateway never learns of an engine
    that registers later.  The socket stays open, in no slot. *)
Definition slow_net (_ : nat) (used : gset Z) (_ : string) (_ : Z) : ConnectResult :=
  match free_fd used with Some fd => InProgress fd | None => NoSocket end.

Theorem slow_account_service_disables_discovery :
  exists kv w, EtcdClientSetUp demo_env slow_net [] demo_accounts [OrderRouter.Failed] watch_init = Ret (kv, false, [], w) /\
    AccountFd w = vfd_default /\ Sockets w !! 0 = Some ("10.0.0.2", 8082).
Proof. eexists _, _. split; [vm_compute; reflexivity|]. split; reflexivity. Qed.

(** The same in the handler of the watch: the response is dropped where the
    handshake failed, and the new socket is lost. *)
Theorem failed_handshake_loses_socket :
  exists w, etcdOnAccountServiceResponse demo_env slow_net
      (MkResponse 0 [MkEvent PUT "/account-service/0" (default "" (head demo_accounts)); MkEvent DELETE_ "/account-service/0" ""])
      [OrderRouter.Failed] watch_init = Ret ([], w) /\
    ~ consistent (-1) w /\ Sockets w !! 0 = Some ("10.0.0.2", 8082).
Proof.
  eexists. split; [vm_compute; reflexivity|]. split; [|reflexivity]. intros HC.
  destruct (cs_owned _ _ HC 0) as (h & Hh); [by eexists|]. destruct h as [i| |]; [|vm_compute in Hh; congruence|done].
  unfold held in Hh. cbn [MatchingEngines] in Hh.
  match type of Hh with context [?l !! i] => change l with (replicate 128 vfd_default) in Hh end.
  destruct (replicate 128 vfd_default !! i) as [v|] eqn:E; [|done]. apply lookup_replicate in E as [-> _]. vm_compute in Hh. congruence.
Qed.

(** An entry that is not the object the services write stops the gateway. *)
Lemma bad_entry_terminates {J : Json} net ev w :
  event_type ev = PUT -> parse (kv_value ev) = None -> on_me_event net ev w = Crash Terminate.
Proof. intros E H. unfold on_me_event. by rewrite E, H. Qed.

(** An asset past the table is written past it. *)
Lemma unknown_asset_writes_past_engines id fd w :
  length (MatchingEngines w) = Z.to_nat MaxAssets -> MaxAssets <= id -> replace_engine id fd w = Crash OutOfBounds.
Proof.
  intros Hl Hid. unfold replace_engine, OrderRouter.at_. rewrite lookup_ge_None_2; [done|]. rewrite Hl. unfold MaxAssets in *. lia.
Qed.
