(* ===== verification/EtcdWatcher.v ===== *)
(** The client's side of service discovery
    (src/market_client/include/etcd_watcher.hpp, and [parse_host_port],
    [resolve_mcast_interface] and [resolve_mcast_endpoint] of
    src/market_client/src/main.cpp): the entries under the watched prefixes become
    events for the dashboard, whose tables the user picks a gateway from.

    Main results: the dashboard's tables of engines and gateways show the services
    registered, and the address picked from them is the one the gateway listens
    on. *)

From stdpp Require Import strings gmap.
From S2P Require Import Prelude WireTypes TextParse Discovery Dashboard.
From Stdlib Require Import Ascii.

(** ** Events *)

Definition kPrefixes : list string := ["/matching-engines/"; "/client-details-provider/"; "/socket-gateways/"].

Definition classify (key : string) : EtcdResourceKind :=
  if starts_with "/matching-engines/" key then KMatchingEngine
  else if starts_with "/client-details-provider/" key then KClientDetailsProvider
  else if starts_with "/socket-gateways/" key then KSocketGateway
  else KUnknown.

Definition parse_trailing_id (key : string) : option Z :=
  match rfind "/" key with
  | None => None
  | Some pos =>
      if (String.length key <=? pos + 1)%nat then None
      else from_chars_u32 (substr_from (pos + 1) key)
  end.

Section Watcher.
Context {J : Json}.

(** Only [parse_error] is caught: a [type_error] leaves the function. *)
Definition fill_parsed_fields (ev : EtcdEvent) : result EtcdEvent :=
  match parse (ev_raw_value ev) with
  | None => Ret ev
  | Some j =>
      match ev_resource_kind ev with
      | KMatchingEngine =>
          addr ← thrown (value_string j "addr" "");
          asset_id ← thrown (value_int j "asset_id" 0);
          status ← thrown (value_string j "status" "");
          Ret (MkEtcdEvent (ev_kind ev) (ev_resource_kind ev) (ev_key ev) (ev_id ev) (ev_raw_value ev)
                 (Some (MkEngineInfo addr (u16 asset_id) status)) (ev_addr_status ev))
      | KClientDetailsProvider =>
          addr ← thrown (value_string j "addr" "");
          status ← thrown (value_string j "status" "");
          Ret (MkEtcdEvent (ev_kind ev) (ev_resource_kind ev) (ev_key ev) (ev_id ev) (ev_raw_value ev)
                 (ev_matching_engine ev) (Some (MkAddrStatus addr status)))
      | KSocketGateway =>
          addr ← thrown (value_string j "ip" "");
          status ← thrown (value_string j "status" "");
          Ret (MkEtcdEvent (ev_kind ev) (ev_resource_kind ev) (ev_key ev) (ev_id ev) (ev_raw_value ev)
                 (ev_matching_engine ev) (Some (MkAddrStatus addr status)))
      | KUnknown => Ret ev
      end
  end.

Definition make_event (kind : EtcdEventKind) (key value : string) : result EtcdEvent :=
  fill_parsed_fields (MkEtcdEvent kind (classify key) key (parse_trailing_id key) value None None).

(** The events pushed for the entries of a listing. *)
Fixpoint snapshot_events (kvs : list (string * string)) : result (list EtcdEvent) :=
  match kvs with
  | [] => Ret []
  | (key, value) :: kvs => ev ← make_event ESnapshot key value; evs ← snapshot_events kvs; Ret (ev :: evs)
  end.

(** [ls prefix] answers whether the call succeeded, and the entries. *)
Fixpoint load_prefixes (ls : string -> bool * list (string * string)) (prefixes : list string) : result (list EtcdEvent) :=
  match prefixes with
  | [] => Ret []
  | prefix :: prefixes =>
      let '(is_ok, kvs) := ls prefix in
      if negb is_ok then load_prefixes ls prefixes
      else evs ← snapshot_events kvs; rest ← load_prefixes ls prefixes; Ret (evs ++ rest)
  end.
Definition load_initial_snapshot (ls : string -> bool * list (string * string)) : result (list EtcdEvent) :=
  load_prefixes ls kPrefixes.

Fixpoint watch_events (evs : list Event) : result (list EtcdEvent) :=
  match evs with
  | [] => Ret []
  | e :: evs =>
      match event_type e with
      | PUT => ev ← make_event EPut (kv_key e) (kv_value e); rest ← watch_events evs; Ret (ev :: rest)
      | DELETE_ => ev ← make_event EDelete (kv_key e) (kv_value e); rest ← watch_events evs; Ret (ev :: rest)
      | INVALID => watch_events evs
      end
  end.
Definition on_watch_response (is_ok : bool) (evs : list Event) : result (list EtcdEvent) :=
  if negb is_ok then Ret [] else watch_events evs.
End Watcher.

(** ** Addresses *)

Definition parse_host_port (addr : string) : string * Z :=
  match rfind ":" addr with
  | None => (addr, 0)
  | Some pos =>
      let host := substr_to pos addr in
      let port := u16 (atoi (substr_from (pos + 1) addr)) in
      (if String.eqb host "localhost" then "127.0.0.1" else host, port)
  end.

(** An environment variable that is set and not empty. *)
Definition nonempty_env (env : Env) (k : string) : option string :=
  match env k with Some (String c s) => Some (String c s) | _ => None end.

Definition kMcastLocalInterface : string := "".
Definition resolve_mcast_interface (env : Env) : string := default kMcastLocalInterface (nonempty_env env "MCAST_IFACE").

Definition resolve_mcast_endpoint (env : Env) (env_name default_group : string) (default_port : Z) : string * Z :=
  match nonempty_env env env_name with
  | Some text =>
      let '(host, port) := parse_host_port text in
      if negb (port =? 0) then (host, port) else (default_group, default_port)
  | None => (default_group, default_port)
  end.

(** The address a service listens on is read back. *)
Lemma parse_host_port_ok ip pds :
  is_numeral pds -> 0 <= value pds < 2 ^ 16 ->
  parse_host_port (ip +:+ String ":" (numeral pds)) = (if String.eqb ip "localhost" then "127.0.0.1" else ip, value pds).
Proof.
  intros Hp Hv. unfold parse_host_port. rewrite (numeral_split ip ":" pds Hp eq_refl), substr_to_app, substr_from_S.
  rewrite <- (str_app_nil (numeral pds)), atoi_numeral by (done || lia). unfold u16. by rewrite Z.mod_small.
Qed.

(** ** The services registered *)

Section Following.
Context {J : Json} `{!JsonLaws J} {D : Type}.
Context (name : Z -> list Z) (Hname : forall a, 0 <= a < MaxAssets -> is_numeral (name a) /\ value (name a) = a).
Context (gname : Z -> list Z) (Hgname : forall g, 0 <= g < 2 ^ 16 -> is_numeral (gname g) /\ value (gname g) = g).

Definition gateway_key (g : Z) : string := "/socket-gateways/" +:+ numeral (gname g).
Definition gateway_env (g : Z) (ip : string) (pds : list Z) : Env := fun k =>
  if String.eqb k "MACHINE_ID" then Some (numeral (gname g))
  else if String.eqb k "LISTEN_ADDR" then Some (ip +:+ String ":" (numeral pds)) else None.

(** Engines and gateways come and go. *)
Inductive Service := Engine (c : Change) | GatewayJoins (g : Z) (ip : string) (pds : list Z) | GatewayLeaves (g : Z).

Definition service_ok (c : Service) : Prop :=
  match c with
  | Engine c => change_ok c
  | GatewayJoins g ip pds => 0 <= g < 2 ^ 16 /\ plain ip /\ is_numeral pds /\ 0 <= value pds < 2 ^ 16
  | GatewayLeaves g => 0 <= g < 2 ^ 16
  end.
Definition joins (c : Service) : bool :=
  match c with Engine (Joins _ _ _) | GatewayJoins _ _ _ => true | _ => false end.
Definition service_event (c : Service) : option Event :=
  match c with
  | Engine c => change_event name c
  | GatewayJoins g ip pds => '(k, v) ← gateway_registration (gateway_env g ip pds); Some (MkEvent PUT k v)
  | GatewayLeaves g => Some (MkEvent DELETE_ (gateway_key g) "")
  end.

Record Services := MkServices { s_engines : gmap Z (string * list Z); s_gateways : gmap Z (string * list Z) }.
Definition service_step (r : Services) (c : Service) : Services :=
  match c with
  | Engine c => MkServices (register (s_engines r) c) (s_gateways r)
  | GatewayJoins g ip pds => MkServices (s_engines r) (<[g := (ip, pds)]> (s_gateways r))
  | GatewayLeaves g => MkServices (s_engines r) (delete g (s_gateways r))
  end.

(** The text of an address. *)
Definition text (e : string * list Z) : string := e.1 +:+ String ":" (numeral e.2).

(** What the dashboard should show. *)
Definition shows (s : AppState D) (r : Services) : Prop :=
  (forall a, 0 <= a < MaxAssets ->
     matching_engines s !! engine_key name a = (fun e => MkEngineInfo (text e) a "active") <$> s_engines r !! a) /\
  (forall k, (forall a, 0 <= a < MaxAssets -> k <> engine_key name a) -> matching_engines s !! k = None) /\
  socket_gateways s = (fun e => MkAddrStatus (text e) "active") <$> s_gateways r.

Lemma classify_engine a : classify (engine_key name a) = KMatchingEngine.
Proof. unfold classify, engine_key. by rewrite starts_with_app. Qed.
Lemma classify_gateway g : classify (gateway_key g) = KSocketGateway.
Proof. reflexivity. Qed.
Lemma gateway_id g : 0 <= g < 2 ^ 16 -> parse_trailing_id (gateway_key g) = Some g.
Proof.
  intros Hg. destruct (Hgname g Hg) as [Hn Hv]. unfold parse_trailing_id, gateway_key.
  change ("/socket-gateways/" +:+ numeral (gname g)) with ("/socket-gateways" +:+ String "/" (numeral (gname g))).
  rewrite (numeral_split "/socket-gateways" "/" (gname g) Hn eq_refl), substr_from_S.
  assert (Hlen : (String.length ("/socket-gateways" +:+ String "/" (numeral (gname g))) <=? String.length "/socket-gateways" + 1)%nat = false).
  { apply Nat.leb_gt. destruct Hn as [Hne _]. destruct (gname g) as [|d ds]; [done|].
    change (16 + 1 < 16 + S (S (String.length (numeral ds))))%nat. lia. }
  rewrite Hlen. rewrite <- (str_app_nil (numeral (gname g))), from_chars_numeral by done. rewrite Hv.
  destruct (Z.ltb_spec g (2 ^ 32)); [done|lia].
Qed.

(** An entry that is put, or found by the listing. *)
Lemma put_shows kind c ev s r :
  kind <> EDelete -> joins c = true -> service_ok c -> service_event c = Some ev -> shows s r ->
  exists e, make_event kind (kv_key ev) (kv_value ev) = Ret e /\ shows (apply_etcd_event e s) (service_step r c).
Proof.
  intros Hk Hj Hc Hev (HS1 & HS2 & HS3). destruct c as [[a ip pds|a]|g ip pds|g]; try done; cbn [service_event change_event] in Hev.
  - destruct (engine_registration_ok name Hname a ip pds Hc) as (v & j & E & Hp & _ & _ & V1 & V2 & V3). rewrite E in Hev. injection Hev as <-.
    cbn [kv_key kv_value]. destruct Hc as (Ha & _). assert (Hu : u16 a = a) by (unfold u16, MaxAssets in *; rewrite Z.mod_small; lia).
    unfold make_event, fill_parsed_fields. cbn [ev_raw_value ev_resource_kind]. rewrite Hp, classify_engine, V1, V2, V3.
    cbn [thrown mbind result_bind]. eexists. split; [reflexivity|]. rewrite Hu. unfold apply_etcd_event. cbn [ev_resource_kind].
    assert (EP : forall m : gmap string MatchingEngineInfo, etcd_put kind (engine_key name a)
      (Some (MkEngineInfo (ip +:+ String ":" (numeral pds)) a "active")) m = <[engine_key name a := MkEngineInfo (text (ip, pds)) a "active"]> m)
      by (intros m; by destruct kind).
    split; [|split].
    + intros b Hb. cbn [set_services matching_engines ev_kind ev_key ev_matching_engine etcd_entries_touch service_step s_engines register].
      rewrite EP. destruct (decide (a = b)) as [<-|Hne]; [by rewrite !lookup_insert_eq|].
      rewrite !lookup_insert_ne; [by apply HS1|done|]. intros Hkey. apply Hne. by apply (engine_key_inj name Hname).
    + intros k Hkk. cbn [set_services matching_engines ev_kind ev_key ev_matching_engine etcd_entries_touch].
      rewrite EP. rewrite lookup_insert_ne; [by apply HS2|]. intros Hkey. by apply (Hkk a).
    + exact HS3.
  - destruct Hc as (Hg & Hip & Hpd & Hv).
    destruct (gateway_registration_ok (gateway_env g ip pds)) as (v & j & E & Hp & V1 & V2);
      [change (plain (ip +:+ String ":" (numeral pds))); by apply plain_addr|].
    rewrite E in Hev. injection Hev as <-. cbn [kv_key kv_value].
    change ("/socket-gateways/" +:+ getenv (gateway_env g ip pds) "MACHINE_ID" "0") with (gateway_key g).
    unfold make_event, fill_parsed_fields. cbn [ev_raw_value ev_resource_kind]. rewrite Hp, classify_gateway, V1, V2.
    cbn [thrown mbind result_bind]. eexists. split; [reflexivity|]. unfold apply_etcd_event. cbn [ev_resource_kind ev_id].
    rewrite gateway_id by done. split; [exact HS1|]. split; [exact HS2|]. cbn [set_services socket_gateways service_step s_gateways etcd_entries_touch ev_kind ev_addr_status].
    rewrite HS3, fmap_insert. by destruct kind.
Qed.

(** An entry that is deleted: its value is empty. *)
Lemma delete_shows c ev s r :
  joins c = false -> service_ok c -> service_event c = Some ev -> shows s r ->
  exists e, make_event EDelete (kv_key ev) (kv_value ev) = Ret e /\ shows (apply_etcd_event e s) (service_step r c).
Proof.
  intros Hj Hc Hev (HS1 & HS2 & HS3). destruct c as [[a ip pds|a]|g ip pds|g]; try done; injection Hev as <-; cbn [kv_key kv_value];
    unfold make_event, fill_parsed_fields; cbn [ev_raw_value]; rewrite parse_empty; eexists; (split; [reflexivity|]);
    unfold apply_etcd_event; cbn [ev_resource_kind].
  - rewrite classify_engine. split; [|split].
    + intros b Hb. cbn [set_services matching_engines ev_kind ev_key etcd_put etcd_entries_touch service_step s_engines register].
      destruct (decide (a = b)) as [<-|Hne]; [by rewrite !lookup_delete_eq|].
      rewrite !lookup_delete_ne; [by apply HS1|done|]. intros Hkey. apply Hne. by apply (engine_key_inj name Hname).
    + intros k Hkk. cbn [set_services matching_engines ev_kind ev_key etcd_put etcd_entries_touch].
      apply lookup_delete_None. right. by apply HS2.
    + exact HS3.
  - rewrite classify_gateway. cbn [ev_id]. rewrite gateway_id by done. split; [exact HS1|]. split; [exact HS2|].
    cbn [set_services socket_gateways service_step s_gateways etcd_entries_touch ev_kind etcd_put]. by rewrite HS3, fmap_delete.
Qed.

Definition apply_all (es : list EtcdEvent) (s : AppState D) : AppState D := foldl (fun s e => apply_etcd_event e s) s es.

Lemma service_event_type c ev : service_ok c -> service_event c = Some ev -> event_type ev = if joins c then PUT else DELETE_.
Proof.
  intros Hc Hev. destruct c as [[a ip pds|a]|g ip pds|g]; cbn [service_event change_event] in Hev; try (by injection Hev as <-).
  - destruct (engine_registration (engine_env name a ip pds)) as [[k v]|]; [|done]. by injection Hev as <-.
  - destruct (gateway_registration (gateway_env g ip pds)) as [[k v]|]; [|done]. by injection Hev as <-.
Qed.

Lemma watch_shows log evs s r :
  Forall service_ok log -> mapM service_event log = Some evs -> shows s r ->
  exists es, watch_events evs = Ret es /\ shows (apply_all es s) (foldl service_step r log).
Proof.
  intros Hl HM. apply mapM_Some in HM. revert s r Hl. induction HM as [|c ev log evs Hev _ IH]; intros s r Hl HS; [by exists []|].
  apply Forall_cons in Hl as [Hc Hl]. cbn [watch_events foldl]. rewrite (service_event_type c ev Hc Hev).
  destruct (joins c) eqn:Hj.
  - destruct (put_shows EPut c ev s r ltac:(done) Hj Hc Hev HS) as (e & -> & HS'). cbn [mbind result_bind].
    destruct (IH _ _ Hl HS') as (es & -> & HS''). cbn [mbind result_bind]. by exists (e :: es).
  - destruct (delete_shows c ev s r Hj Hc Hev HS) as (e & -> & HS'). cbn [mbind result_bind].
    destruct (IH _ _ Hl HS') as (es & -> & HS''). cbn [mbind result_bind]. by exists (e :: es).
Qed.

(** The entries a listing shows. *)
Definition entries (evs : list Event) : list (string * string) := (fun e => (kv_key e, kv_value e)) <$> evs.

Lemma snapshot_shows log evs s r :
  Forall service_ok log -> Forall (fun c => joins c = true) log -> mapM service_event log = Some evs -> shows s r ->
  exists es, snapshot_events (entries evs) = Ret es /\ shows (apply_all es s) (foldl service_step r log).
Proof.
  intros Hl Hj HM. apply mapM_Some in HM. revert s r Hl Hj.
  induction HM as [|c ev log evs Hev _ IH]; intros s r Hl Hj HS; [by exists []|].
  apply Forall_cons in Hl as [Hc Hl]. apply Forall_cons in Hj as [Hjc Hj]. unfold entries. rewrite fmap_cons. fold (entries evs).
  cbn [snapshot_events foldl]. destruct (put_shows ESnapshot c ev s r ltac:(done) Hjc Hc Hev HS) as (e & -> & HS'). cbn [mbind result_bind].
  destruct (IH _ _ Hl Hj HS') as (es & -> & HS''). cbn [mbind result_bind]. by exists (e :: es).
Qed.

(** The responses of the watch, each with its events. *)
Fixpoint watch_responses (rs : list (list Event)) : result (list EtcdEvent) :=
  match rs with
  | [] => Ret []
  | evs :: rs => es ← on_watch_response true evs; rest ← watch_responses rs; Ret (es ++ rest)
  end.

Lemma watch_events_app l1 l2 :
  watch_events (l1 ++ l2) = (e1 ← watch_events l1; e2 ← watch_events l2; Ret (e1 ++ e2)).
Proof.
  induction l1 as [|e l1 IH]; [cbn; by destruct (watch_events l2)|]. cbn [app watch_events]. rewrite IH.
  destruct (event_type e); try (destruct (make_event _ _ _); [|done]; cbn [mbind result_bind]);
    destruct (watch_events l1); try done; cbn [mbind result_bind]; by destruct (watch_events l2).
Qed.
Lemma watch_responses_concat rs : watch_responses rs = watch_events (concat rs).
Proof.
  induction rs as [|evs rs IH]; [done|]. cbn [watch_responses concat]. rewrite watch_events_app, IH. done.
Qed.

Definition no_services : Services := MkServices ∅ ∅.

(** Whether a change is one of the engine of asset [a], or of gateway [g]. *)
Definition of_engine (a : Z) (c : Service) : bool :=
  match c with Engine (Joins b _ _) | Engine (Leaves b) => a =? b | _ => false end.
Definition of_gateway (g : Z) (c : Service) : bool :=
  match c with GatewayJoins h _ _ | GatewayLeaves h => g =? h | _ => false end.

(** After [log], what came before matters only for what [log] does not change. *)
Lemma engine_settles a log r r' :
  existsb (of_engine a) log = true \/ s_engines r !! a = s_engines r' !! a ->
  s_engines (foldl service_step r log) !! a = s_engines (foldl service_step r' log) !! a.
Proof.
  revert r r'. induction log as [|c log IH]; intros r r' H; [by destruct H|]. cbn [foldl existsb] in *. apply IH.
  destruct c as [[b ip pds|b]|g ip pds|g]; cbn [of_engine orb service_step s_engines register] in *; [| |exact H|exact H].
  - destruct (Z.eqb_spec a b) as [->|Hne]; [right; by rewrite !lookup_insert_eq|]. rewrite !lookup_insert_ne by done. exact H.
  - destruct (Z.eqb_spec a b) as [->|Hne]; [right; by rewrite !lookup_delete_eq|]. rewrite !lookup_delete_ne by done. exact H.
Qed.
Lemma gateway_settles g log r r' :
  existsb (of_gateway g) log = true \/ s_gateways r !! g = s_gateways r' !! g ->
  s_gateways (foldl service_step r log) !! g = s_gateways (foldl service_step r' log) !! g.
Proof.
  revert r r'. induction log as [|c log IH]; intros r r' H; [by destruct H|]. cbn [foldl existsb] in *. apply IH.
  destruct c as [c|h ip pds|h]; cbn [of_gateway orb service_step s_gateways] in *; [by destruct c| |].
  - destruct (Z.eqb_spec g h) as [->|Hne]; [right; by rewrite !lookup_insert_eq|]. rewrite !lookup_insert_ne by done. exact H.
  - destruct (Z.eqb_spec g h) as [->|Hne]; [right; by rewrite !lookup_delete_eq|]. rewrite !lookup_delete_ne by done. exact H.
Qed.

Lemma engine_untouched a log r : existsb (of_engine a) log = false -> s_engines (foldl service_step r log) !! a = s_engines r !! a.
Proof.
  revert r. induction log as [|c log IH]; intros r H; [done|]. cbn [foldl existsb] in *. apply orb_false_iff in H as [Hc H].
  rewrite IH by done. destruct c as [[b ip pds|b]|g ip pds|g]; cbn [of_engine] in Hc; try done; apply Z.eqb_neq in Hc;
    cbn [service_step s_engines register]; [by rewrite lookup_insert_ne|by rewrite lookup_delete_ne].
Qed.
Lemma gateway_untouched g log r : existsb (of_gateway g) log = false -> s_gateways (foldl service_step r log) !! g = s_gateways r !! g.
Proof.
  revert r. induction log as [|c log IH]; intros r H; [done|]. cbn [foldl existsb] in *. apply orb_false_iff in H as [Hc H].
  rewrite IH by done. destruct c as [c|h ip pds|h]; cbn [of_gateway] in Hc; try done; apply Z.eqb_neq in Hc;
    cbn [service_step s_gateways]; [by rewrite lookup_insert_ne|by rewrite lookup_delete_ne].
Qed.

Lemma registered_gateway_ok log r g ip pds :
  Forall service_ok log -> (forall ip pds, s_gateways r !! g = Some (ip, pds) -> is_numeral pds /\ 0 <= value pds < 2 ^ 16) ->
  s_gateways (foldl service_step r log) !! g = Some (ip, pds) -> is_numeral pds /\ 0 <= value pds < 2 ^ 16.
Proof.
  intros Hl. revert r. induction Hl as [|c log Hc _ IH]; intros r Hr H; [by apply (Hr ip)|]. cbn [foldl] in H. apply (IH _) in H; [done|].
  intros ip' pds' H'. destruct c as [c|h ip0 pds0|h]; cbn [service_step s_gateways] in H'; [by apply (Hr ip')| |].
  - apply lookup_insert_Some in H' as [[_ [= _ <-]]|[_ H']]; [by destruct Hc as (_ & _ & ?)|by apply (Hr ip')].
  - apply lookup_delete_Some in H' as [_ H']. by apply (Hr ip').
Qed.

(** C27: the dashboard lists the services that are registered.  Engines [elog] and
    gateways [glog] are registered when the client lists them; [gap] is what changes
    between a listing and the start of its watch, which nothing reports, and [log]
    what changes after it, reported in any grouping.  No entry the services write
    makes the watcher fail; the tables of the dashboard are the listed services with
    the reported changes; so every engine and every gateway whose last change is not
    in the gap is shown as it is registered at the end, all of them if the gap is
    empty; and the host and port the client connects to when the user picks such a
    gateway are those it listens on, localhost written 127.0.0.1.  (A change in the
    gap is lost: [departure_before_watch_is_missed].) *)
Theorem client_lists_services elog glog gap log eevs gevs evs ls resps (s : AppState D) :
  Forall service_ok (elog ++ glog ++ gap ++ log) -> Forall (fun c => joins c = true) (elog ++ glog) ->
  mapM service_event elog = Some eevs -> mapM service_event glog = Some gevs -> mapM service_event log = Some evs ->
  ls "/matching-engines/" = (true, entries eevs) -> ls "/client-details-provider/" = (true, []) ->
  ls "/socket-gateways/" = (true, entries gevs) -> concat resps = evs -> shows s no_services ->
  let seen := foldl service_step no_services (elog ++ glog ++ log) in
  let final := foldl service_step no_services (elog ++ glog ++ gap ++ log) in
  exists es es', load_initial_snapshot ls = Ret es /\ watch_responses resps = Ret es' /\ shows (apply_all (es ++ es') s) seen /\
    (gap = [] -> seen = final) /\
    (forall a, existsb (of_engine a) gap = false \/ existsb (of_engine a) log = true -> s_engines seen !! a = s_engines final !! a) /\
    (forall g, existsb (of_gateway g) gap = false \/ existsb (of_gateway g) log = true ->
       s_gateways seen !! g = s_gateways final !! g /\
       forall ip pds, s_gateways final !! g = Some (ip, pds) ->
         exists info, socket_gateways (apply_all (es ++ es') s) !! g = Some info /\
           parse_host_port (as_addr info) = (if String.eqb ip "localhost" then "127.0.0.1" else ip, value pds)).
Proof.
  intros Hok Hj HM1 HM2 HM3 L1 L2 L3 Hc HS seen final. pose proof Hok as Hall.
  apply Forall_app in Hok as [Hk1 Hok]. apply Forall_app in Hok as [Hk2 Hok]. apply Forall_app in Hok as [_ Hk3].
  apply Forall_app in Hj as [Hj1 Hj2].
  destruct (snapshot_shows elog eevs s no_services Hk1 Hj1 HM1 HS) as (e1 & E1 & S1).
  destruct (snapshot_shows glog gevs _ _ Hk2 Hj2 HM2 S1) as (e2 & E2 & S2).
  destruct (watch_shows log evs _ _ Hk3 HM3 S2) as (e3 & E3 & S3).
  exists (e1 ++ e2), e3.
  assert (HF : shows (apply_all ((e1 ++ e2) ++ e3) s) seen).
  { unfold apply_all, seen. rewrite !foldl_app. exact S3. }
  assert (HGW : forall g, existsb (of_gateway g) gap = false \/ existsb (of_gateway g) log = true ->
    s_gateways seen !! g = s_gateways final !! g).
  { intros g Hg. unfold seen, final. rewrite !foldl_app. apply gateway_settles. destruct Hg as [Hg|Hg]; [right|by left].
    symmetry. by apply gateway_untouched. }
  split_and!.
  - unfold load_initial_snapshot, kPrefixes. cbn [load_prefixes]. rewrite L1, L2, L3. cbn [negb]. rewrite E1. cbn [mbind result_bind snapshot_events].
    rewrite E2. cbn [mbind result_bind]. by rewrite app_nil_r.
  - by rewrite watch_responses_concat, Hc.
  - exact HF.
  - unfold seen, final. by intros ->.
  - intros a Ha. unfold seen, final. rewrite !foldl_app. apply engine_settles. destruct Ha as [Ha|Ha]; [right|by left].
    symmetry. by apply engine_untouched.
  - intros g Hg. split; [by apply HGW|]. intros ip pds Hf.
    destruct (registered_gateway_ok _ no_services g ip pds Hall) as [Hn Hv]; [intros ? ? H; by vm_compute in H|exact Hf|].
    destruct HF as (_ & _ & HG). rewrite HG, lookup_fmap, (HGW g Hg), Hf. eexists. split; [reflexivity|].
    cbn [as_addr]. unfold text. cbn [fst snd]. by apply parse_host_port_ok.
Qed.
End Following.

(** ** A concrete client *)

Definition demo_gname (g : Z) : list Z := [g / 10000; g / 1000 mod 10; g / 100 mod 10; g / 10 mod 10; g mod 10].
Lemma demo_gname_ok g : 0 <= g < 2 ^ 16 -> is_numeral (demo_gname g) /\ value (demo_gname g) = g.
Proof.
  intros Hg. unfold demo_gname, is_numeral, value. cbn [foldl]. split; [split; [done|]|Z.div_mod_to_equations; lia].
  repeat constructor; Z.div_mod_to_equations; lia.
Qed.

Definition demo_elog : list Service := [Engine (Joins 3 "10.0.0.3" [8; 0])].
Definition demo_glog : list Service := [GatewayJoins 5 "10.0.0.5" [8; 0; 8; 1]].
(** Nobody hears of engine 4. *)
Definition demo_gap : list Service := [Engine (Joins 4 "10.0.0.4" [8; 0]); Engine (Leaves 4); GatewayLeaves 6].
Definition demo_later : list Service := [Engine (Leaves 3); GatewayJoins 6 "localhost" [8; 0; 8; 1]; GatewayLeaves 5].
Definition demo_service_events (log : list Service) : list Event := default [] (mapM (service_event demo_name demo_gname) log).
Definition demo_ls (k : string) : bool * list (string * string) :=
  if String.eqb k "/matching-engines/" then (true, entries (demo_service_events demo_elog))
  else if String.eqb k "/socket-gateways/" then (true, entries (demo_service_events demo_glog)) else (true, []).

Lemma app0_shows {D} name : shows name (app0 (D := D)) no_services.
Proof. unfold shows, app0, no_services. cbn. split; [intros a _; by rewrite !lookup_empty|]. split; [intros k _; apply lookup_empty|]. by rewrite fmap_empty. Qed.

Lemma client_lists_services_witness :
  exists es es', load_initial_snapshot demo_ls = Ret es /\ watch_responses [take 1 (demo_service_events demo_later); drop 1 (demo_service_events demo_later)] = Ret es' /\
    socket_gateways (apply_all (es ++ es') (app0 (D := nat))) = {[6 := MkAddrStatus "localhost:8081" "active"]} /\
    exists info, socket_gateways (apply_all (es ++ es') (app0 (D := nat))) !! 6 = Some info /\ parse_host_port (as_addr info) = ("127.0.0.1", 8081).
Proof.
  destruct (client_lists_services demo_name demo_name_ok demo_gname demo_gname_ok demo_elog demo_glog demo_gap demo_later
    (demo_service_events demo_elog) (demo_service_events demo_glog) (demo_service_events demo_later) demo_ls
    [take 1 (demo_service_events demo_later); drop 1 (demo_service_events demo_later)] (app0 (D := nat))) as (es & es' & H1 & H2 & H3 & _ & _ & H4).
  - unfold demo_elog, demo_glog, demo_gap, demo_later, app, service_ok, change_ok, is_numeral, MaxAssets.
    repeat (apply Forall_cons; split; [repeat split; first [lia|done|apply (bool_decide_unpack _); vm_compute; exact I|repeat constructor; lia|vm_compute; congruence]|]). constructor.
  - repeat constructor.
  - vm_compute. reflexivity.
  - vm_compute. reflexivity.
  - vm_compute. reflexivity.
  - reflexivity.
  - reflexivity.
  - reflexivity.
  - vm_compute. reflexivity.
  - apply app0_shows.
  - exists es, es'. split; [exact H1|]. split; [exact H2|]. destruct H3 as (_ & _ & HG). split.
    + rewrite HG. vm_compute. reflexivity.
    + destruct (H4 6) as [_ H5]; [by right|]. apply (H5 "localhost" [8; 0; 8; 1]). vm_compute. reflexivity.
Defined.

(** The watch starts some time after the listing, at the revision of that time: a
    service that leaves in between stays in the table. *)
Theorem departure_before_watch_is_missed :
  exists es es', load_initial_snapshot demo_ls = Ret es /\ watch_responses [] = Ret es' /\
    foldl service_step no_services (demo_elog ++ demo_glog ++ [Engine (Leaves 3)]) =
      MkServices ∅ {[5 := ("10.0.0.5", [8; 0; 8; 1])]} /\
    matching_engines (apply_all (es ++ es') (app0 (D := nat))) = {["/matching-engines/3" := MkEngineInfo "10.0.0.3:80" 3 "active"]}.
Proof. eexists _, _. split; [vm_compute; reflexivity|]. split; [vm_compute; reflexivity|]. split; vm_compute; reflexivity. Qed.

(** A value of another shape is not a [parse_error] and leaves the watcher's
    callback as an exception. *)
Theorem mistyped_entry_escapes {J : Json} kind key v j :
  parse v = Some j -> value_string j "ip" "" = None -> classify key = KSocketGateway -> make_event kind key v = Crash Terminate.
Proof. intros Hp Hv Hc. unfold make_event, fill_parsed_fields. cbn [ev_raw_value ev_resource_kind]. by rewrite Hp, Hc, Hv. Qed.
