(* ===== verification/TradingPanel.v ===== *)
(** The trading panel of the client (src/market_client/src/main.cpp,
    [struct TradingPanel] and the buttons of [draw_trading_panel]).

    Widgets, colours and layout are left out: a button is the function that its
    click runs.  [glfwGetTime n] is what the [n]-th reading of the clock returns, and
    what reads the clock is given the number of readings so far; a detached thread is the job it was started
    with, which ends at any later moment.

    Main results: a key written in hexadecimal is read back; a click on Submit sends
    the order of the form; at most one balance query is under way and its answer
    releases the button; the activity list keeps the last fifty entries.  And what
    the panel gets wrong: a market buy with the price field untouched never trades,
    and a second click on Connect frees the session a thread is using. *)

From stdpp Require Import strings gmap pretty.
From S2P Require Import Prelude WireTypes Codec BookSpec WireFormats TextParse TradingSession Dashboard ClientSystem EtcdWatcher.
From Stdlib Require Import Ascii.

(** ** Keys *)

Definition hex_digit (c : ascii) : option Z :=
  let n := Z.of_N (N_of_ascii c) in
  if (48 <=? n) && (n <=? 57) then Some (n - 48)
  else if (65 <=? n) && (n <=? 70) then Some (n - 55)
  else if (97 <=? n) && (n <=? 102) then Some (n - 87)
  else None.

(** [sscanf(s, "%2x", &byte)]: spaces are skipped, a sign counts as a character,
    and the [x] of a [0x] ends the number; [None] when it is not 1. *)
Definition scan_2x (s : string) : option Z :=
  match skip_spaces s with
  | EmptyString => None
  | String c rest =>
      if Ascii.eqb c "-" || Ascii.eqb c "+" then
        match rest with
        | EmptyString => None
        | String d _ => v ← hex_digit d; Some (if Ascii.eqb c "-" then u32 (- v) else v)
        end
      else
        v ← hex_digit c;
        match rest with
        | EmptyString => Some v
        | String d _ => match hex_digit d with Some w => Some (16 * v + w) | None => Some v end
        end
  end.

(** The loop over the bytes [i] and after. *)
Fixpoint scan_key (n i : nat) (hex : string) : option (list Z) :=
  match n with
  | O => Some []
  | S n => byte ← scan_2x (substr_from (i * 2) hex); rest ← scan_key n (S i) hex; Some (u8 byte :: rest)
  end.

Definition parse_hex_key (hex : string) : option (list Z) :=
  if negb (String.length hex =? 64)%nat then None else scan_key 32 0 hex.

(** ** The panel *)

Record Connection := MkConnection {
  host_buf : string;          (* char[64] *)
  port : Z;                   (* int *)
  p_client_id : Z;            (* uint32_t *)
  gateway_id : Z;             (* int *)
  key_hex : string            (* char[65] *)
}.
Record Form := MkForm {
  asset_id : Z;               (* int32_t *)
  price : Z;                  (* int64_t *)
  amount : Z;                 (* uint32_t *)
  type_idx : Z;               (* 0: LIMIT *)
  side_idx : Z;               (* 0: BUY *)
  cancel_order_id : Z         (* int32_t *)
}.

(** What a detached thread runs. *)
Inductive Job :=
| JConnect (host : string) (connect_port cid : Z) (key : list Z)
| JDisconnect
| JQuery (cdp_host : string) (cdp_port cid : Z) (key : list Z) (gw_id : Z).

Definition kDefaultGatewayId : Z := 10.
Definition kTradingGatewayHost : string := "127.0.0.1".
Definition kTradingGatewayPort : Z := 8000.
Definition kMaxHistory : nat := 50.

Section Panel.
Context {T F : Type} (minus : F -> F -> F) (spent : F -> bool) (toast_ttl : F) (glfwGetTime : nat -> T).

Record Toast := MkToast { t_text : string; t_is_error : bool; ttl : F }.
Record NotificationEntry := MkNotification { n_text : string; n_is_error : bool; created_at : T }.

Record TradingPanel := MkPanel {
  label : string;
  conn : Connection;
  connect_error : string;
  p_confirmations : list Gateways.ClientConfirmation;    (* MpscQueue *)
  session : option Session;
  next_local_order_id : Z;                               (* uint32_t *)
  balance_results : list ClientBalanceSnapshot;          (* MpscQueue *)
  balance_query_in_flight : bool;
  form : Form;
  toasts : list Toast;
  notification_history : list NotificationEntry
}.

Implicit Type p : TradingPanel.
Definition set_conn (c : Connection) (e : string) (s : option Session) p : TradingPanel :=
  MkPanel (label p) c e (p_confirmations p) s (next_local_order_id p) (balance_results p) (balance_query_in_flight p)
    (form p) (toasts p) (notification_history p).
Definition set_session (s : option Session) (next : Z) p : TradingPanel :=
  MkPanel (label p) (conn p) (connect_error p) (p_confirmations p) s next (balance_results p) (balance_query_in_flight p)
    (form p) (toasts p) (notification_history p).
Definition set_queries (rs : list ClientBalanceSnapshot) (flying : bool) p : TradingPanel :=
  MkPanel (label p) (conn p) (connect_error p) (p_confirmations p) (session p) (next_local_order_id p) rs flying
    (form p) (toasts p) (notification_history p).
Definition set_notices (cs : list Gateways.ClientConfirmation) (ts : list Toast) (ns : list NotificationEntry) p : TradingPanel :=
  MkPanel (label p) (conn p) (connect_error p) cs (session p) (next_local_order_id p) (balance_results p)
    (balance_query_in_flight p) (form p) ts ns.

Definition panel_init (lbl : string) : TradingPanel :=
  MkPanel lbl (MkConnection kTradingGatewayHost kTradingGatewayPort 0 kDefaultGatewayId "") "" [] None 1 [] false
    (MkForm 1 0 0 0 0 0) [] [].

Definition do_connect p : TradingPanel * option Job :=
  let c := conn p in
  match parse_hex_key (key_hex c) with
  | None => (set_conn c "key must be 64 hex chars (32 bytes)" (session p) p, None)
  | Some key => (set_conn c "" (Some session0) p, Some (JConnect (host_buf c) (u16 (port c)) (p_client_id c) key))
  end.

Definition do_disconnect p : option Job := match session p with Some _ => Some JDisconnect | None => None end.

Definition query_balance (cdp_host : string) (cdp_port : Z) p : TradingPanel * option Job :=
  if balance_query_in_flight p then (p, None)
  else
    let c := conn p in
    match parse_hex_key (key_hex c) with
    | None => (p, None)
    | Some key =>
        (set_queries (balance_results p) true p, Some (JQuery cdp_host cdp_port (p_client_id c) key (u16 (gateway_id c))))
    end.

(** Every toast reads the clock: this one is the [n]-th reading. *)
Definition push_toast (n : nat) (text : string) (is_error : bool) p : TradingPanel :=
  let ns := notification_history p ++ [MkNotification text is_error (glfwGetTime n)] in
  let ns := if (kMaxHistory <? length ns)%nat then tail ns else ns in
  set_notices (p_confirmations p) (toasts p ++ [MkToast text is_error toast_ttl]) ns p.

(** [os << n] *)
Definition decimal (n : Z) : string := pretty (Z.to_N n).
Definition confirmation_text (c : Gateways.ClientConfirmation) : string :=
  "Order " +:+ decimal (Gateways.CcOrderId c) +:+ " (local #" +:+ decimal (Gateways.CcClientOrderId c) +:+ "): " +:+
  Gateways.ToString (Gateways.CcStatus c).

Fixpoint toast_confirmations (n : nat) (cs : list Gateways.ClientConfirmation) p : nat * TradingPanel :=
  match cs with
  | [] => (n, p)
  | c :: cs => toast_confirmations (S n) cs (push_toast n (confirmation_text c) (negb (Gateways.CcStatus c =? 0)) p)
  end.
Definition drain_confirmations (n : nat) p : nat * TradingPanel :=
  toast_confirmations n (p_confirmations p) (set_notices [] (toasts p) (notification_history p) p).

(** The loop of [drain_balance_results]. *)
Fixpoint install_results {D} (snaps : list ClientBalanceSnapshot) (flying : bool) (app : AppState D) : bool * AppState D :=
  match snaps with
  | [] => (flying, app)
  | snap :: snaps => install_results snaps false (drain_balance_result snap app)
  end.
Definition drain_balance_results {D} (app : AppState D) p : TradingPanel * AppState D :=
  let '(flying, app) := install_results (balance_results p) (balance_query_in_flight p) app in
  (set_queries [] flying p, app).

Definition tick_toasts (dt : F) p : TradingPanel :=
  let ts := (fun t => MkToast (t_text t) (t_is_error t) (minus (ttl t) dt)) <$> toasts p in
  set_notices (p_confirmations p) (filter (fun t => spent (ttl t) = false) ts) (notification_history p) p.

(** ** Buttons *)

(** The gateway picked from the list of discovered ones. *)
Definition pick_gateway (info : AddrStatusInfo) p : TradingPanel :=
  let '(host, prt) := parse_host_port (as_addr info) in
  let c := conn p in
  set_conn (MkConnection (substr_to 63 host) prt (p_client_id c) (gateway_id c) (key_hex c)) (connect_error p) (session p) p.

(** "Refresh Balance": the first endpoint known, if any. *)
Definition refresh_balance (endpoint : option AddrStatusInfo) p : TradingPanel * option Job :=
  if balance_query_in_flight p then (p, None)
  else match endpoint with
       | None => (p, None)
       | Some info => let '(h, prt) := parse_host_port (as_addr info) in query_balance h prt p
       end.

Definition form_type p : OrderType := if type_idx (form p) =? 0 then LIMIT else MARKET.
Definition form_side p : OrderSide := if side_idx (form p) =? 0 then BUY else SELL.

(** "Submit": the card is only shown with a connected session, [s] is that session
    as the click finds it.  Also returned: [ok], and the readings of the clock. *)
Definition submit_order (send : nat -> nat -> Z) (n : nat) (s : Session) p : result (bool * nat * TradingPanel) :=
  let f := form p in
  let local_id := next_local_order_id p in
  '(ok, s) ← send_order send local_id (form_type p) (form_side p) (price f) (amount f) (asset_id f) s;
  let p := set_session (Some s) (u32 (local_id + 1)) p in
  Ret (if (ok : bool) then (ok, n, p) else (ok, S n, push_toast n "Failed to send order (socket error)" true p)).

(** "Cancel Order" *)
Definition submit_cancel (send : nat -> nat -> Z) (n : nat) (s : Session) p : result (bool * nat * TradingPanel) :=
  let f := form p in
  let local_id := next_local_order_id p in
  '(ok, s) ← send_cancel_order send local_id (u32 (Z.max 0 (cancel_order_id f))) (asset_id f) s;
  let p := set_session (Some s) (u32 (local_id + 1)) p in
  Ret (if (ok : bool) then (ok, n, p) else (ok, S n, push_toast n "Failed to send cancel (socket error)" true p)).

(** ** The order sent *)

Definition form_order (s : Session) p : Order :=
  new_order (next_local_order_id p) (form_type p) (form_side p) (price (form p)) (amount (form p)) (asset_id (form p)) s.
Definition cancel_request (s : Session) p : Order :=
  new_cancel (next_local_order_id p) (u32 (Z.max 0 (cancel_order_id (form p)))) (asset_id (form p)) s.

(** What a click sends, whatever the network does: the click returns, and [ok] says
    whether the whole message is on the wire. *)
Definition after_submit (ok : bool) (n : nat) (text : string) (s' : Session) p : bool * nat * TradingPanel :=
  let p := set_session (Some s') (u32 (next_local_order_id p + 1)) p in
  if ok then (ok, n, p) else (ok, S n, push_toast n text true p).

Lemma submitted send (data : list Z) s :
  send_contract send -> data <> [] ->
  exists ok s', (if negb (bool_decide (sstate s = SConnected)) then Ret (false, s) else session_send send data s) = Ret (ok, s') /\
    (ok = true <-> wire (sock s') = wire (sock s) ++ data).
Proof.
  intros HC Hd. case_bool_decide; cbn [negb].
  - unfold session_send, send_all.
    destruct (session_send_loop_ok send (S (length data)) data (sock s) HC ltac:(lia)) as (ok & k & out & rest & -> & Hout & Hw & Hok).
    cbn [mbind result_bind]. exists ok, (set_sock k s). split; [done|]. cbn [sock set_sock]. rewrite Hw, Hok. split.
    + intros ->. by rewrite Hout, app_nil_r.
    + intros He. apply app_inv_head in He. apply (app_inv_head out). by rewrite app_nil_r, <- Hout.
  - exists false, s. split; [done|]. split; [done|]. intros He. destruct Hd. apply (app_inv_head (wire (sock s))).
    by rewrite app_nil_r.
Qed.

Lemma order_bytes_nonempty o : enc Gateways.Order o <> [].
Proof.
  intros He. apply (f_equal length) in He. cbn [enc Gateways.Order struct pair_codec fst snd sint64] in He.
  rewrite !length_app, !le_bytes_length in He. cbn [length] in He. lia.
Qed.

Lemma submit_order_sends send n s p :
  send_contract send ->
  exists ok s', submit_order send n s p = Ret (after_submit ok n "Failed to send order (socket error)" s' p) /\
    (ok = true <-> wire (sock s') = wire (sock s) ++ enc order_codec (form_order s p)).
Proof.
  intros HC. unfold submit_order, send_order, form_order.
  match goal with |- context [session_send send (enc Gateways.Order ?o) s] =>
    destruct (submitted send (enc Gateways.Order o) s HC (order_bytes_nonempty o)) as (ok & s' & -> & Hok) end.
  cbn [mbind result_bind]. exists ok, s'. split; [by destruct ok|exact Hok].
Qed.
Lemma submit_cancel_sends send n s p :
  send_contract send ->
  exists ok s', submit_cancel send n s p = Ret (after_submit ok n "Failed to send cancel (socket error)" s' p) /\
    (ok = true <-> wire (sock s') = wire (sock s) ++ enc order_codec (cancel_request s p)).
Proof.
  intros HC. unfold submit_cancel, send_cancel_order, cancel_request.
  match goal with |- context [session_send send (enc Gateways.Order ?o) s] =>
    destruct (submitted send (enc Gateways.Order o) s HC (order_bytes_nonempty o)) as (ok & s' & -> & Hok) end.
  cbn [mbind result_bind]. exists ok, s'. split; [by destruct ok|exact Hok].
Qed.

(** On a network that takes the bytes, the click sends the order of the form. *)
Lemma submit_order_ok send now s p :
  send_contract send -> (forall i n, (0 < n)%nat -> 0 < send i n) -> sstate s = SConnected ->
  exists n, submit_order send now s p =
    Ret (true, now, set_session (Some (set_sock (MkSocket n (wire (sock s) ++ enc order_codec (form_order s p))) s)) (u32 (next_local_order_id p + 1)) p).
Proof.
  intros HC Hs HS. unfold submit_order.
  destruct (do_call_wire send (Place (next_local_order_id p) (form_type p) (form_side p) (price (form p)) (amount (form p)) (asset_id (form p)))
    s HC Hs HS) as [n Hn].
  cbn [do_call] in Hn. rewrite Hn. cbn [mbind result_bind]. by exists n.
Qed.
Lemma submit_cancel_ok send now s p :
  send_contract send -> (forall i n, (0 < n)%nat -> 0 < send i n) -> sstate s = SConnected ->
  exists n, submit_cancel send now s p =
    Ret (true, now, set_session (Some (set_sock (MkSocket n (wire (sock s) ++ enc order_codec (cancel_request s p))) s)) (u32 (next_local_order_id p + 1)) p).
Proof.
  intros HC Hs HS. unfold submit_cancel.
  destruct (do_call_wire send (Withdraw (next_local_order_id p) (u32 (Z.max 0 (cancel_order_id (form p)))) (asset_id (form p))) s HC Hs HS) as [n Hn].
  cbn [do_call] in Hn. rewrite Hn. cbn [mbind result_bind]. by exists n.
Qed.

(** A session that is not connected any more: the click is reported. *)
Lemma submit_order_disconnected send now s p :
  sstate s <> SConnected ->
  submit_order send now s p = Ret (after_submit false now "Failed to send order (socket error)" s p).
Proof. intros H. unfold submit_order, send_order. by rewrite bool_decide_eq_false_2. Qed.

(** ** Activity *)

(** The last fifty of the entries. *)
Definition recent (l : list NotificationEntry) : list NotificationEntry := drop (length l - kMaxHistory) l.

Lemma recent_step h e : recent (h ++ [e]) = (let h' := recent h ++ [e] in if (kMaxHistory <? length h')%nat then tail h' else h').
Proof.
  unfold recent. cbv zeta. rewrite !length_app, length_drop. cbn [length].
  destruct (Nat.ltb_spec kMaxHistory (length h - (length h - kMaxHistory) + 1)) as [H|H].
  - assert (Hl : (kMaxHistory <= length h)%nat) by lia.
    replace (length h + 1 - kMaxHistory)%nat with (S (length h - kMaxHistory)) by lia.
    destruct (drop (length h - kMaxHistory) h) as [|x r] eqn:E.
    { apply (f_equal length) in E. rewrite length_drop in E. unfold kMaxHistory in *. simpl in E. lia. }
    rewrite drop_app_le by (unfold kMaxHistory in *; lia). rewrite <- (Nat.add_1_r (length h - kMaxHistory)), <- drop_drop, E. done.
  - assert (Hl : (length h < kMaxHistory)%nat) by lia.
    replace (length h + 1 - kMaxHistory)%nat with 0%nat by lia. replace (length h - kMaxHistory)%nat with 0%nat by lia. by rewrite !drop_0.
Qed.

(** The entries of texts reported from the [n]-th reading on. *)
Definition stamp (n : nat) (l : list (string * bool)) : list NotificationEntry :=
  imap (fun j e => MkNotification e.1 e.2 (glfwGetTime (n + j))) l.

Lemma stamp_app n l1 l2 : stamp n (l1 ++ l2) = stamp n l1 ++ stamp (n + length l1) l2.
Proof.
  unfold stamp. rewrite imap_app. f_equal. apply imap_ext. intros j e _. cbn. do 2 f_equal. lia.
Qed.

(** [p] shows nothing undrained, and the last fifty of [h]. *)
Record quiet p (h : list NotificationEntry) : Prop := {
  q_queue : p_confirmations p = [];
  q_history : notification_history p = recent h
}.

Lemma push_toast_quiet n text e p h : quiet p h -> quiet (push_toast n text e p) (h ++ stamp n [(text, e)]).
Proof.
  intros [H1 H2]. split; [exact H1|]. unfold stamp. cbn [imap fst snd]. rewrite Nat.add_0_r, recent_step, <- H2. done.
Qed.

(** What a confirmation says. *)
Definition confirmation_notice (c : Gateways.ClientConfirmation) : string * bool :=
  (confirmation_text c, negb (Gateways.CcStatus c =? 0)).

Lemma toast_confirmations_quiet n cs p h :
  quiet p h ->
  (toast_confirmations n cs p).1 = (n + length cs)%nat /\
  quiet (toast_confirmations n cs p).2 (h ++ stamp n (confirmation_notice <$> cs)).
Proof.
  revert n p h. induction cs as [|c cs IH]; intros n p h Hq; cbn [toast_confirmations length].
  { rewrite app_nil_r, Nat.add_0_r. done. }
  destruct (IH (S n) _ _ (push_toast_quiet n (confirmation_text c) (negb (Gateways.CcStatus c =? 0)) p h Hq)) as [H1 H2].
  split; [rewrite H1; lia|]. rewrite fmap_cons. change (confirmation_notice c :: ?l) with ([confirmation_notice c] ++ l).
  rewrite stamp_app, app_assoc. cbn [length]. by rewrite Nat.add_1_r.
Qed.

Lemma toast_confirmations_session n cs p : session (toast_confirmations n cs p).2 = session p.
Proof. revert n p. induction cs as [|c cs IH]; intros n p; [done|]. cbn [toast_confirmations]. by rewrite IH. Qed.

(** The panel reports each confirmation once.  The confirmations that arrived
    since the last frame appear in the activity list, in order of arrival, as
    errors unless they are acceptances, each with its own reading of the clock,
    after what the list held; the list is cut to the last fifty entries, and the
    queue is empty. *)
Theorem confirmations_are_reported n p h :
  notification_history p = recent h ->
  let '(n', p') := drain_confirmations n p in
  n' = (n + length (p_confirmations p))%nat /\ p_confirmations p' = [] /\
  notification_history p' = recent (h ++ stamp n (confirmation_notice <$> p_confirmations p)) /\
  (length (notification_history p') <= kMaxHistory)%nat.
Proof.
  intros Hp. unfold drain_confirmations.
  destruct (toast_confirmations_quiet n (p_confirmations p) (set_notices [] (toasts p) (notification_history p) p) h) as [H1 [H2 H3]]; [done|].
  destruct (toast_confirmations _ _ _) as [n' p']. cbn [fst snd] in *. split_and!; [done..|]. rewrite H3. unfold recent.
  rewrite length_drop. lia.
Qed.

(** Toasts fade: after enough frames none is left. *)
Lemma tick_toasts_subset dt p : map t_text (toasts (tick_toasts dt p)) `sublist_of` map t_text (toasts p).
Proof.
  unfold tick_toasts. cbn [toasts set_notices]. induction (toasts p) as [|t ts IH]; [constructor|]. cbn [map].
  rewrite fmap_cons, filter_cons. case_decide; cbn [map]; by constructor.
Qed.

(** ** Balance queries

    The jobs of the queries under way. *)

Inductive query_step {D} : TradingPanel * AppState D * list Job -> TradingPanel * AppState D * list Job -> Prop :=
| q_edit c p app jobs :
    query_step (p, app, jobs) (set_conn c (connect_error p) (session p) p, app, jobs)
| q_ask info p p' app jobs job :
    refresh_balance info p = (p', job) -> query_step (p, app, jobs) (p', app, jobs ++ option_list job)
| q_answer p app j1 job j2 snap :
    query_step (p, app, j1 ++ job :: j2) (set_queries (balance_results p ++ [snap]) (balance_query_in_flight p) p, app, j1 ++ j2)
| q_drain p p' app app' jobs :
    drain_balance_results app p = (p', app') -> query_step (p, app, jobs) (p', app', jobs).

Definition flying_ok {D} (s : TradingPanel * AppState D * list Job) : Prop :=
  let '(p, _, jobs) := s in (length jobs + length (balance_results p))%nat = if balance_query_in_flight p then 1%nat else 0%nat.

Lemma install_results_flag {D} snaps flying (app : AppState D) :
  (install_results snaps flying app).1 = match snaps with [] => flying | _ => false end.
Proof. revert flying app. induction snaps as [|s snaps IH]; intros flying app; [done|]. cbn [install_results]. rewrite IH. by destruct snaps. Qed.

Lemma query_step_ok {D} (s s' : TradingPanel * AppState D * list Job) : flying_ok s -> query_step s s' -> flying_ok s'.
Proof.
  intros HI Hst. destruct Hst as [c p app jobs|info p p' app jobs job E|p app j1 job j2 snap|p p' app app' jobs E]; cbn in *.
  - exact HI.
  - unfold refresh_balance in E. destruct (balance_query_in_flight p) eqn:EF.
    { injection E as <- <-. cbn. rewrite app_nil_r, EF. done. }
    destruct info as [info|]; [|injection E as <- <-; cbn; by rewrite app_nil_r, EF].
    destruct (parse_host_port (as_addr info)) as [h prt]. unfold query_balance in E. rewrite EF in E.
    destruct (parse_hex_key (key_hex (conn p))) as [k|]; injection E as <- <-; cbn; [rewrite length_app; cbn; lia|].
    by rewrite app_nil_r, EF.
  - rewrite !length_app in *. cbn [length] in *. lia.
  - unfold drain_balance_results in E.
    pose proof (install_results_flag (balance_results p) (balance_query_in_flight p) app) as HF.
    destruct (install_results _ _ app) as [fl app1]. cbn [fst] in HF. injection E as <- <-. cbn. subst fl.
    destruct (balance_results p) as [|snap snaps]; cbn [length] in *; [done|]. destruct (balance_query_in_flight p); lia.
Qed.

(** One balance query at a time.  However clicks on Refresh, answers and frames
    interleave, there is a query under way or an answer not yet shown exactly when
    the panel says so, and never more than one: the button is not lost, and no two
    queries present the dashboard's gateway id at the same time. *)
Theorem one_query_at_a_time {D} lbl (app : AppState D) p app' jobs :
  rtc query_step (panel_init lbl, app, []) (p, app', jobs) ->
  (length jobs + length (balance_results p))%nat = if balance_query_in_flight p then 1%nat else 0%nat.
Proof.
  intros HR. change (flying_ok (p, app', jobs)). assert (HI : flying_ok (panel_init lbl, app, [])) by done. revert HI.
  induction HR as [|s1 s2 s3 Hst _ IH]; intros HI; [done|]. apply IH. by eapply query_step_ok.
Qed.
End Panel.

(** ** Keys are read back *)

(** A spelling of the bytes: two hexadecimal digits each, in either case. *)
Fixpoint hex_pairs (ps : list (ascii * ascii)) : string :=
  match ps with [] => EmptyString | (c, d) :: ps => String c (String d (hex_pairs ps)) end.
Definition spells (cd : ascii * ascii) (b : Z) : Prop := hex_digit cd.1 = Some (b / 16) /\ hex_digit cd.2 = Some (b mod 16).

Lemma hex_digit_plain c v : hex_digit c = Some v -> is_space c = false /\ Ascii.eqb c "-" = false /\ Ascii.eqb c "+" = false.
Proof.
  intros H. assert (Hn : 48 <= Z.of_N (N_of_ascii c)) by (unfold hex_digit in H; cbv zeta in H; repeat case_match; simplify_eq; lia).
  split_and!.
  - unfold is_space. lia.
  - apply Ascii.eqb_neq. intros ->. vm_compute in Hn. congruence.
  - apply Ascii.eqb_neq. intros ->. vm_compute in Hn. congruence.
Qed.
Lemma scan_2x_pair c d s v w : hex_digit c = Some v -> hex_digit d = Some w -> scan_2x (String c (String d s)) = Some (16 * v + w).
Proof.
  intros Hc Hd. destruct (hex_digit_plain c v Hc) as (H1 & H2 & H3). unfold scan_2x. cbn [skip_spaces].
  rewrite H1, H2, H3. cbn [orb]. rewrite Hc. cbn [mbind option_bind]. by rewrite Hd.
Qed.
Lemma hex_pairs_from i ps : substr_from (i * 2) (hex_pairs ps) = hex_pairs (drop i ps).
Proof. revert i. induction ps as [|[c d] ps IH]; intros i; [by destruct i|]. destruct i as [|i]; [done|]. cbn. apply IH. Qed.
Lemma hex_pairs_length ps : String.length (hex_pairs ps) = (2 * length ps)%nat.
Proof. induction ps as [|[c d] ps IH]; cbn [hex_pairs String.length length]; [done|]. rewrite IH. lia. Qed.

Lemma scan_key_ok ps0 ps i key :
  drop i ps0 = ps -> Forall2 spells ps key -> Forall (fun b => 0 <= b < 256) key -> scan_key (length key) i (hex_pairs ps0) = Some key.
Proof.
  intros Hd HF. revert i Hd. induction HF as [|[c d] b ps key [H1 H2] _ IH]; intros i Hd Hb; [done|].
  apply Forall_cons in Hb as [Hb0 Hb]. cbn [length scan_key]. rewrite hex_pairs_from, Hd. cbn [hex_pairs fst snd] in *.
  rewrite (scan_2x_pair c d _ _ _ H1 H2). cbn [mbind option_bind].
  rewrite (IH (S i)); [|rewrite <- (Nat.add_1_r i), <- drop_drop, Hd; done|done]. cbn [mbind option_bind]. do 2 f_equal.
  unfold u8. rewrite Z.mod_small; Z.div_mod_to_equations; lia.
Qed.

(** The key typed in is the key used.  Any spelling of a 32-byte key in 64
    hexadecimal digits, in either case, is read back as that key. *)
Theorem hex_key_roundtrip ps key :
  length key = 32%nat -> Forall2 spells ps key -> Forall (fun b => 0 <= b < 256) key -> parse_hex_key (hex_pairs ps) = Some key.
Proof.
  intros Hl HF Hb. unfold parse_hex_key. rewrite hex_pairs_length, (Forall2_length _ _ _ HF), Hl. cbn [Nat.mul Nat.add Nat.eqb negb].
  rewrite <- Hl. by apply (scan_key_ok ps ps 0).
Qed.

Lemma hex_key_roundtrip_witness :
  parse_hex_key (hex_pairs (replicate 16 ("a"%char, "0"%char) ++ replicate 16 ("F"%char, "f"%char))) = Some (replicate 16 160 ++ replicate 16 255).
Proof.
  apply hex_key_roundtrip; [reflexivity| |].
  - apply Forall2_app; apply Forall2_replicate; split; reflexivity.
  - apply Forall_app. split; apply Forall_replicate; lia.
Defined.

(** Texts that are not hexadecimal are accepted: the sign is part of the number. *)
Theorem signs_are_taken_for_a_key :
  parse_hex_key (hex_pairs (replicate 32 ("-"%char, "1"%char))) = Some (replicate 32 255).
Proof. vm_compute. reflexivity. Qed.

(** ** Market orders

    The price field is hidden for a market order, and sent as it is. *)

Lemma no_cross L q : Forall (fun lv => 0 < lv.1) L -> match_levels BUY 0 q L = (q, L, []).
Proof.
  intros HF. destruct L as [|[p os] L]; [done|]. apply Forall_cons in HF as [Hp _]. cbn [fst] in Hp. cbn [match_levels crosses].
  destruct (0 <? q); [|done]. cbn [andb]. destruct (Z.leb_spec p 0); [lia|done].
Qed.

(** A market buy sent from a panel whose price was never set trades with nobody,
    whatever is offered: the engine cancels it. *)
Theorem untouched_market_buy_never_trades {T F} (p : TradingPanel (T := T) (F := F)) s a b :
  type_idx (form p) = 1 -> side_idx (form p) = 0 -> price (form p) = 0 -> 0 < amount (form p) ->
  Forall (fun lv => 0 < lv.1) (get_side SELL b) ->
  let o := form_order s p in
  exec_order a o b = (b, [ack_report a o 0 (OrderId o) CANCEL], []).
Proof.
  intros Ht Hs Hp Ha Hb. cbv zeta. set (o := form_order s p). unfold exec_order.
  assert (E1 : Side o = BUY) by (unfold o, form_order, form_side; rewrite Hs; done).
  assert (E2 : Price o = 0) by (unfold o, form_order; exact Hp).
  assert (E3 : Type_ o = MARKET) by (unfold o, form_order, form_type; rewrite Ht; done).
  assert (E4 : Amount o = amount (form p)) by done.
  rewrite E1, E2, E3, E4. cbn [opposite]. rewrite no_cross by done. rewrite (proj2 (Z.ltb_lt _ _) Ha).
  unfold locked, BookSpec.spent. rewrite E1, E2. cbn [foldr]. rewrite Z.mul_0_r. by destruct b.
Qed.

(** ** Concrete panels *)

Abbreviation demo_panel := (panel_init (T := nat) (F := nat) "Client A").
Definition demo_key : string := hex_pairs (replicate 32 ("0"%char, "7"%char)).
Definition demo_conn : Connection := MkConnection "127.0.0.1" 8000 7 10 demo_key.
Definition demo_cdp : AddrStatusInfo := MkAddrStatus "localhost:8082" "active".

(** The key is typed, Refresh is clicked twice, and the answer arrives. *)
Lemma one_query_at_a_time_witness :
  exists p app, rtc (query_step (D := nat)) (demo_panel, app0, []) (p, app, []) /\
    balance_query_in_flight p = true /\ length (balance_results p) = 1%nat.
Proof.
  set (p1 := set_conn demo_conn "" None demo_panel).
  set (p2 := (refresh_balance (Some demo_cdp) p1).1).
  set (snap := query_failed 7 "refused").
  set (p3 := set_queries [snap] true p2).
  assert (HR : rtc (query_step (D := nat)) (demo_panel, app0, []) (p3, app0, [])).
  { apply rtc_l with (p1, app0, []); [apply (q_edit demo_conn demo_panel)|].
    apply rtc_l with (p2, app0, [JQuery "127.0.0.1" 8082 7 (replicate 32 7) 10]); [apply (q_ask (Some demo_cdp) p1 p2 app0 []
      (Some (JQuery "127.0.0.1" 8082 7 (replicate 32 7) 10))); vm_compute; reflexivity|].
    apply rtc_l with (p2, app0, [JQuery "127.0.0.1" 8082 7 (replicate 32 7) 10]); [apply (q_ask (Some demo_cdp) p2 p2 app0
      [JQuery "127.0.0.1" 8082 7 (replicate 32 7) 10] None); vm_compute; reflexivity|].
    apply rtc_once. apply (q_answer p2 app0 [] (JQuery "127.0.0.1" 8082 7 (replicate 32 7) 10) [] snap). }
  exists p3, app0. split; [exact HR|]. split; [vm_compute; reflexivity|]. pose proof (one_query_at_a_time "Client A" _ p3 _ [] HR) as H. exact H.
Defined.

Lemma confirmations_are_reported_witness :
  let p := set_notices [Gateways.MkClientConfirmation 10 1 0; Gateways.MkClientConfirmation 11 2 1] [] [] demo_panel in
  let '(n', p') := drain_confirmations 4%nat S 9%nat p in
  p_confirmations p' = [] /\
  notification_history p' =
    [MkNotification "Order 10 (local #1): Accepted" false 10%nat; MkNotification "Order 11 (local #2): Insufficient funds" true 11%nat].
Proof.
  set (p := set_notices _ _ _ _). cbv zeta.
  pose proof (confirmations_are_reported (T := nat) (F := nat) 4%nat S 9%nat p [] eq_refl) as H.
  destruct (drain_confirmations 4%nat S 9%nat p) as [n' p']. destruct H as (_ & H1 & H2 & _).
  split; [exact H1|]. rewrite H2. vm_compute. reflexivity.
Defined.

(** ** The lookup page

    [draw_client_lookup_panel] with its static variables: a query for any client. *)

Record Lookup := MkLookup {
  lookup_client_id : Z;                             (* uint32_t *)
  lookup_key_hex : string;                          (* char[65] *)
  lookup_gateway_id : Z;                            (* int *)
  lookup_error : string;
  lookup_results : list ClientBalanceSnapshot       (* MpscQueue *)
}.
Definition lookup_init : Lookup := MkLookup 0 "" kDefaultGatewayId "" [].

(** "Query", which does nothing as long as no endpoint is known. *)
Definition lookup_query (endpoint : option AddrStatusInfo) (k : Lookup) : Lookup * option Job :=
  match endpoint with
  | None => (k, None)
  | Some info =>
      match parse_hex_key (lookup_key_hex k) with
      | Some key =>
          let '(cdp_host, cdp_port) := parse_host_port (as_addr info) in
          (MkLookup (lookup_client_id k) (lookup_key_hex k) (lookup_gateway_id k) "" (lookup_results k),
           Some (JQuery cdp_host cdp_port (lookup_client_id k) key (u16 (lookup_gateway_id k))))
      | None =>
          (MkLookup (lookup_client_id k) (lookup_key_hex k) (lookup_gateway_id k) "key must be 64 hex chars" (lookup_results k), None)
      end
  end.

Definition lookup_drain {D} (k : Lookup) (app : AppState D) : Lookup * AppState D :=
  (MkLookup (lookup_client_id k) (lookup_key_hex k) (lookup_gateway_id k) (lookup_error k) [],
   foldl (fun app snap => drain_balance_result snap app) app (lookup_results k)).

(** The card of the result. *)
Inductive LookupCard := NoQueryYet | CardError (e : string) | CardPositions (m : gmap Z (Z * Z)) | CardBlank.
Definition lookup_card {D} (k : Lookup) (app : AppState D) : LookupCard :=
  match balances app !! lookup_client_id k with
  | None => NoQueryYet
  | Some b =>
      if negb (String.eqb (last_error b) "") then CardError (last_error b)
      else if has_snapshot b then CardPositions (positions b) else CardBlank
  end.

(** Answers for other clients leave the balance of a client alone. *)
Lemma drain_other {D} id snaps (app : AppState D) :
  Forall (fun sn => b_client_id sn <> id) snaps ->
  balances (foldl (fun app snap => drain_balance_result snap app) app snaps) !! id = balances app !! id.
Proof.
  intros H. revert app. induction H as [|sn snaps Hn _ IH]; intros app; [done|]. cbn [foldl]. rewrite IH. unfold drain_balance_result.
  cbn [balances set_balances]. by rewrite lookup_insert_ne.
Qed.

(** The card shows the last answer for the client: its error, or the positions it
    brought. *)
Theorem lookup_shows_last_answer {D} k (app : AppState D) before snap after :
  lookup_results k = before ++ snap :: after -> b_client_id snap = lookup_client_id k ->
  Forall (fun sn => b_client_id sn <> lookup_client_id k) after -> (b_ok snap = false -> b_error snap <> "") ->
  let '(k', app') := lookup_drain k app in
  lookup_card k' app' =
  if b_ok snap then CardPositions (foldl (fun m '(a, c, t) => <[a := (c, t)]> m) ∅ (b_positions snap)) else CardError (b_error snap).
Proof.
  intros Hr Hid Ha He. unfold lookup_drain, lookup_card. rewrite Hr, foldl_app. cbn [foldl lookup_client_id]. rewrite drain_other by done.
  unfold drain_balance_result at 1. cbn [balances set_balances]. rewrite Hid, lookup_insert_eq. destruct (b_ok snap) eqn:E; [done|].
  cbn [last_error]. destruct (String.eqb_spec (b_error snap) ""); [by destruct (He eq_refl)|done].
Qed.

(** Unlike the panel, the page does not wait: two clicks are two queries at a time,
    under the same gateway id. *)
Lemma lookup_queries_overlap k key info :
  parse_hex_key (lookup_key_hex k) = Some key ->
  let '(k1, j1) := lookup_query (Some info) k in let '(k2, j2) := lookup_query (Some info) k1 in is_Some j1 /\ j2 = j1.
Proof.
  intros Hk. unfold lookup_query. rewrite Hk. destruct (parse_host_port (as_addr info)) as [h prt]. cbn [lookup_key_hex lookup_client_id lookup_gateway_id].
  rewrite Hk. split; [by eexists|done].
Qed.

(** ** Lifetimes

    [do_connect] replaces the session object; the detached threads of [do_connect]
    and [do_disconnect] use it.  Objects are numbered. *)

Module Lifetime.

Inductive Thread :=
| Starting                (* has not read [this->session] yet *)
| InConnect (o : nat)
| InDisconnect (o : nat).

Record Panel := MkLive {
  current : option nat;                 (* the object [session] points to *)
  alive : gset nat;
  states : gmap nat SessionState;
  threads : list Thread;
  created : nat
}.
Definition panel0 : Panel := MkLive None ∅ ∅ [] 0.

(** The card shows Connect unless the session is connected. *)
Definition shows_connect (x : Panel) : Prop :=
  match current x with Some o => states x !! o <> Some SConnected | None => True end.

Inductive step : Panel -> Panel -> Prop :=
| l_connect x :
    shows_connect x ->
    step x (MkLive (Some (created x))
              ({[created x]} ∪ (match current x with Some o => alive x ∖ {[o]} | None => alive x end))
              (<[created x := Disconnected]> (states x)) (threads x ++ [Starting]) (S (created x)))
| l_start x t1 t2 o :
    threads x = t1 ++ Starting :: t2 -> current x = Some o ->
    step x (MkLive (current x) (alive x) (<[o := Connecting]> (states x)) (t1 ++ InConnect o :: t2) (created x))
| l_connected x t1 t2 o st :
    threads x = t1 ++ InConnect o :: t2 -> st = SConnected \/ st = Failed ->
    step x (MkLive (current x) (alive x) (<[o := st]> (states x)) (t1 ++ t2) (created x))
| l_disconnect x o :
    current x = Some o -> states x !! o = Some SConnected ->
    step x (MkLive (current x) (alive x) (states x) (threads x ++ [InDisconnect o]) (created x))
| l_disconnected x t1 t2 o :
    threads x = t1 ++ InDisconnect o :: t2 ->
    step x (MkLive (current x) (alive x) (<[o := Disconnected]> (states x)) (t1 ++ t2) (created x)).

(** The object a thread is in. *)
Definition uses (t : Thread) : option nat := match t with Starting => None | InConnect o | InDisconnect o => Some o end.

(** No thread is in an object that was destroyed. *)
Definition safe (x : Panel) : Prop := forall t o, t ∈ threads x -> uses t = Some o -> o ∈ alive x.

(** A click on Connect while an earlier one is under way. *)
Definition patient (x y : Panel) : Prop := step x y /\ (created y <> created x -> threads x = []).

Lemma patient_inv x y :
  (forall o, current x = Some o -> o ∈ alive x) -> (forall t o, t ∈ threads x -> uses t = Some o -> current x = Some o) ->
  patient x y ->
  (forall o, current y = Some o -> o ∈ alive y) /\ (forall t o, t ∈ threads y -> uses t = Some o -> current y = Some o).
Proof.
  intros HA HT [Hst Hp]. destruct Hst as [x Hs|x t1 t2 o Ht Hc|x t1 t2 o st Ht Hst|x o Hc Hst|x t1 t2 o Ht]; cbn in *.
  - split; [intros o [= <-]; set_solver|]. rewrite (Hp ltac:(lia)). intros t o Hin Hu. apply list_elem_of_singleton in Hin as ->. done.
  - split; [exact HA|]. intros t o' Hin Hu. apply elem_of_app in Hin as [Hin|Hin]; [|apply elem_of_cons in Hin as [->|Hin]].
    + apply (HT t); [rewrite Ht; set_solver|done].
    + injection Hu as <-. done.
    + apply (HT t); [rewrite Ht; set_solver|done].
  - split; [exact HA|]. intros t o' Hin Hu. apply (HT t); [rewrite Ht; set_solver|done].
  - split; [exact HA|]. intros t o' Hin Hu. apply elem_of_app in Hin as [Hin|Hin]; [by apply (HT t)|].
    apply list_elem_of_singleton in Hin as ->. by injection Hu as <-.
  - split; [exact HA|]. intros t o' Hin Hu. apply (HT t); [rewrite Ht; set_solver|done].
Qed.

(** As long as nobody clicks Connect while a thread of an earlier click is under
    way, no thread uses a session that was destroyed. *)
Theorem patient_user_is_safe x : rtc patient panel0 x -> safe x.
Proof.
  intros HR. assert (H : (forall o, current x = Some o -> o ∈ alive x) /\ (forall t o, t ∈ threads x -> uses t = Some o -> current x = Some o)).
  { assert (H0 : (forall o, current panel0 = Some o -> o ∈ alive panel0) /\
      (forall t o, t ∈ threads panel0 -> uses t = Some o -> current panel0 = Some o)) by (split; [done|]; intros t o Hin; by apply elem_of_nil in Hin).
    revert H0. induction HR as [|x1 x2 x3 Hst _ IH]; intros [H1 H2]; [done|]. apply IH. by apply (patient_inv x1). }
  destruct H as [HA HT]. intros t o Hin Hu. apply HA. by apply (HT t).
Qed.

(** But the button stays on while a connection is being made: a second click
    destroys the session whose [connect] is running. *)
Theorem second_click_destroys_session_in_use : exists x, rtc step panel0 x /\ ~ safe x.
Proof.
  set (x1 := MkLive (Some 0%nat) {[0%nat]} {[0%nat := Disconnected]} [Starting] 1).
  set (x2 := MkLive (Some 0%nat) {[0%nat]} {[0%nat := Connecting]} [InConnect 0] 1).
  set (x3 := MkLive (Some 1%nat) {[1%nat]} (<[1%nat := Disconnected]> {[0%nat := Connecting]}) [InConnect 0; Starting] 2).
  exists x3. split.
  - apply rtc_l with x1; [exact (l_connect panel0 I)|].
    apply rtc_l with x2; [exact (l_start x1 [] [] 0 eq_refl eq_refl)|].
    apply rtc_once. exact (l_connect x2 ltac:(done)).
  - intros HS. specialize (HS (InConnect 0) 0%nat ltac:(left) eq_refl). cbn in HS. set_solver.
Qed.
End Lifetime.
