(* ===== verification/MarketCharts.v ===== *)
(** What the client's charts compute: candles ([AssetMarketHistory::build_candles]
    of src/market_client/include/app_state.hpp), and of src/market_client/src/main.cpp
    the quote at a time ([quote_at]), the totals and the cumulated depth of the order
    book page ([draw_order_book_table], [draw_depth_chart]), the session statistics
    ([draw_price_history_panel]) and the samples of the latency page
    ([draw_latency_stats_panel]).  Drawing is left out.

    [double] is a parameter with the operations used; what the proofs rely on is the
    order of the integers converted to it.  [std::upper_bound] is written out.

    Main results: each candle summarises the trades of one bucket; the binary search
    finds the last quote not after the time; the depth shown at a price is the depth
    at that price and better; every entry of the feed is counted once. *)

From stdpp Require Import gmap sorting.
From S2P Require Import Prelude WireTypes Dashboard.
From Stdlib Require Import Sorting.Sorted.

Class Double (D : Type) := {
  of_int : Z -> D;
  dlt : D -> D -> bool;
  dle : D -> D -> bool;
  deq : D -> D -> bool;
  dadd : D -> D -> D;
  dmul : D -> D -> D;
  ddiv : D -> D -> D;
  dfloor : D -> D
}.

(** Conversion of integers rounds, and keeps the order. *)
Class DoubleLaws (D : Type) {d : Double D} : Prop := {
  dlt_of_int a b : dlt (of_int a) (of_int b) = true -> a < b;
  dlt_total a b : dlt (of_int a) (of_int b) = false -> dlt (of_int b) (of_int a) = false -> of_int a = of_int b
}.

Section Charts.
Context {D : Type} `{!Double D}.

(** ** Candles *)

Record Candle := MkCandle {
  c_start : D; c_open : D; c_high : D; c_low : D; c_close : D; c_volume : D;
  c_trades : Z                  (* uint32_t *)
}.

(** [std::max] and [std::min] *)
Definition std_max (a b : D) : D := if dlt a b then b else a.
Definition std_min (a b : D) : D := if dlt b a then b else a.

Definition bucket_start (bucket_s time : D) : D := dmul (dfloor (ddiv time bucket_s)) bucket_s.

Definition add_print (t : TradePrint D) (c : Candle) : Candle :=
  let p := of_int (p_price t) in
  MkCandle (c_start c) (c_open c) (std_max (c_high c) p) (std_min (c_low c) p) p
    (dadd (c_volume c) (of_int (p_qty t))) (u32 (c_trades c + 1)).

(** One turn of the loop; the last candle is updated in place. *)
Definition candle_step (bucket_s : D) (out : list Candle) (t : TradePrint D) : list Candle :=
  let start := bucket_start bucket_s (p_time t) in
  let p := of_int (p_price t) in
  let fresh := MkCandle start p p p p (of_int 0) 0 in
  let out :=
    match last out with
    | None => out ++ [fresh]
    | Some c => if negb (deq (c_start c) start) then out ++ [fresh] else out
    end in
  alter (add_print t) (pred (length out)) out.

Definition build_candles (bucket_s : D) (ts : list (TradePrint D)) : list Candle :=
  if dle bucket_s (of_int 0) then [] else foldl (candle_step bucket_s) [] ts.

(** ** Quotes *)

(** [std::upper_bound] with the comparison [v < key]: the range
    [first, first + len) is searched. *)
Fixpoint upper_bound {A} (key : A -> D) (fuel : nat) (v : D) (qs : list A) (first len : nat) : option nat :=
  match fuel with
  | O => None
  | S fuel =>
      if (len =? 0)%nat then Some first
      else
        let half := (len / 2)%nat in
        let middle := (first + half)%nat in
        q ← qs !! middle;
        if dlt v (key q) then upper_bound key fuel v qs first half
        else upper_bound key fuel v qs (S middle) (len - half - 1)
  end.

(** [None]: the search did not end, which [upper_bound_ok] excludes. *)
Definition quote_at (qs : list (QuoteSample D)) (t : D) : option (option (QuoteSample D)) :=
  it ← upper_bound q_time (S (length qs)) t qs 0 (length qs);
  Some (if (it =? 0)%nat then None else qs !! pred it).

(** ** Session statistics *)

Record SessionStats := MkStats { st_last : Z; st_first : Z; st_prev : Z; st_hi : Z; st_lo : Z; st_volume : Z }.

(** The loop over the trades, newest first, to the last price that differs. *)
Fixpoint previous_price (last : Z) (newest : list (TradePrint D)) : Z :=
  match newest with
  | [] => last
  | t :: ts => if negb (p_price t =? last) then p_price t else previous_price last ts
  end.

Definition session_stats (ts : list (TradePrint D)) : option SessionStats :=
  match head ts, last ts with
  | Some f, Some l =>
      let first := p_price f in
      let '(hi, lo, volume) :=
        foldl (fun '(hi, lo, v) t => (Z.max hi (p_price t), Z.min lo (p_price t), u64 (v + p_qty t))) (first, first, 0) ts in
      Some (MkStats (p_price l) first (previous_price (p_price l) (reverse ts)) hi lo volume)
  | _, _ => None
  end.

(** ** Latencies *)

Record LatencyEntry := MkLatency { ingested_ts : Z; routed_ts : Z; received_ts : Z; update_ts : Z }.

Record Samples := MkSamples {
  gw_internal : list D; gw_to_engine : list D; engine_to_exec : list D; total : list D;
  no_data_count : nat; resting_count : nat;
  neg_gw_internal : nat; neg_gw_to_engine : nat; neg_engine_to_exec : nat; neg_total : nat
}.
Definition samples0 : Samples := MkSamples [] [] [] [] 0 0 0 0 0 0.

(** The difference of two timestamps read as [int64_t], in nanoseconds. *)
Definition span (ns : D) (t0 t1 : Z) : D := dmul (of_int (s64 (s64 t1 - s64 t0))) ns.

(** A span is counted as negative, or kept. *)
Definition keep (ignore_negative : bool) (v : D) (l : list D) (neg : nat) : list D * nat :=
  if ignore_negative && dlt v (of_int 0) then (l, S neg) else (l ++ [v], neg).

Definition sample (ns threshold_ns : D) (ignore_negative : bool) (s : Samples) (e : LatencyEntry) : Samples :=
  if (ingested_ts e =? 0) && (routed_ts e =? 0) && (received_ts e =? 0) && (update_ts e =? 0) then
    MkSamples (gw_internal s) (gw_to_engine s) (engine_to_exec s) (total s) (S (no_data_count s)) (resting_count s)
      (neg_gw_internal s) (neg_gw_to_engine s) (neg_engine_to_exec s) (neg_total s)
  else
    let total_ns := span ns (ingested_ts e) (update_ts e) in
    if dlt threshold_ns total_ns then
      MkSamples (gw_internal s) (gw_to_engine s) (engine_to_exec s) (total s) (no_data_count s) (S (resting_count s))
        (neg_gw_internal s) (neg_gw_to_engine s) (neg_engine_to_exec s) (neg_total s)
    else
      let '(gwi, n1) := keep ignore_negative (span ns (ingested_ts e) (routed_ts e)) (gw_internal s) (neg_gw_internal s) in
      let '(gte, n2) := keep ignore_negative (span ns (routed_ts e) (received_ts e)) (gw_to_engine s) (neg_gw_to_engine s) in
      let '(ete, n3) := keep ignore_negative (span ns (received_ts e) (update_ts e)) (engine_to_exec s) (neg_engine_to_exec s) in
      let '(tot, n4) := keep ignore_negative total_ns (total s) (neg_total s) in
      MkSamples gwi gte ete tot (no_data_count s) (resting_count s) n1 n2 n3 n4.

Definition latency_samples (ns threshold_ns : D) (ignore_negative : bool) (feed : list LatencyEntry) : Samples :=
  foldl (sample ns threshold_ns ignore_negative) samples0 feed.

(** ** Candles summarise buckets *)

Section Candles.
Context `{!DoubleLaws D} (bucket_s : D).

Abbreviation start t := (bucket_start bucket_s (p_time t)).
(* the starts are numbers, which are equal when they are the same *)
Context (Heq : forall t t' : TradePrint D, deq (start t) (start t') = true <-> start t = start t').

(** What a run of trades comes to. *)
Definition max_price (g : list (TradePrint D)) : Z := match g with [] => 0 | t :: r => foldl Z.max (p_price t) (p_price <$> r) end.
Definition min_price (g : list (TradePrint D)) : Z := match g with [] => 0 | t :: r => foldl Z.min (p_price t) (p_price <$> r) end.
Definition summary (g : list (TradePrint D)) (t0 t1 : TradePrint D) : Candle :=
  MkCandle (start t0) (of_int (p_price t0)) (of_int (max_price g)) (of_int (min_price g)) (of_int (p_price t1))
    (foldl (fun v t => dadd v (of_int (p_qty t))) (of_int 0) g) (u32 (Z.of_nat (length g))).

(** [c] is the candle of the run [g]. *)
Definition candle_of (g : list (TradePrint D)) (c : Candle) : Prop :=
  exists t0 t1, head g = Some t0 /\ last g = Some t1 /\ Forall (fun t => start t = start t0) g /\ c = summary g t0 t1.

Lemma std_max_int a b : std_max (of_int a) (of_int b) = of_int (Z.max a b).
Proof.
  unfold std_max. destruct (dlt (of_int a) (of_int b)) eqn:E.
  - apply dlt_of_int in E. by rewrite Z.max_r by lia.
  - destruct (Z.max_spec a b) as [[H ->]|[H ->]]; [|done]. destruct (dlt (of_int b) (of_int a)) eqn:E2; [apply dlt_of_int in E2; lia|].
    by apply dlt_total.
Qed.
Lemma std_min_int a b : std_min (of_int a) (of_int b) = of_int (Z.min a b).
Proof.
  unfold std_min. destruct (dlt (of_int b) (of_int a)) eqn:E.
  - apply dlt_of_int in E. by rewrite Z.min_r by lia.
  - destruct (Z.min_spec a b) as [[H ->]|[H ->]]; [done|]. destruct (dlt (of_int a) (of_int b)) eqn:E2; [apply dlt_of_int in E2; lia|].
    by apply dlt_total.
Qed.

Lemma summary_snoc g t0 t1 t : head g = Some t0 -> add_print t (summary g t0 t1) = summary (g ++ [t]) t0 t.
Proof.
  intros Hh. destruct g as [|u g]; [done|]. injection Hh as ->. unfold add_print, summary.
  cbn [c_start c_open c_high c_low c_close c_volume c_trades app max_price min_price].
  rewrite std_max_int, std_min_int, fmap_app, !foldl_app. f_equal; [by rewrite app_comm_cons, foldl_app|].
  etrans; [apply u32_add_cong, u32_idem|]. f_equal. cbn [length]. rewrite length_app. cbn [length]. lia.
Qed.

Lemma alter_last {A} (f : A -> A) (l : list A) x : alter f (pred (length (l ++ [x]))) (l ++ [x]) = l ++ [f x].
Proof.
  rewrite length_app. cbn [length]. rewrite Nat.add_1_r. cbn [pred]. induction l as [|y l IH]; [done|]. cbn. by rewrite IH.
Qed.

(** The runs of trades: consecutive ones with the same start, none longer. *)
Definition differ (gs : list (list (TradePrint D))) : Prop :=
  forall i g g' t t', gs !! i = Some g -> gs !! S i = Some g' -> head g = Some t -> head g' = Some t' -> start t <> start t'.

Lemma differ_extend gs g t : g <> [] -> differ (gs ++ [g]) -> differ (gs ++ [g ++ [t]]).
Proof.
  intros Hne HD i h h' u u' H1 H2 H3 H4. destruct g as [|x g]; [done|].
  assert (Hget : forall j k, (gs ++ [(x :: g) ++ [t]]) !! j = Some k -> exists k', (gs ++ [x :: g]) !! j = Some k' /\ head k' = head k).
  { intros j k Hk. apply lookup_app_Some in Hk as [Hk|[Hj Hk]]; [exists k; split; [by apply lookup_app_l_Some|done]|].
    apply list_lookup_singleton_Some in Hk as [Hz <-]. exists (x :: g). split; [|done]. by rewrite lookup_app_r, Hz. }
  destruct (Hget _ _ H1) as (k & E1 & Hk). destruct (Hget _ _ H2) as (k' & E2 & Hk'). apply (HD i k k' u u'); congruence.
Qed.

Lemma differ_snoc gs g t : differ (gs ++ [g]) -> (forall u, head g = Some u -> start u <> start t) -> differ ((gs ++ [g]) ++ [[t]]).
Proof.
  intros HD Hne i h h' u u' H1 H2 H3 H4. apply lookup_app_Some in H2 as [H2|[Hj H2]].
  - apply (HD i h h' u u'); try done. rewrite lookup_app_l in H1; [done|]. apply lookup_lt_Some in H2. lia.
  - apply list_lookup_singleton_Some in H2 as [Hz <-]. injection H4 as <-. rewrite length_app in Hj, Hz. cbn [length] in Hj, Hz.
    rewrite lookup_app_l in H1 by (rewrite length_app; simpl; lia). rewrite lookup_app_r in H1 by lia.
    replace (i - length gs)%nat with 0%nat in H1 by lia. injection H1 as <-. by apply Hne.
Qed.

(** The chart is a faithful summary.  The trades fall, in order, into runs of
    trades of one bucket, each as long as it can be, and there is one candle for
    each run: it opens at the first price and closes at the last, its high and low
    are the highest and lowest prices, and it counts the trades and adds up their
    quantities. *)
Theorem candles_summarise_trades ts :
  dle bucket_s (of_int 0) = false ->
  exists gs, concat gs = ts /\ differ gs /\ Forall2 candle_of gs (build_candles bucket_s ts).
Proof.
  intros Hb. unfold build_candles. rewrite Hb. clear Hb.
  induction ts as [|t ts IH] using rev_ind.
  { exists []. split; [done|]. split; [intros i g g' u u' Hg; by rewrite lookup_nil in Hg|constructor]. }
  destruct IH as (gs & Hc & HD & HF). rewrite foldl_app. cbn [foldl]. set (out := foldl (candle_step bucket_s) [] ts) in *. clearbody out.
  unfold candle_step. set (fresh := MkCandle _ _ _ _ _ _ _).
  assert (Hfresh : candle_of [t] (add_print t fresh)).
  { exists t, t. split; [done|]. split; [done|]. split; [by apply Forall_singleton|]. unfold add_print, summary, fresh.
    cbn [c_start c_open c_high c_low c_close c_volume c_trades max_price min_price fmap list_fmap foldl length].
    rewrite std_max_int, std_min_int, Z.max_id, Z.min_id. done. }
  destruct (Forall2_length _ _ _ HF). destruct gs as [|g gs _] using rev_ind.
  - apply Forall2_nil_inv_l in HF as ->. cbn [last]. exists [[t]]. cbn [app length pred].
    split; [by rewrite <- Hc|]. split; [intros [|i] g g' u u' Hg Hg'; by rewrite ?lookup_nil in *|]. by constructor.
  - apply Forall2_app_inv_l in HF as (out0 & out1 & HF0 & HF1 & ->). apply Forall2_cons_inv_l in HF1 as (c & o & Hg & HF1 & ->).
    apply Forall2_nil_inv_l in HF1 as ->. rewrite last_snoc. destruct Hg as (t0 & t1 & Hh & Hl & Hs & ->).
    cbn [c_start summary]. destruct (deq (start t0) (start t)) eqn:E; cbn [negb].
    + apply Heq in E. exists (gs ++ [g ++ [t]]). rewrite alter_last. split_and!.
      * rewrite <- Hc, !concat_app. cbn [concat]. by rewrite !app_nil_r, app_assoc.
      * apply differ_extend; [by destruct g|done].
      * apply Forall2_app; [done|]. constructor; [|constructor]. exists t0, t. rewrite last_snoc, (summary_snoc g t0 t1 t Hh).
        split; [by destruct g|]. split; [done|]. split; [|done]. apply Forall_app. split; [done|]. by apply Forall_singleton.
    + exists ((gs ++ [g]) ++ [[t]]). rewrite alter_last. split_and!.
      * rewrite <- Hc, concat_app. cbn [concat]. by rewrite app_nil_r.
      * apply differ_snoc; [done|]. intros u Hu Hse. rewrite Hh in Hu. injection Hu as <-. apply Heq in Hse. congruence.
      * apply Forall2_app; [|by constructor]. apply Forall2_app; [done|]. constructor; [|constructor]. by exists t0, t1.
Qed.

Lemma foldl_max_ge l a : a <= foldl Z.max a l /\ Forall (fun x => x <= foldl Z.max a l) l.
Proof.
  revert a. induction l as [|x l IH]; intros a; [done|]. cbn [foldl]. destruct (IH (Z.max a x)) as [H1 H2].
  split; [lia|]. constructor; [lia|done].
Qed.
Lemma foldl_min_le l a : foldl Z.min a l <= a /\ Forall (fun x => foldl Z.min a l <= x) l.
Proof.
  revert a. induction l as [|x l IH]; intros a; [done|]. cbn [foldl]. destruct (IH (Z.min a x)) as [H1 H2].
  split; [lia|]. constructor; [lia|done].
Qed.
(** Every price of the run is between the low and the high. *)
Lemma candle_range g : Forall (fun t => min_price g <= p_price t <= max_price g) g.
Proof.
  destruct g as [|t g]; [done|]. cbn [min_price max_price].
  destruct (foldl_max_ge (p_price <$> g) (p_price t)) as [H1 H2]. destruct (foldl_min_le (p_price <$> g) (p_price t)) as [H3 H4].
  constructor; [lia|]. rewrite Forall_fmap in H2, H4. rewrite Forall_forall in H2. rewrite Forall_forall in H4. apply Forall_forall.
  intros u Hu. split; [by apply H4|by apply H2].
Qed.
End Candles.

(** ** The search *)

Section Search.
Context {A : Type} (key : A -> D).
Implicit Types (q : A) (qs : list A).

(** The elements not after [v]. *)
Definition not_after (v : D) q : bool := negb (dlt v (key q)).
Fixpoint not_after_prefix (v : D) qs : list A :=
  match qs with [] => [] | q :: qs => if not_after v q then q :: not_after_prefix v qs else [] end.

(** The elements after [v] come last, as they do when the keys do not decrease. *)
Definition partitioned (v : D) qs : Prop :=
  forall i j q q', (i <= j)%nat -> qs !! i = Some q -> qs !! j = Some q' -> not_after v q' = true -> not_after v q = true.

Lemma prefix_length v qs k :
  (k <= length qs)%nat -> (forall i q, qs !! i = Some q -> not_after v q = (i <? k)%nat) -> not_after_prefix v qs = take k qs.
Proof.
  revert k. induction qs as [|q qs IH]; intros k Hk H; [by rewrite take_nil|]. cbn [not_after_prefix length] in *.
  rewrite (H 0%nat q eq_refl). destruct k as [|k]; [done|]. cbn. rewrite (IH k); [done|lia|]. intros i r Hr. exact (H (S i) r Hr).
Qed.

Lemma upper_bound_ok v qs fuel first len :
  partitioned v qs -> (first + len <= length qs)%nat -> (len < fuel)%nat ->
  (forall i q, qs !! i = Some q -> (i < first)%nat -> not_after v q = true) ->
  (forall i q, qs !! i = Some q -> (first + len <= i)%nat -> not_after v q = false) ->
  exists k, upper_bound key fuel v qs first len = Some k /\ (k <= length qs)%nat /\ forall i q, qs !! i = Some q -> not_after v q = (i <? k)%nat.
Proof.
  intros HP. revert first len. induction fuel as [|fuel IH]; intros first len Hl Hf Hlo Hhi; [lia|]. cbn [upper_bound].
  destruct (Nat.eqb_spec len 0) as [->|Hne].
  { exists first. split; [done|]. split; [lia|]. intros i q Hq. destruct (Nat.ltb_spec i first) as [H|H]; [by apply (Hlo i)|apply (Hhi i); [done|lia]]. }
  set (half := (len / 2)%nat). assert (Hh : (half < len)%nat) by (apply Nat.div_lt; lia).
  destruct (lookup_lt_is_Some_2 qs (first + half)) as [q Hq]; [lia|]. rewrite Hq. cbn [mbind option_bind].
  destruct (dlt v (key q)) eqn:E.
  - apply IH; [lia|lia|done|]. intros i r Hr Hi. destruct (not_after v r) eqn:En; [|done]. exfalso.
    pose proof (HP (first + half)%nat i q r Hi Hq Hr En) as Hx. unfold not_after in Hx. by rewrite E in Hx.
  - apply IH; [lia|lia| |].
    + intros i r Hr Hi. apply (HP i (first + half)%nat r q ltac:(lia) Hr Hq). unfold not_after. by rewrite E.
    + intros i r Hr Hi. apply (Hhi i); [done|lia].
Qed.

(** The search ends, at the end of the elements not after [v]. *)
Lemma upper_bound_prefix v qs :
  partitioned v qs -> exists k, upper_bound key (S (length qs)) v qs 0 (length qs) = Some k /\
    (k <= length qs)%nat /\ not_after_prefix v qs = take k qs.
Proof.
  intros HP. destruct (upper_bound_ok v qs (S (length qs)) 0 (length qs) HP) as (k & H1 & Hk & Hq); try lia.
  { intros i q Hq Hi. apply lookup_lt_Some in Hq. lia. }
  exists k. split_and!; [done|done|by apply prefix_length].
Qed.
End Search.

(** The binary search is right.  It ends, and finds the last of the quotes not
    after the time, or nothing when there is none. *)
Theorem quote_at_is_last_not_after qs t :
  partitioned q_time t qs -> quote_at qs t = Some (last (not_after_prefix q_time t qs)).
Proof.
  intros HP. unfold quote_at. destruct (upper_bound_prefix q_time t qs HP) as (k & -> & Hk & ->).
  cbn [mbind option_bind]. f_equal. destruct k as [|k]; [by rewrite take_0|].
  cbn [Nat.eqb pred]. rewrite last_lookup, length_take_le by done. cbn [pred]. symmetry. apply lookup_take_lt. lia.
Qed.

(** ** Samples *)

Lemma keep_length ign v l neg : (length (keep ign v l neg).1 + (keep ign v l neg).2 = S (length l + neg))%nat.
Proof. unfold keep. destruct (_ && _); cbn [fst snd]; [lia|]. rewrite length_app. simpl. lia. Qed.

(** Every entry is left out for want of data, left out as resting, or counted in each
    of the four metrics, as a sample or as a negative span. *)
Theorem samples_account_for_feed ns thr ign feed :
  let s := latency_samples ns thr ign feed in
  let counted := (length feed - no_data_count s - resting_count s)%nat in
  (no_data_count s + resting_count s <= length feed)%nat /\
  (length (gw_internal s) + neg_gw_internal s = counted /\ length (gw_to_engine s) + neg_gw_to_engine s = counted /\
   length (engine_to_exec s) + neg_engine_to_exec s = counted /\ length (total s) + neg_total s = counted)%nat.
Proof.
  cbv zeta. unfold latency_samples. induction feed as [|e feed IH] using rev_ind; [cbn; lia|]. rewrite foldl_app, length_app. cbn [foldl length].
  set (s := foldl _ samples0 feed) in *. clearbody s. unfold sample. destruct (_ && _); [cbn; lia|]. destruct (dlt thr _); [cbn; lia|].
  pose proof (keep_length ign (span ns (ingested_ts e) (routed_ts e)) (gw_internal s) (neg_gw_internal s)) as K1.
  pose proof (keep_length ign (span ns (routed_ts e) (received_ts e)) (gw_to_engine s) (neg_gw_to_engine s)) as K2.
  pose proof (keep_length ign (span ns (received_ts e) (update_ts e)) (engine_to_exec s) (neg_engine_to_exec s)) as K3.
  pose proof (keep_length ign (span ns (ingested_ts e) (update_ts e)) (total s) (neg_total s)) as K4.
  destruct (keep ign _ (gw_internal s) _), (keep ign _ (gw_to_engine s) _), (keep ign _ (engine_to_exec s) _), (keep ign _ (total s) _).
  cbn [fst snd gw_internal gw_to_engine engine_to_exec total no_data_count resting_count neg_gw_internal neg_gw_to_engine neg_engine_to_exec neg_total] in *.
  lia.
Qed.
End Charts.

(** ** The order book page *)

(** [a] is not a worse price than [b]: the order in which the map is walked. *)
Definition not_worse (asc : bool) (a b : Z * Z) : Prop := if asc then a.1 <= b.1 else b.1 <= a.1.
#[export] Instance not_worse_dec asc : RelDecision (not_worse asc).
Proof. intros a b. unfold not_worse. destruct asc; apply _. Defined.
#[export] Instance not_worse_total asc : Total (not_worse asc).
Proof. intros a b. unfold not_worse. destruct asc; lia. Qed.
#[export] Instance not_worse_trans asc : Transitive (not_worse asc).
Proof. intros a b c. unfold not_worse. destruct asc; lia. Qed.

(** The levels of a side of the book, best first: the map of the asks is ordered by
    [std::less], that of the bids by [std::greater]. *)
Definition book_levels (asc : bool) (m : gmap Z Z) : list (Z * Z) := merge_sort (not_worse asc) (map_to_list m).

(** The running totals of [draw_depth_chart]: price and cumulated depth. *)
Fixpoint depth_curve (max_levels : nat) (running : Z) (L : list (Z * Z)) : list (Z * Z) :=
  match max_levels, L with
  | S n, (p, d) :: L => let running := u32 (running + d) in (p, running) :: depth_curve n running L
  | _, _ => []
  end.
Definition depth_chart (max_levels : nat) (asc : bool) (m : gmap Z Z) : list (Z * Z) := depth_curve max_levels 0 (book_levels asc m).

(** The totals of [draw_order_book_table]: the greatest quantity shown, and the sum. *)
Fixpoint table_totals (rows : nat) (max_qty sum : Z) (L : list (Z * Z)) : Z * Z :=
  match rows, L with
  | S n, (_, d) :: L => table_totals n (Z.max max_qty d) (u64 (sum + d)) L
  | _, _ => (max_qty, sum)
  end.
Definition book_table (max_rows : nat) (b : ClientBook) : Z * Z * Z :=
  let '(q, bid_total) := table_totals max_rows 1 0 (book_levels false (cbids b)) in
  let '(q, ask_total) := table_totals max_rows q 0 (book_levels true (casks b)) in
  (q, bid_total, ask_total).

(** The depth of the side at [p] and better prices. *)
Definition sum_depth (L : list (Z * Z)) : Z := foldr (fun x n => x.2 + n) 0 L.
Definition depth_to (asc : bool) (p : Z) (m : gmap Z Z) : Z := sum_depth (filter (fun x => not_worse asc x (p, 0)) (map_to_list m)).

#[export] Instance sum_depth_perm : Proper ((≡ₚ) ==> (=)) sum_depth.
Proof. intros l l' H. unfold sum_depth. induction H; cbn; lia. Qed.

Lemma sum_depth_app l l' : sum_depth (l ++ l') = sum_depth l + sum_depth l'.
Proof. unfold sum_depth. induction l as [|x l IH]; cbn; lia. Qed.

Lemma depth_curve_lookup n r L i p c :
  depth_curve n r L !! i = Some (p, c) -> exists d, L !! i = Some (p, d) /\ u32 c = u32 (r + sum_depth (take (S i) L)) /\ c = u32 c.
Proof.
  revert r L i. induction n as [|n IH]; intros r L i H; [by destruct L|]. destruct L as [|[q d] L]; [done|]. cbn [depth_curve] in H.
  destruct i as [|i].
  - injection H as <- <-. exists d. split; [done|]. rewrite u32_idem. split; [|done].
    change (take 1 ((q, d) :: L)) with ((q, d) :: take 0 L). rewrite take_0. cbn [sum_depth foldr snd]. by rewrite Z.add_0_r.
  - destruct (IH _ _ _ H) as (d' & H1 & H2 & H3). exists d'. split; [done|]. split; [|done]. rewrite H2.
    change (take (S (S i)) ((q, d) :: L)) with ((q, d) :: take (S i) L). cbn [sum_depth foldr snd]. fold (sum_depth (take (S i) L)).
    rewrite Z.add_assoc. apply u32_add_cong, u32_idem.
Qed.

(** In a list of levels sorted best first, those not worse than the [i]-th are the
    first [i + 1]. *)
Lemma sorted_prefix asc L i p d :
  StronglySorted (not_worse asc) L -> NoDup L.*1 -> L !! i = Some (p, d) -> filter (fun x => not_worse asc x (p, 0)) L = take (S i) L.
Proof.
  intros HS. revert i. induction HS as [|[q e] L HS IH HF]; intros i HN Hi; [done|]. rewrite fmap_cons in HN. apply NoDup_cons in HN as [Hni HN].
  cbn [fst] in Hni. rewrite filter_cons. rewrite Forall_forall in HF. destruct i as [|i].
  - injection Hi as -> ->. rewrite decide_True by (unfold not_worse; destruct asc; cbn; lia). cbn [take]. f_equal. rewrite take_0.
    destruct (filter _ L) as [|x l] eqn:E; [done|]. exfalso. assert (Hx : x ∈ filter (fun x => not_worse asc x (p, 0)) L) by (rewrite E; left).
    apply list_elem_of_filter in Hx as [Hw Hx]. pose proof (HF x Hx) as Hw'. apply Hni. apply list_elem_of_fmap. exists x. split; [|done].
    unfold not_worse in *. destruct asc; cbn [fst] in *; lia.
  - pose proof (HF (p, d) ltac:(eapply list_elem_of_lookup_2; exact Hi)) as Hw.
    rewrite decide_True by (unfold not_worse in *; destruct asc; cbn [fst] in *; lia). cbn [take]. f_equal. by apply IH.
Qed.

Lemma book_levels_sorted asc m : StronglySorted (not_worse asc) (book_levels asc m).
Proof. apply StronglySorted_merge_sort; apply _. Qed.
Lemma book_levels_perm asc m : book_levels asc m ≡ₚ map_to_list m.
Proof. apply merge_sort_Permutation. Qed.
Lemma book_levels_nodup asc m : NoDup (book_levels asc m).*1.
Proof. rewrite book_levels_perm. apply NoDup_fst_map_to_list. Qed.

(** The depth chart is cumulative depth.  The curve has a point for each of the
    best levels shown, best first, and the height at a price is the depth of the
    side at that price and at every better one, modulo the 32 bits of the counter. *)
Theorem depth_chart_cumulates max_levels asc m i p c :
  depth_chart max_levels asc m !! i = Some (p, c) ->
  (exists d, m !! p = Some d /\ book_levels asc m !! i = Some (p, d)) /\ c = u32 (depth_to asc p m).
Proof.
  intros H. destruct (depth_curve_lookup _ _ _ _ _ _ H) as (d & H1 & H2 & H3). split.
  - exists d. split; [|done]. apply list_elem_of_lookup_2 in H1. rewrite book_levels_perm in H1. by apply elem_of_map_to_list.
  - rewrite H3, H2. f_equal. rewrite Z.add_0_l. unfold depth_to. rewrite <- (book_levels_perm asc m).
    by rewrite (sorted_prefix asc (book_levels asc m) i p d (book_levels_sorted asc m) (book_levels_nodup asc m) H1).
Qed.

(** ** Concrete charts *)

(** Whole seconds and prices. *)
#[export] Instance Z_double : Double Z := {|
  of_int z := z; dlt := Z.ltb; dle := Z.leb; deq := Z.eqb; dadd := Z.add; dmul := Z.mul; ddiv := Z.div; dfloor z := z
|}.
#[export] Instance Z_double_laws : DoubleLaws Z.
Proof. split; cbn; intros a b; [by intros H%Z.ltb_lt|]. intros H1%Z.ltb_ge H2%Z.ltb_ge. lia. Qed.

Definition demo_trades : list (TradePrint Z) :=
  [MkPrint 100 50 1; MkPrint 103 55 2; MkPrint 109 48 1; MkPrint 121 60 5].

Lemma candles_summarise_trades_witness :
  (exists gs, concat gs = demo_trades /\ Forall2 (candle_of 10) gs (build_candles 10 demo_trades)) /\
  build_candles 10 demo_trades = [MkCandle 100 50 55 48 48 4 3; MkCandle 120 60 60 60 60 5 1].
Proof.
  split; [|reflexivity]. destruct (candles_summarise_trades (D := Z) 10) with (ts := demo_trades) as (gs & H1 & _ & H3).
  - intros t t'. cbn. apply Z.eqb_eq.
  - reflexivity.
  - by exists gs.
Defined.

Definition demo_quotes : list (QuoteSample Z) := [MkQuote 10 1 2; MkQuote 20 1 3; MkQuote 20 2 3; MkQuote 30 2 4].
Lemma quote_at_is_last_not_after_witness : quote_at demo_quotes 25 = Some (Some (MkQuote 20 2 3)).
Proof.
  rewrite quote_at_is_last_not_after; [reflexivity|]. intros i j q q' Hij Hi Hj. unfold not_after.
  apply lookup_lt_Some in Hi as Hi'. apply lookup_lt_Some in Hj as Hj'. cbn in Hi', Hj'.
  destruct i as [|[|[|[|i]]]], j as [|[|[|[|j]]]]; try lia; cbn in Hi, Hj; injection Hi as <-; injection Hj as <-; vm_compute; congruence.
Defined.

Lemma depth_chart_cumulates_witness :
  depth_chart 20 false {[100 := 5; 98 := 7; 99 := 1]} = [(100, 5); (99, 6); (98, 13)] /\
  13 = u32 (depth_to false 98 {[100 := 5; 98 := 7; 99 := 1]}).
Proof.
  split; [vm_compute; reflexivity|].
  apply (depth_chart_cumulates 20 false {[100 := 5; 98 := 7; 99 := 1]} 2 98 13). vm_compute. reflexivity.
Defined.
