(* ===== verification/MulticastClient.v ===== *)
(** The client's multicast socket
    (src/market_client/include/multicast_receiver.hpp): [start], [stop] and the loop
    of its thread.  What the system calls return is a parameter; the loads of
    [running_] are numbered.

    Main results: the handler is called once for each datagram, in order, however
    many calls of [recv] fail in between, and a failure that persists is logged six
    times; a receiver that started closes its socket once.  A start that fails leaves
    the closed descriptor behind, and a later [stop] closes it again. *)

From stdpp Require Import strings.
From S2P Require Import Prelude.

(** ** Start and stop *)

(** What the calls of [start] return. *)
Record Calls := MkCalls {
  socket_ret : Z;
  device_ok : bool;             (* setsockopt(SO_BINDTODEVICE) *)
  bind_ok : bool;
  if_index : Z;                 (* if_nametoindex: 0 when there is no such interface *)
  member_ok : bool              (* setsockopt(IP_ADD_MEMBERSHIP) *)
}.

Record MulticastReceiver := MkMulticast {
  local_interface_name : string;
  fd : Z;
  running : bool;
  thread_joinable : bool;
  Closed : list Z               (* the descriptors passed to close, in order *)
}.
Definition receiver_init (name : string) : MulticastReceiver := MkMulticast name (-1) false false [].

Implicit Type r : MulticastReceiver.
Definition set_fd (x : Z) r := MkMulticast (local_interface_name r) x (running r) (thread_joinable r) (Closed r).
Definition close_fd r := MkMulticast (local_interface_name r) (fd r) (running r) (thread_joinable r) (Closed r ++ [fd r]).
Definition set_running (b : bool) r := MkMulticast (local_interface_name r) (fd r) b (thread_joinable r) (Closed r).
Definition set_thread (b : bool) r := MkMulticast (local_interface_name r) (fd r) (running r) b (Closed r).

(** The state after [start], and the exception it throws, if any. *)
Definition start (k : Calls) r : MulticastReceiver * option string :=
  if running r then (r, None)
  else
    let r := set_fd (socket_ret k) (set_running true r) in
    let named := negb (String.eqb (local_interface_name r) "") in
    if socket_ret k <? 0 then (r, Some "socket() failed")
    else if named && negb (device_ok k) then (close_fd r, Some "SO_BINDTODEVICE failed")
    else if negb (bind_ok k) then (close_fd r, Some "bind() failed")
    else if named && (if_index k =? 0) then (close_fd r, Some "interface not found")
    else if negb (member_ok k) then (close_fd r, Some "IP_ADD_MEMBERSHIP failed")
    else (set_thread true r, None).

Definition stop r : MulticastReceiver :=
  if negb (running r) then r
  else
    let r := set_running false r in
    let r := if 0 <=? fd r then set_fd (-1) (close_fd r) else r in
    if thread_joinable r then set_thread false r else r.

(** ** The loop *)

Inductive Received := Datagram (data : list Z) | RecvError.
Inductive LogLine := FirstPacket (n : nat) | ErrorLine | SuppressLine.

Record Loop := MkLoop {
  logged_first_packet : bool;
  consecutive_errors : Z;         (* int *)
  logged : list LogLine;
  handled : list (list Z)         (* the calls of the handler, in order *)
}.
Definition loop0 : Loop := MkLoop false 0 [] [].

Definition on_error (l : Loop) : Loop :=
  MkLoop (logged_first_packet l) (s32 (consecutive_errors l + 1))
    (logged l ++ (if consecutive_errors l <? 5 then [ErrorLine] else if consecutive_errors l =? 5 then [SuppressLine] else []))
    (handled l).
Definition on_datagram (data : list Z) (l : Loop) : Loop :=
  MkLoop true 0 (logged l ++ (if logged_first_packet l then [] else [FirstPacket (length data)])) (handled l ++ [data]).

(** [load n] is the [n]-th load of [running_]; the result says whether the loop
    ended ([false]: it waits in [recv]). *)
Fixpoint run (load : nat -> bool) (n : nat) (rs : list Received) (l : Loop) : bool * Loop :=
  if negb (load n) then (true, l)
  else
    match rs with
    | [] => (false, l)
    | RecvError :: rs => if negb (load (S n)) then (true, l) else run load (S (S n)) rs (on_error l)
    | Datagram data :: rs => run load (S n) rs (on_datagram data l)
    end.

(** ** Correctness *)

Definition datagrams (rs : list Received) : list (list Z) :=
  rs ≫= (fun x => match x with Datagram d => [d] | RecvError => [] end).

(** The handler gets the datagrams in order, each once: all of those received while
    the receiver runs, a first part of them when it is stopped. *)
Theorem receiver_hands_over_datagrams load n rs l :
  exists k, handled (run load n rs l).2 = handled l ++ take k (datagrams rs) /\
    ((forall i, load i = true) -> run load n rs l = (false, (run load n rs l).2) /\ handled (run load n rs l).2 = handled l ++ datagrams rs).
Proof.
  revert n l. induction rs as [|x rs IH]; intros n l; cbn [run].
  - exists 0%nat. rewrite take_0, app_nil_r. destruct (load n) eqn:E; cbn [negb snd]; (split; [done|]); intros HL; [|by rewrite HL in E].
    split; [done|]. cbn. by rewrite app_nil_r.
  - destruct (load n) eqn:E; cbn [negb snd]; [|exists 0%nat; rewrite take_0, app_nil_r; split; [done|]; intros HL; by rewrite HL in E].
    unfold datagrams. destruct x as [d|]; rewrite bind_cons; fold (datagrams rs).
    + destruct (IH (S n) (on_datagram d l)) as (k & Hk & HL). exists (S k). cbn [app take]. rewrite Hk. cbn [handled on_datagram].
      split; [by rewrite <- app_assoc|]. intros Hl. destruct (HL Hl) as [H1 H2]. split; [exact H1|].
      rewrite Hk in H2. cbn [handled on_datagram] in H2. by rewrite H2, <- app_assoc.
    + destruct (load (S n)) eqn:E2; cbn [negb snd].
      * destruct (IH (S (S n)) (on_error l)) as (k & Hk & HL). exists k. split; [exact Hk|]. exact HL.
      * exists 0%nat. rewrite take_0, app_nil_r. split; [done|]. intros HL. by rewrite HL in E2.
Qed.

(** However long [recv] fails, at most six lines are logged for it, as long as the
    counter does not overflow. *)
Lemma persistent_errors_logged k l :
  consecutive_errors l = 0 -> Z.of_nat k < 2 ^ 31 ->
  let l' := Nat.iter k on_error l in
  consecutive_errors l' = Z.of_nat k /\ logged l' = logged l ++ replicate (Nat.min k 5) ErrorLine ++ (if (5 <? k)%nat then [SuppressLine] else []).
Proof.
  intros H0. induction k as [|k IH]; intros Hk.
  { cbv zeta. cbn. rewrite app_nil_r. done. }
  destruct (IH ltac:(lia)) as [H1 H2]. cbv zeta. change (Nat.iter (S k) on_error l) with (on_error (Nat.iter k on_error l)).
  cbn [consecutive_errors logged on_error].
  rewrite H1, H2. split; [rewrite s32_small; lia|].
  destruct (decide (k < 5)%nat) as [H|H]; [|destruct (decide (k = 5)%nat) as [->|Hne]].
  - destruct (Z.ltb_spec (Z.of_nat k) 5); [|lia]. rewrite !Nat.min_l by lia.
    destruct (Nat.ltb_spec 5 k), (Nat.ltb_spec 5 (S k)); try lia. rewrite !app_nil_r, <- app_assoc. f_equal. by rewrite <- replicate_cons_app.
  - cbn. rewrite <- !app_assoc. done.
  - destruct (Z.ltb_spec (Z.of_nat k) 5); [lia|]. destruct (Z.eqb_spec (Z.of_nat k) 5); [lia|].
    destruct (Nat.ltb_spec 5 k), (Nat.ltb_spec 5 (S k)); try lia. rewrite !Nat.min_r by lia. by rewrite app_nil_r.
Qed.

(** A receiver that started is stopped once: the socket is closed, once, and the
    thread has ended; another stop does nothing. *)
Theorem started_receiver_closes_once k r r' :
  running r = false -> fd r = -1 -> thread_joinable r = false -> start k r = (r', None) ->
  stop r' = MkMulticast (local_interface_name r) (-1) false false (Closed r ++ [socket_ret k]) /\ stop (stop r') = stop r'.
Proof.
  intros H1 H2 H3 HS. unfold start in HS. rewrite H1 in HS. destruct (Z.ltb_spec (socket_ret k) 0) as [|Hs]; [done|].
  repeat case_match; try done; injection HS as <-; cbn;
    (destruct (Z.leb_spec 0 (socket_ret k)); [|lia]); done.
Qed.

(** A start that fails after the socket was made closes it, and throws with the
    descriptor still recorded: stopping the receiver closes that number a second
    time, whatever it stands for by then. *)
Theorem failed_start_closes_twice k r r' e :
  running r = false -> 0 <= socket_ret k -> start k r = (r', Some e) ->
  running r' = true /\ fd r' = socket_ret k /\ Closed (stop r') = Closed r ++ [socket_ret k; socket_ret k].
Proof.
  intros H1 Hs HS. unfold start in HS. rewrite H1 in HS. destruct (Z.ltb_spec (socket_ret k) 0) as [|_]; [lia|].
  repeat case_match; try done; injection HS as <- <-; cbn; (split; [done|]); (split; [done|]); unfold stop; cbn [negb running close_fd set_fd set_running fd];
    (destruct (Z.leb_spec 0 (socket_ret k)); [|lia]); cbn; repeat case_match; cbn; by rewrite <- app_assoc.
Qed.
