(* ===== verification/TradeFeed.v ===== *)
(** The trade feed page of the client ([draw_trade_feed_panel] of
    src/market_client/src/main.cpp): how each report of the feed is worded.  Colours
    and layout are left out; a line is the values and the wording chosen.

    Main result: the page tells, for every match of an engine's run and in order, who
    bought and who sold how much of the asset, both parties and nothing else. *)

From S2P Require Import Prelude WireTypes Codec BookSpec Feed Engine WireFormats Dashboard.
From S2P Require BidAsk BidAskProofs.

(** ** Lines *)

Inductive FeedLine :=
| LTrade (client : Z) (bought : bool) (amount asset : Z) (partial : bool) (trade_id : Z)
| LPlaced (client : Z) (reserved : option (Z * Z)) (order_id : Z)    (* amount and asset *)
| LCancelled (client : Z) (released : option (Z * Z)) (order_id : Z)
| LRejected (client order_id : Z).

#[export] Instance FeedLine_eq_dec : EqDecision FeedLine.
Proof. solve_decision. Defined.

(** [x < 0 ? -x : x] of an [int64_t] *)
Definition magnitude (x : Z) : Z := if x <? 0 then s64 (- x) else x.

(** The attempt of a report, shown when it is not zero. *)
Definition attempt_note (e : TradeFeedEntry) : option (Z * Z) :=
  if negb (SoldAttemptDelta e =? 0) then Some (magnitude (SoldAttemptDelta e), SoldAssetId e) else None.

Definition feed_line (e : TradeFeedEntry) : FeedLine :=
  match State e with
  | FILL | PARTIAL_FILL =>
      let asset := if negb (BoughtAssetId e =? 0) then BoughtAssetId e else SoldAssetId e in
      let delta := if negb (BoughtAssetId e =? 0) then BoughtDelta e else SoldDelta e in
      LTrade (RClientId e) (0 <=? delta) (magnitude delta) asset (bool_decide (State e = PARTIAL_FILL)) (TradeId e)
  | ADD => LPlaced (RClientId e) (attempt_note e) (ROrderId e)
  | CANCEL => LCancelled (RClientId e) (attempt_note e) (ROrderId e)
  | REJECT => LRejected (RClientId e) (ROrderId e)
  end.
Definition is_trade (l : FeedLine) : bool := match l with LTrade _ _ _ _ _ _ => true | _ => false end.

(** ** The state the page shows *)

Section State.
Context {D : Type}.
Implicit Type s : AppState D.

Lemma update_feed s e : trade_feed (frame_update s e) = trade_feed s.
Proof. destruct e as [t u]. cbn [frame_update]. by destruct (_ =? 0). Qed.
Lemma etcd_feed ev s : trade_feed (apply_etcd_event ev s) = trade_feed s.
Proof. unfold apply_etcd_event. destruct (ev_resource_kind ev); try done. by destruct (ev_id ev). Qed.
Lemma report_feed s e : trade_feed (frame_report s e) = lastn kMaxTradeFeed (trade_feed s ++ [e.2]).
Proof.
  destruct e as [t r]. cbn [frame_report snd]. unfold record_order_report. destruct (decode_trade r) as [[[a p] q]|]; cbn [trade_feed].
  all: assert (HB : forall s', trade_feed (apply_trade_to_balance r s') = trade_feed s')
    by (intros s'; unfold apply_trade_to_balance; by destruct (_ !! _)).
  all: rewrite HB; unfold push_trade; cbn [set_feed trade_feed]; unfold lastn.
  all: destruct (Z.ltb_spec kMaxTradeFeed (Z.of_nat (length (trade_feed s ++ [r])))) as [H|H]; [done|].
  all: by replace (Z.to_nat _) with 0%nat by lia.
Qed.

Lemma reports_feed es s : trade_feed (foldl frame_report s es) = lastn kMaxTradeFeed (lastn kMaxTradeFeed (trade_feed s) ++ es.*2) \/ es = [].
Proof.
  destruct es as [|e es]; [by right|left]. revert e s. induction es as [|e' es IH]; intros e s; cbn [foldl fmap list_fmap].
  - rewrite report_feed, lastn_app by (unfold kMaxTradeFeed; lia). done.
  - cbn [foldl fmap list_fmap] in IH. rewrite IH, report_feed, !lastn_app by (unfold kMaxTradeFeed; lia). rewrite <- app_assoc. done.
Qed.

(** The feed is the last reports received. *)
Lemma frames_feed fs s :
  Z.of_nat (length (trade_feed s)) <= kMaxTradeFeed ->
  trade_feed (run_frames fs s) = lastn kMaxTradeFeed (trade_feed s ++ (frame_reports fs).*2).
Proof.
  assert (Hk : 0 <= kMaxTradeFeed) by (unfold kMaxTradeFeed; lia).
  assert (HL : forall l : list TradeFeedEntry, Z.of_nat (length l) <= kMaxTradeFeed -> lastn kMaxTradeFeed l = l).
  { intros l Hl. unfold lastn. by replace (Z.to_nat _) with 0%nat by lia. }
  revert s. induction fs as [|[[es rs] us] fs IH]; intros s Hs; unfold run_frames, frame_reports in *; cbn [foldl].
  { cbn. by rewrite app_nil_r, HL. }
  rewrite bind_cons, fmap_app. cbn [fst snd].
  assert (HF : trade_feed (frame es rs us s) = lastn kMaxTradeFeed (trade_feed s ++ rs.*2)).
  { unfold frame. rewrite (foldl_keep frame_update trade_feed) by (intros; apply update_feed).
    pose proof (foldl_keep (fun s ev => apply_etcd_event ev s) trade_feed es s ltac:(intros; apply etcd_feed)) as E.
    set (s1 := foldl _ s es) in *. destruct (reports_feed rs s1) as [-> | ->]; [by rewrite lastn_app, E by done|].
    cbn. by rewrite app_nil_r, HL, E by done. }
  rewrite IH, HF, lastn_app, <- app_assoc by (try done; rewrite HF; by apply lastn_length). done.
Qed.
End State.

(** ** The run, as it should read *)

(** The matches of a run, with the order that arrived. *)
Fixpoint run_fills (asset : Z) (reqs : list Order) (b : Book) : list (Order * Trade) :=
  match reqs with
  | [] => []
  | o :: r => (pair o <$> request_trades o b) ++ run_fills asset r (request asset o b).1.1
  end.

(** Both parties of a match, the arriving order first. *)
Definition match_lines (asset : Z) (f : Order * Trade) : list FeedLine :=
  let '(o, tr) := f in
  let buys := bool_decide (Side o = BUY) in
  [LTrade (u32 (ClientId o)) buys (t_qty tr) asset (0 <? t_left tr) 0;
   LTrade (u32 (ClientId (t_maker tr))) (negb buys) (t_qty tr) asset (0 <? Amount (t_maker tr) - t_qty tr) 0].

Section Lines.
Context (a : Z) (Ha : 0 < a < 2 ^ 16).

Lemma asset_u16 : u16 a = a.
Proof. apply Z.mod_small. lia. Qed.

Lemma buyer_line p t left o :
  0 < t < 2 ^ 32 -> feed_line (buyer_report a p t left o) = LTrade (u32 (ClientId o)) true t a (0 <? left) 0.
Proof.
  intros Ht. unfold feed_line, buyer_report, status, FillReport. cbn [State BoughtAssetId SoldAssetId BoughtDelta SoldDelta RClientId TradeId].
  rewrite asset_u16, (s64_small t) by (unfold in_s64; lia). rewrite (proj2 (Z.eqb_neq a 0)) by lia. cbn [negb]. unfold magnitude.
  rewrite (proj2 (Z.leb_le 0 t)), (proj2 (Z.ltb_ge t 0)) by lia. by destruct (0 <? left).
Qed.
Lemma seller_line p t left o :
  0 < t < 2 ^ 32 -> feed_line (seller_report a p t left o) = LTrade (u32 (ClientId o)) false t a (0 <? left) 0.
Proof.
  intros Ht. unfold feed_line, seller_report, status, FillReport. cbn [State BoughtAssetId SoldAssetId BoughtDelta SoldDelta RClientId TradeId].
  rewrite asset_u16, (s64_small (- t)) by (unfold in_s64; lia). change (u16 0) with 0. cbn [Z.eqb negb]. unfold magnitude.
  rewrite (proj2 (Z.leb_gt 0 (- t))), (proj2 (Z.ltb_lt (- t) 0)), Z.opp_involutive, s64_small by (unfold in_s64; lia).
  by destruct (0 <? left).
Qed.

Abbreviation trade_lines rs := (filter (fun l => is_trade l = true) (feed_line <$> rs)).

Lemma match_lines_ok o ts :
  Forall trade_priced ts -> trade_lines (ts ≫= trade_reports a o) = (pair o <$> ts) ≫= match_lines a.
Proof.
  induction 1 as [|tr ts (Hq & _) _ IH]; [done|]. rewrite bind_cons, fmap_app, filter_app, IH, fmap_cons, bind_cons. f_equal.
  unfold trade_reports, match_lines. destruct (Side o); cbn [fmap list_fmap]; by rewrite buyer_line, seller_line.
Qed.

Lemma request_lines o b :
  book_wf b -> book_priced b -> (Action o = EXECUTE -> 0 < Amount o /\ priced o) ->
  trade_lines (request a o b).1.2 = (pair o <$> request_trades o b) ≫= match_lines a.
Proof.
  intros Hwf Hb Ho. destruct (request_priced a o b Hwf Hb Ho) as [_ Ht]. unfold request, request_trades in *.
  assert (Hack : forall o att id st, st = ADD \/ st = CANCEL -> trade_lines [ack_report a o att id st] = []).
  { intros o' att id st [-> | ->]; unfold ack_report; destruct (Side o'); done. }
  destruct (Action o).
  - unfold exec_order. destruct (match_levels _ _ _ _) as [[q L'] ts]. cbn [snd] in *.
    destruct (0 <? q); [destruct (Type_ o)|]; cbn [fst snd]; rewrite ?fmap_app, ?filter_app, ?Hack, ?app_nil_r, match_lines_ok by auto; done.
  - unfold cancel_order. destruct (find_order _ _) as [r|]; [destruct (_ =? _)|]; cbn [fst snd]; [apply Hack; auto|done..].
Qed.

Lemma number_lines n rs : feed_line <$> number n rs = feed_line <$> rs.
Proof. revert n. induction rs as [|r rs IH]; intros n; [done|]. cbn [number]. rewrite !fmap_cons, IH. by destruct r. Qed.

Lemma run_lines reqs b n :
  book_wf b -> book_priced b -> Forall (fun o => Action o = EXECUTE -> 0 < Amount o /\ priced o) reqs ->
  trade_lines (number n (spec_run a reqs b).1.2) = run_fills a reqs b ≫= match_lines a.
Proof.
  rewrite number_lines. intros Hwf Hb HF. revert b Hwf Hb. induction HF as [|o r Ho _ IH]; intros b Hwf Hb; [done|].
  cbn [spec_run run_fills]. pose proof (request_lines o b Hwf Hb Ho) as HR. destruct (request_priced a o b Hwf Hb Ho) as [Hb1 _].
  pose proof (request_wf a o b Hwf (fun E => proj1 (Ho E))) as Hwf1.
  destruct (request a o b) as [[b1 rs1] us1]. cbn [fst snd] in *. specialize (IH b1 Hwf1 Hb1).
  destruct (spec_run a r b1) as [[b2 rs2] us2]. cbn [fst snd] in *. by rewrite fmap_app, filter_app, bind_app, HR, IH.
Qed.
End Lines.

(** What the page says of an asset. *)
Definition page_lines {D} (a : Z) (s : AppState D) : list FeedLine :=
  feed_line <$> filter (mentions a) (trade_feed s).

(** Only reports of the asset read as its trades. *)
Definition on_asset (a : Z) (r : OrderStateReport) : Prop := is_trade (feed_line r) = true -> mentions a r.

Lemma request_on_asset a o b : 0 < a < 2 ^ 16 -> Forall (on_asset a) (request a o b).1.2.
Proof.
  intros Ha. assert (HA : forall att id st o, Forall (on_asset a) [ack_report a o att id st]).
  { intros att id st o'. apply Forall_singleton. intros _. unfold mentions, ack_report. destruct (Side o'); first [left; by apply asset_u16|right; by apply asset_u16]. }
  assert (HT : forall ts, Forall (on_asset a) (ts ≫= trade_reports a o)).
  { induction ts as [|tr ts IHt]; [constructor|]. rewrite bind_cons. apply Forall_app. split; [|done]. unfold trade_reports.
    destruct (Side o); repeat (apply Forall_cons; split; [intros _; unfold mentions; first [left; by apply asset_u16|right; by apply asset_u16]|]); constructor. }
  unfold request, exec_order, cancel_order. destruct (Action o).
  - destruct (match_levels _ _ _ _) as [[q L'] ts]. destruct (0 <? q); [|apply HT]. destruct (Type_ o); apply Forall_app; split; auto.
  - destruct (find_order _ _); [destruct (_ =? _)|]; [apply HA|by apply Forall_singleton..].
Qed.

Lemma run_on_asset a reqs b n : 0 < a < 2 ^ 16 -> Forall (on_asset a) (number n (spec_run a reqs b).1.2).
Proof.
  intros Ha. assert (HN : forall rs n, Forall (on_asset a) rs -> Forall (on_asset a) (number n rs)).
  { induction rs as [|r rs IH]; intros m HF; [constructor|]. apply Forall_cons in HF as [Hr HF]. constructor; [by destruct r|by apply IH]. }
  apply HN. revert b. induction reqs as [|o r IH]; intros b; [constructor|]. cbn [spec_run]. pose proof (request_on_asset a o b Ha) as HR.
  destruct (request a o b) as [[b1 rs1] us1]. specialize (IH b1). destruct (spec_run a r b1) as [[b2 rs2] us2]. by apply Forall_app.
Qed.

Lemma lines_on_asset a rs :
  Forall (on_asset a) rs -> filter (fun l => is_trade l = true) (feed_line <$> filter (mentions a) rs) =
    filter (fun l => is_trade l = true) (feed_line <$> rs).
Proof.
  induction 1 as [|r rs Hr _ IH]; [done|]. rewrite filter_cons, fmap_cons, filter_cons. case_decide as E; [by rewrite fmap_cons, filter_cons, IH|].
  destruct (decide (is_trade (feed_line r) = true)) as [Ht|Ht]; [by destruct (E (Hr Ht))|done].
Qed.

(** The feed page names both parties of every trade.  The reports have no sides,
    only two legs with signs.  Whatever the packets, the frames and the reports of
    other assets, the lines of the page on trades of the asset are, for every match
    of the run in order, who bought and who sold, the quantity and whether an order
    is left; as long as the feed has room for the reports, prices are positive and
    the value of every order fits in 63 bits. *)
Theorem feed_names_both_parties {D} z renv benv a p rs bs sb sa reqs :
  sizes_ok z -> (forall n, renv n = BidAsk.Accepted) -> (forall n, benv n = BidAsk.Accepted) ->
  valid_run z (u32 a) reqs empty_book -> Forall (fun o => Action o = EXECUTE -> priced o) reqs -> 0 < a < 2 ^ 16 ->
  exists s0 s, engine_init z a p rs bs sb sa = Ret s0 /\ engine_run z renv benv reqs s0 = Ret s /\
    forall (packets : list (D * list OrderStateReport)) (fs : list (Frame (D := D))) app,
      Forall (fun p => p.2 <> [] /\ Forall (fits report_codec) p.2) packets ->
      filter (mentions a) (concat packets.*2) = filter (mentions a) (BidAsk.Sent (BidAsk.OutgoingOrders s)) ->
      received on_report_packet report_codec packets = Some (frame_reports fs) ->
      trade_feed app = [] -> Z.of_nat (length (concat packets.*2)) <= kMaxTradeFeed ->
      filter (fun l => is_trade l = true) (page_lines a (run_frames fs app)) = run_fills a reqs empty_book ≫= match_lines a.
Proof.
  intros Hz H1 H2 Hv Hp Ha. destruct (engine_run_ok z renv benv a p rs bs sb sa reqs Hz H1 H2 Hv) as (s0 & s & G1 & G2 & G3).
  assert (HE : Forall (fun o => Action o = EXECUTE -> 0 < Amount o /\ priced o) reqs).
  { pose proof (BidAskProofs.admissible_pos _ _ _ _ _ _ Hv) as HE. rewrite Forall_forall in HE, Hp |- *. intros o Ho E. auto. }
  rewrite (u32_small a) in * by lia.
  pose proof (run_lines a Ha reqs empty_book (u32 rs) empty_book_wf ltac:(intros []; constructor) HE) as HR.
  pose proof (lines_on_asset a _ (run_on_asset a reqs empty_book (u32 rs) Ha)) as HM.
  destruct (spec_run a reqs empty_book) as [[b reps] ups]. destruct G3 as (_ & Hs & _). cbn [fst snd] in *.
  exists s0, s. split_and!; try done. intros packets fs app Hpk Hf Hr Happ Hlen. unfold on_report_packet in Hr.
  rewrite (received_stamped report_codec Gateways.OrderStateReport) in Hr; [|split; [reflexivity|apply dec_enc]|cbn; lia|done].
  injection Hr as Hr. unfold page_lines. rewrite frames_feed; rewrite Happ; [|done]. rewrite <- Hr, stamped_msgs. rewrite app_nil_l.
  unfold lastn. replace (Z.to_nat _) with 0%nat by lia. rewrite drop_0, Hf, Hs, HM. exact HR.
Qed.

Lemma feed_names_both_parties_witness :
  exists s0 s, engine_init demo_sizes 3 100 0 0 1 2 = Ret s0 /\
    engine_run demo_sizes accept_all accept_all demo_requests s0 = Ret s /\
    filter (fun l => is_trade l = true)
      (page_lines 3 (run_frames (demo_report_frames (stamped (demo_report_packets (BidAsk.Sent (BidAsk.OutgoingOrders s))))) app0))
    = run_fills 3 demo_requests empty_book ≫= match_lines 3.
Proof.
  destruct (feed_names_both_parties (D := nat) demo_sizes accept_all accept_all 3 100 0 0 1 2 demo_requests)
    as (s0 & s & G1 & G2 & HC); [exact demo_sizes_ok|done|done|exact demo_valid| |lia|].
  { repeat (apply Forall_cons; split; [intros E; first [discriminate E|split_and!; vm_compute; congruence]|]). constructor. }
  exists s0, s. split_and!; try done. set (rs := BidAsk.Sent (BidAsk.OutgoingOrders s)) in *.
  assert (HF : Forall (fits report_codec) rs /\ (2 < length rs < 100)%nat).
  { destruct (engine_run_ok demo_sizes accept_all accept_all 3 100 0 0 1 2 demo_requests demo_sizes_ok)
      as (s0' & s' & G1' & G2' & G3); try done; [exact demo_valid|]. rewrite G1 in G1'. injection G1' as <-.
    rewrite G2 in G2'. injection G2' as <-. pose proof (run_reports_fit (u32 3) demo_requests empty_book (u32 0)) as HF.
    destruct (spec_run (u32 3) demo_requests empty_book) as [[b' reps] ups] eqn:ES. destruct G3 as (_ & G3 & _).
    unfold rs. rewrite G3. split; [done|]. vm_compute in ES. injection ES as _ <- _. vm_compute. lia. }
  destruct HF as [HF Hlen].
  destruct (demo_report_packets_ok rs HF ltac:(lia)) as (HP & HC1 & HC2).
  apply (HC (demo_report_packets rs)); [exact HP|by rewrite HC1|exact HC2|done|rewrite HC1; unfold kMaxTradeFeed; lia].
Defined.
