(* ===== verification/FeedMonitor.v ===== *)
(** The monitor of the book feed among the functional tests
    (src/market_server/functional_tests/receiver.c): it filters the packets of the
    feed and checks that the sequence numbers of the updates do not jump.

    The network library is the one of UdpMulticast.v, with [rte_be_to_cpu_16] added.
    What is printed is a list of lines.

    Main results: over any sequence of numbers, the total of missing numbers the
    monitor reports is exact; but the struct it reads packets with is not the one the
    engine sends, so that the numbers it checks are prices, and of a packet of
    several updates it only looks at the first. *)

From S2P Require Import Prelude WireTypes Codec BookSpec WireFormats UdpMulticast UdpReceiver Multicast.

Section Layout.
#[local] Open Scope codec_scope.
(** The program's own [struct OrderBookUpdate]. *)
Definition monitor_codec : Codec OrderBookUpdate :=
  struct (uint 4 ⊗ uint 4 ⊗ sint64 ⊗ uint 2 ⊗ uint 1)
    (fun u => (USequenceId u, Depth u, UPrice u, UAssetId u, USide u))
    (fun '(q, d, p, a, s) => MkUpdate p q d a s)
    ltac:(by intros []).
End Layout.

Definition TARGET_UDP_PORT : Z := 30002.
Definition STATUS_INTERVAL : Z := 5000.

Inductive Line :=
| LFirst (seq : Z)
| LGap (expected seq missing : Z)
| LOutOfOrder (expected seq : Z)
| LFiltered (n : Z)
| LReceived (u : OrderBookUpdate)
| LStatus (n : Z)
| LShutdown (received gaps : Z).

(** The variables of the program. *)
Record Monitor := MkMonitor {
  irrelevantCount : Z;        (* uint64_t *)
  haveSeen : bool;
  lastSeq : Z;                (* uint32_t *)
  totalReceived : Z;          (* uint64_t *)
  totalGapPackets : Z;        (* uint64_t *)
  Printed : list Line;
  MFreed : nat                (* rte_pktmbuf_free calls *)
}.
Definition monitor0 : Monitor := MkMonitor 0 false 0 0 0 [] 0.

Implicit Type m : Monitor.
Definition set_irrelevant (n : Z) m : Monitor :=
  MkMonitor n (haveSeen m) (lastSeq m) (totalReceived m) (totalGapPackets m) (Printed m) (MFreed m).
Definition set_sequence (seen : bool) (last received gaps : Z) m : Monitor :=
  MkMonitor (irrelevantCount m) seen last received gaps (Printed m) (MFreed m).
Definition print (l : Line) m : Monitor :=
  MkMonitor (irrelevantCount m) (haveSeen m) (lastSeq m) (totalReceived m) (totalGapPackets m) (Printed m ++ [l]) (MFreed m).
Definition free_pkt m : Monitor :=
  MkMonitor (irrelevantCount m) (haveSeen m) (lastSeq m) (totalReceived m) (totalGapPackets m) (Printed m) (S (MFreed m)).

Definition checkSequence (seq : Z) m : Monitor :=
  let received := u64 (totalReceived m + 1) in
  if negb (haveSeen m) then print (LFirst seq) (set_sequence true seq received (totalGapPackets m) m)
  else
    let expected := u32 (lastSeq m + 1) in
    if seq =? expected then set_sequence true seq received (totalGapPackets m) m
    else if expected <? seq then
      let missing := u32 (seq - expected) in
      print (LGap expected seq missing) (set_sequence true seq received (u64 (totalGapPackets m + missing)) m)
    else print (LOutOfOrder expected seq) (set_sequence true (lastSeq m) received (totalGapPackets m) m).

Section Packets.
Context `{dk : Dpdk} (rte_be_to_cpu_16 : Z -> Z).

Definition minLen : nat := (headerSize + width monitor_codec)%nat.

Definition irrelevant m : Monitor := free_pkt (set_irrelevant (u64 (irrelevantCount m + 1)) m).

(** The body of the loop over a burst. *)
Definition on_packet (pkt : RxPacket) m : result Monitor :=
  if (pkt_len pkt <? minLen)%nat then Ret (irrelevant m)
  else
    match dec rte_ether_hdr (data pkt) with
    | None => Crash OutOfBounds
    | Some (eth, rest) =>
        if negb (rte_be_to_cpu_16 (ether_type eth) =? RTE_ETHER_TYPE_IPV4) then Ret (irrelevant m)
        else
          match dec rte_ipv4_hdr rest with
          | None => Crash OutOfBounds
          | Some (ip, rest) =>
              if negb (next_proto_id ip =? IPPROTO_UDP) then Ret (irrelevant m)
              else
                match dec rte_udp_hdr rest with
                | None => Crash OutOfBounds
                | Some (udp, payload) =>
                    if negb (rte_be_to_cpu_16 (dst_port udp) =? TARGET_UDP_PORT) then Ret (irrelevant m)
                    else
                      let m := if 0 <? irrelevantCount m then set_irrelevant 0 (print (LFiltered (irrelevantCount m)) m) else m in
                      match dec monitor_codec payload with
                      | None => Crash OutOfBounds
                      | Some (update, _) => Ret (free_pkt (checkSequence (USequenceId update) (print (LReceived update) m)))
                      end
                end
          end
    end.

Fixpoint on_packets (pkts : list RxPacket) m : result Monitor :=
  match pkts with
  | [] => Ret m
  | pkt :: pkts => m ← on_packet pkt m; on_packets pkts m
  end.

Definition on_burst (pkts : list RxPacket) m : result Monitor :=
  m ← on_packets pkts m;
  Ret (if (0 <? irrelevantCount m) && (irrelevantCount m mod STATUS_INTERVAL =? 0) then print (LStatus (irrelevantCount m)) m else m).

(** The bursts received until the program is interrupted. *)
Fixpoint monitor_loop (bursts : list (list RxPacket)) m : result Monitor :=
  match bursts with
  | [] => Ret (print (LShutdown (totalReceived m) (totalGapPackets m)) m)
  | pkts :: bursts => m ← on_burst pkts m; monitor_loop bursts m
  end.
End Packets.

(** ** Counting *)

(** How many of the numbers exceed all those before them. *)
Fixpoint records (top : Z) (qs : list Z) : Z :=
  match qs with
  | [] => 0
  | q :: qs => if top <? q then 1 + records q qs else records top qs
  end.
Definition highest (q0 : Z) (qs : list Z) : Z := foldl Z.max q0 qs.
Definition check_all (qs : list Z) m : Monitor := foldl (fun m q => checkSequence q m) m qs.

Lemma highest_ge q0 qs : q0 <= highest q0 qs.
Proof. revert q0. induction qs as [|q qs IH]; intros q0; [cbn; lia|]. cbn. specialize (IH (Z.max q0 q)). unfold highest in IH. lia. Qed.
Lemma highest_bound q0 qs B : q0 < B -> Forall (fun q => 0 <= q < B) qs -> highest q0 qs < B.
Proof. intros H HF. revert q0 H. induction HF as [|q qs Hq _ IH]; intros q0 H; [done|]. cbn. apply IH. lia. Qed.
Lemma records_bound top qs : 0 <= records top qs <= highest top qs - top.
Proof.
  revert top. induction qs as [|q qs IH]; intros top; [cbn; lia|]. cbn [records highest foldl]. fold (highest (Z.max top q) qs).
  destruct (Z.ltb_spec top q).
  - rewrite Z.max_r by lia. specialize (IH q). lia.
  - rewrite Z.max_l by lia. apply IH.
Qed.

(** The counters fit their type. *)
Definition counters_ok m : Prop := 0 <= totalGapPackets m < 2 ^ 64 /\ 0 <= totalReceived m < 2 ^ 64.

Lemma check_counts q m :
  haveSeen m = true -> 0 <= lastSeq m < 2 ^ 32 - 1 -> 0 <= q < 2 ^ 32 -> counters_ok m ->
  let m' := checkSequence q m in
  haveSeen m' = true /\ counters_ok m' /\ lastSeq m' = Z.max (lastSeq m) q /\
  totalGapPackets m' = u64 (totalGapPackets m + (if lastSeq m <? q then q - lastSeq m - 1 else 0)) /\
  totalReceived m' = u64 (totalReceived m + 1).
Proof.
  intros Hs Hl Hq [Hg Hr]. unfold checkSequence. rewrite Hs, (u32_small (lastSeq m + 1)) by lia. cbn [negb].
  pose proof (u64_range (totalReceived m + 1)) as H1. pose proof (u64_range (totalGapPackets m + u32 (q - (lastSeq m + 1)))) as H2.
  destruct (Z.eqb_spec q (lastSeq m + 1)) as [->|Hne]; [|destruct (Z.ltb_spec (lastSeq m + 1) q) as [H|H]];
    unfold counters_ok; cbn [haveSeen lastSeq totalGapPackets totalReceived print set_sequence].
  - rewrite (proj2 (Z.ltb_lt _ _)) by lia. replace (_ - _ - 1) with 0 by lia. rewrite Z.add_0_r, (u64_small (totalGapPackets m)) by lia.
    split_and!; first [done|lia].
  - rewrite (proj2 (Z.ltb_lt _ _)), (u32_small (q - _)) in * by lia. split_and!; first [done|lia|f_equal; lia].
  - rewrite (proj2 (Z.ltb_ge _ _)), Z.add_0_r, (u64_small (totalGapPackets m)) by lia. split_and!; first [done|lia].
Qed.

Lemma check_all_counts qs m :
  haveSeen m = true -> 0 <= lastSeq m < 2 ^ 32 - 1 -> Forall (fun q => 0 <= q < 2 ^ 32 - 1) qs -> counters_ok m ->
  let m' := check_all qs m in
  lastSeq m' = highest (lastSeq m) qs /\
  totalGapPackets m' = u64 (totalGapPackets m + (highest (lastSeq m) qs - lastSeq m - records (lastSeq m) qs)) /\
  totalReceived m' = u64 (totalReceived m + Z.of_nat (length qs)).
Proof.
  intros Hs Hl HF. revert m Hs Hl. induction HF as [|q qs Hq _ IH]; intros m Hs Hl Hc; cbn [check_all foldl].
  { destruct Hc. cbn. rewrite Z.sub_diag, !Z.add_0_r, !u64_small by lia. done. }
  destruct (check_counts q m Hs Hl ltac:(lia) Hc) as (A1 & A2 & A3 & A4 & A5). fold (check_all qs (checkSequence q m)).
  destruct (IH (checkSequence q m) A1 ltac:(lia) A2) as (B1 & B2 & B3).
  cbn [records highest foldl length]. fold (highest (Z.max (lastSeq m) q) qs). rewrite A3 in *. rewrite B1, B2, B3, A4, A5, !u64_add_l.
  split_and!; [done| |f_equal; lia].
  destruct (Z.ltb_spec (lastSeq m) q); [rewrite Z.max_r by lia|rewrite Z.max_l by lia]; f_equal; lia.
Qed.

(** The monitor counts exactly.  Of any sequence of numbers below the greatest, in
    any order and with repetitions, the total of missing ones is the numbers between
    the first and the highest that were passed over on the way up: for increasing
    numbers, received and missing together are the whole range. *)
Theorem monitor_counts_gaps q0 qs :
  0 <= q0 < 2 ^ 32 - 1 -> Forall (fun q => 0 <= q < 2 ^ 32 - 1) qs ->
  let m := check_all (q0 :: qs) monitor0 in
  lastSeq m = highest q0 qs /\
  totalGapPackets m + (1 + records q0 qs) = highest q0 qs - q0 + 1 /\
  totalReceived m = u64 (1 + Z.of_nat (length qs)) /\
  (Sorted.StronglySorted Z.lt (q0 :: qs) -> records q0 qs = Z.of_nat (length qs)).
Proof.
  intros Hq HF. cbn [check_all foldl]. fold (check_all qs (checkSequence q0 monitor0)). cbv zeta.
  destruct (check_all_counts qs (checkSequence q0 monitor0)) as (B1 & B2 & B3); [done|exact Hq|done|by split|].
  rewrite B1, B2, B3. cbn [lastSeq checkSequence monitor0 haveSeen negb print set_sequence totalGapPackets totalReceived].
  pose proof (records_bound q0 qs). pose proof (highest_bound q0 qs (2 ^ 32 - 1) ltac:(lia) HF).
  rewrite (u64_small (0 + _)) by lia. split_and!; [done|lia|done|]. clear B1 B2 B3 H H0.
  revert q0 Hq. induction HF as [|q qs Hqq _ IH]; intros q0 Hq HS; [done|]. apply Sorted.StronglySorted_inv in HS as [HS HA].
  apply List.Forall_inv in HA. cbn [records length]. rewrite (proj2 (Z.ltb_lt _ _)), IH by (done || lia). lia.
Qed.

Lemma monitor_counts_gaps_witness :
  totalGapPackets (check_all [3; 4; 9; 6; 10] monitor0) = 4 /\
  totalGapPackets (check_all [3; 4; 9; 6; 10] monitor0) + (1 + records 3 [4; 9; 6; 10]) = highest 3 [4; 9; 6; 10] - 3 + 1.
Proof.
  split; [reflexivity|]. apply (monitor_counts_gaps 3 [4; 9; 6; 10]); [lia|]. repeat (apply Forall_cons; split; [lia|]). constructor.
Defined.

(** ** What the monitor reads of the engine's packets *)

Lemma take_le_bytes k n z : (k <= n)%nat -> take k (le_bytes n z) = le_bytes k z.
Proof. revert n z. induction k as [|k IH]; intros [|n] z Hk; try done; [lia|]. cbn [le_bytes take]. rewrite IH by lia. done. Qed.

Lemma monitor_read u rest : fits update_codec u ->
  exists u', dec monitor_codec (enc update_codec u ++ rest) = Some (u', rest) /\ USequenceId u' = u32 (UPrice u).
Proof.
  intros Hu. assert (HL : length (enc update_codec u) = 19%nat) by (by rewrite enc_length).
  assert (HT : take 4 (enc update_codec u ++ rest) = le_bytes 4 (u64 (UPrice u))).
  { rewrite take_app_le by lia. unfold update_codec. cbn [enc struct pair_codec fst snd sint64 uint]. rewrite <- !app_assoc.
    rewrite take_app_le by (rewrite le_bytes_length; lia). apply take_le_bytes. lia. }
  revert HL HT. generalize (enc update_codec u). intros bs HL HT.
  do 19 (destruct bs as [|? bs]; [discriminate HL|]). destruct bs; [|discriminate HL]. clear HL. eexists. split; [reflexivity|].
  change (USequenceId _) with (of_le [z; z0; z1; z2]). change (take 4 _) with [z; z0; z1; z2] in HT. rewrite HT, of_le_bytes. unfold u32, u64.
  change (2 ^ (8 * Z.of_nat 4)) with (2 ^ 32). apply Z.mod_mod_divide. exists (2 ^ 32). reflexivity.
Qed.

Section Engine.
Context `{dk : Dpdk} `{!DpdkLaws dk} (rte_be_to_cpu_16 : Z -> Z).
(* the two conversions are inverse to each other *)
Context (be_cpu : forall z, in_u16 z -> rte_be_to_cpu_16 (rte_cpu_to_be_16 z) = z).
Context (ipv4_range : in_u16 RTE_ETHER_TYPE_IPV4).

(** The monitor checks prices.  Of a packet of updates as the engine sends it, the
    number it checks is the low half of the price of the first update, and the other
    updates are not looked at. *)
Theorem monitor_reads_price_as_sequence (e : Emitter OrderBookUpdate) u us tail m :
  mac_ok (DstMac e) -> mac_ok (SrcMac e) -> DstPort e = TARGET_UDP_PORT -> Forall (fits update_codec) (u :: us) ->
  exists m1, on_packet rte_be_to_cpu_16 (as_received (packet e (u :: us)) tail) m = Ret (free_pkt (checkSequence (u32 (UPrice u)) m1)) /\
    haveSeen m1 = haveSeen m /\ lastSeq m1 = lastSeq m /\ totalReceived m1 = totalReceived m /\ totalGapPackets m1 = totalGapPackets m.
Proof.
  intros Hd Hs Hp HF. pose proof HF as [Hu _]%Forall_cons.
  pose proof (packet_headers e Hd Hs) as (He & Hi & Hx).
  unfold on_packet. cbn [pkt_len data as_received frame packet].
  rewrite (proj2 (Nat.ltb_ge _ _)).
  2: { rewrite bind_cons, !length_app, !enc_length by done. unfold minLen, headerSize. change (width (layout (T := OrderBookUpdate))) with (width monitor_codec). lia. }
  rewrite <- !app_assoc, dec_enc by done. cbn [ether_type FillEthernetHeader]. rewrite be_cpu, Z.eqb_refl by done. cbn [negb].
  rewrite dec_enc by done. cbn [next_proto_id FillIpHeader]. rewrite Z.eqb_refl. cbn [negb].
  rewrite dec_enc by done. cbn [dst_port FillUdpHeader]. rewrite Hp, be_cpu, Z.eqb_refl by (unfold in_u16, TARGET_UDP_PORT; lia). cbn [negb].
  rewrite bind_cons, <- app_assoc. cbn [layout update_sequenced].
  destruct (monitor_read u ((us ≫= enc update_codec) ++ tail) Hu) as (u' & -> & ->).
  eexists. split; [reflexivity|]. by destruct (0 <? irrelevantCount m).
Qed.
End Engine.

Lemma swap16_inverse z : in_u16 z -> swap16 (swap16 z) = z.
Proof.
  intros Hz. unfold swap16. cbn [le_bytes rev app of_le]. unfold in_u16 in Hz.
  pose proof (Z.mod_pos_bound z (2 ^ 8) ltac:(lia)). pose proof (Z.mod_pos_bound (z / 2 ^ 8) (2 ^ 8) ltac:(lia)).
  pose proof (Z.div_mod z (2 ^ 8) ltac:(lia)). pose proof (Z.div_mod (z / 2 ^ 8) (2 ^ 8) ltac:(lia)).
  set (b := z mod 2 ^ 8) in *. set (t := z / 2 ^ 8) in *. set (c := t mod 2 ^ 8) in *. set (d := t / 2 ^ 8) in *.
  assert (d = 0) by nia. Z.div_mod_to_equations. nia.
Qed.

Lemma monitor_reads_price_as_sequence_witness :
  exists m1, on_packet (dk := demo_dpdk) swap16
      (as_received (packet (dk := demo_dpdk) (MkEmitter 0 0x0A000001 0xEF010102 4000 30002 (ipv4_multicast_to_mac 0xEF010102) demo_card ∅ 0 0 [] [])
         [MkUpdate 101 7 5 3 0; MkUpdate 99 8 6 3 0]) []) monitor0 = Ret m1 /\
    lastSeq m1 = 101 /\ totalReceived m1 = 1.
Proof.
  destruct (monitor_reads_price_as_sequence (dk := demo_dpdk) swap16) with
    (e := MkEmitter 0 0x0A000001 0xEF010102 4000 30002 (ipv4_multicast_to_mac 0xEF010102) demo_card (∅ : gmap nat OrderBookUpdate) 0 0 [] [])
    (u := MkUpdate 101 7 5 3 0) (us := [MkUpdate 99 8 6 3 0]) (tail := @nil Z) (m := monitor0) as (m1 & H1 & H2 & H3 & H4 & H5).
  - exact swap16_inverse.
  - split; [by vm_compute|by vm_compute].
  - apply multicast_mac_ok.
  - exact demo_card_ok.
  - reflexivity.
  - repeat (apply Forall_cons; split; [unfold update_codec; cbn; unfold in_s64; lia|]). constructor.
  - exists (free_pkt (checkSequence (u32 101) m1)). split; [exact H1|]. unfold checkSequence. rewrite H2. cbn. by rewrite H4.
Defined.
