(* ===== verification/PriceHistory.v ===== *)
(** The price history page of the client ([draw_price_history_panel] of
    src/market_client/src/main.cpp): the series it plots, the quotes of the visible
    stretch, the candle under the cursor and the tape of trades; and the statistics of
    the latency page ([compute_latency_stats]).  Drawing and the
    printing of numbers are left out.

    [double] is the parameter of MarketCharts.v, with the constants and the operations
    these functions add.

    Main results: the plotted step line shows at every visible time the quote in force
    at it, though only a stretch of the quotes is submitted; the volume bars are the
    candles, once each; the statistics never read past the samples. *)

From stdpp Require Import sorting.
From S2P Require Import Prelude WireTypes Dashboard MarketCharts.

Section PriceHistory.
Context {D : Type} `{!Double D}.
Context (nan half : D).                    (* NAN, 0.5 *)

(** ** Series *)

Record Series := MkSeries {
  xs : list D; highs : list D; lows : list D; closes : list D;
  up_bars : list (D * D); down_bars : list (D * D)     (* up_x and up_v, down_x and down_v *)
}.

Definition candle_x (bucket : D) (c : Candle) : D := dadd (c_start c) (dmul bucket half).
Definition rises (c : Candle (D := D)) : bool := dle (c_open c) (c_close c).

Definition plot_candle (bucket : D) (s : Series) (c : Candle) : Series :=
  let x := candle_x bucket c in
  MkSeries (xs s ++ [x]) (highs s ++ [c_high c]) (lows s ++ [c_low c]) (closes s ++ [c_close c])
    (if rises c then up_bars s ++ [(x, c_volume c)] else up_bars s)
    (if rises c then down_bars s else down_bars s ++ [(x, c_volume c)]).
Definition chart_series (bucket : D) (cs : list Candle) : Series := foldl (plot_candle bucket) (MkSeries [] [] [] [] [] []) cs.

(** The line of closes, carried forward to now. *)
Definition line_points (now : D) (s : Series) : list D * list D :=
  match last (xs s), last (closes s) with
  | Some x, Some y => (xs s ++ [std_max now x], closes s ++ [y])
  | _, _ => (xs s, closes s)
  end.

(** ** Quotes *)

(** The loop from the first quote, to the end of the view. *)
Fixpoint until_view_end (view_max : D) (qs : list (QuoteSample D)) : list (QuoteSample D) :=
  match qs with
  | [] => []
  | q :: qs => if dlt view_max (q_time q) then [] else q :: until_view_end view_max qs
  end.

Definition visible_quotes (view_min view_max : D) (qs : list (QuoteSample D)) : option (list (QuoteSample D)) :=
  first_it ← upper_bound q_time (S (length qs)) view_min qs 0 (length qs);
  Some (until_view_end view_max (drop (if (first_it =? 0)%nat then first_it else pred first_it) qs)).

Definition quote_point (q : QuoteSample D) : D * D * D :=
  (q_time q, if q_bid q =? 0 then nan else of_int (q_bid q), if q_ask q =? 0 then nan else of_int (q_ask q)).

(** The points of the two step lines. *)
Definition quote_points (draw_quotes : bool) (view_min view_max now : D) (qs : list (QuoteSample D)) : option (list (D * D * D)) :=
  if draw_quotes && negb (length qs =? 0)%nat then
    shown ← visible_quotes view_min view_max qs;
    let pts := quote_point <$> shown in
    Some (match last pts with
          | Some (x, b, a) => pts ++ [(std_max now x, b, a)]
          | None => pts
          end)
  else Some [].

(** ** The cursor and the tape *)

Definition hover_candle (bucket hover_x : D) (cs : list Candle) : option (option Candle) :=
  it ← upper_bound c_start (S (length cs)) hover_x cs 0 (length cs);
  Some (if (it =? 0)%nat then None
        else c ← cs !! pred it; if dlt hover_x (dadd (c_start c) bucket) then Some c else None).

Inductive Tick := TFirst | TUp | TDown | TSame.
Definition tape_rows (ts : list (TradePrint D)) : nat := Nat.min (length ts) 2000.
Definition tape_row (ts : list (TradePrint D)) (row : nat) : option (TradePrint D * Tick) :=
  let idx := (length ts - 1 - row)%nat in
  t ← ts !! idx;
  if (0 <? idx)%nat then
    prev ← ts !! pred idx;
    Some (t, if p_price prev <? p_price t then TUp else if p_price t <? p_price prev then TDown else TSame)
  else Some (t, TFirst).

(** ** Properties of the page *)

Lemma plot_series bucket cs s :
  let r := foldl (plot_candle bucket) s cs in
  xs r = xs s ++ (candle_x bucket <$> cs) /\ closes r = closes s ++ (c_close <$> cs) /\
  highs r = highs s ++ (c_high <$> cs) /\ lows r = lows s ++ (c_low <$> cs) /\
  up_bars r = up_bars s ++ ((fun c => (candle_x bucket c, c_volume c)) <$> filter (fun c => rises c = true) cs) /\
  down_bars r = down_bars s ++ ((fun c => (candle_x bucket c, c_volume c)) <$> filter (fun c => rises c = false) cs).
Proof.
  revert s. induction cs as [|c cs IH]; intros s; cbn [foldl fmap list_fmap].
  { cbn. by rewrite !app_nil_r. }
  destruct (IH (plot_candle bucket s c)) as (-> & -> & -> & -> & -> & ->). unfold plot_candle. cbn [xs highs lows closes up_bars down_bars].
  rewrite !filter_cons. destruct (rises c); repeat case_decide; try done; rewrite <- !app_assoc; done.
Qed.

(** The bars of the volume pane are the candles, once each, told apart by their
    direction. *)
Theorem volume_bars_are_candles bucket cs :
  let s := chart_series bucket cs in
  up_bars s ++ down_bars s ≡ₚ (fun c => (candle_x bucket c, c_volume c)) <$> cs /\
  length (xs s) = length cs /\ length (highs s) = length cs /\ length (lows s) = length cs /\ length (closes s) = length cs.
Proof.
  cbv zeta. unfold chart_series. destruct (plot_series bucket cs (MkSeries [] [] [] [] [] [])) as (-> & -> & -> & -> & -> & ->).
  cbn [xs highs lows closes up_bars down_bars app]. rewrite <- fmap_app, !length_fmap. split_and!; try done.
  apply Permutation_map. induction cs as [|c cs IH]; [done|]. rewrite !filter_cons.
  destruct (rises c); repeat case_decide; try done; [by rewrite <- app_comm_cons, IH|]. rewrite <- Permutation_middle. by rewrite IH.
Qed.

Lemma until_view_end_prefix v qs : until_view_end v qs = not_after_prefix q_time v qs.
Proof. induction qs as [|q qs IH]; [done|]. cbn. unfold not_after. destruct (dlt v (q_time q)); cbn; by rewrite ?IH. Qed.

Lemma prefix_drop {A} (key : A -> D) v qs n :
  not_after_prefix key v qs = take n qs -> (n <= length qs)%nat ->
  forall f, (f <= n)%nat -> not_after_prefix key v (drop f qs) = take (n - f) (drop f qs).
Proof.
  intros H Hn f. revert qs n H Hn. induction f as [|f IH]; intros qs n H Hn Hf; [by rewrite drop_0, Nat.sub_0_r|].
  destruct n as [|n]; [lia|]. destruct qs as [|q qs]; [simpl in Hn; lia|]. cbn in H, Hn |- *. destruct (not_after key v q); [|done].
  injection H as H. apply IH; [done|lia|lia].
Qed.
Lemma prefix_take {A} (key : A -> D) v (qs : list A) n : not_after_prefix key v (take n qs) = take n (not_after_prefix key v qs).
Proof.
  revert n. induction qs as [|q qs IH]; intros n; [cbn [not_after_prefix]; by rewrite !take_nil|]. destruct n as [|n]; [by rewrite !take_0|].
  cbn [take not_after_prefix]. destruct (not_after key v q); cbn [take]; by rewrite ?IH.
Qed.
Lemma prefix_mono {A} (key : A -> D) v v' (qs : list A) :
  (forall q, q ∈ qs -> not_after key v q = true -> not_after key v' q = true) ->
  (length (not_after_prefix key v qs) <= length (not_after_prefix key v' qs))%nat.
Proof.
  induction qs as [|q qs IH]; intros H; [done|]. cbn [not_after_prefix]. destruct (not_after key v q) eqn:E; [|cbn; lia].
  rewrite (H q) by (done || set_solver). cbn [length]. assert (length (not_after_prefix key v qs) <= length (not_after_prefix key v' qs))%nat; [|lia].
  apply IH. set_solver.
Qed.

(** The step lines show the quote in force.  Only the quotes of the visible
    stretch are submitted, with the one in force at its left edge; at every time of
    the view the last of them is the last of all quotes not after that time. *)
Theorem quote_line_shows_quote_in_force view_min view_max t qs :
  partitioned q_time view_min qs -> partitioned q_time view_max qs -> partitioned q_time t qs ->
  (forall q, q ∈ qs -> not_after q_time view_min q = true -> not_after q_time t q = true) ->
  (forall q, q ∈ qs -> not_after q_time t q = true -> not_after q_time view_max q = true) ->
  exists shown, visible_quotes view_min view_max qs = Some shown /\ quote_at qs t = Some (last (not_after_prefix q_time t shown)).
Proof.
  intros Hp1 Hp2 Hp3 H1 H2. unfold visible_quotes, quote_at.
  destruct (upper_bound_prefix q_time view_min qs Hp1) as (k1 & -> & L1 & E1).
  destruct (upper_bound_prefix q_time view_max qs Hp2) as (k2 & _ & L2 & E2).
  destruct (upper_bound_prefix q_time t qs Hp3) as (k & -> & L & E). cbn [mbind option_bind].
  pose proof (prefix_mono q_time _ _ qs H1) as M1. pose proof (prefix_mono q_time _ _ qs H2) as M2.
  rewrite E1, E, !length_take_le in M1 by done. rewrite E2, E, !length_take_le in M2 by done.
  set (f := if (k1 =? 0)%nat then k1 else pred k1). assert (Hf : (f <= k)%nat /\ (f = k -> k = 0%nat)).
  { unfold f. destruct (Nat.eqb_spec k1 0); lia. }
  eexists. split; [reflexivity|]. rewrite until_view_end_prefix, (prefix_drop q_time view_max qs k2 E2 L2 f) by lia.
  rewrite prefix_take, (prefix_drop q_time t qs k E L f), take_take by lia. replace (_ `min` _)%nat with (k - f)%nat by lia.
  f_equal. destruct (Nat.eqb_spec k 0) as [->|Hk]; [by rewrite take_0|].
  rewrite last_lookup, length_take, length_drop. rewrite lookup_take_lt, lookup_drop by lia. f_equal. lia.
Qed.

(** The candle under the cursor is the last that starts not after it, if it has not
    ended. *)
Lemma hover_candle_ok bucket x cs :
  partitioned c_start x cs ->
  hover_candle bucket x cs =
  Some (c ← last (not_after_prefix c_start x cs); if dlt x (dadd (c_start c) bucket) then Some c else None).
Proof.
  intros HP. unfold hover_candle. destruct (upper_bound_prefix c_start x cs HP) as (k & -> & Hk & ->). cbn [mbind option_bind]. f_equal.
  destruct k as [|k]; [by rewrite take_0|]. cbn [Nat.eqb pred]. rewrite last_lookup, length_take_le by done. cbn [pred].
  by rewrite lookup_take_lt by lia.
Qed.

(** The tape shows the trades newest first, each against the one before it. *)
Lemma tape_row_ok ts row :
  (row < tape_rows ts)%nat ->
  exists t, reverse ts !! row = Some t /\
    tape_row ts row = Some (t, match reverse ts !! S row with
                               | None => TFirst
                               | Some prev => if p_price prev <? p_price t then TUp else if p_price t <? p_price prev then TDown else TSame
                               end).
Proof.
  unfold tape_rows, tape_row. intros Hr. rewrite reverse_lookup by lia. replace (length ts - S row)%nat with (length ts - 1 - row)%nat by lia.
  destruct (lookup_lt_is_Some_2 ts (length ts - 1 - row)) as [t Ht]; [lia|]. rewrite Ht. exists t. split; [done|]. cbn [mbind option_bind].
  destruct (Nat.ltb_spec 0 (length ts - 1 - row)).
  - rewrite reverse_lookup by lia. replace (length ts - S (S row))%nat with (pred (length ts - 1 - row)) by lia.
    destruct (lookup_lt_is_Some_2 ts (pred (length ts - 1 - row))) as [u Hu]; [lia|]. by rewrite Hu.
  - rewrite lookup_ge_None_2; [done|]. rewrite length_reverse. lia.
Qed.
End PriceHistory.

Lemma quote_line_shows_quote_in_force_witness :
  visible_quotes 22 35 (demo_quotes ++ [MkQuote 40 3 4]) = Some [MkQuote 20 2 3; MkQuote 30 2 4] /\
  exists shown, visible_quotes 22 35 (demo_quotes ++ [MkQuote 40 3 4]) = Some shown /\
    quote_at (demo_quotes ++ [MkQuote 40 3 4]) 25 = Some (last (not_after_prefix q_time 25 shown)).
Proof.
  split; [reflexivity|].
  apply quote_line_shows_quote_in_force.
  1-3: intros i j q q' Hij Hi Hj; apply lookup_lt_Some in Hi as Hi'; apply lookup_lt_Some in Hj as Hj'; cbn in Hi', Hj';
    destruct i as [|[|[|[|[|i]]]]], j as [|[|[|[|[|j]]]]]; try lia; cbn in Hi, Hj; injection Hi as <-; injection Hj as <-; vm_compute; congruence.
  all: intros q _; unfold not_after; cbn; rewrite !negb_true_iff, !Z.ltb_ge; lia.
Defined.

(** ** Latency statistics *)

Section Latency.
Context {D : Type} `{!Double D}.
Context (dsub : D -> D -> D) (to_size : D -> nat).       (* static_cast<size_t> *)
Context (one p50 p95 p99 : D).

Record LatencyStats := MkLatencyStats {
  ls_count : nat; min_ns : D; p50_ns : D; mean_ns : D; p95_ns : D; p99_ns : D; max_ns : D
}.
Definition no_stats : LatencyStats := let z := of_int 0 in MkLatencyStats 0 z z z z z z.

(** [std::sort] with [<] *)
Definition not_gt (a b : D) : Prop := dlt b a = false.
#[local] Instance not_gt_dec : RelDecision not_gt.
Proof. intros a b. exact (decide (dlt b a = false)). Defined.
Definition std_sort (values : list D) : list D := merge_sort not_gt values.

(** [None]: an index is out of range. *)
Definition percentile (values : list D) (p : D) : option D :=
  if (length values =? 1)%nat then values !! 0%nat
  else
    let idx := dmul p (of_int (Z.of_nat (length values - 1))) in
    let lo := to_size idx in
    let hi := Nat.min (lo + 1) (length values - 1) in
    let frac := dsub idx (of_int (Z.of_nat lo)) in
    a ← values !! lo; b ← values !! hi;
    Some (dadd (dmul a (dsub one frac)) (dmul b frac)).

Definition compute_latency_stats (values : list D) : option LatencyStats :=
  if (length values =? 0)%nat then Some no_stats
  else
    let values := std_sort values in
    front ← head values; back ← last values;
    let sum := foldl dadd (of_int 0) values in
    a ← percentile values p50; b ← percentile values p95; c ← percentile values p99;
    Some (MkLatencyStats (length values) front a (ddiv sum (of_int (Z.of_nat (length values)))) b c back).

(** Comparison of doubles that are numbers, and rounding that keeps a fraction of a
    count within it. *)
Context (not_gt_total : Total not_gt) (not_gt_trans : Transitive not_gt).
Context (fraction_le : forall p n, p ∈ [p50; p95; p99] -> (to_size (dmul p (of_int (Z.of_nat n))) <= n)%nat).

Lemma percentile_in_range values p : values <> [] -> p ∈ [p50; p95; p99] -> is_Some (percentile values p).
Proof.
  intros Hv Hp. unfold percentile. assert (Hl : (0 < length values)%nat) by (destruct values; [done|simpl; lia]).
  destruct (Nat.eqb_spec (length values) 1) as [E|E]; [apply lookup_lt_is_Some_2; lia|].
  pose proof (fraction_le p (length values - 1) Hp) as Hf. set (lo := to_size _) in *.
  destruct (lookup_lt_is_Some_2 values lo) as [a ->]; [lia|].
  destruct (lookup_lt_is_Some_2 values (Nat.min (lo + 1) (length values - 1))) as [b ->]; [lia|]. by eexists.
Qed.

Lemma sorted_ends l :
  StronglySorted not_gt l -> l <> [] ->
  exists a z, head l = Some a /\ last l = Some z /\ (a ∈ l) /\ (z ∈ l) /\ forall v, v ∈ l -> not_gt a v /\ not_gt v z.
Proof.
  assert (HR : forall a, not_gt a a) by (intros a; by destruct (not_gt_total a a)).
  induction 1 as [|a l HS IH HA]; intros Hl; [done|]. rewrite Forall_forall in HA. destruct l as [|b l].
  { exists a, a. split_and!; [done|done|set_solver|set_solver|]. intros v Hv. apply list_elem_of_singleton in Hv as ->. auto. }
  destruct (IH ltac:(done)) as (b' & z & _ & Hz & _ & Hin & HB). exists a, z. split_and!; [done|exact Hz|set_solver|set_solver|].
  intros v [->|Hv]%elem_of_cons; [split; [done|by apply HA]|]. split; [by apply HA|by apply HB].
Qed.

(** The statistics are defined for any samples: no percentile reads past them, the
    count is theirs, and the least and the greatest are samples that bound all. *)
Theorem latency_stats_defined values :
  exists s, compute_latency_stats values = Some s /\ ls_count s = length values /\
    (values <> [] -> min_ns s ∈ values /\ max_ns s ∈ values /\ forall v, v ∈ values -> not_gt (min_ns s) v /\ not_gt v (max_ns s)).
Proof.
  unfold compute_latency_stats. destruct (Nat.eqb_spec (length values) 0) as [E|E].
  { exists no_stats. split_and!; [done|done|]. intros []. by destruct values. }
  pose proof (merge_sort_Permutation not_gt values) as HP. pose proof (StronglySorted_merge_sort not_gt values) as HS.
  fold (std_sort values) in HP, HS. set (l := std_sort values) in *. clearbody l.
  assert (Hl : length l = length values) by (by rewrite HP). assert (HN : l <> []) by (by destruct l).
  destruct (sorted_ends l HS HN) as (a & z & -> & -> & Ha & Hz & HB). cbn [mbind option_bind].
  destruct (percentile_in_range l p50 HN ltac:(set_solver)) as [x ->]. destruct (percentile_in_range l p95 HN ltac:(set_solver)) as [y ->].
  destruct (percentile_in_range l p99 HN ltac:(set_solver)) as [w ->]. cbn [mbind option_bind].
  eexists. split; [reflexivity|]. cbn [ls_count min_ns max_ns]. split; [done|]. intros _. rewrite <- HP. split_and!; [done|done|].
  intros v Hv. apply HB. by rewrite HP.
Qed.
End Latency.
