(* ===== verification/SharedMemory.v ===== *)
(** The build with NAOTO_SHARED_MEMORY: one gateway and one matching engine that
    share an [SpscQueue] of orders in a POSIX shared memory object
    (src/market_server/common/include/shared_memory_ops.hpp and
    shared_memory_types.hpp; [GetSharedQueue] of order_gateway_service.hpp; the
    NAOTO_SHARED_MEMORY branches of [OrderRouter::consumeOrder] and of
    [BidAsk::MarketExecutionLoop]).

    The object store is a name and the segments by inode; a segment has no pages
    until [ftruncate], and removing the name leaves the pages to whoever mapped
    them.  What the system calls answer is in [ShmCalls].  The two processes
    interleave method by method ([shm_step]): the gateway routes an order of any
    client against any published states, the engine runs an iteration of its
    loop, and each atomic load returns any value not older than the last one seen.

    Main results: after the engine created the segment the gateway maps the same
    queue, empty; in every interleaving the accepted confirmations are, one for
    one and in order, those of the orders in the queue or already executed, and
    the engine holds the book of price-time matching of the orders it received. *)

From S2P Require Import Prelude WireTypes SpscQueue GatewayStates BookSpec BidAsk BidAskProofs Engine.
From S2P Require OrderRouter.

#[local] Existing Instance OrderRouter.status_eq_dec.

(** ** The shared memory object *)

(** [Order{}]: what a slot of zeroed pages reads as. *)
Definition order0 : Order := MkOrder 0 0 0 0 0 0 LIMIT BUY EXECUTE.

Abbreviation OrderQueue := (SpscQueue (T := Order)).

(** [SharedMemoryQueueSize] *)
Definition SharedMemoryQueueSize : nat := 2 ^ 15.

(** The object of [SharedMemoryPath]: the inode its name leads to, and the pages
    of each inode, [None] before [ftruncate]. *)
Record Shm := MkShm { link : option nat; segments : gmap nat (option OrderQueue) }.

(** What the calls answer: shm_open, ftruncate, mmap. *)
Record ShmCalls := MkCalls { open_ok : bool; truncate_ok : bool; map_ok : bool }.

Definition shm_unlink (m : Shm) : Shm := MkShm None (segments m).
Definition set_segment (i : nat) (q : option OrderQueue) (m : Shm) : Shm :=
  MkShm (link m) (<[i := q]> (segments m)).

Section Segments.
Context (Size : nat).

(** [shm_open] with O_CREAT and O_EXCL, after the name was removed. *)
Definition create_object (m : Shm) : nat * Shm :=
  let i := fresh (dom (segments m)) in
  (i, MkShm (Some i) (<[i := None]> (segments m))).

(** The pages [ftruncate] adds read as zero. *)
Definition zero_pages : OrderQueue := queue_init order0 Size.

(** [new (ptr) OrderQueue{}]: the constructor sets the two indices. *)
Definition construct (q : OrderQueue) : OrderQueue := MkQueue 0 0 (Buffer q).

(** A pointer is the inode it maps; [None] is nullptr. *)
Definition CreateSharedQueue (calls : ShmCalls) (m : Shm) : option nat * Shm :=
  let m := shm_unlink m in
  if negb (open_ok calls) then (None, m)
  else
    let '(i, m) := create_object m in
    if negb (truncate_ok calls) then (None, shm_unlink m)
    else
      let m := set_segment i (Some zero_pages) m in
      if negb (map_ok calls) then (None, shm_unlink m)
      else (Some i, set_segment i (Some (construct zero_pages)) m).

Definition OpenSharedQueue (calls : ShmCalls) (m : Shm) : option nat :=
  match link m with
  | None => None
  | Some i => if negb (open_ok calls) then None else if negb (map_ok calls) then None else Some i
  end.

(** [GetSharedQueue]: what each try finds; [None] while every try has failed. *)
Fixpoint GetSharedQueue (tries : list (ShmCalls * Shm)) : option nat :=
  match tries with
  | [] => None
  | (calls, m) :: tries =>
      match OpenSharedQueue calls m with Some i => Some i | None => GetSharedQueue tries end
  end.

(** The memory behind a pointer: an access past the end of the object faults. *)
Definition pages (m : Shm) (i : nat) : result OrderQueue :=
  match segments m !! i with Some (Some q) => Ret q | _ => Crash OutOfBounds end.

(** The engine's constructor hands the pointer to [OrderConsumer], the gateway's
    to [OrderProducer]; both read the indices through it. *)
Definition engine_attach (calls : ShmCalls) (m : Shm) : result (nat * Local * Shm) :=
  let '(p, m) := CreateSharedQueue calls m in
  i ← deref p; q ← pages m i; Ret (i, attach q, m).
Definition gateway_attach (tries : list (ShmCalls * Shm)) (m : Shm) : result (nat * Local) :=
  match GetSharedQueue tries with
  | None => Crash Blocked
  | Some i => q ← pages m i; Ret (i, attach q)
  end.

End Segments.

(** ** The two processes *)

Section Processes.
Context (z : Sizes) (reports_env book_env : nat -> Answer) (Size : nat).

(** One order of the loop of [consumeOrder]; [head] is what [Head.load] returns
    if the push calls it.  The first component is the order that was pushed. *)
Definition route_order_shm (clientStates : ClientStates) (curFd auth : Z) (order : Order)
    (head : Z) (l : Local) (q : OrderQueue) (r : OrderRouter.Router)
    : result (option Order * Local * OrderQueue * OrderRouter.Router) :=
  '(status, r) ← OrderRouter.CheckRisk clientStates curFd order auth r;
  let confirmation :=
    OrderRouter.MkConfirmation
      (u32 (OrderRouter.full_order_id (OrderRouter.GatewayId r) (OrderRouter.OrdersCount r))) (ClientOrderId order) status in
  let r := OrderRouter.set_count (u64 (OrderRouter.OrdersCount r + 1)) r in
  let order := set_OrderId (OrderRouter.OcOrderId confirmation) order in
  match status with
  | OrderRouter.Accepted =>
      let '(pushed, l, q) := TryPush Size order head l q in
      if (pushed : bool)
      then Ret (Some order, l, q, OrderRouter.push_confirmation (OrderRouter.MkMessage curFd confirmation) r)
      else Ret (None, l, q, r)
  | _ => Ret (None, l, q, OrderRouter.push_confirmation (OrderRouter.MkMessage curFd confirmation) r)
  end.

(** An iteration of [MarketExecutionLoop]; [tail] is what [Tail.load] returns if
    the pop calls it. *)
Definition engine_handle : Order -> Engine -> result Engine :=
  handle_order (om_ops := om_ops z) (fm_ops := fm_ops z) (ix_ops := ix_ops z)
    (NodePoolSize z) (LevelPoolSize z) reports_env book_env.
Definition MarketExecutionLoop_shm (tail : Z) (l : Local) (q : OrderQueue) (e : result Engine)
    : option Order * Local * OrderQueue * result Engine :=
  match TryPop order0 Size tail l q with
  | (None, l, q) => (None, l, q, e)
  | (Some curOrder, l, q) => (Some curOrder, l, q, e ← e; engine_handle curOrder e)
  end.

(** The queue with its two ends and their history, the router and the engine
    ([Crash] once a request has crashed it). *)
Record ShmState := MkState {
  ring : QState (T := Order);
  router : OrderRouter.Router;
  engine : result Engine
}.

(** How much of the other side an end has observed after a call whose load, if
    it was made, returned the count [c]: the cached index tells. *)
Definition observed (before after : Z) (c n : nat) : nat := if before =? after then n else c.

Inductive shm_step : ShmState -> ShmState -> Prop :=
| gateway_routes s cs fd auth o c sent l q r :
    (pseen (ring s) <= c <= length (popped (ring s)))%nat ->
    length cs = GatewayMaxClients -> 0 <= fd < Z.of_nat GatewayMaxClients ->
    route_order_shm cs fd auth o (cnt c) (prod (ring s)) (queue (ring s)) (router s) = Ret (sent, l, q, r) ->
    shm_step s (MkState (after_push (ring s) l q (observed (LocalHead (prod (ring s))) (LocalHead l) c (pseen (ring s)))
                           (option_list sent)) r (engine s))
| engine_iterates s c got l q e :
    (cseen (ring s) <= c <= length (pushed (ring s)))%nat ->
    MarketExecutionLoop_shm (cnt c) (cons (ring s)) (queue (ring s)) (engine s) = (got, l, q, e) ->
    shm_step s (MkState (after_pop (ring s) l q (observed (LocalTail (cons (ring s))) (LocalTail l) c (cseen (ring s)))
                           (option_list got)) (router s) e).

Inductive shm_reach (s0 : ShmState) : ShmState -> Prop :=
| shm_start : shm_reach s0 s0
| shm_more s s' : shm_reach s0 s -> shm_step s s' -> shm_reach s0 s'.

(** [n] iterations of the engine alone, each load returning the current index. *)
Definition engine_iteration (s : ShmState) : ShmState :=
  let '(got, l, q, e) := MarketExecutionLoop_shm (QTail (queue (ring s))) (cons (ring s)) (queue (ring s)) (engine s) in
  MkState (after_pop (ring s) l q (observed (LocalTail (cons (ring s))) (LocalTail l) (length (pushed (ring s))) (cseen (ring s)))
             (option_list got)) (router s) e.

(** The gateway routes an order, the load returning the current index. *)
Definition gateway_routing (cs : ClientStates) (fd auth : Z) (o : Order) (s : ShmState) : result ShmState :=
  '(sent, l, q, r) ← route_order_shm cs fd auth o (QHead (queue (ring s))) (prod (ring s)) (queue (ring s)) (router s);
  Ret (MkState (after_push (ring s) l q (observed (LocalHead (prod (ring s))) (LocalHead l) (length (popped (ring s))) (pseen (ring s)))
         (option_list sent)) r (engine s)).

(** Both ends on a new queue. *)
Definition shm_state0 (r : OrderRouter.Router) (e : Engine) : ShmState := MkState (qstate0 order0 Size) r (Ret e).

End Processes.

(** ** The segment *)

Definition calls_ok : ShmCalls := MkCalls true true true.

(** The engine's call removes the old object whatever happens, and leaves either
    nothing under the name or a new, empty queue; pages mapped before stay. *)
Lemma create_shared_queue_cases Size calls m :
  let '(p, m') := CreateSharedQueue Size calls m in
  link m' = p /\
  (forall i, p = Some i -> segments m !! i = None /\ segments m' !! i = Some (Some (queue_init order0 Size))) /\
  (forall i q, segments m !! i = Some q -> segments m' !! i = Some q) /\
  (p = None <-> open_ok calls && truncate_ok calls && map_ok calls = false).
Proof.
  unfold CreateSharedQueue, create_object, shm_unlink, set_segment. cbn [link segments].
  set (i := fresh (dom (segments m))).
  assert (Hi : segments m !! i = None) by (apply not_elem_of_dom, is_fresh).
  assert (Hk : forall j q v, segments m !! j = Some q -> <[i := v]> (segments m) !! j = Some q).
  { intros j q v Hj. rewrite lookup_insert_ne; [done|]. intros <-. by rewrite Hi in Hj. }
  destruct calls as [[] [] []]; cbn; (split; [done|]); (split; [intros j Hj; try done|]);
    try (split; [intros j q Hj; rewrite ?insert_insert_eq; by auto|done]).
  injection Hj as <-. split; [done|]. apply lookup_insert_eq.
Qed.

(** ** Calls on the ring *)

Section Ring.
Context (Size k : nat) (HSize : Size = (2 ^ k)%nat) (Hk : (k <= 62)%nat).
Implicit Type s : QState (T := Order).

Lemma qsteps_inv s s' : qinv Size s -> rtc (qstep order0 Size) s s' -> qinv Size s'.
Proof. intros HI HR. induction HR as [|s1 s2 s3 Hs _ IH]; [done|]. apply IH. by eapply qinv_step. Qed.

(** The cached index of the other side gives the number of its operations. *)
Lemma observed_seen n c m : (n <= c)%nat -> (c <= n + Size)%nat -> m = n \/ m = c -> observed (cnt n) (cnt m) c n = m.
Proof.
  intros H1 H2 H. unfold observed. destruct (Z.eqb_spec (cnt n) (cnt m)) as [E|E]; destruct H as [->| ->]; try done.
  by apply (cnt_eq Size k HSize Hk).
Qed.

Lemma push_inv s item c :
  qinv Size s -> ppc s = PIdle -> (pseen s <= c <= length (popped s))%nat ->
  let '(r, l, q) := TryPush Size item (cnt c) (prod s) (queue s) in
  qinv Size (after_push s l q (observed (LocalHead (prod s)) (LocalHead l) c (pseen s)) (if r then [item] else [])) /\
  (r = false -> length (pushed s) = (c + Size)%nat).
Proof.
  intros HI Hp Hc. pose proof (TryPush_steps order0 Size k HSize Hk s item c HI Hp Hc) as HT.
  destruct (TryPush Size item (cnt c) (prod s) (queue s)) as [[r l] q]. destruct HT as (n & Hs & Hf & Hn).
  split; [|done]. pose proof (qsteps_inv _ _ HI Hs) as HI1. pose proof (qi_prod _ _ HI1) as Hl. cbn in Hl.
  rewrite (qi_prod _ _ HI), Hl. cbn [LocalHead]. rewrite (observed_seen _ _ n); [|lia| |done].
  - by rewrite <- Hl.
  - pose proof (qi_room _ _ HI). pose proof (qi_cseen _ _ HI). lia.
Qed.

Lemma pop_inv s c :
  qinv Size s -> cpc s = CIdle -> (cseen s <= c <= length (pushed s))%nat ->
  let '(r, l, q) := TryPop order0 Size (cnt c) (cons s) (queue s) in
  qinv Size (after_pop s l q (observed (LocalTail (cons s)) (LocalTail l) c (cseen s)) (option_list r)) /\
  match r with
  | Some x => pushed s !! length (popped s) = Some x
  | None => length (popped s) = c
  end.
Proof.
  intros HI Hp Hc. pose proof (TryPop_steps order0 Size k HSize Hk s c HI Hp Hc) as HT.
  destruct (TryPop order0 Size (cnt c) (cons s) (queue s)) as [[r l] q]. destruct HT as (n & Hs & Hf & Hn).
  split; [|done]. pose proof (qsteps_inv _ _ HI Hs) as HI1. pose proof (qi_cons _ _ HI1) as Hl. cbn in Hl.
  rewrite (qi_cons _ _ HI), Hl. cbn [LocalTail]. rewrite (observed_seen _ _ n); [|lia| |done].
  - by rewrite <- Hl.
  - pose proof (qi_room _ _ HI). pose proof (qi_pseen _ _ HI). pose proof (qi_cseen _ _ HI). lia.
Qed.

End Ring.

(** ** The router in this build *)

(** The confirmation of an order: its id and the client's number. *)
Definition confirms (m : OrderRouter.ClientMessage) (o : Order) : Prop :=
  OrderRouter.OcOrderId (OrderRouter.Confirmation m) = OrderId o /\
  OrderRouter.OcClientOrderId (OrderRouter.Confirmation m) = ClientOrderId o.

Definition is_accepted (m : OrderRouter.ClientMessage) : bool :=
  match OrderRouter.Status (OrderRouter.Confirmation m) with OrderRouter.Accepted => true | _ => false end.

(** The accepted confirmations, as the message sender gets them. *)
Definition accepted_confirmations (r : OrderRouter.Router) : list OrderRouter.ClientMessage :=
  filter (fun m => is_accepted m = true) (OrderRouter.Confirmations r).

Lemma CheckRisk_total cs fd auth o r :
  length cs = GatewayMaxClients -> 0 <= fd < Z.of_nat GatewayMaxClients -> OrderRouter.ready r ->
  exists st r', OrderRouter.CheckRisk cs fd o auth r = Ret (st, r') /\ OrderRouter.ready r' /\
    OrderRouter.Confirmations r' = OrderRouter.Confirmations r.
Proof.
  intros Hcs Hfd HR. destruct (decide (auth = 0)) as [->|Ha]; [by exists OrderRouter.UserNotConnected, r|].
  destruct (lookup_lt_is_Some_2 cs (Z.to_nat fd)) as [t Ht]; [lia|].
  destruct (lookup_lt_is_Some_2 (OrderRouter.LocalAttempt r) (Z.to_nat fd)) as [la Hla]; [rewrite (OrderRouter.rd_attempts _ HR); lia|].
  destruct (lookup_lt_is_Some_2 (OrderRouter.LocalSessionId r) (Z.to_nat fd)) as [ls Hls]; [rewrite (OrderRouter.rd_sessions _ HR); lia|].
  pose proof (OrderRouter.CheckRisk_ready cs fd auth t Hfd Ht Ha o r la ls HR Hla Hls) as HC.
  destruct (OrderRouter.CheckOrderRisk (GetClientState t) la ls o auth) as [[st la'] ls'].
  destruct HC as (r' & E & HR' & _ & _ & _ & _ & _ & Hc & _). by exists st, r'.
Qed.

(** What routing an order leaves: the ring is consistent, and the order is in it
    exactly if an accepted confirmation was queued for it. *)
Lemma route_order_shm_ok Size k cs fd auth o c s r :
  Size = (2 ^ k)%nat -> (k <= 62)%nat -> qinv Size s -> ppc s = PIdle -> (pseen s <= c <= length (popped s))%nat ->
  length cs = GatewayMaxClients -> 0 <= fd < Z.of_nat GatewayMaxClients -> OrderRouter.ready r ->
  exists sent l q r', route_order_shm Size cs fd auth o (cnt c) (prod s) (queue s) r = Ret (sent, l, q, r') /\
    qinv Size (after_push s l q (observed (LocalHead (prod s)) (LocalHead l) c (pseen s)) (option_list sent)) /\
    OrderRouter.ready r' /\
    exists ms, accepted_confirmations r' = accepted_confirmations r ++ ms /\ Forall2 confirms ms (option_list sent).
Proof.
  intros HS Hk HI Hp Hc Hcs Hfd HR. unfold route_order_shm.
  destruct (CheckRisk_total cs fd auth o r Hcs Hfd HR) as (st & r1 & -> & HR1 & Hco). cbn [mbind result_bind].
  set (id := u32 _). set (r2 := OrderRouter.set_count _ r1). cbn [OrderRouter.OcOrderId].
  set (conf := OrderRouter.MkConfirmation id (ClientOrderId o) st).
  assert (HR2 : OrderRouter.ready r2) by (destruct HR1; by split).
  assert (HR3 : OrderRouter.ready (OrderRouter.push_confirmation (OrderRouter.MkMessage fd conf) r2)) by (destruct HR2; by split).
  assert (Hac : accepted_confirmations (OrderRouter.push_confirmation (OrderRouter.MkMessage fd conf) r2) =
    accepted_confirmations r ++ (if decide (st = OrderRouter.Accepted) then [OrderRouter.MkMessage fd conf] else [])).
  { unfold accepted_confirmations. cbn. rewrite Hco, filter_app. f_equal. by destruct st. }
  assert (Hsame : qinv Size (after_push s (prod s) (queue s) (observed (LocalHead (prod s)) (LocalHead (prod s)) c (pseen s)) [])).
  { unfold observed. rewrite Z.eqb_refl. unfold after_push. rewrite app_nil_r, <- Hp. by destruct s. }
  destruct (decide (st = OrderRouter.Accepted)) as [->|Hst].
  - pose proof (push_inv Size k HS Hk s (set_OrderId id o) c HI Hp Hc) as HT.
    destruct (TryPush Size (set_OrderId id o) (cnt c) (prod s) (queue s)) as [[[] l] q]; destruct HT as [HT _].
    + eexists _, l, q, _. split; [done|]. split; [done|]. split; [done|]. rewrite Hac. eexists. split; [done|]. by repeat constructor.
    + eexists None, l, q, _. split; [done|]. split; [done|]. split; [done|]. exists []. rewrite app_nil_r.
      unfold accepted_confirmations. cbn. by rewrite Hco.
  - eexists None, (prod s), (queue s), _. split; [by destruct st|]. split; [done|]. split; [done|]. rewrite Hac. by exists [].
Qed.

(** ** Every interleaving *)

Section Invariant.
Context (z : Sizes) (renv benv : nat -> Answer) (Size k : nat) (HSize : Size = (2 ^ k)%nat) (Hk : (k <= 62)%nat).
Context (e0 : Engine).

Record shm_inv (s : ShmState) : Prop := {
  si_ring : qinv Size (ring s);
  si_prod : ppc (ring s) = PIdle;
  si_cons : cpc (ring s) = CIdle;
  si_ready : OrderRouter.ready (router s);
  si_confirmed : Forall2 confirms (accepted_confirmations (router s)) (pushed (ring s));
  si_engine : engine s = engine_run z renv benv (popped (ring s)) e0
}.

Lemma shm_inv_start r :
  OrderRouter.ready r -> OrderRouter.Confirmations r = [] -> shm_inv (shm_state0 Size r e0).
Proof.
  intros HR Hc. split; try done; [by apply (qinv_init order0 Size k)|]. unfold accepted_confirmations. cbn. rewrite Hc. constructor.
Qed.

Lemma engine_run_snoc l o :
  engine_run z renv benv (l ++ [o]) e0 = (e ← engine_run z renv benv l e0; engine_handle z renv benv o e).
Proof.
  unfold engine_run. rewrite run_batch_app. destruct (run_batch _ _ _ _ l e0) as [e|]; [|done].
  cbn [mbind result_bind run_batch]. unfold engine_handle. by destruct (handle_order _ _ _ _ o e).
Qed.

Lemma engine_iterates_inv s c got l q e :
  shm_inv s -> (cseen (ring s) <= c <= length (pushed (ring s)))%nat ->
  MarketExecutionLoop_shm z renv benv Size (cnt c) (cons (ring s)) (queue (ring s)) (engine s) = (got, l, q, e) ->
  shm_inv (MkState (after_pop (ring s) l q (observed (LocalTail (cons (ring s))) (LocalTail l) c (cseen (ring s)))
             (option_list got)) (router s) e) /\
  match got with
  | Some x => pushed (ring s) !! length (popped (ring s)) = Some x
  | None => length (popped (ring s)) = c
  end.
Proof.
  intros [HI Hp Hcn HR HF He] Hc HM. pose proof (pop_inv Size k HSize Hk (ring s) c HI Hcn Hc) as HT.
  unfold MarketExecutionLoop_shm in HM.
  destruct (TryPop order0 Size (cnt c) (cons (ring s)) (queue (ring s))) as [[[o|] l'] q'];
    destruct HT as [HT Hx]; injection HM as <- <- <- <-; (split; [|done]); split; try done.
  - cbn [engine after_pop ring popped option_list]. change (option_list (Some o)) with [o]. by rewrite engine_run_snoc, He.
  - cbn [engine after_pop ring popped option_list]. change (option_list None) with (@nil Order). by rewrite app_nil_r.
Qed.

Lemma shm_inv_step s s' : shm_inv s -> shm_step z renv benv Size s s' -> shm_inv s'.
Proof.
  intros HI Hs. destruct Hs as [s cs fd auth o c sent l q r Hc Hcs Hfd HM|s c got l q e Hc HM].
  - destruct HI as [HI Hp Hcn HR HF He].
    destruct (route_order_shm_ok Size k cs fd auth o c (ring s) (router s) HSize Hk HI Hp Hc Hcs Hfd HR)
      as (sent' & l' & q' & r' & E & HI' & HR' & ms & Hms & HF'). rewrite HM in E. injection E as <- <- <- <-.
    split; try done. cbn [router after_push ring pushed]. rewrite Hms. by apply Forall2_app.
  - by destruct (engine_iterates_inv s c got l q e HI Hc HM).
Qed.

Lemma shm_reach_inv s0 s : shm_inv s0 -> shm_reach z renv benv Size s0 s -> shm_inv s.
Proof. intros H0. induction 1 as [|s s' _ IH Hs]; [done|]. by eapply shm_inv_step. Qed.

(** An iteration with the current index takes the oldest order, if there is one. *)
Lemma engine_iteration_takes s :
  shm_inv s ->
  shm_inv (engine_iteration z renv benv Size s) /\
  shm_step z renv benv Size s (engine_iteration z renv benv Size s) /\
  pushed (ring (engine_iteration z renv benv Size s)) = pushed (ring s) /\
  router (engine_iteration z renv benv Size s) = router s /\
  popped (ring (engine_iteration z renv benv Size s)) = take (S (length (popped (ring s)))) (pushed (ring s)).
Proof.
  intros HI. pose proof (si_ring _ HI) as HQ. unfold engine_iteration. rewrite (qi_tail _ _ HQ).
  destruct (MarketExecutionLoop_shm z renv benv Size _ _ _ (engine s)) as [[[got l] q] e] eqn:HM.
  assert (Hc : (cseen (ring s) <= length (pushed (ring s)) <= length (pushed (ring s)))%nat) by (pose proof (qi_cseen _ _ HQ); lia).
  destruct (engine_iterates_inv s _ got l q e HI Hc HM) as [HI' Hx].
  split; [done|]. split; [by eapply engine_iterates|]. split; [done|]. split; [done|]. cbn.
  destruct (qi_fifo _ _ HQ) as [rest Hr]. rewrite Hr in Hx |- *. destruct got as [x|].
  - rewrite lookup_app_r, Nat.sub_diag in Hx by lia. destruct rest as [|y rest]; [done|]. injection Hx as ->.
    cbn. rewrite take_app, take_ge by lia. replace (S (length (popped (ring s))) - length (popped (ring s)))%nat with 1%nat by lia. done.
  - rewrite length_app in Hx. destruct rest; [|cbn in Hx; lia]. rewrite !app_nil_r, take_ge; [done|lia].
Qed.

Lemma engine_catches_up n s :
  shm_inv s -> let s' := Nat.iter n (engine_iteration z renv benv Size) s in
  shm_inv s' /\ rtc (shm_step z renv benv Size) s s' /\ pushed (ring s') = pushed (ring s) /\ router s' = router s /\
  popped (ring s') = take (length (popped (ring s)) + n) (pushed (ring s)).
Proof.
  intros HI. induction n as [|n IH]; cbn [Nat.iter nat_rect].
  - split; [done|]. split; [apply rtc_refl|]. split; [done|]. split; [done|]. rewrite Nat.add_0_r.
    destruct (qi_fifo _ _ (si_ring _ HI)) as [rest ->]. by rewrite take_app_length.
  - fold (Nat.iter n (engine_iteration z renv benv Size) s). destruct IH as (HI1 & Hs1 & Hp1 & Hr1 & Hq1).
    destruct (engine_iteration_takes _ HI1) as (HI2 & Hs2 & Hp2 & Hr2 & Hq2).
    split; [done|]. split; [by eapply rtc_r|]. split; [congruence|]. split; [congruence|].
    rewrite Hq2, Hq1, Hp1, length_take, Nat.add_succ_r. destruct (decide (length (popped (ring s)) + n <= length (pushed (ring s)))%nat).
    + by rewrite Nat.min_l.
    + rewrite !take_ge; [done|lia|lia].
Qed.

End Invariant.

(** ** Main results *)

(** C21: a gateway that maps the object after the engine has created it, however
    many tries came before, shares the engine's queue: the pages are new, both
    ends start from the same indices and the ring is empty. *)
Theorem gateway_maps_engine_queue Size calls m tries c :
  open_ok calls = true -> truncate_ok calls = true -> map_ok calls = true ->
  Forall (fun t => OpenSharedQueue t.1 t.2 = None) tries -> open_ok c = true -> map_ok c = true ->
  exists i lc m' lp q, engine_attach Size calls m = Ret (i, lc, m') /\
    gateway_attach (tries ++ [(c, m')]) m' = Ret (i, lp) /\
    segments m !! i = None /\ pages m' i = Ret q /\
    MkQState q lp PIdle 0 lc CIdle 0 [] [] = qstate0 order0 Size.
Proof.
  intros H1 H2 H3 HF H4 H5. unfold engine_attach, gateway_attach.
  pose proof (create_shared_queue_cases Size calls m) as HC.
  destruct (CreateSharedQueue Size calls m) as [p m']. destruct HC as (Hl & Hn & _ & Hf).
  rewrite H1, H2, H3 in Hf. destruct p as [i|]; [|by destruct Hf as [Hf _]; discriminate (Hf eq_refl)].
  destruct (Hn i eq_refl) as [Hi Hs]. cbn [deref mbind result_bind].
  assert (HG : GetSharedQueue (tries ++ [(c, m')]) = Some i).
  { induction HF as [|[c0 m0] tries Ht _ IH]; cbn in *.
    - unfold OpenSharedQueue. by rewrite Hl, H4, H5.
    - by rewrite Ht. }
  exists i, (attach (queue_init order0 Size)), m', (attach (queue_init order0 Size)), (queue_init order0 Size).
  unfold pages. rewrite Hs, HG. cbn [mbind result_bind]. rewrite Hs. by split_and!.
Qed.

Lemma gateway_maps_engine_queue_witness :
  exists i lc m' lp, engine_attach 4 calls_ok (MkShm (Some 0%nat) {[ 0%nat := None ]}) = Ret (i, lc, m') /\
    gateway_attach ([(calls_ok, MkShm None ∅)] ++ [(calls_ok, m')]) m' = Ret (i, lp).
Proof.
  destruct (gateway_maps_engine_queue 4 calls_ok (MkShm (Some 0%nat) {[ 0%nat := None ]}) [(calls_ok, MkShm None ∅)] calls_ok
    eq_refl eq_refl eq_refl) as (i & lc & m' & lp & q & H1 & H2 & _); [by repeat constructor|reflexivity|reflexivity|].
  by exists i, lc, m', lp.
Defined.

(** What the engine has done in state [s], in terms of the specification. *)
Definition engine_holds_matching (z : Sizes) (e0 : Engine) (b0 : Book) (s : ShmState) : Prop :=
  valid_run z (MarketAssetId e0) (popped (ring s)) b0 ->
  let '(b, reps, ups) := spec_run (MarketAssetId e0) (popped (ring s)) b0 in
  exists e, engine s = Ret e /\ holds z e b /\
    Sent (OutgoingOrders e) = Sent (OutgoingOrders e0) ++ number (ReportSequenceId e0) reps /\
    Sent (OutgoingBook e) = Sent (OutgoingBook e0) ++ number_up (OrderBookSequenceId e0) ups.

(** C6: in every interleaving of the gateway and the engine over the shared ring,
    with stale loads, an accepted confirmation is queued exactly for the orders
    that are in the ring or executed, in the same order, and the engine has executed
    a prefix of them, at most [Size] behind; left alone, it executes the rest in as
    many iterations as there are orders.  If the prefix executed is a sequence that
    [valid_run] admits (room in pools and maps; no cancel that names the wrong side,
    amount 0, id in use or sentinel price), the engine holds the book and has queued
    the reports and updates of price-time matching of that prefix, as the code
    matches (C1); every report and update is accepted by its pool and queue.  The
    engine does not look at the asset of an order. *)
Theorem shared_memory_orders_reach_book z renv benv Size k r0 e0 b0 s :
  Size = (2 ^ k)%nat -> (k <= 62)%nat -> sizes_ok z ->
  (forall n, renv n = Accepted) -> (forall n, benv n = Accepted) ->
  OrderRouter.ready r0 -> OrderRouter.Confirmations r0 = [] -> holds z e0 b0 ->
  shm_reach z renv benv Size (shm_state0 Size r0 e0) s ->
  exists behind, pushed (ring s) = popped (ring s) ++ behind /\ (length behind <= Size)%nat /\
    Forall2 confirms (accepted_confirmations (router s)) (pushed (ring s)) /\
    engine_holds_matching z e0 b0 s /\
    let s' := Nat.iter (length behind) (engine_iteration z renv benv Size) s in
    rtc (shm_step z renv benv Size) s s' /\ popped (ring s') = pushed (ring s) /\ router s' = router s /\
    engine_holds_matching z e0 b0 s'.
Proof.
  intros HS Hk Hz Ha Hb HR Hc Hh Hre.
  assert (HM : forall t, shm_inv z renv benv Size e0 t -> engine_holds_matching z e0 b0 t).
  { intros t Ht Hv. pose proof (engine_run_from z renv benv e0 b0 _ Hz Ha Hb Hh Hv) as HE.
    rewrite <- (si_engine _ _ _ _ _ _ Ht) in HE. exact HE. }
  pose proof (shm_reach_inv z renv benv Size k HS Hk e0 _ s (shm_inv_start z renv benv Size k HS Hk e0 r0 HR Hc) Hre) as HI.
  pose proof (si_ring _ _ _ _ _ _ HI) as HQ. destruct (qi_fifo _ _ HQ) as [behind Hp]. exists behind.
  split; [done|]. split. { pose proof (qi_room _ _ HQ). pose proof (qi_pseen _ _ HQ). rewrite Hp, length_app in *. lia. }
  split; [apply HI|]. split; [by apply HM|].
  destruct (engine_catches_up z renv benv Size k HS Hk e0 (length behind) s HI) as (HI' & Hs & _ & Hr & Hq).
  split; [done|]. split; [|split; [done|by apply HM]]. by rewrite Hq, Hp, <- length_app, firstn_all.
Qed.

(** ** Concrete runs *)

(** The client of descriptor 4 buys twice, beyond its funds the third time; the
    engine of asset 5 executes the first order. *)
Definition ret_of {A} (m : result A) : match m with Ret _ => True | Crash _ => False end -> A :=
  match m with Ret a => fun _ => a | Crash _ => fun h => False_rect _ h end.
Definition ex_engine : Engine := ret_of (engine_init demo_sizes 5 100 0 0 1 2) I.
Definition ex_routes (Size : nat) (o : Order) (s : ShmState) : ShmState :=
  match gateway_routing Size OrderRouter.ex_states 4 1 o s with Ret s => s | Crash _ => s end.
Definition ex_executes (Size : nat) : ShmState -> ShmState :=
  engine_iteration demo_sizes accept_all accept_all Size.
Definition ex_begin (Size : nat) : ShmState := shm_state0 Size OrderRouter.ex_router ex_engine.
Definition ex_shm : ShmState :=
  ex_routes 2 (OrderRouter.ex_buy 50 10) (ex_routes 2 (OrderRouter.ex_buy 40 10)
    (ex_executes 2 (ex_routes 2 (OrderRouter.ex_buy 50 10) (ex_begin 2)))).

Lemma ret_of_eq {A} (m : result A) h : m = Ret (ret_of m h).
Proof. by destruct m. Qed.

Lemma ex_engine_holds : holds demo_sizes ex_engine empty_book /\ MarketAssetId ex_engine = 5.
Proof.
  destruct (engine_init_holds demo_sizes 5 100 0 0 1 2 demo_sizes_ok) as (e & He & Hh & Ha & _).
  rewrite (ret_of_eq (engine_init demo_sizes 5 100 0 0 1 2) I) in He. injection He as <-. by split.
Qed.

(** The functions that run the processes take steps of the system. *)
Lemma gateway_routing_steps z renv benv Size k e0 cs fd auth o s s' :
  Size = (2 ^ k)%nat -> (k <= 62)%nat -> shm_inv z renv benv Size e0 s ->
  length cs = GatewayMaxClients -> 0 <= fd < Z.of_nat GatewayMaxClients ->
  gateway_routing Size cs fd auth o s = Ret s' -> shm_step z renv benv Size s s'.
Proof.
  intros HS Hk HI Hcs Hfd. unfold gateway_routing. pose proof (si_ring _ _ _ _ _ _ HI) as HQ. rewrite (qi_head _ _ HQ).
  destruct (route_order_shm _ _ _ _ _ _ _ _ _) as [[[[sent l] q] r]|] eqn:E; [|done]. cbn [mbind result_bind]. intros [= <-].
  eapply gateway_routes; try done. pose proof (qi_pseen _ _ HQ). lia.
Qed.

Lemma ex_routes_step o s :
  shm_inv demo_sizes accept_all accept_all 2 ex_engine s ->
  shm_reach demo_sizes accept_all accept_all 2 s (ex_routes 2 o s).
Proof.
  intros HI. unfold ex_routes. destruct (gateway_routing 2 _ 4 1 o s) as [s'|] eqn:E; [|constructor].
  eapply shm_more; [constructor|]. apply (gateway_routing_steps _ _ _ 2 1 ex_engine OrderRouter.ex_states 4 1 o s); try done; try lia.
Qed.

Lemma ex_shm_reach : shm_reach demo_sizes accept_all accept_all 2 (ex_begin 2) ex_shm.
Proof.
  assert (H0 : shm_inv demo_sizes accept_all accept_all 2 ex_engine (ex_begin 2))
    by (apply (shm_inv_start _ _ _ 2 1); [done|lia|exact OrderRouter.ex_router_ready|reflexivity]).
  assert (Htr : forall s1 s2 s3, shm_reach demo_sizes accept_all accept_all 2 s1 s2 ->
    shm_reach demo_sizes accept_all accept_all 2 s2 s3 -> shm_reach demo_sizes accept_all accept_all 2 s1 s3).
  { intros s1 s2 s3 H12 H23. induction H23 as [|s s' _ IH Hs]; [done|]. by eapply shm_more. }
  assert (Hinv : forall s, shm_reach demo_sizes accept_all accept_all 2 (ex_begin 2) s ->
    shm_inv demo_sizes accept_all accept_all 2 ex_engine s) by (intros s Hs; eapply (shm_reach_inv _ _ _ 2 1); [done|lia|exact H0|exact Hs]).
  unfold ex_shm. set (s1 := ex_routes 2 _ (ex_begin 2)).
  assert (H1 : shm_reach demo_sizes accept_all accept_all 2 (ex_begin 2) s1) by (by apply ex_routes_step).
  assert (H2 : shm_reach demo_sizes accept_all accept_all 2 (ex_begin 2) (ex_executes 2 s1)).
  { eapply shm_more; [exact H1|]. eapply (engine_iteration_takes _ _ _ 2 1); [done|lia|]. by apply Hinv. }
  assert (H3 : shm_reach demo_sizes accept_all accept_all 2 (ex_begin 2) (ex_routes 2 (OrderRouter.ex_buy 40 10) (ex_executes 2 s1)))
    by (eapply Htr; [exact H2|]; by apply ex_routes_step, Hinv).
  eapply Htr; [exact H3|]. by apply ex_routes_step, Hinv.
Qed.

(** Two of the three orders were accepted; one is executed and rests in the book,
    the other is in the ring. *)
Lemma shared_memory_orders_reach_book_witness :
  OrderId <$> pushed (ring ex_shm) = [10; 11] /\ OrderId <$> popped (ring ex_shm) = [10] /\
  exists b e, engine ex_shm = Ret e /\ holds demo_sizes e b /\ side_ids (get_side BUY b) = [10].
Proof.
  destruct ex_engine_holds as [Hh Ha].
  destruct (shared_memory_orders_reach_book demo_sizes accept_all accept_all 2 1 OrderRouter.ex_router ex_engine empty_book ex_shm
    eq_refl ltac:(lia) demo_sizes_ok ltac:(done) ltac:(done) OrderRouter.ex_router_ready eq_refl Hh ex_shm_reach)
    as (behind & _ & _ & _ & Hm & _).
  split; [vm_compute; reflexivity|]. split; [vm_compute; reflexivity|].
  unfold engine_holds_matching in Hm. rewrite Ha in Hm.
  assert (Hv : valid_run demo_sizes 5 (popped (ring ex_shm)) empty_book).
  { refine (bool_decide_unpack _ (dec := valid_run_dec _ _ _ _) _). vm_compute. exact I. }
  specialize (Hm Hv). destruct (spec_run 5 (popped (ring ex_shm)) empty_book) as [[b reps] ups] eqn:E.
  destruct Hm as (e & H1 & H2 & _). exists b, e. split; [done|]. split; [done|].
  vm_compute in E. injection E as <- _ _. vm_compute. reflexivity.
Defined.

(** What the messages of a run say and how much the local attempts hold. *)
Definition shm_summary (s : ShmState) : list OrderRouter.OrderConfirmationStatus * list Z * option Z :=
  ((fun m => OrderRouter.Status (OrderRouter.Confirmation m)) <$> OrderRouter.Confirmations (router s),
   OrderId <$> pushed (ring s),
   mjoin ((fun a : list Z => a !! 0%nat) <$> (OrderRouter.LocalAttempt (router s) !! 4%nat))).

(** With the ring full an accepted order is dropped: the client gets no
    confirmation for it, not even a rejection, and its cost of 100 stays
    reserved for the rest of the session. *)
Theorem full_ring_drops_accepted_order :
  shm_summary (ex_routes 1 (OrderRouter.ex_buy 10 10) (ex_routes 1 (OrderRouter.ex_buy 50 10) (ex_begin 1))) =
  ([OrderRouter.Accepted], [10], Some 600).
Proof. vm_compute. reflexivity. Qed.

(** With the object of an earlier engine still there, a gateway that starts first
    maps it, and the engine that starts afterwards makes another one: the two
    processes are on different queues, and neither is told. *)
Theorem stale_object_separates_processes Size calls m j q c :
  link m = Some j -> segments m !! j = Some (Some q) -> open_ok c = true -> map_ok c = true ->
  gateway_attach [(c, m)] m = Ret (j, attach q) /\
  forall i lc m', engine_attach Size calls m = Ret (i, lc, m') -> i <> j /\ segments m' !! j = Some (Some q).
Proof.
  intros Hl Hs H1 H2. unfold gateway_attach, GetSharedQueue, OpenSharedQueue, pages. rewrite Hl, H1, H2. cbn [negb].
  rewrite Hs. split; [done|]. intros i lc m'. unfold engine_attach.
  pose proof (create_shared_queue_cases Size calls m) as HC.
  destruct (CreateSharedQueue Size calls m) as [[i'|] m1]; [|done]. destruct HC as (_ & Hn & Hk & _).
  destruct (Hn i' eq_refl) as [Hi _]. cbn [deref mbind result_bind]. destruct (pages m1 i'); [|done]. intros [= <- <- <-].
  split; [congruence|by apply Hk].
Qed.

(** A call that fails returns nullptr, which the engine dereferences; the gateway
    that maps the object before [ftruncate] faults on its first access. *)
Theorem failed_creation_crashes_engine Size calls m :
  open_ok calls && truncate_ok calls && map_ok calls = false -> engine_attach Size calls m = Crash NullDeref.
Proof.
  intros H. unfold engine_attach. pose proof (create_shared_queue_cases Size calls m) as HC.
  destruct (CreateSharedQueue Size calls m) as [p m']. destruct HC as (_ & _ & _ & Hf). by rewrite (proj2 Hf H).
Qed.
Theorem open_before_truncate_faults m c :
  open_ok c = true -> map_ok c = true ->
  let m' := (create_object (shm_unlink m)).2 in gateway_attach [(c, m')] m' = Crash OutOfBounds.
Proof.
  intros H1 H2. unfold gateway_attach, GetSharedQueue, OpenSharedQueue, create_object, pages. cbn [link segments snd].
  rewrite H1, H2. cbn [negb]. by rewrite lookup_insert_eq.
Qed.

(** The one engine executes what it is sent: a client's sell of asset 5, checked
    and reserved as asset 5, is matched in the book of asset 3 and reported as a
    sale of asset 3. *)
Theorem foreign_asset_trades_here :
  match engine_init demo_sizes 3 100 0 0 1 2 with
  | Ret e0 =>
      match engine_run demo_sizes accept_all accept_all
              [demo_buy 1 7 100 10; MkOrder 100 2 1 9 10 5 LIMIT SELL EXECUTE] e0 with
      | Ret e => Some ((fun r => (RClientId r, SoldAssetId r, State r)) <$> Sent (OutgoingOrders e))
      | Crash _ => None
      end
  | Crash _ => None
  end = Some [(7, 0, ADD); (9, 3, FILL); (7, 0, FILL)].
Proof. vm_compute. reflexivity. Qed.
