(* ===== verification/Services.v ===== *)
(** The three services as processes: which thread holds which end of which queue
    and pool (src/market_server/order_gateway/include/order_gateway_service.hpp,
    src/market_server/matching_engine/include/matching_engine.hpp,
    src/market_server/account_service/src/account_service.cpp and the constructors
    they call).

    The results on [SpscQueue] and [StoragePool] are about one producer and one
    consumer.  Here a service is a list of threads with the ends they were given;
    a network state has, for every thread and queue, the private indices a
    producer or a consumer object of that thread would have, and any thread takes
    steps on the ends it holds ([net_step]).  A pool is its queue of free objects:
    the thread that releases is its producer and the one that acquires its
    consumer.

    Main result: in every interleaving of the threads of each service every queue
    is one producer's and one consumer's, hands its items over in order without
    loss or duplication, and is free of races on its slots. *)

From stdpp Require Import functions.
From S2P Require Import Prelude WireTypes SpscQueue.

(** ** Threads and the ends they hold *)

Record Ends (Q : Type) := MkEnds { pushes : list Q; pops : list Q }.
Arguments MkEnds {Q} _ _.
Arguments pushes {Q} _.
Arguments pops {Q} _.

Section Network.
Context {T Q : Type} `{EqDecision Q} (T0 : T) (Size : Q -> nat) (threads : list (Ends Q)).
Abbreviation QState := (QState (T := T)).
Abbreviation Queue := (SpscQueue (T := T)).

Record NetState := MkNet {
  rings : Q -> Queue;
  producers : nat -> Q -> Local * producer_pc (T := T) * nat;
  consumers : nat -> Q -> Local * consumer_pc (T := T) * nat;
  sent : Q -> list T;
  received : Q -> list T
}.

(** Queue [q] between the producer object of thread [t] and the consumer object
    of thread [u]. *)
Definition view (t u : nat) (q : Q) (s : NetState) : QState :=
  let '(lp, pp, n) := producers s t q in
  let '(lc, pc, m) := consumers s u q in
  MkQState (rings s q) lp pp n lc pc m (sent s q) (received s q).

Definition same_consumer (a b : QState) : Prop :=
  cons b = cons a /\ cpc b = cpc a /\ cseen b = cseen a /\ popped b = popped a.
Definition same_producer (a b : QState) : Prop :=
  prod b = prod a /\ ppc b = ppc a /\ pseen b = pseen a /\ pushed b = pushed a.

Definition put_producer (t : nat) (q : Q) (v : QState) (s : NetState) : NetState :=
  MkNet (<[q := queue v]> (rings s)) (<[t := <[q := (prod v, ppc v, pseen v)]> (producers s t)]> (producers s))
    (consumers s) (<[q := pushed v]> (sent s)) (received s).
Definition put_consumer (u : nat) (q : Q) (v : QState) (s : NetState) : NetState :=
  MkNet (<[q := queue v]> (rings s)) (producers s)
    (<[u := <[q := (cons v, cpc v, cseen v)]> (consumers s u)]> (consumers s)) (sent s) (<[q := popped v]> (received s)).

(** A thread accesses a queue of which it holds an end, with its own indices. *)
Inductive net_step (s : NetState) : NetState -> Prop :=
| producer_moves t e u q v :
    threads !! t = Some e -> q ∈ pushes e ->
    qstep T0 (Size q) (view t u q s) v -> same_consumer (view t u q s) v -> net_step s (put_producer t q v s)
| consumer_moves u e t q v :
    threads !! u = Some e -> q ∈ pops e ->
    qstep T0 (Size q) (view t u q s) v -> same_producer (view t u q s) v -> net_step s (put_consumer u q v s).

(** Every queue new, every producer and consumer object attached to it. *)
Definition net0 : NetState :=
  MkNet (fun q => queue_init T0 (Size q)) (fun _ q => (attach (queue_init T0 (Size q)), PIdle, 0%nat))
    (fun _ q => (attach (queue_init T0 (Size q)), CIdle, 0%nat)) (fun _ => []) (fun _ => []).

Inductive net_reach : NetState -> Prop :=
| net_init : net_reach net0
| net_more s s' : net_reach s -> net_step s s' -> net_reach s'.

(** The threads that hold the producing, or the consuming, end of [q]. *)
Fixpoint holders (f : Ends Q -> list Q) (q : Q) (i : nat) (ts : list (Ends Q)) : list nat :=
  match ts with
  | [] => []
  | e :: ts => (if bool_decide (q ∈ f e) then [i] else []) ++ holders f q (S i) ts
  end.

(** One thread at each end, and not the same. *)
Definition single_ends (q : Q) : bool :=
  match holders pushes q 0 threads, holders pops q 0 threads with
  | [t], [u] => negb (t =? u)%nat
  | _, _ => false
  end.

(** ** Every queue of the network is a queue of two threads *)

Lemma holders_in f q i ts t e : ts !! t = Some e -> q ∈ f e -> (i + t)%nat ∈ holders f q i ts.
Proof.
  revert i t. induction ts as [|e' ts IH]; intros i t Ht Hq; [done|]. cbn [holders]. apply elem_of_app. destruct t as [|t].
  - injection Ht as ->. left. rewrite bool_decide_true by done. rewrite Nat.add_0_r. by apply list_elem_of_singleton.
  - right. rewrite Nat.add_succ_r. by apply (IH (S i) t).
Qed.

Lemma single_ends_spec q :
  single_ends q = true -> exists t u, t <> u /\
    (forall t' e, threads !! t' = Some e -> q ∈ pushes e -> t' = t) /\
    (forall u' e, threads !! u' = Some e -> q ∈ pops e -> u' = u).
Proof.
  unfold single_ends. destruct (holders pushes q 0 threads) as [|t [|]] eqn:E1; try done.
  destruct (holders pops q 0 threads) as [|u [|]] eqn:E2; try done. intros Hne%negb_true_iff%Nat.eqb_neq.
  exists t, u. split; [done|]. split; intros x e Hx Hq.
  - pose proof (holders_in _ _ 0 _ _ _ Hx Hq) as Hin. rewrite E1 in Hin. by apply list_elem_of_singleton in Hin.
  - pose proof (holders_in _ _ 0 _ _ _ Hx Hq) as Hin. rewrite E2 in Hin. by apply list_elem_of_singleton in Hin.
Qed.

(** A step of the producer does not depend on the consumer object. *)
Lemma swap_consumer Sz a v lc pc m :
  qstep T0 Sz a v -> same_consumer a v ->
  rtc (qstep T0 Sz) (MkQState (queue a) (prod a) (ppc a) (pseen a) lc pc m (pushed a) (popped a))
    (MkQState (queue v) (prod v) (ppc v) (pseen v) lc pc m (pushed v) (popped a)).
Proof.
  intros Hs (H1 & H2 & H3 & H4).
  destruct Hs as [q l n lc' pc' m' ps qs c Hc|q l n lc' pc' m' ps qs item Hf|q l n lc' pc' m' ps qs item
    |q lp pp n l m' ps qs c Hc|q lp pp n l m' ps qs He|q lp pp n l m' ps qs item]; cbn in *; try (by apply rtc_once; constructor); try done.
Qed.
Lemma swap_producer Sz a v lp pp n :
  qstep T0 Sz a v -> same_producer a v ->
  rtc (qstep T0 Sz) (MkQState (queue a) lp pp n (cons a) (cpc a) (cseen a) (pushed a) (popped a))
    (MkQState (queue v) lp pp n (cons v) (cpc v) (cseen v) (pushed a) (popped v)).
Proof.
  intros Hs (H1 & H2 & H3 & H4).
  destruct Hs as [q l n' lc' pc' m' ps qs c Hc|q l n' lc' pc' m' ps qs item Hf|q l n' lc' pc' m' ps qs item
    |q lp' pp' n' l m' ps qs c Hc|q lp' pp' n' l m' ps qs He|q lp' pp' n' l m' ps qs item]; cbn in *; try (by apply rtc_once; constructor); try done.
Qed.

Lemma view_parts t u q s :
  view t u q s = MkQState (rings s q) (producers s t q).1.1 (producers s t q).1.2 (producers s t q).2
    (consumers s u q).1.1 (consumers s u q).1.2 (consumers s u q).2 (sent s q) (received s q).
Proof. unfold view. destruct (producers s t q) as [[lp pp] n], (consumers s u q) as [[lc pc] m]. done. Qed.

(** The queue seen from its two threads follows the steps of the queue. *)
Lemma net_step_view t u q s s' :
  (forall t' e, threads !! t' = Some e -> q ∈ pushes e -> t' = t) ->
  (forall u' e, threads !! u' = Some e -> q ∈ pops e -> u' = u) ->
  net_step s s' -> rtc (qstep T0 (Size q)) (view t u q s) (view t u q s').
Proof.
  intros Hp Hc Hs. destruct Hs as [t' e u' q' v Ht Hq Hv Hsame|u' e t' q' v Ht Hq Hv Hsame].
  - destruct (decide (q' = q)) as [->|Hne].
    + pose proof (Hp _ _ Ht Hq) as ->.
      pose proof (swap_consumer _ _ _ (consumers s u q).1.1 (consumers s u q).1.2 (consumers s u q).2 Hv Hsame) as HR.
      rewrite (view_parts t u' q s) in HR. cbn in HR. rewrite !view_parts. cbn [put_producer rings producers consumers sent received].
      rewrite !fn_lookup_insert. exact HR.
    + rewrite !view_parts. cbn [put_producer rings producers consumers sent received].
      rewrite !(fn_lookup_insert_ne _ q') by done.
      assert (E : (<[t' := <[q' := (prod v, ppc v, pseen v)]> (producers s t')]> (producers s)) t q = producers s t q).
      { destruct (decide (t' = t)) as [->|]; [by rewrite fn_lookup_insert, fn_lookup_insert_ne|by rewrite fn_lookup_insert_ne]. }
      rewrite E. apply rtc_refl.
  - destruct (decide (q' = q)) as [->|Hne].
    + pose proof (Hc _ _ Ht Hq) as ->.
      pose proof (swap_producer _ _ _ (producers s t q).1.1 (producers s t q).1.2 (producers s t q).2 Hv Hsame) as HR.
      rewrite (view_parts t' u q s) in HR. cbn in HR. rewrite !view_parts. cbn [put_consumer rings producers consumers sent received].
      rewrite !fn_lookup_insert. exact HR.
    + rewrite !view_parts. cbn [put_consumer rings producers consumers sent received].
      rewrite !(fn_lookup_insert_ne _ q') by done.
      assert (E : (<[u' := <[q' := (cons v, cpc v, cseen v)]> (consumers s u')]> (consumers s)) u q = consumers s u q).
      { destruct (decide (u' = u)) as [->|]; [by rewrite fn_lookup_insert, fn_lookup_insert_ne|by rewrite fn_lookup_insert_ne]. }
      rewrite E. apply rtc_refl.
Qed.

Lemma net_reach_view t u q s :
  (forall t' e, threads !! t' = Some e -> q ∈ pushes e -> t' = t) ->
  (forall u' e, threads !! u' = Some e -> q ∈ pops e -> u' = u) ->
  net_reach s -> qreach T0 (Size q) (view t u q s).
Proof.
  intros Hp Hc. induction 1 as [|s s' _ IH Hs]; [apply qreach_init|].
  pose proof (net_step_view t u q s s' Hp Hc Hs) as HR. clear -IH HR.
  induction HR as [|x y z Hxy _ IHR]; [done|]. apply IHR. by eapply qreach_step.
Qed.

End Network.

(** ** What each constructor keeps

    A pool a component acquires from is popped, a pool it releases to is pushed. *)

Section Components.
Context {Q : Type}.

Definition join_ends (a b : Ends Q) : Ends Q := MkEnds (pushes a ++ pushes b) (pops a ++ pops b).

Definition EpollServer_ends (pool outgoingBatches : Q) : Ends Q := MkEnds [outgoingBatches] [pool].
Definition Consumer_ends (incoming mempool : Q) : Ends Q := MkEnds [mempool] [incoming].
Definition UdpMulticastReceiver_ends (outgoing pool : Q) : Ends Q := MkEnds [outgoing] [pool].

(** *** Order gateway *)

Definition GatewayServer_ends (pool orders outgoingDisconnects gatewayReqPool outgoingRequests : Q) : Ends Q :=
  join_ends (EpollServer_ends pool orders) (MkEnds [outgoingDisconnects; outgoingRequests] [gatewayReqPool]).

Definition ClientMessageSender_ends (incomingConfirmation : Q) : Ends Q := MkEnds [] [incomingConfirmation].

(** [outgoingOrder] is there in the shared memory build. *)
Definition OrderRouter_ends (ordersPool orders outgoingConfirmation : Q) (outgoingOrder : option Q) : Ends Q :=
  MkEnds (option_list outgoingOrder ++ [ordersPool; outgoingConfirmation]) [orders].

Definition ClientStatesWriter_ends (incomingReports reportPool incomingResponses responsePool
    incomingDisconnects outgoingReq gatewayReqPool : Q) : Ends Q :=
  join_ends (join_ends (Consumer_ends incomingReports reportPool) (Consumer_ends incomingResponses responsePool))
    (MkEnds [outgoingReq] [incomingDisconnects; gatewayReqPool]).

Definition TradeReportReceiver_ends (incomingOrderStates orderStatesPool : Q) : Ends Q :=
  UdpMulticastReceiver_ends incomingOrderStates orderStatesPool.

Definition AccountServiceResponseReceiver_ends (outgoingResponses responsePool : Q) : Ends Q :=
  MkEnds [outgoingResponses] [responsePool].

Definition AccountRequestSender_ends (epollRequests statesWriterRequests epollPool statesWriterPool : Q) : Ends Q :=
  join_ends (Consumer_ends epollRequests epollPool) (Consumer_ends statesWriterRequests statesWriterPool).

(** *** Matching engine *)

(** [incoming] and [pool]: the batches of the ingress server and their pool, or
    the shared queue and no pool. *)
Definition BidAsk_ends (incoming : Q) (outgoingOrders outgoingBook : Q) (pool : option Q)
    (orderReportsPool orderBookUpdatesPool : Q) : Ends Q :=
  MkEnds (option_list pool ++ [outgoingOrders; outgoingBook]) [incoming; orderReportsPool; orderBookUpdatesPool].

Definition TradeReportEmitter_ends (incoming mempool : Q) : Ends Q := Consumer_ends incoming mempool.
Definition OrderBookEmitter_ends (incoming mempool : Q) : Ends Q := Consumer_ends incoming mempool.

(** *** Account service *)

Definition GatewayEpollServer_ends (pool orders : Q) : Ends Q := EpollServer_ends pool orders.
Definition ClientRequestProcessor_ends (incomingMessages responsesSend messagesPool responsesPool : Q) : Ends Q :=
  MkEnds [responsesSend; messagesPool] [incomingMessages; responsesPool].
Definition GatewayResponseDispatcher_ends (responses responsesPool : Q) : Ends Q := MkEnds [responsesPool] [responses].
Definition AccountStatesWriter_ends (incoming mempool : Q) : Ends Q := Consumer_ends incoming mempool.

End Components.

(** ** The services *)

(** Members of [OrderGatewayService]. *)
Inductive GwMember :=
| GwOrdersPool | GwReportsPool | GwResponsesPool | GwServerRequestsPool | GwWriterRequestsPool
| GwIncomingOrders | GwIncomingDisconnects | GwIncomingReports | GwIncomingResponses
| GwServerIncomingRequests | GwWriterIncomingRequests | GwIncomingConfirmation.

(** Members of [MatchingEngine]; the first two only without shared memory. *)
Inductive MeMember :=
| MeIncomingOrders | MeOrdersPool | MeOutgoingOrders | MeOutgoingBook | MeOrderStatesPool | MeOrderBookUpdatesPool.

(** Members of [AccountService]. *)
Inductive AcMember :=
| AcRequestPool | AcReportPool | AcResponsePool | AcRequests | AcReports | AcResponses.

#[export] Instance GwMember_eq_dec : EqDecision GwMember.
Proof. solve_decision. Defined.
#[export] Instance MeMember_eq_dec : EqDecision MeMember.
Proof. solve_decision. Defined.
#[export] Instance AcMember_eq_dec : EqDecision AcMember.
Proof. solve_decision. Defined.

Definition gw_members : list GwMember :=
  [GwOrdersPool; GwReportsPool; GwResponsesPool; GwServerRequestsPool; GwWriterRequestsPool;
   GwIncomingOrders; GwIncomingDisconnects; GwIncomingReports; GwIncomingResponses;
   GwServerIncomingRequests; GwWriterIncomingRequests; GwIncomingConfirmation].
Definition me_shm_members : list MeMember := [MeOutgoingOrders; MeOutgoingBook; MeOrderStatesPool; MeOrderBookUpdatesPool].
Definition me_members : list MeMember := MeIncomingOrders :: MeOrdersPool :: me_shm_members.
Definition ac_members : list AcMember := [AcRequestPool; AcReportPool; AcResponsePool; AcRequests; AcReports; AcResponses].

(** The depths of system_conf.hpp, through the aliases of the three types headers. *)
Definition TradeReportReceiveQueueSize : Z := 16384.
Definition TradeReportReceivePoolSize : Z := 16384.
Definition MeOrderQueueSize : Z := 16384.
Definition MeOrderStateQueueSize : Z := 32768.
Definition MeOrderBookUpdateQueueSize : Z := 32768.
Definition MeOrderStatePoolSize : Z := 32768.
Definition MeOrderBookUpdatePoolSize : Z := 32768.
Definition MeOrderPoolSize : Z := 32768.
Definition GatewayEpollReceiveQueueSize : Z := 32768.
Definition GatewayClientRequestResponseQueueSize : Z := 32768.
Definition GatewayClientRequestResponsePoolSize : Z := 32768.
Definition GatewayRequestPoolSize : Z := 8192.
Definition GatewayRequestQueueSize : Z := 8192.
Definition GatewayOrderConfirmationQueueSize : Z := 32768.
Definition GatewayOrderPoolSize : Z := 32768.
Definition AccountEpollReceiveQueueSize : Z := 1024.
Definition AccountRequestPoolSize : Z := 128.
Definition AccountResponsePoolSize : Z := 128.

Definition gw_depth (m : GwMember) : Z :=
  match m with
  | GwOrdersPool => GatewayOrderPoolSize
  | GwReportsPool => TradeReportReceivePoolSize
  | GwResponsesPool => GatewayClientRequestResponsePoolSize
  | GwServerRequestsPool | GwWriterRequestsPool => GatewayRequestPoolSize
  | GwIncomingOrders => GatewayEpollReceiveQueueSize
  | GwIncomingDisconnects => Z.of_nat GatewayMaxClients
  | GwIncomingReports => TradeReportReceiveQueueSize
  | GwIncomingResponses => GatewayClientRequestResponseQueueSize
  | GwServerIncomingRequests | GwWriterIncomingRequests => GatewayRequestQueueSize
  | GwIncomingConfirmation => GatewayOrderConfirmationQueueSize
  end.
Definition me_depth (m : MeMember) : Z :=
  match m with
  | MeIncomingOrders => MeOrderQueueSize
  | MeOrdersPool => MeOrderPoolSize
  | MeOutgoingOrders => MeOrderStateQueueSize
  | MeOutgoingBook => MeOrderBookUpdateQueueSize
  | MeOrderStatesPool => MeOrderStatePoolSize
  | MeOrderBookUpdatesPool => MeOrderBookUpdatePoolSize
  end.
Definition ac_depth (m : AcMember) : Z :=
  match m with
  | AcRequestPool => AccountRequestPoolSize
  | AcReportPool => TradeReportReceivePoolSize
  | AcResponsePool => AccountResponsePoolSize
  | AcRequests => AccountEpollReceiveQueueSize
  | AcReports => TradeReportReceiveQueueSize
  | AcResponses => Z.of_nat MaxClients
  end.

(** The threads [StartGateway] starts, in its order, with the ends the constructor
    of [OrderGatewayService] gave the object each of them runs. *)
Definition StartGateway {Q} (member : GwMember -> Q) (shared : option Q) : list (Ends Q) :=
  let Server := GatewayServer_ends (member GwOrdersPool) (member GwIncomingOrders) (member GwIncomingDisconnects)
                  (member GwServerRequestsPool) (member GwServerIncomingRequests) in
  let ConfirmationSender := ClientMessageSender_ends (member GwIncomingConfirmation) in
  let Router := OrderRouter_ends (member GwOrdersPool) (member GwIncomingOrders) (member GwIncomingConfirmation) shared in
  let StatesWriter := ClientStatesWriter_ends (member GwIncomingReports) (member GwReportsPool) (member GwIncomingResponses)
                        (member GwResponsesPool) (member GwIncomingDisconnects) (member GwWriterIncomingRequests)
                        (member GwWriterRequestsPool) in
  let UpdatesReceiver := TradeReportReceiver_ends (member GwIncomingReports) (member GwReportsPool) in
  let AccountReceiver := AccountServiceResponseReceiver_ends (member GwIncomingResponses) (member GwResponsesPool) in
  let RequestSender := AccountRequestSender_ends (member GwServerIncomingRequests) (member GwWriterIncomingRequests)
                         (member GwServerRequestsPool) (member GwWriterRequestsPool) in
  [Router; Server; StatesWriter; ConfirmationSender; UpdatesReceiver; AccountReceiver; RequestSender].

(** [StartMatchingEngine]: the matching thread, the ingress server where there is
    one, the lcore of the trade reports and the main lcore. *)
Definition StartMatchingEngine {Q} (member : MeMember -> Q) (shared : option Q) : list (Ends Q) :=
  let Emitters := [TradeReportEmitter_ends (member MeOutgoingOrders) (member MeOrderStatesPool);
                   OrderBookEmitter_ends (member MeOutgoingBook) (member MeOrderBookUpdatesPool)] in
  match shared with
  | Some queue =>
      BidAsk_ends queue (member MeOutgoingOrders) (member MeOutgoingBook) None
        (member MeOrderStatesPool) (member MeOrderBookUpdatesPool) :: Emitters
  | None =>
      BidAsk_ends (member MeIncomingOrders) (member MeOutgoingOrders) (member MeOutgoingBook) (Some (member MeOrdersPool))
        (member MeOrderStatesPool) (member MeOrderBookUpdatesPool)
      :: EpollServer_ends (member MeOrdersPool) (member MeIncomingOrders) :: Emitters
  end.

(** [StartAccountService]: four threads and the main lcore, which receives. *)
Definition StartAccountService : list (Ends AcMember) :=
  [GatewayEpollServer_ends AcRequestPool AcRequests;
   ClientRequestProcessor_ends AcRequests AcResponses AcRequestPool AcResponsePool;
   GatewayResponseDispatcher_ends AcResponses AcResponsePool;
   AccountStatesWriter_ends AcReports AcReportPool;
   TradeReportReceiver_ends AcReports AcReportPool].

(** The gateway and the engine of the shared memory build: their own members and
    the order queue between them. *)
Inductive ShmMember := OfGateway (m : GwMember) | OfEngine (m : MeMember) | SharedOrders.
#[export] Instance ShmMember_eq_dec : EqDecision ShmMember.
Proof. solve_decision. Defined.
Definition shm_members : list ShmMember := SharedOrders :: (OfGateway <$> gw_members) ++ (OfEngine <$> me_shm_members).
Definition shm_depth (m : ShmMember) : Z :=
  match m with OfGateway m => gw_depth m | OfEngine m => me_depth m | SharedOrders => 32768 end.
Definition shm_threads : list (Ends ShmMember) :=
  StartGateway OfGateway (Some SharedOrders) ++ StartMatchingEngine OfEngine (Some SharedOrders).

Record Service := MkService {
  Member : Type;
  member_eq : EqDecision Member;
  members : list Member;
  depth : Member -> Z;
  service_threads : list (Ends Member)
}.

Definition services : list Service :=
  [MkService GwMember _ gw_members gw_depth (StartGateway id None);
   MkService MeMember _ me_members me_depth (StartMatchingEngine id None);
   MkService AcMember _ ac_members ac_depth StartAccountService;
   MkService ShmMember _ shm_members shm_depth shm_threads].

(** The depth as a power of two, as the templates require. *)
Definition ring_size (S : Service) (m : Member S) : nat := 2 ^ Z.to_nat (Z.log2 (depth S m)).

Definition service_ok (S : Service) : bool :=
  forallb (fun m => @single_ends _ (member_eq S) (service_threads S) m && (2 ^ Z.log2 (depth S m) =? depth S m) && (Z.log2 (depth S m) <=? 62))
    (members S).

Lemma services_ok : Forall (fun S => service_ok S = true) services.
Proof. repeat constructor; vm_compute; reflexivity. Qed.

(** ** Main result *)

(** What a queue or pool of a service guarantees in state [s] of its threads: one
    thread [t] pushes and another one, [u], pops; what was received is a prefix of
    what was sent, with at most [depth] items in between; and the slot [t] is
    about to write or has written is not the one [u] reads. *)
Definition well_served {T} (S : Service) (m : Member S) (s : @NetState T (Member S)) : Prop :=
  exists t u, t <> u /\
    (forall i e, service_threads S !! i = Some e -> m ∈ pushes e -> i = t) /\
    (forall i e, service_threads S !! i = Some e -> m ∈ pops e -> i = u) /\
    (exists between, sent s m = received s m ++ between /\ Z.of_nat (length between) <= depth S m) /\
    let v := view t u m s in
    ((ppc v = PIdle /\ is_full (ring_size S m) (prod v) = false) \/ (exists item, ppc v = PWrote item) ->
     is_empty (cons v) = false ->
     slot (ring_size S m) (LocalTail (prod v)) <> slot (ring_size S m) (LocalHead (cons v))).

(** C14: the wiring of the gateway, of the engine, of the account service and of
    the shared-memory pair keeps the single-producer single-consumer contract:
    in every interleaving of their threads every queue and every pool's free list
    is served by two threads, in order, without loss, duplication or race. *)
Theorem services_queues_fifo (S : Service) (m : Member S) {T} (T0 : T) (s : @NetState T (Member S)) :
  S ∈ services -> m ∈ members S ->
  @net_reach T (Member S) (member_eq S) T0 (ring_size S) (service_threads S) s -> well_served S m s.
Proof.
  intros HS Hm Hr. pose proof services_ok as Hok. rewrite Forall_forall in Hok. specialize (Hok S HS).
  unfold service_ok in Hok. rewrite forallb_forall in Hok. specialize (Hok m ltac:(by apply list_elem_of_In)).
  apply andb_true_iff in Hok as [[H1 H2%Z.eqb_eq]%andb_true_iff H3%Z.leb_le].
  apply single_ends_spec in H1 as (t & u & Hne & Hp & Hc). exists t, u. split; [done|]. split; [done|]. split; [done|].
  assert (Hk : (Z.to_nat (Z.log2 (depth S m)) <= 62)%nat) by lia.
  pose proof (@net_reach_view _ _ (member_eq S) T0 (ring_size S) (service_threads S) t u m s Hp Hc Hr) as HR.
  pose proof (qreach_inv T0 (ring_size S m) _ eq_refl Hk _ HR) as HI. split.
  - destruct (qinv_in_flight _ _ eq_refl Hk _ HI) as (rest & Hf & Hl). exists rest. rewrite view_parts in Hf. cbn in Hf. split; [done|].
    unfold ring_size in Hl. assert (0 <= Z.log2 (depth S m)) by apply Z.log2_nonneg.
    rewrite <- H2. replace (2 ^ Z.log2 (depth S m)) with (Z.of_nat (2 ^ Z.to_nat (Z.log2 (depth S m)))); [lia|].
    rewrite Nat2Z.inj_pow, Z2Nat.id by done. done.
  - by apply (qinv_slots_apart _ _ eq_refl Hk).
Qed.

(** The epoll server of the gateway writes a batch into its queue and publishes it. *)
Definition gateway_service : Service := MkService GwMember _ gw_members gw_depth (StartGateway id None).
Definition ex_wrote : NetState (T := nat) (Q := GwMember) :=
  let v := view 1 0 GwIncomingOrders (net0 0%nat (ring_size gateway_service)) in
  put_producer 1 GwIncomingOrders
    (MkQState (write_item (ring_size gateway_service GwIncomingOrders) 7%nat (prod v) (queue v)) (prod v) (PWrote 7%nat) 0
       (cons v) CIdle 0 [] []) (net0 0%nat (ring_size gateway_service)).
Definition ex_published : NetState (T := nat) (Q := GwMember) :=
  let v := view 1 0 GwIncomingOrders ex_wrote in
  put_producer 1 GwIncomingOrders
    (MkQState (store_tail (bump_tail (prod v)) (queue v)) (bump_tail (prod v)) PIdle 0 (cons v) CIdle 0 [7%nat] []) ex_wrote.

Lemma ex_published_reach : net_reach 0%nat (ring_size gateway_service) (service_threads gateway_service) ex_published.
Proof.
  assert (Hs : service_threads gateway_service !! 1%nat =
    Some (GatewayServer_ends GwOrdersPool GwIncomingOrders GwIncomingDisconnects GwServerRequestsPool GwServerIncomingRequests)) by reflexivity.
  assert (Hq : GwIncomingOrders ∈ pushes
    (GatewayServer_ends GwOrdersPool GwIncomingOrders GwIncomingDisconnects GwServerRequestsPool GwServerIncomingRequests)) by (left).
  apply (net_more _ _ _ ex_wrote); [eapply net_more; [apply net_init|]|]; unfold ex_wrote at 1, ex_published.
  - eapply (producer_moves _ _ _ _ 1 _ 0 GwIncomingOrders _ Hs Hq); [|by split_and!].
    apply p_write. vm_compute. reflexivity.
  - eapply (producer_moves _ _ _ _ 1 _ 0 GwIncomingOrders _ Hs Hq); [|by split_and!]. exact (p_publish 0%nat _ _ _ 0 _ CIdle 0 [] [] 7%nat).
Qed.

Lemma services_queues_fifo_witness :
  sent ex_published GwIncomingOrders = [7%nat] /\ well_served gateway_service GwIncomingOrders ex_published.
Proof.
  split; [reflexivity|]. apply (services_queues_fifo gateway_service GwIncomingOrders 0%nat ex_published).
  - left.
  - right. right. right. right. right. left.
  - exact ex_published_reach.
Defined.
