(* ===== verification/Startup.v ===== *)
(** What the services do before their loops run: the limit on descriptors
    ([FileDescriptorsOps], src/market_server/common/src/file_descriptors_ops.cpp)
    and the sizes the epoll servers take from it, the assignment of the emitters to
    lcores and transmit queues ([MarketDataEmitters],
    src/market_server/matching_engine/include/market_data_emitters.hpp), the
    receivers' set-up (trade_report_receiver.hpp of the gateway and of the account
    service) and the accounts the account service starts with
    (src/market_server/account_service/src/main.cpp).

    The answers of [getrlimit] and [setrlimit] are parameters with what is
    documented of them as hypotheses; the return codes of the network library are
    arguments.

    Main results: every descriptor the gateway's server can be given indexes its
    buffers and the clients' states; the two emitters get different queues and
    different lcores, whatever the order of the lcores; a client of the initial
    accounts is answered with its full positions. *)

From S2P Require Import Prelude WireTypes SpscQueue StoragePool Buffers EpollServer GatewayStates GatewayServers.
From S2P Require AccountStates AccountService UdpMulticast UdpReceiver.

(** ** Descriptors *)

Record rlimit := MkLimit { rlim_cur : Z; rlim_max : Z }.

(** The limits of the process and the static member [MaxFd]. *)
Record Process := MkProcess { limit : rlimit; MaxFd : option Z }.

(** Accepting descriptors below the sizes of the two vectors. *)
Lemma accept_in_range dv accepted n (s : Server (D := GatewayServer)) :
  HasFirstMessageHandle dv = true -> (forall fd d, AcceptHandle dv fd d = Ret d) ->
  length (SBuffers s) = n -> length (FirstMessage s) = n ->
  Forall (fun '(fd, _, _) => (Z.to_nat fd < n)%nat) accepted ->
  exists s', clientAcceptLoop dv accepted s = Ret s' /\ derived s' = derived s /\
    Forall (fun '(fd, _, _) => is_Some (SBuffers s' !! Z.to_nat fd) /\ FirstMessage s' !! Z.to_nat fd = Some true) accepted.
Proof.
  intros Hfm Hac Hb Hf HF.
  enough (exists s', clientAcceptLoop dv accepted s = Ret s' /\ derived s' = derived s /\
    length (SBuffers s') = n /\ (forall i, FirstMessage s !! i = Some true -> FirstMessage s' !! i = Some true) /\
    Forall (fun '(fd, _, _) => FirstMessage s' !! Z.to_nat fd = Some true) accepted) as (s' & H1 & H2 & H3 & _ & H5).
  { exists s'. split; [done|]. split; [done|]. rewrite Forall_forall in HF. rewrite Forall_forall in H5. apply Forall_forall.
    intros [[fd ad] bm] Hin. split; [apply lookup_lt_is_Some_2; rewrite H3; exact (HF _ Hin)|exact (H5 _ Hin)]. }
  revert s Hb Hf. induction HF as [|[[fd ad] bm] accepted Hfd _ IH]; intros s Hb Hf; [by exists s|].
  cbn [clientAcceptLoop]. unfold addClient. rewrite Hfm. set (s1 := if ad then s else set_closed fd s).
  assert (E1 : SBuffers s1 = SBuffers s /\ FirstMessage s1 = FirstMessage s /\ derived s1 = derived s) by (by unfold s1; destruct ad).
  destruct E1 as (E1 & E2 & E3). unfold first_of. rewrite E2.
  destruct (lookup_lt_is_Some_2 (FirstMessage s) (Z.to_nat fd)) as [v Hv]; [lia|]. rewrite Hv. cbn [mbind result_bind].
  rewrite Hac. cbn [mbind result_bind]. unfold buffer_of. cbn [SBuffers set_derived set_first]. rewrite E1.
  destruct (lookup_lt_is_Some_2 (SBuffers s) (Z.to_nat fd)) as [b Hbf]; [lia|]. rewrite Hbf. cbn [mbind result_bind].
  destruct (IH (set_buffer fd (objbuf_init bm) (set_derived (derived (set_first fd true s1)) (set_first fd true s1))))
    as (s' & H1 & H2 & H3 & H4 & H5).
  - cbn. by rewrite length_insert, E1.
  - cbn. by rewrite length_insert, E2.
  - cbn [FirstMessage set_buffer set_derived set_first derived] in H2, H4. rewrite E2 in H4.
    exists s'. split; [exact H1|]. split; [by rewrite H2|]. split; [done|]. split.
    + intros i Hi. apply H4. destruct (decide (i = Z.to_nat fd)) as [->|]; [apply list_lookup_insert_eq; lia|by rewrite list_lookup_insert_ne].
    + constructor; [|done]. apply H4, list_lookup_insert_eq. lia.
Qed.

Section Limits.
Context (get_ok : rlimit -> bool) (set_ok : rlimit -> rlimit -> bool).   (* whether the calls succeed *)

Definition getRLimit (p : Process) : option rlimit := if get_ok (limit p) then Some (limit p) else None.

Definition findMaxFd (p : Process) : Z * Process :=
  match getRLimit p with
  | None => (0, p)
  | Some rl => (rlim_cur rl, MkProcess (limit p) (Some (rlim_cur rl)))
  end.

Definition setMaxFd (nb_fds : Z) (p : Process) : Process :=
  match getRLimit p with
  | None => p
  | Some rl =>
      let rl := MkLimit nb_fds (rlim_max rl) in
      let p := if set_ok (limit p) rl then MkProcess rl (MaxFd p) else p in
      MkProcess (limit p) (Some nb_fds)
  end.

Definition capMaxFd (p : Process) : Process :=
  match getRLimit p with None => p | Some rl => setMaxFd (rlim_max rl) p end.

Definition getMaxFd (p : Process) : Z * Process :=
  match MaxFd p with Some n => (n, p) | None => findMaxFd p end.

(** The constructor of [EpollServer] that takes no number of descriptors: the
    sizes of [Buffers] and of [FirstMessage]. *)
Definition server_sizes (p : Process) : nat * nat * Process :=
  let '(buffers, p) := getMaxFd p in
  let '(first, p) := getMaxFd p in
  (Z.to_nat buffers, Z.to_nat first, p).

(** The constructor of [OrderGatewayService]: the server is a member, and the
    limit is set in the body. *)
Definition gateway_limits (p : Process) : nat * nat * Process :=
  let '(buffers, first, p) := server_sizes p in
  (buffers, first, setMaxFd (Z.of_nat GatewayMaxClients) p).

(** What is documented of the calls: the limit of a resource can be read, and
    lowering or raising the soft limit fails only above the hard one. *)
Context (Hget : forall l, get_ok l = true).
Context (Hset : forall old new, rlim_cur new <= rlim_max new -> set_ok old new = true).

Lemma setMaxFd_bound nb p :
  rlim_cur (limit p) <= rlim_max (limit p) -> rlim_cur (limit (setMaxFd nb p)) <= nb /\ MaxFd (setMaxFd nb p) = Some nb.
Proof.
  intros Hl. unfold setMaxFd, getRLimit. rewrite Hget. split; [|done]. cbn [limit].
  destruct (set_ok (limit p) (MkLimit nb (rlim_max (limit p)))) eqn:E; cbn [limit rlim_cur]; [lia|].
  destruct (decide (nb <= rlim_max (limit p))) as [Hle|]; [|lia].
  rewrite (Hset (limit p) (MkLimit nb (rlim_max (limit p)))) in E by done. done.
Qed.

Lemma capMaxFd_limit p :
  limit (capMaxFd p) = MkLimit (rlim_max (limit p)) (rlim_max (limit p)) /\ MaxFd (capMaxFd p) = Some (rlim_max (limit p)).
Proof.
  unfold capMaxFd, getRLimit. rewrite Hget. unfold setMaxFd, getRLimit. rewrite Hget, Hset by done. done.
Qed.

Lemma server_sizes_fresh p :
  MaxFd p = None ->
  server_sizes p = (Z.to_nat (rlim_cur (limit p)), Z.to_nat (rlim_cur (limit p)), MkProcess (limit p) (Some (rlim_cur (limit p)))).
Proof. intros H. unfold server_sizes, getMaxFd, findMaxFd, getRLimit. rewrite H, Hget. done. Qed.

(** C20: once the gateway is constructed, accepting any sequence of connections
    succeeds: every descriptor the system can give it, below the soft limit in
    force, indexes the buffers and flags of its server and the states of the
    clients, whatever the limits the process started with, as long as the soft one
    was not below [GatewayMaxClients]. *)
Theorem gateway_descriptors_in_range p PoolSize req_room dis_room d mem pool e accepted :
  MaxFd p = None -> Z.of_nat GatewayMaxClients <= rlim_cur (limit p) <= rlim_max (limit p) ->
  length (GStates d) = GatewayMaxClients ->
  let '(buffers, _, p') := gateway_limits p in
  Forall (fun '(fd, _, _) => 0 <= fd < rlim_cur (limit p')) accepted ->
  let dv := gateway_derived PoolSize req_room dis_room in
  exists s, clientAcceptLoop dv accepted (server_init dv buffers mem pool e d) = Ret s /\
    Forall (fun '(fd, _, _) => has_state fd (derived s) /\ is_Some (SBuffers s !! Z.to_nat fd) /\
                               FirstMessage s !! Z.to_nat fd = Some true) accepted.
Proof.
  intros HM Hl Hd. unfold gateway_limits. rewrite server_sizes_fresh by done.
  set (p1 := MkProcess _ _). destruct (setMaxFd_bound (Z.of_nat GatewayMaxClients) p1) as [Hb _]; [apply Hl|].
  intros HF. set (dv := gateway_derived _ _ _). set (n := Z.to_nat (rlim_cur (limit p))).
  assert (HF' : Forall (fun '(fd, _, _) => 0 <= fd < Z.of_nat GatewayMaxClients /\ (Z.to_nat fd < n)%nat) accepted).
  { eapply Forall_impl; [exact HF|]. intros [[fd ?] ?] Hfd. unfold n. lia. }
  destruct (accept_in_range dv accepted n (server_init dv n mem pool e d)) as (s & Hs & HD & HA); try done.
  - by apply length_replicate.
  - by apply length_replicate.
  - eapply Forall_impl; [exact HF'|]. by intros [[fd ?] ?] [? ?].
  - exists s. split; [exact Hs|]. rewrite HD. apply Forall_forall. intros [[fd ad] bm] Hin.
    rewrite Forall_forall in HF', HA. specialize (HF' _ Hin) as [Hfd _]. specialize (HA _ Hin) as [H1 H2].
    split; [|by split]. apply lookup_lt_is_Some_2. cbn [derived server_init]. rewrite Hd. lia.
Qed.

End Limits.

(** The usual calls: reading works, and a soft limit up to the hard one is taken. *)
Definition plain_get (l : rlimit) : bool := true.
Definition plain_set (old new : rlimit) : bool := rlim_cur new <=? rlim_max new.

Definition ex_gateway : GatewayServer := MkGateway 0 (states_init GatewayMaxClients) [] 0 ex_pool0 ∅ [] 0.

Lemma gateway_descriptors_in_range_witness :
  exists s, clientAcceptLoop (gateway_derived 4 (fun _ => true) (fun _ => true)) [(127, true, [])]
    (server_init (gateway_derived 4 (fun _ => true) (fun _ => true)) 1024 [] ex_pool0 EAGAIN ex_gateway) = Ret s.
Proof.
  destruct (gateway_descriptors_in_range plain_get plain_set ltac:(done)
    ltac:(intros old new H; by apply Z.leb_le) (MkProcess (MkLimit 1024 4096) None) 4 (fun _ => true) (fun _ => true) ex_gateway
    [] ex_pool0 EAGAIN [(127, true, [])]) as (s & Hs & _).
  - reflexivity.
  - vm_compute. split; congruence.
  - reflexivity.
  - repeat constructor; vm_compute; congruence.
  - exists s. exact Hs.
Defined.

(** A process that starts with a lower soft limit: the server is sized by it, the
    limit is raised afterwards, and a descriptor within the new limit is past the
    end of the buffers. *)
Theorem raised_limit_overruns_buffers :
  let '(buffers, first, p) := gateway_limits plain_get plain_set (MkProcess (MkLimit 64 4096) None) in
  let dv := gateway_derived 4 (fun _ => true) (fun _ => true) in
  rlim_cur (limit p) = 128 /\
  addClient dv 100 true [] (server_init dv buffers [] ex_pool0 EAGAIN ex_gateway) = Crash OutOfBounds.
Proof. vm_compute. done. Qed.

(** When [setrlimit] refuses, [MaxFd] records the limit that was asked for. *)
Theorem refused_limit_is_recorded nb p :
  rlim_max (limit p) < nb -> limit (setMaxFd plain_get plain_set nb p) = limit p /\
    getMaxFd plain_get (setMaxFd plain_get plain_set nb p) = (nb, setMaxFd plain_get plain_set nb p).
Proof.
  intros H. unfold setMaxFd, getRLimit, plain_get, plain_set. cbn [rlim_cur rlim_max].
  destruct (Z.leb_spec nb (rlim_max (limit p))); [lia|]. done.
Qed.

(** ** The listening socket *)

(** What the calls of [initSocket] return. *)
Record SocketCalls := MkSocketCalls {
  sc_socket : Z; sc_getfl : Z; sc_setfl : Z; sc_bind : Z; sc_listen : Z; sc_epoll_create : Z; sc_epoll_ctl : Z
}.

(** [setNonBlocking]: the process ends when a call fails. *)
Definition setNonBlocking (getfl setfl : Z) : result unit :=
  if getfl =? -1 then Crash Terminate else if setfl =? -1 then Crash Terminate else Ret tt.

(** [initSocket]: [ListenFd] and [EpollFd]. *)
Definition initSocket (c : SocketCalls) : result (Z * Z) :=
  if sc_socket c =? -1 then Crash Terminate
  else
    _ ← setNonBlocking (sc_getfl c) (sc_setfl c);
    if sc_bind c =? -1 then Crash Terminate
    else if sc_listen c =? -1 then Crash Terminate
    else if sc_epoll_create c =? -1 then Crash Terminate
    else if sc_epoll_ctl c =? -1 then Crash Terminate
    else Ret (sc_socket c, sc_epoll_create c).

(** A server that is constructed listens: every call succeeded. *)
Lemma initSocket_listens c l e :
  initSocket c = Ret (l, e) -> l <> -1 /\ e <> -1 /\ sc_bind c <> -1 /\ sc_listen c <> -1 /\ sc_epoll_ctl c <> -1.
Proof.
  unfold initSocket, setNonBlocking. destruct (Z.eqb_spec (sc_socket c) (-1)); [done|].
  destruct (sc_getfl c =? -1); [done|]. destruct (sc_setfl c =? -1); [done|]. cbn [mbind result_bind].
  destruct (Z.eqb_spec (sc_bind c) (-1)); [done|]. destruct (Z.eqb_spec (sc_listen c) (-1)); [done|].
  destruct (Z.eqb_spec (sc_epoll_create c) (-1)); [done|]. destruct (Z.eqb_spec (sc_epoll_ctl c) (-1)); [done|].
  by intros [= <- <-].
Qed.

(** ** The emitters of the matching engine *)

(** What the calls of the network library return; [tx_setup] by queue. *)
Record PortCodes := MkCodes { eal_init : Z; configure : Z; tx_setup : nat -> Z; mac_get : Z; port_start : Z }.

Section Emitters.
Context (codes : PortCodes) (card : list Z) (srcIp srcPort dstOrderIp dstOrderPort dstBookIp dstBookPort : Z).
Context (books : gmap nat OrderBookUpdate) (reports : gmap nat OrderStateReport).   (* the memory of the pools *)

Definition TX_QUEUES : nat := 2.

(** An emitter with its queue and its lcore. *)
Record Placed (T : Type) := MkPlaced { queueId : nat; placedLcore : nat; placedEmitter : UdpMulticast.Emitter T }.
Arguments MkPlaced {T}.

Record EmitterSetup := MkSetup {
  BookEmitter : option (Placed OrderBookUpdate);
  TradeEmitter : option (Placed OrderStateReport);
  assignedQueues : nat;
  mainLcoreComing : bool
}.

(** The body of the loop over the lcores. *)
Definition assign_lcore (mainLcore lcoreId : nat) (st : EmitterSetup) : result EmitterSetup :=
  let q := assignedQueues st in
  if (lcoreId =? mainLcore)%nat then
    e ← UdpMulticast.emitter_init (tx_setup codes q) (mac_get codes) card srcIp dstBookIp srcPort dstBookPort books;
    Ret (MkSetup (Some (MkPlaced q lcoreId e)) (TradeEmitter st) (S q) false)
  else if (q + (if mainLcoreComing st then 1 else 0) =? 1)%nat then
    e ← UdpMulticast.emitter_init (tx_setup codes q) (mac_get codes) card srcIp dstOrderIp srcPort dstOrderPort reports;
    Ret (MkSetup (BookEmitter st) (Some (MkPlaced q lcoreId e)) (S q) (mainLcoreComing st))
  else Ret st.

Fixpoint assign_lcores (mainLcore : nat) (lcores : list nat) (st : EmitterSetup) : result EmitterSetup :=
  match lcores with
  | [] => Ret st
  | lcoreId :: lcores => st ← assign_lcore mainLcore lcoreId st; assign_lcores mainLcore lcores st
  end.

(** The constructor; [lcores] are those RTE_LCORE_FOREACH goes through. *)
Definition MarketDataEmitters (mainLcore : nat) (lcores : list nat)
    : result (Placed OrderBookUpdate * Placed OrderStateReport) :=
  if eal_init codes <? 0 then Crash Terminate
  else if configure codes <? 0 then Crash Terminate
  else
    st ← assign_lcores mainLcore lcores (MkSetup None None 0 true);
    match BookEmitter st, TradeEmitter st with
    | Some book, Some trade => if port_start codes <? 0 then Crash Terminate else Ret (book, trade)
    | _, _ => Crash Terminate
    end.

Context (Hc : 0 <= eal_init codes /\ 0 <= configure codes /\ (forall q, 0 <= tx_setup codes q) /\ mac_get codes = 0 /\ 0 <= port_start codes).

Lemma emitter_init_ok {T} q dstIp dstPort (objects : gmap nat T) :
  exists e, UdpMulticast.emitter_init (tx_setup codes q) (mac_get codes) card srcIp dstIp srcPort dstPort objects = Ret e /\
    UdpMulticast.DstIp e = u32 dstIp /\ UdpMulticast.DstPort e = u16 dstPort.
Proof.
  destruct Hc as (_ & _ & Ht & Hm & _). unfold UdpMulticast.emitter_init.
  destruct (Z.ltb_spec (tx_setup codes q) 0) as [Hlt|]; [specialize (Ht q); lia|]. rewrite Hm. cbn [Z.eqb negb]. by eexists.
Qed.

(** Once both emitters are placed, or both the queues are used, the loop changes
    nothing but passes over the other lcores. *)
Lemma assign_rest mainLcore lcores st :
  mainLcore ∉ lcores -> (assignedQueues st + (if mainLcoreComing st then 1 else 0) = 2)%nat ->
  assign_lcores mainLcore lcores st = Ret st.
Proof.
  induction lcores as [|l lcores IH]; intros Hn Hq; [done|]. apply not_elem_of_cons in Hn as [Hl Hn].
  cbn [assign_lcores]. unfold assign_lcore. rewrite (proj2 (Nat.eqb_neq l mainLcore)) by done. rewrite Hq. cbn [Nat.eqb mbind result_bind]. by apply IH.
Qed.

Lemma assign_after_main mainLcore lcores book :
  mainLcore ∉ lcores ->
  exists st, assign_lcores mainLcore lcores (MkSetup (Some book) None 1 false) = Ret st /\
    BookEmitter st = Some book /\
    match lcores with
    | [] => TradeEmitter st = None
    | l :: _ => exists e, TradeEmitter st = Some (MkPlaced 1 l e) /\
        UdpMulticast.DstIp e = u32 dstOrderIp /\ UdpMulticast.DstPort e = u16 dstOrderPort
    end.
Proof.
  intros Hn. destruct lcores as [|l lcores]; [by eexists|]. apply not_elem_of_cons in Hn as [Hl Hn].
  cbn [assign_lcores]. unfold assign_lcore. rewrite (proj2 (Nat.eqb_neq l mainLcore)) by done. cbn [assignedQueues mainLcoreComing Nat.add Nat.eqb].
  destruct (emitter_init_ok 1 dstOrderIp dstOrderPort reports) as (e & -> & He). cbn [mbind result_bind].
  rewrite assign_rest; [|done|done]. eexists. split; [done|]. split; [done|]. by exists e.
Qed.

Lemma assign_main_first mainLcore lcores :
  mainLcore ∉ lcores ->
  exists eb st, assign_lcores mainLcore (mainLcore :: lcores) (MkSetup None None 0 true) = Ret st /\
    UdpMulticast.DstIp eb = u32 dstBookIp /\ UdpMulticast.DstPort eb = u16 dstBookPort /\
    BookEmitter st = Some (MkPlaced 0 mainLcore eb) /\
    match lcores with
    | [] => TradeEmitter st = None
    | l :: _ => exists e, TradeEmitter st = Some (MkPlaced 1 l e) /\
        UdpMulticast.DstIp e = u32 dstOrderIp /\ UdpMulticast.DstPort e = u16 dstOrderPort
    end.
Proof.
  intros Hn. cbn [assign_lcores]. unfold assign_lcore. rewrite Nat.eqb_refl. cbn [assignedQueues].
  destruct (emitter_init_ok 0 dstBookIp dstBookPort books) as (eb & -> & Hb1 & Hb2). cbn [mbind result_bind TradeEmitter].
  destruct (assign_after_main mainLcore lcores (MkPlaced 0 mainLcore eb) Hn) as (st & -> & Hb & Ht). by exists eb, st.
Qed.

(** The first lcore that is not the main one. *)
Definition other_lcore (mainLcore : nat) (lcores : list nat) : option nat := head (filter (fun l => l <> mainLcore) lcores).

Lemma assign_before_main mainLcore lcores1 lcores2 st :
  mainLcore ∉ lcores1 -> mainLcore ∉ lcores2 -> (assignedQueues st = 1)%nat -> mainLcoreComing st = true -> BookEmitter st = None ->
  exists e, assign_lcores mainLcore (lcores1 ++ mainLcore :: lcores2) st =
      Ret (MkSetup (Some (MkPlaced 1 mainLcore e)) (TradeEmitter st) 2 false) /\
    UdpMulticast.DstIp e = u32 dstBookIp /\ UdpMulticast.DstPort e = u16 dstBookPort.
Proof.
  intros H1 H2 Hq Hm Hb. induction lcores1 as [|l lcores1 IH].
  - cbn [app assign_lcores]. unfold assign_lcore. rewrite Nat.eqb_refl, Hq.
    destruct (emitter_init_ok 1 dstBookIp dstBookPort books) as (e & -> & He). cbn [mbind result_bind].
    exists e. rewrite assign_rest; done.
  - apply not_elem_of_cons in H1 as [Hl H1]. cbn [app assign_lcores]. unfold assign_lcore.
    rewrite (proj2 (Nat.eqb_neq l mainLcore)) by done. rewrite Hq, Hm. cbn [Nat.eqb Nat.add mbind result_bind]. by apply IH.
Qed.

(** C30: with two lcores or more, whatever their order and wherever the main one
    is among them, the order book emitter is on the main lcore and the trade
    report emitter on the first other one; they get the two transmit queues, one
    each, and their own multicast group; with one lcore the process ends. *)
Theorem emitters_get_own_lcore_and_queue mainLcore lcores :
  NoDup lcores -> mainLcore ∈ lcores ->
  match other_lcore mainLcore lcores with
  | None => MarketDataEmitters mainLcore lcores = Crash Terminate
  | Some l =>
      exists book trade, MarketDataEmitters mainLcore lcores = Ret (book, trade) /\
        placedLcore _ book = mainLcore /\ placedLcore _ trade = l /\ l <> mainLcore /\
        (queueId _ book < TX_QUEUES)%nat /\ (queueId _ trade < TX_QUEUES)%nat /\ queueId _ book <> queueId _ trade /\
        UdpMulticast.DstIp (placedEmitter _ book) = u32 dstBookIp /\ UdpMulticast.DstPort (placedEmitter _ book) = u16 dstBookPort /\
        UdpMulticast.DstIp (placedEmitter _ trade) = u32 dstOrderIp /\ UdpMulticast.DstPort (placedEmitter _ trade) = u16 dstOrderPort
  end.
Proof.
  intros Hnd Hin. destruct Hc as (H1 & H2 & _ & _ & H5). unfold MarketDataEmitters.
  destruct (Z.ltb_spec (eal_init codes) 0); [lia|]. destruct (Z.ltb_spec (configure codes) 0); [lia|].
  apply list_elem_of_split in Hin as (l1 & l2 & ->). apply NoDup_app in Hnd as (_ & Hd & Hnd).
  apply NoDup_cons in Hnd as [Hn2 _]. assert (Hn1 : mainLcore ∉ l1) by (intros Hi; apply (Hd _ Hi); left).
  assert (Hall : forall l : list nat, mainLcore ∉ l -> filter (fun x : nat => x <> mainLcore) l = l).
  { induction l as [|x l IH]; intros Hl; [done|]. apply not_elem_of_cons in Hl as [Hx Hl]. rewrite filter_cons_True by done. by rewrite IH. }
  unfold other_lcore. rewrite filter_app, filter_cons_False, !Hall by (done || naive_solver).
  destruct l1 as [|l l1].
  - rewrite !app_nil_l. destruct (assign_main_first mainLcore l2 Hn2) as (eb & st & -> & Hb1 & Hb2 & Hb & Ht).
    cbn [mbind result_bind]. rewrite Hb.
    destruct l2 as [|l l2]; cbn [head]; [by rewrite Ht|]. destruct Ht as (et & -> & Ht1 & Ht2).
    destruct (Z.ltb_spec (port_start codes) 0); [lia|]. apply not_elem_of_cons in Hn2 as [Hl _].
    eexists _, _. split; [done|]. cbn. unfold TX_QUEUES. split_and!; try done; lia.
  - apply not_elem_of_cons in Hn1 as [Hl Hn1]. cbn [app head assign_lcores]. unfold assign_lcore at 1.
    rewrite (proj2 (Nat.eqb_neq l mainLcore)) by done. cbn [assignedQueues mainLcoreComing Nat.add Nat.eqb].
    destruct (emitter_init_ok 0 dstOrderIp dstOrderPort reports) as (et & -> & Ht1 & Ht2). cbn [mbind result_bind BookEmitter].
    destruct (assign_before_main mainLcore l1 l2 (MkSetup None (Some (MkPlaced 0 l et)) 1 true) Hn1 Hn2 eq_refl eq_refl eq_refl)
      as (eb & -> & Hb1 & Hb2). cbn [mbind result_bind BookEmitter TradeEmitter].
    destruct (Z.ltb_spec (port_start codes) 0); [lia|].
    eexists _, _. split; [done|]. cbn. unfold TX_QUEUES. split_and!; try done; lia.
Qed.

End Emitters.

Definition good_codes : PortCodes := MkCodes 0 0 (fun _ => 0) 0 0.

(** Three lcores, the main one in the middle. *)
Lemma emitters_get_own_lcore_and_queue_witness :
  exists book trade, MarketDataEmitters good_codes [2; 0; 0; 0; 0; 1] 0x0A000014 30000 0xEF010101 30001 0xEF010102 30002 ∅ ∅ 4 [2; 4; 7]%nat
      = Ret (book, trade) /\
    (queueId _ book, placedLcore _ book) = (1, 4)%nat /\ (queueId _ trade, placedLcore _ trade) = (0, 2)%nat.
Proof.
  destruct (emitters_get_own_lcore_and_queue good_codes [2; 0; 0; 0; 0; 1] 0x0A000014 30000 0xEF010101 30001 0xEF010102 30002 ∅ ∅
    ltac:(cbn; split_and!; try lia; done) 4 [2; 4; 7]%nat) as (book & trade & E & _).
  - apply (bool_decide_unpack _). vm_compute. exact I.
  - right. left.
  - exists book, trade. split; [exact E|]. vm_compute in E. injection E as <- <-. split; reflexivity.
Defined.

(** ** The receivers of the trade reports *)

Section Receivers.
Context {T : Type} `{!UdpMulticast.Sequenced T} (RingBufferSize : nat).

(** The constructor of [TradeReportReceiver], the same in the gateway and in the
    account service; [rx_setup] and the three codes after it are those of the
    receiver it makes on queue 0 of the main lcore. *)
Definition TradeReportReceiver (eal configure rx_setup mac_add allmulticast promiscuous start : Z) (pool : StoragePool)
    (dstIp dstPort : Z) : result UdpReceiver.Receiver :=
  if eal <? 0 then Crash Terminate
  else if configure <? 0 then Crash Terminate
  else
    r ← UdpReceiver.receiver_init RingBufferSize rx_setup mac_add allmulticast promiscuous pool dstIp dstPort;
    if start <? 0 then Crash Terminate else Ret r.

(** It is constructed exactly if the library answers: the address of the group is
    taken by the card, or the card passes every group, or everything. *)
Lemma receiver_construction eal configure rx mac allm prom start pool ip port :
  (exists r, TradeReportReceiver eal configure rx mac allm prom start pool ip port = Ret r) <->
  0 <= eal /\ 0 <= configure /\ 0 <= rx /\ 0 <= start /\ (mac = 0 \/ allm = 0 \/ prom = 0).
Proof.
  unfold TradeReportReceiver, UdpReceiver.receiver_init.
  destruct (Z.ltb_spec eal 0); [split; [by intros [? ?]|lia]|].
  destruct (Z.ltb_spec configure 0); [split; [by intros [? ?]|lia]|].
  destruct (Z.ltb_spec rx 0); [split; [by intros [? ?]|lia]|].
  destruct (Z.eqb_spec mac 0), (Z.eqb_spec allm 0), (Z.eqb_spec prom 0); cbn [mbind result_bind];
    (destruct (Z.ltb_spec start 0); (split; [try (by intros [? ?]); intros _; lia|try (by eexists); lia])).
Qed.
End Receivers.

(** ** The initial accounts *)

Section InitialAccounts.
Import AccountStates AccountService.

Definition testKey : list Z :=
  [0x74; 0xc6; 0x89; 0xd7; 0x45; 0x4c; 0x46; 0x6c; 0x30; 0xcb; 0x39; 0x99; 0x3d; 0xeb; 0xb1; 0x82;
   0xb1; 0xc2; 0x5f; 0x58; 0x27; 0xae; 0x85; 0x86; 0xdd; 0xaa; 0x92; 0xee; 0x7d; 0x94; 0xd1; 0x38].
Definition NbClients : nat := 12.

(** One turn of the loop of [main]. *)
Definition initial_client (id : nat) : AccountState :=
  MkAccount (MkMeta (Z.of_nat id) testKey (Z.of_nat <$> seq 0 16) 0 (-1)) (replicate 16 10000000000000) (replicate 16 0).
Definition initial_clients : list AccountState := initial_client <$> seq 0 NbClients.

(** The constructor of [ClientStates] with accounts: they are copied over the
    first entries of the three buffers, unchecked. *)
Definition states_with (maxClients : nat) (states : list AccountState) : result AccountStates :=
  if (maxClients <? length states)%nat then Crash OutOfBounds
  else Ret ((aslot_init <$> states) ++ replicate (maxClients - length states) (aslot_init account_init)).

Definition account_states : result AccountStates := states_with MaxClients initial_clients.

(** C26: the account service starts, and each of its twelve clients that presents
    a key with the hash of the initial accounts, through gateway 0 or 10, is let in
    with its sixteen positions at their initial amount and nothing attempted; any
    other gateway is refused, and any other key is wrong. *)
Theorem initial_clients_log_in (sha256 : list Z -> list Z) m :
  RequestType m = char_A -> 0 <= QClientId m < Z.of_nat NbClients -> length (sha256 (QKey m)) = 32%nat ->
  exists states, account_states = Ret states /\ length states = MaxClients /\
    answers sha256 states [m] =
      [(QGatewayId m,
        if decide (QGatewayId m = 0 \/ QGatewayId m = 10) then
          if decide (sha256 (QKey m) = testKey)
          then MkSnapshot char_A 0 (QClientId m) (QClientFd m) (Z.of_nat <$> seq 0 16) (replicate 16 10000000000000) (replicate 16 0)
          else MkSnapshot char_C 0 (QClientId m) (QClientFd m) (vzero MaxPositions) (vzero MaxPositions) (vzero MaxPositions)
        else MkSnapshot char_R 0 (QClientId m) (QClientFd m) (vzero MaxPositions) (vzero MaxPositions) (vzero MaxPositions))].
Proof.
  intros Ht Hid Hlen. unfold account_states, states_with.
  destruct (Nat.ltb_spec MaxClients (length initial_clients)) as [H|_]; [vm_compute in H; lia|].
  eexists. split; [done|]. split. { rewrite length_app, length_replicate, length_fmap. unfold initial_clients. rewrite length_fmap, length_seq. vm_compute. done. }
  cbn [answers]. rewrite lookup_app_l by (rewrite length_fmap; unfold initial_clients; rewrite length_fmap, length_seq; lia).
  rewrite list_lookup_fmap. unfold initial_clients. rewrite list_lookup_fmap, lookup_seq_lt by lia. cbn [fmap option_fmap option_map mbind option_bind].
  change (acc_GetClientState (aslot_init (initial_client (0 + Z.to_nat (QClientId m))))) with (initial_client (Z.to_nat (QClientId m))).
  unfold answer. rewrite Ht, Z.eqb_refl. cbn [initial_client ameta Authorized].
  assert (Hk : CheckKey sha256 (QKey m) (initial_client (Z.to_nat (QClientId m))) = bool_decide (sha256 (QKey m) = testKey)).
  { unfold CheckKey. cbn [initial_client ameta Key]. apply same_bytes_eq. by rewrite Hlen. }
  rewrite Hk. case_bool_decide as Hs; [rewrite (decide_True (P := sha256 (QKey m) = testKey)) by done
    |rewrite (decide_False (P := sha256 (QKey m) = testKey)) by done];
    (destruct (Z.eqb_spec 0 (QGatewayId m)) as [E|E], (Z.eqb_spec (QGatewayId m) 10) as [F|F]; cbn [negb andb];
     [rewrite decide_True by auto|rewrite decide_True by auto|rewrite decide_True by auto|rewrite decide_False by lia]); done.
Qed.

Definition login_request : RoutedAuthRequest := MkRequest char_A 11 (replicate 32 7) 5 10.

Lemma initial_clients_log_in_witness :
  exists states, account_states = Ret states /\ length states = MaxClients /\
    answers (fun _ => testKey) states [login_request] =
      [(10, MkSnapshot char_A 0 11 5 (Z.of_nat <$> seq 0 16) (replicate 16 10000000000000) (replicate 16 0))].
Proof.
  destruct (initial_clients_log_in (fun _ => testKey) login_request) as (states & H1 & H2 & H3);
    [reflexivity|vm_compute; split; congruence|reflexivity|].
  exists states. split; [exact H1|]. split; [exact H2|]. rewrite H3. reflexivity.
Defined.

End InitialAccounts.
