(* ===== verification/ClientPages.v ===== *)
(** The main loop of the client and the pages fed by it (src/market_client/src/main.cpp):
    a frame drains the queues of the network threads into [AppState], then the two
    trading panels their confirmations and balances, and draws the page shown; the
    trading and the lookup page act on what the user clicks while they are drawn.
    The service discovery page, the overlay of notifications and the quote cells of
    the price history page are computed from the result.  Of the drawing only what
    clicks do is kept.

    What arrives between two frames is the input of the frame: the events of the
    three feeds, the confirmations the reader of each session pushed, the answers of
    the balance queries, the page shown and what the user does on it, and what the
    sessions' own threads do to them meanwhile.  The clock is read once by the frame
    and once by each toast, as in TradingPanel.v.

    Main results: whatever the frames, the clicks and the network, books, prices,
    feed and services are those of the feeds alone; the activity list of a panel has
    every confirmation of its own session and every failed send of its own buttons,
    once and in order; the discovery page has one card per known service. *)

From stdpp Require Import strings gmap pretty sorting.
From S2P Require Import Prelude WireTypes WireFormats TradingSession Dashboard ClientSystem EtcdWatcher TradingPanel.

(** ** Listings *)

(** The entries of a [std::map], in the order of its keys. *)
Definition key_le {V} (a b : string * V) : Prop := String.leb a.1 b.1 = true.
Definition id_le {V} (a b : Z * V) : Prop := a.1 <= b.1.
#[local] Instance key_le_dec {V} : RelDecision (@key_le V).
Proof. intros a b. unfold key_le. apply _. Defined.
#[local] Instance id_le_dec {V} : RelDecision (@id_le V).
Proof. intros a b. unfold id_le. apply _. Defined.
Definition by_key {V} (m : gmap string V) : list (string * V) := merge_sort key_le (map_to_list m).
Definition by_id {V} (m : gmap Z V) : list (Z * V) := merge_sort id_le (map_to_list m).

(** ** Drawing the trading page *)



Section Frames.
Context {D T F : Type} (minus : F -> F -> F) (spent : F -> bool) (toast_ttl : F) (glfwGetTime : nat -> T).
Context (elapsed : T -> T -> F).
Abbreviation Panel := (TradingPanel (T := T) (F := F)).







(** ** Frames *)










(** ** The market view does not depend on the panels *)

(** Everything but the balances. *)
Definition market (s : AppState D) : AppState D := set_balances ∅ s.

Lemma market_idem s : market (market s) = market s.
Proof. done. Qed.







(** ** What the panels show *)



Abbreviation stamp := (stamp glfwGetTime).













(** ** The overlay of notifications *)

(** [Entry]: owner, text and kind. *)
Definition toast_overlay (a b : Panel) : list (string * string * bool * F) :=
  ((fun t => (label a, t_text t, t_is_error t, ttl t)) <$> toasts a) ++
  ((fun t => (label b, t_text t, t_is_error t, ttl t)) <$> toasts b).

End Frames.

(** ** The service discovery page *)

Section Cards.
Context {D : Type}.
Implicit Type s : AppState D.

Record DiscoveryCard := MkCard { title : string; subkey : string; addr : string; status : string }.

Definition engine_card (e : string * MatchingEngineInfo) : DiscoveryCard :=
  MkCard ("Matching Engine -- Asset " +:+ decimal (me_asset_id e.2)) e.1 (me_addr e.2) (me_status e.2).
Definition gateway_card (e : Z * AddrStatusInfo) : DiscoveryCard :=
  MkCard ("Socket Gateway " +:+ decimal e.1) ("/socket-gateways/" +:+ decimal e.1) (as_addr e.2) (as_status e.2).
Definition provider_card (e : string * AddrStatusInfo) : DiscoveryCard :=
  MkCard "Client Details Provider" e.1 (as_addr e.2) (as_status e.2).

Definition discovery_cards s : list DiscoveryCard :=
  (engine_card <$> by_key (matching_engines s)) ++ (gateway_card <$> by_id (socket_gateways s)) ++
  (provider_card <$> by_key (cdp_endpoints s)).

(** The pill of a card: its text, and whether it is green. *)
Definition status_pill (c : DiscoveryCard) : string * bool :=
  (if String.eqb (status c) "" then "unknown" else status c, String.eqb (status c) "active").

Lemma by_key_elem {V} (m : gmap string V) k v : (k, v) ∈ by_key m <-> m !! k = Some v.
Proof. unfold by_key. rewrite merge_sort_Permutation. apply elem_of_map_to_list. Qed.
Lemma by_id_elem {V} (m : gmap Z V) k v : (k, v) ∈ by_id m <-> m !! k = Some v.
Proof. unfold by_id. rewrite merge_sort_Permutation. apply elem_of_map_to_list. Qed.

(** The page has exactly one card for each service the client knows. *)
Theorem one_card_per_service s :
  (forall c, c ∈ discovery_cards s <->
     (exists k i, matching_engines s !! k = Some i /\ c = engine_card (k, i)) \/
     (exists g i, socket_gateways s !! g = Some i /\ c = gateway_card (g, i)) \/
     (exists k i, cdp_endpoints s !! k = Some i /\ c = provider_card (k, i))) /\
  length (discovery_cards s) = (size (matching_engines s) + size (socket_gateways s) + size (cdp_endpoints s))%nat.
Proof.
  split.
  - intros c. unfold discovery_cards. rewrite !elem_of_app, !list_elem_of_fmap. split.
    + intros [([k i] & -> & H)|[([g i] & -> & H)|([k i] & -> & H)]];
        [left; exists k, i|right; left; exists g, i|right; right; exists k, i]; (split; [|done]);
        first [by apply by_key_elem|by apply by_id_elem].
    + intros [(k & i & H & ->)|[(g & i & H & ->)|(k & i & H & ->)]];
        [left; exists (k, i)|right; left; exists (g, i)|right; right; exists (k, i)]; (split; [done|]);
        first [by apply by_key_elem|by apply by_id_elem].
  - unfold discovery_cards, by_key, by_id. rewrite !length_app, !length_fmap, !merge_sort_Permutation, !length_map_to_list. lia.
Qed.

(** ** The quote cells of the price history page *)

(** Best bid, best ask and spread of the asset, [None] for the cells that show two
    dashes. *)
Definition quote_cells (asset : Z) s : option Z * option Z * option Z :=
  let '(bid, ask) := match order_books s !! asset with
                     | Some b => (best_bid b, best_ask b)
                     | None => (0, 0)
                     end in
  (if bid =? 0 then None else Some bid, if ask =? 0 then None else Some ask,
   if negb (bid =? 0) && negb (ask =? 0) then Some (s64 (ask - bid)) else None).

(** A cell shows the best price of its side, unless the side is empty or its best
    price is 0. *)
Lemma quote_cells_best asset s b p :
  order_books s !! asset = Some b ->
  (quote_cells asset s).1.1 = Some p <-> map_begin (fun k j => j <? k) (cbids b) = Some p /\ p <> 0.
Proof.
  intros Hb. unfold quote_cells. rewrite Hb. cbn [fst snd]. unfold best_bid.
  destruct (map_begin (fun k j => j <? k) (cbids b)) as [q|]; cbn [default from_option id].
  - destruct (Z.eqb_spec q 0) as [->|Hq]; split; try done.
    + intros [[= <-] ?]. done.
    + intros [= <-]. done.
    + by intros [[= <-] _].
  - split; [done|]. by intros [? _].
Qed.
End Cards.

(** ** Concrete frames *)



