(* ===== verification/LoadGenerator.v ===== *)
(** The load generator (src/market_server/functional_tests/realistic_stress_test.cpp):
    bots that log in to a gateway and send it limit orders, market orders and
    cancels at random, in one thread with epoll.

    A bot is the [Record] of its fields; the configuration and the middle price it
    shares with the others are arguments.  The generator of random numbers is
    modelled on 64-bit words.  [double] is a parameter with the operations used
    ([Real]); no result depends on its values.  A list of answers of [recv] or [send]
    is what the calls return, after which they would block.

    The results are in GeneratorConduct.v. *)

From stdpp Require Import strings gmap.
From S2P Require Import Prelude WireTypes Codec WireFormats TextParse.
From S2P Require OrderRouter.

(** ** Random numbers *)

(** The state of xoshiro256++. *)
Record Rng := MkRng { RState0 : Z; RState1 : Z; RState2 : Z; RState3 : Z }.

(** One turn of the loop of the constructor: the word and the new [seed]. *)
Definition seed_word (seed : Z) : Z * Z :=
  let seed := u64 (seed + 0x9E3779B97F4A7C15) in
  let z := seed in
  let z := u64 (Z.lxor z (Z.shiftr z 30) * 0xBF58476D1CE4E5B9) in
  let z := u64 (Z.lxor z (Z.shiftr z 27) * 0x94D049BB133111EB) in
  (Z.lxor z (Z.shiftr z 31), seed).

Definition rng_init (seed : Z) : Rng :=
  let '(s0, seed) := seed_word seed in
  let '(s1, seed) := seed_word seed in
  let '(s2, seed) := seed_word seed in
  let '(s3, _) := seed_word seed in
  MkRng s0 s1 s2 s3.

Definition Rotl (x k : Z) : Z := Z.lor (u64 (Z.shiftl x k)) (Z.shiftr x (64 - k)).

Definition Next (r : Rng) : Z * Rng :=
  let result := u64 (Rotl (u64 (RState0 r + RState3 r)) 23 + RState0 r) in
  let t := u64 (Z.shiftl (RState1 r) 17) in
  let s2 := Z.lxor (RState2 r) (RState0 r) in
  let s3 := Z.lxor (RState3 r) (RState1 r) in
  let s1 := Z.lxor (RState1 r) s2 in
  let s0 := Z.lxor (RState0 r) s3 in
  (result, MkRng s0 s1 (Z.lxor s2 t) (Rotl s3 45)).

Definition Below (n : Z) (r : Rng) : Z * Rng :=
  let '(x, r) := Next r in
  (u32 (Z.shiftr (u64 (Z.shiftr x 32 * n)) 32), r).

(** [double]; [ulp] is 0x1.0p-53. *)
Class Real (F : Type) := {
  of_u64 : Z -> F; ulp : F;
  fadd : F -> F -> F; fmul : F -> F -> F; fdiv : F -> F -> F; fneg : F -> F; flog : F -> F;
  flt : F -> F -> bool; fle : F -> F -> bool;
  to_u64 : F -> Z
}.

(** A number below [n]. *)
Lemma Below_range n r : 0 < n < 2 ^ 32 -> 0 <= (Below n r).1 < n.
Proof.
  intros Hn. unfold Below, Next. cbn [fst]. set (x := u64 (_ + RState0 r)). pose proof (u64_range (Rotl (u64 (RState0 r + RState3 r)) 23 + RState0 r)) as Hx. fold x in Hx.
  rewrite !Z.shiftr_div_pow2 by lia. assert (0 <= x / 2 ^ 32 < 2 ^ 32) as Hq.
  { split; [apply Z.div_pos; lia|]. apply Z.div_lt_upper_bound; lia. }
  rewrite u64_small by nia.
  assert (0 <= x / 2 ^ 32 * n / 2 ^ 32 < n) as H.
  { split; [apply Z.div_pos; nia|]. apply Z.div_lt_upper_bound; nia. }
  by rewrite u32_small by lia.
Qed.

(** ** Configuration, middle price, statistics *)

Section Generator.
Context {F : Type} `{!Real F}.

(** Without the capacity the send buffer reserves. *)
Record Config := MkConfig {
  Host : string; Port : Z; CfgAssetId : Z; CfgKey : list Z;
  DurationSeconds : F; TargetRate : F;
  NbMakers : Z; NbNoise : Z; NbTakers : Z;
  CfgMid : Z; Tick : Z;
  MakerWeight : F; NoiseWeight : F; TakerWeight : F;
  MakerDepth : Z; MakerSize : Z; NoiseDepth : Z; NoiseDepthCap : Z; NoiseSize : Z;
  NoiseAggressive : F; NoiseCancel : F;
  TakerSize : Z; MarketBuyMult : Z;
  Seed : Z; PinCore : bool; Core : Z
}.

Record MidTracker := MkMid { Mid : Z; MidTick : Z }.

Definition Drift (m : MidTracker) (rng : Rng) : MidTracker * Rng :=
  let '(k, rng) := Below 3 rng in
  let step := k - 1 in
  let mid := s64 (Mid m + step * MidTick m) in
  (MkMid (if mid <? MidTick m * 2 then s64 (MidTick m * 2) else mid) (MidTick m), rng).

Record Stats := MkStats {
  Submitted : Z; Cancels : Z; Limits : Z; Markets : Z; Buys : Z; Sells : Z;
  Confirmed : Z; AcceptedCount : Z; SendBlocked : Z;
  Rejected : list Z
}.
Definition stats0 : Stats := MkStats 0 0 0 0 0 0 0 0 0 (replicate 16 0).

Definition inc (n : Z) : Z := u64 (n + 1).

(** The counters of [Emit]. *)
Definition count_order (type : OrderType) (side : OrderSide) (action : OrderAction) (s : Stats) : Stats :=
  let s := MkStats (inc (Submitted s)) (Cancels s) (Limits s) (Markets s) (Buys s) (Sells s)
             (Confirmed s) (AcceptedCount s) (SendBlocked s) (Rejected s) in
  let s :=
    match action, type with
    | CANCEL_ORDER, _ => MkStats (Submitted s) (inc (Cancels s)) (Limits s) (Markets s) (Buys s) (Sells s)
                           (Confirmed s) (AcceptedCount s) (SendBlocked s) (Rejected s)
    | EXECUTE, MARKET => MkStats (Submitted s) (Cancels s) (Limits s) (inc (Markets s)) (Buys s) (Sells s)
                           (Confirmed s) (AcceptedCount s) (SendBlocked s) (Rejected s)
    | EXECUTE, LIMIT => MkStats (Submitted s) (Cancels s) (inc (Limits s)) (Markets s) (Buys s) (Sells s)
                          (Confirmed s) (AcceptedCount s) (SendBlocked s) (Rejected s)
    end in
  match side with
  | BUY => MkStats (Submitted s) (Cancels s) (Limits s) (Markets s) (inc (Buys s)) (Sells s)
             (Confirmed s) (AcceptedCount s) (SendBlocked s) (Rejected s)
  | SELL => MkStats (Submitted s) (Cancels s) (Limits s) (Markets s) (Buys s) (inc (Sells s))
              (Confirmed s) (AcceptedCount s) (SendBlocked s) (Rejected s)
  end.

(** The counters of a confirmation. *)
Definition count_confirmation (status : Z) (s : Stats) : Stats :=
  let s := MkStats (Submitted s) (Cancels s) (Limits s) (Markets s) (Buys s) (Sells s)
             (inc (Confirmed s)) (AcceptedCount s) (SendBlocked s) (Rejected s) in
  if status =? 0
  then MkStats (Submitted s) (Cancels s) (Limits s) (Markets s) (Buys s) (Sells s)
         (Confirmed s) (inc (AcceptedCount s)) (SendBlocked s) (Rejected s)
  else MkStats (Submitted s) (Cancels s) (Limits s) (Markets s) (Buys s) (Sells s)
         (Confirmed s) (AcceptedCount s) (SendBlocked s)
         (alter inc (if status <? 16 then Z.to_nat status else 15%nat) (Rejected s)).

Definition count_blocked (s : Stats) : Stats :=
  MkStats (Submitted s) (Cancels s) (Limits s) (Markets s) (Buys s) (Sells s)
    (Confirmed s) (AcceptedCount s) (inc (SendBlocked s)) (Rejected s).

(** [StatusName] *)
Definition StatusName (s : Z) : string :=
  if s =? 0 then "Accepted" else if s =? 1 then "InsufficientFunds" else if s =? 2 then "MaxPositions"
  else if s =? 3 then "InvalidPrice" else if s =? 4 then "InvalidQuantity" else if s =? 5 then "UnknownSymbol"
  else if s =? 6 then "TechnicalFailure" else if s =? 7 then "UserNotConnected" else if s =? 8 then "BadClientId"
  else "Unknown".

(** ** Bots *)

Inductive BotKind := Maker | Noise | Taker.

Record RestingOrder := MkResting { RoOrderId : Z; RoSide : OrderSide }.

Record Bot := MkBot {
  BotClientId : Z; BotFd : Z; Kind : BotKind; Rand : Rng;
  NextClientOrderId : Z;
  Pending : gmap Z OrderSide; Resting : gmap Z RestingOrder; RestingFifo : list Z;
  SendBuf : list Z; RecvBuf : list Z;
  NextAt : Z; MeanGapNs : F;
  S_ : Stats
}.

Definition bot_init (clientId fd : Z) (kind : BotKind) (seed : Z) : Bot :=
  MkBot clientId fd kind (rng_init seed) 1 ∅ ∅ [] [] [] 0 (of_u64 1000000) stats0.

Definition set_rand (r : Rng) (b : Bot) : Bot :=
  MkBot (BotClientId b) (BotFd b) (Kind b) r (NextClientOrderId b) (Pending b) (Resting b) (RestingFifo b)
    (SendBuf b) (RecvBuf b) (NextAt b) (MeanGapNs b) (S_ b).
Definition set_orders (n : Z) (p : gmap Z OrderSide) (r : gmap Z RestingOrder) (f : list Z) (b : Bot) : Bot :=
  MkBot (BotClientId b) (BotFd b) (Kind b) (Rand b) n p r f
    (SendBuf b) (RecvBuf b) (NextAt b) (MeanGapNs b) (S_ b).
Definition set_send_buf (l : list Z) (b : Bot) : Bot :=
  MkBot (BotClientId b) (BotFd b) (Kind b) (Rand b) (NextClientOrderId b) (Pending b) (Resting b) (RestingFifo b)
    l (RecvBuf b) (NextAt b) (MeanGapNs b) (S_ b).
Definition set_recv_buf (l : list Z) (b : Bot) : Bot :=
  MkBot (BotClientId b) (BotFd b) (Kind b) (Rand b) (NextClientOrderId b) (Pending b) (Resting b) (RestingFifo b)
    (SendBuf b) l (NextAt b) (MeanGapNs b) (S_ b).
Definition set_times (t : Z) (gap : F) (b : Bot) : Bot :=
  MkBot (BotClientId b) (BotFd b) (Kind b) (Rand b) (NextClientOrderId b) (Pending b) (Resting b) (RestingFifo b)
    (SendBuf b) (RecvBuf b) t gap (S_ b).
Definition set_stats (s : Stats) (b : Bot) : Bot :=
  MkBot (BotClientId b) (BotFd b) (Kind b) (Rand b) (NextClientOrderId b) (Pending b) (Resting b) (RestingFifo b)
    (SendBuf b) (RecvBuf b) (NextAt b) (MeanGapNs b) s.

Definition bot_below (n : Z) (b : Bot) : Z * Bot := let '(k, r) := Below n (Rand b) in (k, set_rand r b).
(** [Rand.Unit()] *)
Definition Unit (b : Bot) : F * Bot :=
  let '(x, r) := Next (Rand b) in (fmul (of_u64 (Z.shiftr x 11)) ulp, set_rand r b).
(** [Rand.Exponential(mean)] *)
Definition Exponential (mean : F) (b : Bot) : F * Bot :=
  let '(u, b) := Unit b in
  let u := if fle u (of_u64 0) then ulp else u in
  (fmul (fneg mean) (flog u), b).

(** [unordered_map::emplace] *)
Definition emplace {V} (k : Z) (v : V) (m : gmap Z V) : gmap Z V :=
  match m !! k with Some _ => m | None => <[k := v]> m end.

Section Bots.
Context (cfg : Config).

Definition new_order (coid price amount : Z) (type : OrderType) (side : OrderSide) (action : OrderAction) (b : Bot) : Order :=
  MkOrder price coid coid (BotClientId b) amount (CfgAssetId cfg) type side action.

Definition Emit (price amount : Z) (type : OrderType) (side : OrderSide) (action : OrderAction) (b : Bot) : Bot :=
  let coid := NextClientOrderId b in
  let o := new_order coid price amount type side action b in
  let pending := match action, type with EXECUTE, LIMIT => emplace coid side (Pending b) | _, _ => Pending b end in
  set_orders (u32 (coid + 1)) pending (Resting b) (RestingFifo b)
    (set_stats (count_order type side action (S_ b))
      (set_send_buf (SendBuf b ++ enc order_codec o) b)).

(** The loop of [CancelOldest]; [fifo] is what is left of the deque. *)
Fixpoint cancel_first (fifo : list Z) (b : Bot) : bool * Bot :=
  match fifo with
  | [] => (false, set_orders (NextClientOrderId b) (Pending b) (Resting b) [] b)
  | coid :: fifo =>
      match Resting b !! coid with
      | None => cancel_first fifo b
      | Some r =>
          let b := Emit 0 (RoOrderId r) LIMIT (RoSide r) CANCEL_ORDER b in
          (true, set_orders (NextClientOrderId b) (Pending b) (delete coid (Resting b)) fifo b)
      end
  end.
Definition CancelOldest (b : Bot) : bool * Bot := cancel_first (RestingFifo b) b.

Definition LiveCount (b : Bot) : nat := size (Resting b) + size (Pending b).

Fixpoint trim_loop (turns : nat) (cap : Z) (b : Bot) : Bot :=
  match turns with
  | O => b
  | S turns =>
      if cap <=? Z.of_nat (LiveCount b) then
        let '(ok, b) := CancelOldest b in
        if (ok : bool) then trim_loop turns cap b else b
      else b
  end.
Definition TrimTo (cap : Z) (b : Bot) : Bot := trim_loop 64 cap b.

Definition ActMaker (mid : Z) (b : Bot) : Bot :=
  let b := TrimTo (u32 (MakerDepth cfg - 1)) b in
  let '(k, b) := bot_below 3 b in
  let spread := s64 (Tick cfg * (1 + k)) in
  let bid := if s64 (mid - spread) <? Tick cfg then Tick cfg else s64 (mid - spread) in
  let '(n, b) := bot_below (MakerSize cfg) b in
  let b := Emit bid (u32 (1 + n)) LIMIT BUY EXECUTE b in
  let '(n, b) := bot_below (MakerSize cfg) b in
  Emit (s64 (mid + spread)) (u32 (1 + n)) LIMIT SELL EXECUTE b.

Definition ActNoise (mid : Z) (b : Bot) : Bot :=
  let b := TrimTo (NoiseDepthCap cfg) b in
  let '(k, b) := bot_below 2 b in
  let side := if negb (k =? 0) then SELL else BUY in
  let '(k, b) := bot_below (NoiseDepth cfg) b in
  let offset := s64 (Tick cfg * u32 (1 + k)) in
  let '(u, b) := Unit b in
  let offset := if flt u (NoiseAggressive cfg) then s64 (- offset) else offset in
  let price := match side with BUY => s64 (mid - offset) | SELL => s64 (mid + offset) end in
  let price := if price <? Tick cfg then Tick cfg else price in
  let '(n, b) := bot_below (NoiseSize cfg) b in
  let b := Emit price (u32 (1 + n)) LIMIT side EXECUTE b in
  if (size (Resting b) =? 0)%nat then b
  else
    let '(u, b) := Unit b in
    if flt u (NoiseCancel cfg) then (CancelOldest b).2 else b.

Definition ActTaker (mid : Z) (b : Bot) : Bot :=
  let '(k, b) := bot_below 2 b in
  let side := if negb (k =? 0) then SELL else BUY in
  let price := match side with BUY => s64 (mid * MarketBuyMult cfg) | SELL => 0 end in
  let '(n, b) := bot_below (TakerSize cfg) b in
  Emit price (u32 (1 + n)) MARKET side EXECUTE b.

Definition Act (mid now : Z) (b : Bot) : Bot :=
  let b := match Kind b with Maker => ActMaker mid b | Noise => ActNoise mid b | Taker => ActTaker mid b end in
  let '(gap, b) := Exponential (MeanGapNs b) b in
  set_times (u64 (now + to_u64 gap)) (MeanGapNs b) b.
End Bots.

(** ** The connection of a bot *)

(** What [recv] answers: a return of 0 is [Got] with no bytes. *)
Inductive RecvAnswer := Got (bs : list Z) | RecvAgain | RecvInterrupted | RecvFailed.

Definition RecvChunk : nat := 2 ^ 13.

(** The reading loop: whether the connection is still open, and [RecvBuf]. *)
Fixpoint recv_some (answers : list RecvAnswer) (buf : list Z) : bool * list Z :=
  match answers with
  | [] => (true, buf)
  | Got bs :: answers =>
      if (0 <? length bs)%nat
      then if (length bs <? RecvChunk)%nat then (true, buf ++ bs) else recv_some answers (buf ++ bs)
      else (false, buf)
  | RecvAgain :: _ => (true, buf)
  | RecvInterrupted :: answers => recv_some answers buf
  | RecvFailed :: _ => (false, buf)
  end.

Definition OnConfirmation (conf : Gateways.ClientConfirmation) (b : Bot) : Bot :=
  let coid := Gateways.CcClientOrderId conf in
  let status := Gateways.CcStatus conf in
  let b := set_stats (count_confirmation status (S_ b)) b in
  if status =? 0 then
    match Pending b !! coid with
    | Some side =>
        set_orders (NextClientOrderId b) (delete coid (Pending b))
          (emplace coid (MkResting (Gateways.CcOrderId conf) side) (Resting b)) (RestingFifo b ++ [coid]) b
    | None => b
    end
  else set_orders (NextClientOrderId b) (delete coid (Pending b)) (Resting b) (RestingFifo b) b.

(** The parsing loop; [bs] is [RecvBuf] from [off]. *)
Fixpoint parse_confirmations (fuel : nat) (bs : list Z) (b : Bot) : result (list Z * Bot) :=
  match fuel with
  | O => Crash OutOfFuel
  | S fuel =>
      if (width Gateways.OrderConfirmation <=? length bs)%nat then
        '(conf, bs) ← deref (dec Gateways.OrderConfirmation bs);
        parse_confirmations fuel bs (OnConfirmation conf b)
      else Ret (bs, b)
  end.

Definition OnReadable (answers : list RecvAnswer) (b : Bot) : result (bool * Bot) :=
  let '(open, buf) := recv_some answers (RecvBuf b) in
  if negb open then Ret (false, set_recv_buf buf b)
  else
    '(buf, b) ← parse_confirmations (S (length buf)) buf b;
    Ret (true, set_recv_buf buf b).

(** What [send] answers; [Took n] takes between 1 and all of the bytes. *)
Inductive SendAnswer := Took (n : nat) | SendAgain | SendInterrupted | SendFailed.
Inductive SendEnd := AllSent | WouldBlock | PeerClosed.

(** The sending loops from [off]; [left] is the number of bytes from there, and
    [again] what the loop makes of EAGAIN. *)
Fixpoint send_some (again : SendEnd) (answers : list SendAnswer) (off left : nat) : SendEnd * nat :=
  if (left =? 0)%nat then (AllSent, off)
  else
    match answers with
    | [] => (again, off)
    | Took n :: answers => let k := OrderRouter.taken n left in send_some again answers (off + k) (left - k)
    | SendAgain :: _ => (again, off)
    | SendInterrupted :: answers => send_some again answers off left
    | SendFailed :: _ => (PeerClosed, off)
    end.

(** [Flush]; the second component is what the network took. *)
Definition Flush (answers : list SendAnswer) (b : Bot) : bool * list Z * Bot :=
  let '(e, off) := send_some WouldBlock answers 0 (length (SendBuf b)) in
  let sent := take off (SendBuf b) in
  match e with
  | PeerClosed => (false, sent, b)
  | WouldBlock => (true, sent, set_send_buf (drop off (SendBuf b)) (set_stats (count_blocked (S_ b)) b))
  | AllSent => (true, sent, set_send_buf [] b)
  end.

Definition WantsWrite (b : Bot) : bool := negb (length (SendBuf b) =? 0)%nat.

(** [ConnectAndAuth], from what [socket], [inet_pton] and [connect] return: the
    descriptor, or -1, and the bytes the network took. *)
Definition ConnectAndAuth (cfg : Config) (clientId socket_ret pton_ret connect_ret : Z) (answers : list SendAnswer) : Z * list Z :=
  if socket_ret <? 0 then (-1, [])
  else if negb (pton_ret =? 1) then (-1, [])
  else if connect_ret <? 0 then (-1, [])
  else
    let req := enc auth_request_codec (MkAuthRequest char_A clientId (CfgKey cfg)) in
    let '(e, off) := send_some PeerClosed answers 0 (length req) in
    (match e with AllSent => socket_ret | _ => -1 end, take off req).

(** ** The main loop *)

Definition Weight (cfg : Config) (b : Bot) : F :=
  match Kind b with Maker => MakerWeight cfg | Noise => NoiseWeight cfg | Taker => TakerWeight cfg end.
Definition OrdersPerAction (b : Bot) : F := match Kind b with Maker => of_u64 2 | _ => of_u64 1 end.

(** [kinds]; a negative count gives none. *)
Definition kinds (cfg : Config) : list BotKind :=
  replicate (Z.to_nat (NbMakers cfg)) Maker ++ replicate (Z.to_nat (NbNoise cfg)) Noise ++
  replicate (Z.to_nat (NbTakers cfg)) Taker.

(** The bots, once all are connected; [fds] are their descriptors. *)
Definition make_bots (cfg : Config) (seed : Z) (fds : list Z) : list Bot :=
  imap (fun i '(kind, fd) => bot_init (u32 (Z.of_nat i)) fd kind (u64 (seed + Z.of_nat i * 0x9E3779B97F4A7C15)))
    (zip (kinds cfg) fds).

(** The share of a bot and its first action. *)
Definition schedule_bot (cfg : Config) (totalWeight : F) (start : Z) (b : Bot) (rng : Rng) : Bot * Rng :=
  let share := fmul (TargetRate cfg) (fdiv (Weight cfg b) totalWeight) in
  let actionsPerSec := fdiv share (OrdersPerAction b) in
  let gap := fdiv (of_u64 1000000000) (if flt (of_u64 0) actionsPerSec then actionsPerSec else of_u64 1) in
  let '(k, rng) := Below 2000000 rng in
  (set_times (u64 (start + k)) gap b, rng).

Fixpoint schedule_bots (cfg : Config) (totalWeight : F) (start : Z) (bots : list Bot) (rng : Rng) : list Bot * Rng :=
  match bots with
  | [] => ([], rng)
  | b :: bots =>
      let '(b, rng) := schedule_bot cfg totalWeight start b rng in
      let '(bots, rng) := schedule_bots cfg totalWeight start bots rng in
      (b :: bots, rng)
  end.
Definition total_weight (cfg : Config) (bots : list Bot) : F := foldl (fun w b => fadd w (Weight cfg b)) (of_u64 0) bots.

(** The loop that catches up, of at most 64 turns. *)
Fixpoint catch_up (turns : nat) (cfg : Config) (mid now : Z) (b : Bot) : Bot :=
  match turns with
  | O => b
  | S turns => if NextAt b <=? now then catch_up turns cfg mid now (Act cfg mid now b) else b
  end.

(** A bot with its [dead] flag, and what the network took from it and delivered
    to it so far. *)
Record Line := MkLine { bot : Bot; dead : bool; took : list Z; got : list Z }.

(** The body of the loop over the bots. *)
Definition line_turn (cfg : Config) (mid now : Z) (answers : list SendAnswer) (l : Line) : Line :=
  if dead l then l
  else
    let b := catch_up 64 cfg mid now (bot l) in
    if negb (WantsWrite b) then MkLine b false (took l) (got l)
    else let '(ok, sent, b) := Flush answers b in MkLine b (negb ok) (took l ++ sent) (got l).

(** The bytes a call of [OnReadable] reads. *)
Definition delivered (answers : list RecvAnswer) : list Z := (recv_some answers []).2.

(** An event of epoll for the bot. *)
Definition line_event (answers : list RecvAnswer) (l : Line) : result Line :=
  if dead l then Ret l
  else '(ok, b) ← OnReadable answers (bot l); Ret (MkLine b (negb ok) (took l) (got l ++ delivered answers)).

Record GenState := MkGen { lines : list Line; nbDead : nat; tracker : MidTracker; globalRng : Rng; loops : Z }.

(** What an iteration finds: the time, the answers of [send] by bot, and the bots
    that are readable with the answers of [recv]. *)
Record Iteration := MkIteration { now : Z; sends : nat -> list SendAnswer; readable : list (nat * list RecvAnswer) }.

Definition newly_dead (before after : Line) : nat := if negb (dead before) && dead after then 1 else 0.

Fixpoint turns (cfg : Config) (mid : Z) (it : Iteration) (i : nat) (ls : list Line) (nb : nat) : list Line * nat :=
  match ls with
  | [] => ([], nb)
  | l :: ls =>
      let l' := line_turn cfg mid (now it) (sends it i) l in
      let '(ls, nb) := turns cfg mid it (S i) ls (nb + newly_dead l l') in
      (l' :: ls, nb)
  end.

Fixpoint events (evs : list (nat * list RecvAnswer)) (ls : list Line) (nb : nat) : result (list Line * nat) :=
  match evs with
  | [] => Ret (ls, nb)
  | (idx, answers) :: evs =>
      match ls !! idx with
      | None => Crash OutOfBounds
      | Some l => l' ← line_event answers l; events evs (<[idx := l']> ls) (nb + newly_dead l l')
      end
  end.

(** An iteration of the main loop before its deadline. *)
Definition iterate (cfg : Config) (it : Iteration) (g : GenState) : result GenState :=
  let loops := u64 (loops g + 1) in
  let '(ls, nb) := turns cfg (Mid (tracker g)) it 0 (lines g) (nbDead g) in
  let '(m, rng) := if Z.land loops 0x3F =? 0 then Drift (tracker g) (globalRng g) else (tracker g, globalRng g) in
  '(ls, nb) ← events (readable it) ls nb;
  Ret (MkGen ls nb m rng loops).

(** The loop ends at the deadline, or when every connection is closed. *)
Fixpoint main_loop (cfg : Config) (deadline : Z) (its : list Iteration) (g : GenState) : result GenState :=
  match its with
  | [] => Ret g
  | it :: its =>
      if deadline <=? now it then Ret g
      else
        g ← iterate cfg it g;
        if (nbDead g =? length (lines g))%nat then Ret g else main_loop cfg deadline its g
  end.

(** The state before the loop. *)
Definition gen_start (cfg : Config) (seed start : Z) (fds : list Z) : GenState :=
  let bots := make_bots cfg seed fds in
  let rng := rng_init (Z.lxor seed 0xD1B54A32D192ED03) in
  let '(bots, rng) := schedule_bots cfg (total_weight cfg bots) start bots rng in
  MkGen ((fun b => MkLine b false [] []) <$> bots) 0 (MkMid (CfgMid cfg) (Tick cfg)) rng 0.

(** After the loop: a last flush of every bot, then confirmations are read. *)
Definition last_flush (sends : nat -> list SendAnswer) (ls : list Line) : list Line :=
  imap (fun i l => let '(_, sent, b) := Flush (sends i) (bot l) in MkLine b (dead l) (took l ++ sent) (got l)) ls.
Fixpoint drain_events (evs : list (nat * list RecvAnswer)) (ls : list Line) : result (list Line) :=
  match evs with
  | [] => Ret ls
  | (idx, answers) :: evs =>
      match ls !! idx with
      | None => Crash OutOfBounds
      | Some l =>
          if dead l then drain_events evs ls
          else '(_, b) ← OnReadable answers (bot l); drain_events evs (<[idx := MkLine b (dead l) (took l) (got l ++ delivered answers)]> ls)
      end
  end.

(** The totals that are printed. *)
Definition add_stats (t s : Stats) : Stats :=
  MkStats (u64 (Submitted t + Submitted s)) (u64 (Cancels t + Cancels s)) (u64 (Limits t + Limits s))
    (u64 (Markets t + Markets s)) (u64 (Buys t + Buys s)) (u64 (Sells t + Sells s)) (u64 (Confirmed t + Confirmed s))
    (u64 (AcceptedCount t + AcceptedCount s)) (u64 (SendBlocked t + SendBlocked s))
    (zip_with (fun a b => u64 (a + b)) (Rejected t) (Rejected s)).
Definition totals (ls : list Line) : Stats := foldl (fun t l => add_stats t (S_ (bot l))) stats0 ls.

(** ** Arguments *)

(** [std::atoll] and [std::strtoull]: [strtoll] and [strtoull] stop at the bounds of
    their types, and a minus sign wraps an unsigned number around. *)
Definition atoll (s : string) : Z :=
  match scan_decimal s with None => 0 | Some z => Z.max (- 2 ^ 63) (Z.min (2 ^ 63 - 1) z) end.
Definition strtoull (s : string) : Z :=
  match scan_decimal s with None => 0 | Some z => if 2 ^ 64 <=? Z.abs z then 2 ^ 64 - 1 else u64 z end.

Definition options : list string :=
  ["--host"; "--port"; "--asset"; "--duration"; "--rate"; "--makers"; "--noise"; "--takers"; "--mid"; "--tick";
   "--maker-depth"; "--maker-size"; "--noise-depth"; "--noise-depth-cap"; "--noise-size"; "--taker-size";
   "--market-buy-mult"; "--seed"; "--core"].

(** The loop over the arguments: the last value of each option, or [None] when it
    returns false. *)
Fixpoint parse_args (args : list string) (given : gmap string string) : option (gmap string string) :=
  match args with
  | [] => Some given
  | a :: args =>
      if bool_decide (a ∈ options) then
        match args with
        | [] => None
        | v :: args => parse_args args (<[a := v]> given)
        end
      else None
  end.

(** Every option is one field, [--core] two. *)
Definition apply_options (atof : string -> F) (given : gmap string string) (cfg : Config) : Config :=
  let value {A} (name : string) (read : string -> A) (default : A) : A :=
    match given !! name with Some v => read v | None => default end in
  MkConfig (value "--host" id (Host cfg)) (value "--port" (fun v => u16 (atoi v)) (Port cfg))
    (value "--asset" (fun v => u16 (atoi v)) (CfgAssetId cfg)) (CfgKey cfg)
    (value "--duration" atof (DurationSeconds cfg)) (value "--rate" atof (TargetRate cfg))
    (value "--makers" atoi (NbMakers cfg)) (value "--noise" atoi (NbNoise cfg)) (value "--takers" atoi (NbTakers cfg))
    (value "--mid" atoll (CfgMid cfg)) (value "--tick" atoll (Tick cfg))
    (MakerWeight cfg) (NoiseWeight cfg) (TakerWeight cfg)
    (value "--maker-depth" (fun v => u32 (atoi v)) (MakerDepth cfg))
    (value "--maker-size" (fun v => u32 (atoi v)) (MakerSize cfg))
    (value "--noise-depth" (fun v => u32 (atoi v)) (NoiseDepth cfg))
    (value "--noise-depth-cap" (fun v => u32 (atoi v)) (NoiseDepthCap cfg))
    (value "--noise-size" (fun v => u32 (atoi v)) (NoiseSize cfg))
    (NoiseAggressive cfg) (NoiseCancel cfg)
    (value "--taker-size" (fun v => u32 (atoi v)) (TakerSize cfg))
    (value "--market-buy-mult" atoll (MarketBuyMult cfg))
    (value "--seed" strtoull (Seed cfg))
    (match given !! "--core" with Some _ => true | None => PinCore cfg end) (value "--core" atoi (Core cfg)).

Definition ParseArgs (atof : string -> F) (args : list string) (cfg : Config) : option Config :=
  given ← parse_args args ∅; Some (apply_options atof given cfg).

(** Options with values are all read, and the last value of each is kept. *)
Lemma parse_args_options (opts : list (string * string)) given :
  Forall (fun o => o.1 ∈ options) opts ->
  parse_args (opts ≫= (fun o => [o.1; o.2])) given = Some (foldl (fun m o => <[o.1 := o.2]> m) given opts).
Proof.
  intros Ho. revert given. induction Ho as [|[a v] opts Ha _ IH]; intros given; [done|].
  rewrite bind_cons. cbn [fst snd app parse_args foldl] in *. rewrite bool_decide_true by done. apply IH.
Qed.

(** Whatever the arguments, the asset and the tick are in the ranges of their types. *)
Lemma ParseArgs_ranges atof args cfg cfg' :
  in_s64 (Tick cfg) -> 0 <= CfgAssetId cfg < 2 ^ 16 -> ParseArgs atof args cfg = Some cfg' ->
  in_s64 (Tick cfg') /\ 0 <= CfgAssetId cfg' < 2 ^ 16.
Proof.
  intros Ht Ha. unfold ParseArgs. destruct (parse_args args ∅) as [given|]; [|done]. intros [= <-]. cbn [apply_options Tick CfgAssetId].
  split.
  - destruct (given !! "--tick"); [|done]. unfold atoll, in_s64. destruct (scan_decimal s); lia.
  - destruct (given !! "--asset"); [|done]. apply Z.mod_pos_bound. lia.
Qed.

End Generator.
