(* ===== verification/GeneratorConduct.v ===== *)
(** The conduct of the load generator's bots (LoadGenerator.v).

    Main results: whatever the random numbers, the answers of the network and the
    confirmations the gateway sends, a bot numbers its orders from 1, sends whole
    orders in order, cancels only orders of its own that were accepted, the oldest
    first, each once, with the id and the side under which they rest, and its
    statistics count what it sent and received; such a cancel takes the order out of
    the engine's book; the loop that is to catch up with missed turns takes one. *)

From stdpp Require Import strings gmap.
From S2P Require Import Prelude WireTypes Codec WireFormats BookSpec BidAsk BidAskProofs Engine LoadGenerator.
From S2P Require OrderRouter.

Section Generator.
Context {F : Type} `{!Real F}.
Abbreviation Config := (Config (F := F)).
Abbreviation Bot := (Bot (F := F)).
Abbreviation Line := (Line (F := F)).
Abbreviation GenState := (GenState (F := F)).
Implicit Type b : Bot.

(** ** What a bot may do

    The log of a connection: the orders placed and the confirmations heard, as
    they happened.  [ledger] replays it: which limit orders wait for an answer, and
    which were accepted and not cancelled since, oldest first.  It is [None] if a
    cancel is not of the oldest of these, under its id and side. *)

Inductive Entry := Placed (o : Order) | Heard (c : Gateways.ClientConfirmation).
Definition placed (log : list Entry) : list Order :=
  omap (fun e => match e with Placed o => Some o | Heard _ => None end) log.
Definition heard (log : list Entry) : list Gateways.ClientConfirmation :=
  omap (fun e => match e with Placed _ => None | Heard c => Some c end) log.

Record Ledger := MkLedger { awaiting : gmap Z OrderSide; accepted : list (Z * Z * OrderSide) }.

Definition note (l : Ledger) (e : Entry) : option Ledger :=
  match e with
  | Placed o =>
      match Action o, Type_ o, accepted l with
      | EXECUTE, LIMIT, _ => Some (MkLedger (<[ClientOrderId o := Side o]> (awaiting l)) (accepted l))
      | EXECUTE, MARKET, _ => Some l
      | CANCEL_ORDER, LIMIT, (_, id, sd) :: rest =>
          if bool_decide (Amount o = id /\ Side o = sd) then Some (MkLedger (awaiting l) rest) else None
      | CANCEL_ORDER, _, _ => None
      end
  | Heard c =>
      let coid := Gateways.CcClientOrderId c in
      Some (if Gateways.CcStatus c =? 0 then
              match awaiting l !! coid with
              | Some sd => MkLedger (delete coid (awaiting l)) (accepted l ++ [(coid, Gateways.CcOrderId c, sd)])
              | None => l
              end
            else MkLedger (delete coid (awaiting l)) (accepted l))
  end.
Definition ledger (log : list Entry) : option Ledger :=
  foldl (fun l e => l ← l; note l e) (Some (MkLedger ∅ [])) log.

(** The accepted orders as the bot keeps them. *)
Definition own_accepted (b : Bot) : list (Z * Z * OrderSide) :=
  omap (fun coid => (fun r => (coid, RoOrderId r, RoSide r)) <$> Resting b !! coid) (RestingFifo b).

(** Statistics of a log, without [SendBlocked]. *)
Definition how_many {A} (f : A -> bool) (l : list A) : Z := u64 (Z.of_nat (length (filter (fun x => f x = true) l))).
Definition is_cancel (o : Order) : bool := match Action o with CANCEL_ORDER => true | EXECUTE => false end.
Definition is_limit (o : Order) : bool := match Action o, Type_ o with EXECUTE, LIMIT => true | _, _ => false end.
Definition is_market (o : Order) : bool := match Action o, Type_ o with EXECUTE, MARKET => true | _, _ => false end.
Definition is_buy (o : Order) : bool := match Side o with BUY => true | SELL => false end.
Definition is_acceptance (c : Gateways.ClientConfirmation) : bool := Gateways.CcStatus c =? 0.
Definition rejected_as (i : nat) (c : Gateways.ClientConfirmation) : bool :=
  let s := Gateways.CcStatus c in negb (s =? 0) && Nat.eqb (if s <? 16 then Z.to_nat s else 15%nat) i.

Record tallies (s : Stats) (os : list Order) (cs : list Gateways.ClientConfirmation) : Prop := {
  t_submitted : Submitted s = how_many (fun _ => true) os;
  t_cancels : Cancels s = how_many is_cancel os;
  t_limits : Limits s = how_many is_limit os;
  t_markets : Markets s = how_many is_market os;
  t_buys : Buys s = how_many is_buy os;
  t_sells : Sells s = how_many (fun o => negb (is_buy o)) os;
  t_confirmed : Confirmed s = how_many (fun _ => true) cs;
  t_accepted : AcceptedCount s = how_many is_acceptance cs;
  t_rejected : Rejected s = (fun i => how_many (rejected_as i) cs) <$> seq 0 16
}.

(** What holds of a bot after [log], when the network took [sent] and delivered
    [seen]. *)
Record follows (cfg : Config) (b : Bot) (sent seen : list Z) (log : list Entry) : Prop := {
  f_ledger : ledger log = Some (MkLedger (Pending b) (own_accepted b));
  f_sent : sent ++ SendBuf b = placed log ≫= enc order_codec;
  f_seen : seen = (heard log ≫= enc Gateways.OrderConfirmation) ++ RecvBuf b;
  f_numbers : ClientOrderId <$> placed log = Z.of_nat <$> seq 1 (length (placed log));
  f_mine : Forall (fun o => ClientId o = BotClientId b /\ AssetId o = CfgAssetId cfg /\ fits order_codec o) (placed log);
  f_heard : Forall (fits Gateways.OrderConfirmation) (heard log);
  f_stats : tallies (S_ b) (placed log) (heard log)
}.

(** What the bot keeps besides. *)
Record bookkeeping (b : Bot) (n : nat) : Prop := {
  bk_next : NextClientOrderId b = u32 (1 + Z.of_nat n);
  bk_fifo : NoDup (RestingFifo b);
  bk_resting : forall coid, coid ∈ RestingFifo b <-> is_Some (Resting b !! coid);
  bk_pending_old : forall coid, is_Some (Pending b !! coid) -> 1 <= coid <= Z.of_nat n;
  bk_resting_old : forall coid, is_Some (Resting b !! coid) -> 1 <= coid <= Z.of_nat n;
  bk_apart : forall coid, is_Some (Pending b !! coid) -> Resting b !! coid = None;
  bk_ids : forall coid r, Resting b !! coid = Some r -> in_u32 (RoOrderId r);
  bk_bytes : Forall is_byte (RecvBuf b);
  bk_client : in_u32 (BotClientId b)
}.

Lemma placed_app l l' : placed (l ++ l') = placed l ++ placed l'.
Proof. apply omap_app. Qed.
Lemma heard_app l l' : heard (l ++ l') = heard l ++ heard l'.
Proof. apply omap_app. Qed.
Lemma ledger_snoc log e : ledger (log ++ [e]) = l ← ledger log; note l e.
Proof. unfold ledger. by rewrite foldl_app. Qed.

Lemma how_many_snoc {A} (f : A -> bool) l x : how_many f (l ++ [x]) = if f x then inc (how_many f l) else how_many f l.
Proof.
  unfold how_many, inc. rewrite filter_app, length_app. destruct (f x) eqn:E.
  - rewrite filter_cons_True by done. rewrite u64_add_l. f_equal. cbn. lia.
  - rewrite filter_cons_False by congruence. f_equal. cbn. lia.
Qed.

Lemma tallies_order s os cs o :
  tallies s os cs -> tallies (count_order (Type_ o) (Side o) (Action o) s) (os ++ [o]) cs.
Proof.
  intros []. destruct o as [? ? ? ? ? ? [] [] []]; constructor; rewrite ?how_many_snoc; first [exact t_rejected0|cbn; congruence].
Qed.

Lemma tallies_confirmation s os cs c :
  fits Gateways.OrderConfirmation c ->
  tallies s os cs -> tallies (count_confirmation (Gateways.CcStatus c) s) os (cs ++ [c]).
Proof.
  intros [_ Hst] []. cbn in Hst. unfold count_confirmation. set (st := Gateways.CcStatus c) in *.
  destruct (Z.eqb_spec st 0) as [E|E]; constructor; cbn [Submitted Cancels Limits Markets Buys Sells Confirmed AcceptedCount Rejected]; rewrite ?how_many_snoc;
    change (is_acceptance c) with (st =? 0); rewrite ?(proj2 (Z.eqb_eq st 0) E), ?(proj2 (Z.eqb_neq st 0) E); try congruence.
  - rewrite t_rejected0. apply list_fmap_ext. intros _ i _. rewrite how_many_snoc. unfold rejected_as. fold st. by rewrite E.
  - rewrite t_rejected0. set (k := if st <? 16 then Z.to_nat st else 15%nat).
    assert (Hk : (k < 16)%nat) by (unfold k; destruct (Z.ltb_spec st 16); lia).
    apply list_eq. intros i. rewrite list_lookup_alter. rewrite !list_lookup_fmap.
    assert (Hs : forall j, rejected_as j c = Nat.eqb k j) by (intros j; unfold rejected_as; fold st; by rewrite (proj2 (Z.eqb_neq st 0) E)).
    destruct (decide (k = i)) as [<-|Hne].
    + rewrite lookup_seq_lt by lia. cbn [fmap option_fmap option_map]. rewrite how_many_snoc, Hs. by rewrite Nat.eqb_refl.
    + destruct (seq 0 16 !! i) as [j|] eqn:Hj; [|done]. apply lookup_seq in Hj as [-> _]. cbn [fmap option_fmap option_map].
      rewrite how_many_snoc, Hs. by rewrite (proj2 (Nat.eqb_neq k (0 + i))) by lia.
Qed.

(** ** Every operation of a bot keeps to it *)

Section Conduct.
Context (cfg : Config).

Definition config_ok : Prop := in_s64 (Tick cfg) /\ 0 <= CfgAssetId cfg < 2 ^ 16.
Context (Hcfg : config_ok).

Record good (b : Bot) (sent seen : list Z) (log : list Entry) : Prop := {
  g_follows : follows cfg b sent seen log;
  g_books : bookkeeping b (length (placed log))
}.

(** Fewer than 2^32 - 1 orders: the numbers have not come round. *)
Definition within (sent : list Z) (b : Bot) : Prop := Z.of_nat (length sent + length (SendBuf b)) < 40 * (2 ^ 32 - 1).

Lemma good_count b sent seen log :
  good b sent seen log -> (length sent + length (SendBuf b) = 40 * length (placed log))%nat.
Proof.
  intros [HF _]. rewrite <- length_app, (f_sent _ _ _ _ _ HF), enc_stream_length; [change (width order_codec) with 40%nat; lia|].
  eapply Forall_impl; [apply (f_mine _ _ _ _ _ HF)|]. by intros o (_ & _ & H).
Qed.

(** An order that was placed, with everything else of the bot as [b'] has it. *)
Lemma good_place b b' sent seen log o :
  good b sent seen log -> Z.of_nat (length (placed log)) < 2 ^ 32 - 1 ->
  ClientOrderId o = NextClientOrderId b -> ClientId o = BotClientId b -> AssetId o = CfgAssetId cfg -> fits order_codec o ->
  note (MkLedger (Pending b) (own_accepted b)) (Placed o) = Some (MkLedger (Pending b') (own_accepted b')) ->
  SendBuf b' = SendBuf b ++ enc order_codec o -> RecvBuf b' = RecvBuf b -> BotClientId b' = BotClientId b ->
  S_ b' = count_order (Type_ o) (Side o) (Action o) (S_ b) -> bookkeeping b' (S (length (placed log))) ->
  good b' sent seen (log ++ [Placed o]).
Proof.
  intros [HF HB] Hn H1 H2 H3 H4 H5 H6 H7 H8 H9 H10. split; [|by rewrite placed_app, length_app, Nat.add_comm].
  destruct HF. rewrite (bk_next _ _ HB), u32_small in H1 by lia. constructor; rewrite ?placed_app, ?heard_app; cbn [placed heard omap list_omap].
  - rewrite ledger_snoc, f_ledger0. exact H5.
  - rewrite H6, app_assoc, f_sent0, bind_app, bind_cons. cbn [mbind list_bind]. by rewrite app_nil_r.
  - by rewrite app_nil_r, H7.
  - rewrite fmap_app, f_numbers0, length_app, Nat.add_comm. cbn [length Nat.add fmap list_fmap].
    rewrite seq_S, fmap_app, H1. cbn [fmap list_fmap]. do 2 f_equal. lia.
  - rewrite H8. apply Forall_app. split; [done|]. by apply Forall_singleton.
  - by rewrite app_nil_r.
  - rewrite app_nil_r, H9. by apply tallies_order.
Qed.

Lemma new_order_fits coid price amount type side action b :
  in_u32 coid -> in_u32 (BotClientId b) -> in_s64 price -> in_u32 amount -> fits order_codec (new_order cfg coid price amount type side action b).
Proof.
  intros H1 H2 H3 H4. apply order_fits. unfold order_in_range, in_u32 in *. destruct Hcfg as [_ Ha]. cbn. split_and!; try done; lia.
Qed.

Lemma Emit_execute b sent seen log price amount type side :
  good b sent seen log -> Z.of_nat (length (placed log)) < 2 ^ 32 - 1 -> in_s64 price -> in_u32 amount ->
  good (Emit cfg price amount type side EXECUTE b) sent seen
    (log ++ [Placed (new_order cfg (NextClientOrderId b) price amount type side EXECUTE b)]).
Proof.
  intros HG Hn Hp Ha. pose proof HG as [HF HB]. pose proof (bk_next _ _ HB) as Hnx. rewrite u32_small in Hnx by lia.
  assert (Hfresh : Pending b !! NextClientOrderId b = None).
  { apply eq_None_not_Some. intros Hs. apply (bk_pending_old _ _ HB) in Hs. lia. }
  eapply good_place; try done.
  - apply new_order_fits; try done; [unfold in_u32; lia|apply HB].
  - cbn. unfold emplace. rewrite Hfresh. by destruct type.
  - unfold Emit, emplace. cbn. rewrite Hfresh. destruct HB. constructor; cbn; try done.
    + rewrite Hnx. f_equal. lia.
    + intros coid Hs. destruct type; [|apply bk_pending_old0 in Hs; lia].
      destruct (decide (coid = NextClientOrderId b)) as [->|]; [lia|]. rewrite lookup_insert_ne in Hs by done.
      apply bk_pending_old0 in Hs. lia.
    + intros coid Hs. apply bk_resting_old0 in Hs. lia.
    + intros coid Hs. destruct type; [|by apply bk_apart0].
      destruct (decide (coid = NextClientOrderId b)) as [->|]; [|rewrite lookup_insert_ne in Hs by done; by apply bk_apart0].
      apply eq_None_not_Some. intros Hr. apply bk_resting_old0 in Hr. lia.
Qed.

(** What [CancelOldest] does to a consistent bot. *)
Lemma CancelOldest_cases b n :
  bookkeeping b n ->
  match RestingFifo b with
  | [] => CancelOldest cfg b = (false, b) /\ Resting b = ∅
  | coid :: fifo =>
      exists r, Resting b !! coid = Some r /\
        CancelOldest cfg b =
          (true, let b := Emit cfg 0 (RoOrderId r) LIMIT (RoSide r) CANCEL_ORDER b in
                 set_orders (NextClientOrderId b) (Pending b) (delete coid (Resting b)) fifo b)
  end.
Proof.
  intros HB. unfold CancelOldest. destruct (RestingFifo b) as [|coid fifo] eqn:Ef; cbn [cancel_first].
  - split; [destruct b; cbn in *; by subst|]. apply map_empty. intros i. apply eq_None_not_Some. intros Hs.
    apply (bk_resting _ _ HB) in Hs. rewrite Ef in Hs. by apply elem_of_nil in Hs.
  - destruct (Resting b !! coid) as [r|] eqn:Er; [by exists r|]. exfalso.
    assert (is_Some (Resting b !! coid)) as [? ?] by (apply (bk_resting _ _ HB); rewrite Ef; left). congruence.
Qed.

Lemma own_accepted_delete (m : gmap Z RestingOrder) coid (fifo : list Z) :
  coid ∉ fifo ->
  omap (fun c => (fun r => (c, RoOrderId r, RoSide r)) <$> delete coid m !! c) fifo =
  omap (fun c => (fun r => (c, RoOrderId r, RoSide r)) <$> m !! c) fifo.
Proof.
  intros Hn. apply list_omap_ext, Forall2_same_length_lookup_2; [done|]. intros i x y Hx Hy. rewrite Hx in Hy. injection Hy as <-.
  rewrite lookup_delete_ne; [done|]. intros ->. apply Hn. by eapply list_elem_of_lookup_2.
Qed.

Lemma CancelOldest_good b sent seen log :
  good b sent seen log -> Z.of_nat (length (placed log)) < 2 ^ 32 - 1 ->
  let '(ok, b') := CancelOldest cfg b in
  if ok then (exists o, good b' sent seen (log ++ [Placed o])) /\ LiveCount b = S (LiveCount b')
  else b' = b /\ Resting b = ∅.
Proof.
  intros HG Hn. pose proof HG as [HF HB]. pose proof (CancelOldest_cases b _ HB) as HC.
  destruct (RestingFifo b) as [|coid fifo] eqn:Ef; [by destruct HC as [-> ?]|]. destruct HC as (r & Er & ->).
  pose proof (bk_next _ _ HB) as Hnx. rewrite u32_small in Hnx by lia.
  pose proof (bk_fifo _ _ HB) as Hnd. rewrite Ef in Hnd. apply NoDup_cons in Hnd as [Hni Hnd]. split.
  - exists (new_order cfg (NextClientOrderId b) 0 (RoOrderId r) LIMIT (RoSide r) CANCEL_ORDER b). eapply good_place; try done.
    + apply new_order_fits; [unfold in_u32; lia|apply HB|split; lia|]. by eapply bk_ids.
    + unfold own_accepted. cbn [new_order set_orders Emit set_stats set_send_buf Pending Resting RestingFifo note].
      rewrite Ef. cbn [omap list_omap]. rewrite Er. cbn. rewrite bool_decide_true by done. by rewrite own_accepted_delete.
    + destruct HB. constructor; cbn; try done.
      * rewrite Hnx. f_equal. lia.
      * intros c. rewrite lookup_delete_is_Some, <- bk_resting0, Ef, elem_of_cons. split; [|naive_solver].
        intros Hc. split; [|by right]. intros ->. done.
      * intros c Hs. apply bk_pending_old0 in Hs. lia.
      * intros c Hs. apply lookup_delete_is_Some in Hs as [_ Hs]. apply bk_resting_old0 in Hs. lia.
      * intros c Hs. apply bk_apart0 in Hs. destruct (decide (c = coid)) as [->|]; [apply lookup_delete_eq|by rewrite lookup_delete_ne].
      * intros c x Hx. apply lookup_delete_Some in Hx as [_ Hx]. by eapply bk_ids0.
  - unfold LiveCount. cbn. rewrite map_size_delete_Some by eauto.
    assert (size (Resting b) <> 0%nat) by (intros E; apply map_size_empty_inv in E; rewrite E in Er; done). lia.
Qed.

(** [TrimTo] leaves fewer live orders than the cap, unless there is nothing left that
    can be cancelled or it has cancelled 64. *)
Lemma TrimTo_bound b sent seen log cap :
  good b sent seen log -> Z.of_nat (length (placed log)) + 64 < 2 ^ 32 ->
  let b' := TrimTo cfg cap b in
  Z.of_nat (LiveCount b') < cap \/ Resting b' = ∅ \/ LiveCount b = (LiveCount b' + 64)%nat.
Proof.
  unfold TrimTo. change (Z.of_nat (length (placed log)) + 64) with (Z.of_nat (length (placed log)) + Z.of_nat 64).
  generalize 64%nat as n. intros n HG Hn. revert b log HG Hn. induction n as [|n IH]; intros b log HG Hn; cbn [trim_loop].
  - right. right. lia.
  - destruct (Z.leb_spec cap (Z.of_nat (LiveCount b))) as [Hc|Hc]; [|by left].
    pose proof (CancelOldest_good b sent seen log HG ltac:(lia)) as HC. destruct (CancelOldest cfg b) as [[] b'].
    + destruct HC as [[o Ho] HL]. destruct (IH b' (log ++ [Placed o]) Ho) as [H|[H|H]]; [|by left|by right; left|right; right; lia].
      rewrite placed_app, length_app. cbn. lia.
    + destruct HC as [-> HR]. by right; left.
Qed.

(** [b'] is [b] after some orders. *)
Definition extends (b b' : Bot) : Prop :=
  RecvBuf b' = RecvBuf b /\ BotClientId b' = BotClientId b /\ (length (SendBuf b) <= length (SendBuf b'))%nat /\
  forall sent seen log, good b sent seen log -> within sent b' -> exists new, good b' sent seen (log ++ new).

Lemma extends_refl b : extends b b.
Proof. do 3 (split; [done|]). intros sent seen log HG _. exists []. by rewrite app_nil_r. Qed.
Lemma extends_trans b b1 b2 : extends b b1 -> extends b1 b2 -> extends b b2.
Proof.
  intros (R1 & I1 & H1 & E1) (R2 & I2 & H2 & E2). split; [congruence|]. split; [congruence|]. split; [lia|]. intros sent seen log HG HW.
  destruct (E1 sent seen log HG) as [n1 G1]; [unfold within in *; lia|].
  destruct (E2 sent seen _ G1 HW) as [n2 G2]. exists (n1 ++ n2). by rewrite app_assoc.
Qed.

(** Fields that do not matter here. *)
Lemma good_rand b sent seen log r : good b sent seen log -> good (set_rand r b) sent seen log.
Proof. intros [[] []]. split; by constructor. Qed.
Lemma good_times b sent seen log t g : good b sent seen log -> good (set_times t g b) sent seen log.
Proof. intros [[] []]. split; by constructor. Qed.
Lemma extends_rand b r : extends b (set_rand r b).
Proof. do 3 (split; [done|]). intros sent seen log HG _. exists []. rewrite app_nil_r. by apply good_rand. Qed.
Lemma extends_times b t g : extends b (set_times t g b).
Proof. do 3 (split; [done|]). intros sent seen log HG _. exists []. rewrite app_nil_r. by apply good_times. Qed.

Lemma Emit_length b price amount type side action :
  length (SendBuf (Emit cfg price amount type side action b)) = (length (SendBuf b) + 40)%nat.
Proof.
  change (SendBuf (Emit cfg price amount type side action b))
    with (SendBuf b ++ enc order_codec (new_order cfg (NextClientOrderId b) price amount type side action b)).
  rewrite length_app, order_codec_bytes, OrderRouter.order_bytes_length. done.
Qed.

Lemma Emit_extends b price amount type side :
  in_s64 price -> in_u32 amount -> extends b (Emit cfg price amount type side EXECUTE b).
Proof.
  intros Hp Ha. split; [done|]. split; [done|]. split; [rewrite Emit_length; lia|]. intros sent seen log HG HW.
  eexists. apply Emit_execute; try done. pose proof (good_count _ _ _ _ HG) as Hc. unfold within in HW. rewrite Emit_length in HW. lia.
Qed.

Lemma CancelOldest_extends b : extends b (CancelOldest cfg b).2.
Proof.
  assert (HL : RecvBuf (CancelOldest cfg b).2 = RecvBuf b /\ BotClientId (CancelOldest cfg b).2 = BotClientId b /\
    (length (SendBuf b) <= length (SendBuf (CancelOldest cfg b).2))%nat /\
    ((CancelOldest cfg b).1 = true -> length (SendBuf (CancelOldest cfg b).2) = (length (SendBuf b) + 40)%nat)).
  { unfold CancelOldest. generalize (RestingFifo b) as fifo. induction fifo as [|c fifo IH]; cbn [cancel_first]; [done|].
    destruct (Resting b !! c); [|exact IH]. cbn [fst snd set_orders SendBuf]. rewrite Emit_length. split_and!; try done. lia. }
  destruct HL as (HR & HI & HL & HE). do 3 (split; [done|]). intros sent seen log HG HW. pose proof (good_count _ _ _ _ HG) as Hc.
  destruct (CancelOldest cfg b) as [ok b'] eqn:E. cbn [fst snd] in *. destruct ok.
  - specialize (HE eq_refl). pose proof (CancelOldest_good b sent seen log HG) as HC. rewrite E in HC.
    destruct HC as [[o Ho] _]; [unfold within in HW; lia|]. by eexists.
  - pose proof (CancelOldest_cases b _ (g_books _ _ _ _ HG)) as HC. exists []. rewrite app_nil_r.
    destruct (RestingFifo b); [destruct HC as [HC _]|destruct HC as (r & _ & HC)]; rewrite E in HC; [by injection HC as ->|done].
Qed.

Lemma trim_loop_extends n cap b : extends b (trim_loop cfg n cap b).
Proof.
  revert b. induction n as [|n IH]; intros b; cbn [trim_loop]; [apply extends_refl|]. destruct (cap <=? _); [|apply extends_refl].
  pose proof (CancelOldest_extends b) as HC. destruct (CancelOldest cfg b) as [[] b']; [|exact HC]. eapply extends_trans; [exact HC|apply IH].
Qed.

Lemma amount_ok n : in_u32 (u32 n).
Proof. apply u32_range. Qed.

(** One step of a turn. *)
Ltac turn :=
  first [apply extends_rand | apply trim_loop_extends | apply CancelOldest_extends
        | apply Emit_extends; [first [apply s64_range | apply Hcfg | split; lia] | apply amount_ok] | apply extends_refl].

Lemma ActMaker_extends mid b : extends b (ActMaker cfg mid b).
Proof.
  unfold ActMaker, TrimTo, bot_below. set (b1 := trim_loop cfg 64 _ b).
  apply (extends_trans _ b1); [unfold b1; turn|]. destruct (Below 3 (Rand b1)) as [k r]. cbn [Rand set_rand].
  set (b2 := set_rand r b1). apply (extends_trans _ b2); [unfold b2; turn|].
  destruct (Below (MakerSize cfg) r) as [n r2]. set (b3 := set_rand r2 b2). apply (extends_trans _ b3); [unfold b3; turn|].
  set (b4 := Emit cfg _ _ LIMIT BUY EXECUTE b3).
  apply (extends_trans _ b4); [unfold b4; destruct (_ <? _); turn|].
  clearbody b4. destruct (Below (MakerSize cfg) (Rand b4)) as [n' r3]. apply (extends_trans _ (set_rand r3 b4)); turn.
Qed.

Lemma ActTaker_extends mid b : extends b (ActTaker cfg mid b).
Proof.
  unfold ActTaker, bot_below. destruct (Below 2 (Rand b)) as [k r]. cbn [Rand set_rand]. destruct (Below (TakerSize cfg) r) as [n r2].
  eapply extends_trans; [apply (extends_rand _ r2)|]. destruct (negb (k =? 0)); turn.
Qed.

Lemma ActNoise_extends mid b : extends b (ActNoise cfg mid b).
Proof.
  unfold ActNoise, TrimTo, bot_below, Unit. set (b1 := trim_loop cfg 64 _ b).
  apply (extends_trans _ b1); [unfold b1; turn|]. destruct (Below 2 (Rand b1)) as [k r]. cbn [Rand set_rand].
  destruct (Below (NoiseDepth cfg) r) as [k2 r2]. cbn [Rand set_rand]. destruct (Next r2) as [x r3]. cbn [Rand set_rand].
  destruct (Below (NoiseSize cfg) r3) as [n r4]. set (b2 := set_rand r4 _). apply (extends_trans _ b2); [unfold b2|].
  { do 4 (eapply extends_trans; [apply extends_rand|]). apply extends_refl. }
  set (b3 := Emit cfg _ _ _ _ _ b2). apply (extends_trans _ b3).
  { unfold b3. destruct (negb (k =? 0)), (flt _ _), (_ <? _); turn. }
  clearbody b3. destruct (size (Resting b3) =? 0)%nat; [turn|]. destruct (Next (Rand b3)) as [y r5].
  eapply extends_trans; [apply (extends_rand _ r5)|]. destruct (flt _ _); turn.
Qed.

Lemma Act_extends mid now b : extends b (Act cfg mid now b).
Proof.
  unfold Act, Exponential, Unit. set (b1 := match Kind b with Maker => _ | Noise => _ | Taker => _ end).
  apply (extends_trans _ b1); [unfold b1; destruct (Kind b); [apply ActMaker_extends|apply ActNoise_extends|apply ActTaker_extends]|].
  destruct (Next (Rand b1)) as [x r]. eapply extends_trans; [apply (extends_rand _ r)|apply extends_times].
Qed.

Lemma catch_up_extends n mid now b : extends b (catch_up n cfg mid now b).
Proof.
  revert b. induction n as [|n IH]; intros b; cbn [catch_up]; [apply extends_refl|].
  destruct (NextAt b <=? now); [|apply extends_refl]. eapply extends_trans; [apply Act_extends|apply IH].
Qed.

(** *** Confirmations *)

Lemma OnConfirmation_recv c l b : OnConfirmation c (set_recv_buf l b) = set_recv_buf l (OnConfirmation c b).
Proof. unfold OnConfirmation. cbn. destruct (Gateways.CcStatus c =? 0); [|done]. by destruct (Pending b !! Gateways.CcClientOrderId c). Qed.

Lemma OnConfirmation_ledger c b n :
  bookkeeping b n ->
  note (MkLedger (Pending b) (own_accepted b)) (Heard c) =
    Some (MkLedger (Pending (OnConfirmation c b)) (own_accepted (OnConfirmation c b))).
Proof.
  intros HB. unfold OnConfirmation, own_accepted. cbn [note awaiting accepted set_stats Pending Resting RestingFifo].
  destruct (Gateways.CcStatus c =? 0); [|done]. set (coid := Gateways.CcClientOrderId c).
  destruct (Pending b !! coid) as [sd|] eqn:Ep; [|done]. cbn [set_orders Pending Resting RestingFifo]. do 2 f_equal.
  assert (Er : Resting b !! coid = None) by (apply (bk_apart _ _ HB); by rewrite Ep).
  unfold emplace. rewrite Er, omap_app. cbn [omap list_omap]. rewrite lookup_insert_eq. cbn. f_equal.
  apply list_omap_ext, Forall2_same_length_lookup_2; [done|]. intros i x y Hx Hy. rewrite Hx in Hy. injection Hy as <-.
  rewrite lookup_insert_ne; [done|]. intros <-. apply list_elem_of_lookup_2, (bk_resting _ _ HB) in Hx. rewrite Er in Hx. by destruct Hx.
Qed.

Lemma OnConfirmation_books c b n : fits Gateways.OrderConfirmation c -> bookkeeping b n -> bookkeeping (OnConfirmation c b) n.
Proof.
  intros [[Hid _] _] HB. cbn in Hid. pose proof HB as []. unfold OnConfirmation. cbn [set_stats Pending Resting RestingFifo NextClientOrderId].
  set (coid := Gateways.CcClientOrderId c).
  assert (Hdel : forall x, is_Some (delete coid (Pending b) !! x) -> is_Some (Pending b !! x)).
  { intros x Hx. by apply lookup_delete_is_Some in Hx as [_ Hx]. }
  destruct (Gateways.CcStatus c =? 0); [|constructor; cbn; by auto].
  destruct (Pending b !! coid) as [sd|] eqn:Ep; [|by constructor].
  assert (Er : Resting b !! coid = None) by (apply bk_apart0; by rewrite Ep).
  unfold emplace. rewrite Er. constructor; cbn; try done.
  - apply NoDup_app. split; [done|]. split; [|apply NoDup_singleton]. intros x Hx ->%list_elem_of_singleton.
    apply bk_resting0 in Hx. rewrite Er in Hx. by destruct Hx.
  - intros x. rewrite elem_of_app, list_elem_of_singleton, lookup_insert_is_Some, bk_resting0.
    destruct (decide (coid = x)) as [<-|]; [tauto|]. split; [|tauto]. intros [?|?]; [tauto|congruence].
  - by auto.
  - intros x Hx. apply lookup_insert_is_Some in Hx as [<-|[_ Hx]]; [apply bk_pending_old0; by rewrite Ep|by auto].
  - intros x Hx. apply lookup_delete_is_Some in Hx as [Hne Hx]. rewrite lookup_insert_ne by done. by auto.
  - intros x r Hx. apply lookup_insert_Some in Hx as [[_ <-]|[_ Hx]]; [exact Hid|by eauto].
Qed.

Lemma OnConfirmation_others c b :
  SendBuf (OnConfirmation c b) = SendBuf b /\ BotClientId (OnConfirmation c b) = BotClientId b /\
  S_ (OnConfirmation c b) = count_confirmation (Gateways.CcStatus c) (S_ b).
Proof. unfold OnConfirmation. cbn. destruct (Gateways.CcStatus c =? 0); [|done]. by destruct (Pending b !! _). Qed.

(** A confirmation is taken from the front of the buffer. *)
Lemma OnConfirmation_good c rest b sent seen log :
  fits Gateways.OrderConfirmation c -> Forall is_byte rest ->
  good (set_recv_buf (enc Gateways.OrderConfirmation c ++ rest) b) sent seen log ->
  good (set_recv_buf rest (OnConfirmation c b)) sent seen (log ++ [Heard c]).
Proof.
  intros Hc Hr [HF HB]. destruct (OnConfirmation_others c b) as (E1 & E2 & E3).
  pose proof (OnConfirmation_ledger c _ _ HB) as HL. pose proof (OnConfirmation_books c _ _ Hc HB) as HB'.
  rewrite OnConfirmation_recv in HL, HB'. split.
  - destruct HF. constructor; rewrite ?placed_app, ?heard_app; cbn [placed heard omap list_omap]; rewrite ?app_nil_r.
    + rewrite ledger_snoc, f_ledger0. exact HL.
    + cbn in f_sent0 |- *. by rewrite E1.
    + rewrite f_seen0. cbn [set_recv_buf RecvBuf]. rewrite bind_app, bind_cons, <- !app_assoc. done.
    + done.
    + cbn in f_mine0 |- *. by rewrite E2.
    + apply Forall_app. split; [done|]. by apply Forall_singleton.
    + cbn in f_stats0 |- *. rewrite E3. by apply tallies_confirmation.
  - rewrite placed_app. cbn [placed omap list_omap]. rewrite app_nil_r. destruct HB'. by constructor.
Qed.

(** Nine bytes are a confirmation. *)
Lemma confirmation_split bs :
  Forall is_byte bs -> (9 <= length bs)%nat ->
  exists c rest, dec Gateways.OrderConfirmation bs = Some (c, rest) /\
    bs = enc Gateways.OrderConfirmation c ++ rest /\ fits Gateways.OrderConfirmation c /\ Forall is_byte rest.
Proof.
  intros Hb Hl.
  assert (HS : exists x y z rest, bs = x ++ y ++ z ++ rest /\ length x = 4%nat /\ length y = 4%nat /\ length z = 1%nat).
  { exists (take 4 bs), (take 4 (drop 4 bs)), (take 1 (drop 4 (drop 4 bs))), (drop 1 (drop 4 (drop 4 bs))).
    rewrite !take_drop, !length_take, !length_drop. split_and!; [done|lia..]. }
  destruct HS as (x & y & z & rest & -> & Hx & Hy & Hz).
  apply Forall_app in Hb as [Bx Hb]. apply Forall_app in Hb as [By Hb]. apply Forall_app in Hb as [Bz Br].
  pose proof (of_le_range x Bx) as Rx. pose proof (of_le_range y By) as Ry. pose proof (of_le_range z Bz) as Rz.
  rewrite Hx in Rx. rewrite Hy in Ry. rewrite Hz in Rz.
  set (c := Gateways.MkClientConfirmation (of_le x) (of_le y) (of_le z)).
  assert (Hf : fits Gateways.OrderConfirmation c) by (split; [split|]; assumption).
  assert (He : enc Gateways.OrderConfirmation c = x ++ y ++ z).
  { change (enc Gateways.OrderConfirmation c) with ((le_bytes 4 (of_le x) ++ le_bytes 4 (of_le y)) ++ le_bytes 1 (of_le z)).
    rewrite <- Hx, le_bytes_of_le by done. rewrite Hx, <- Hy, le_bytes_of_le by done. rewrite <- Hz at 1.
    rewrite le_bytes_of_le by done. by rewrite app_assoc. }
  exists c, rest. rewrite !app_assoc, <- (app_assoc x y z), <- He. split; [by apply dec_enc|]. by split_and!.
Qed.

Lemma parse_good fuel bs b sent seen log :
  (length bs < fuel)%nat -> Forall is_byte bs -> good (set_recv_buf bs b) sent seen log ->
  exists bs' b' new, parse_confirmations fuel bs b = Ret (bs', b') /\ good (set_recv_buf bs' b') sent seen (log ++ new) /\
    (length bs' < 9)%nat /\ SendBuf b' = SendBuf b.
Proof.
  revert bs b log. induction fuel as [|fuel IH]; intros bs b log Hf Hb HG; [lia|]. cbn [parse_confirmations].
  change (width Gateways.OrderConfirmation) with 9%nat. destruct (Nat.leb_spec 9 (length bs)) as [Hl|Hl].
  - destruct (confirmation_split bs Hb Hl) as (c & rest & -> & -> & Hc & Hr). cbn [deref mbind result_bind].
    destruct (IH rest (OnConfirmation c b) (log ++ [Heard c])) as (bs' & b' & new & -> & HG' & Hs & Hsb); [|done|by apply OnConfirmation_good|].
    { rewrite length_app, (enc_length Gateways.OrderConfirmation c Hc) in Hf. change (width Gateways.OrderConfirmation) with 9%nat in Hf. lia. }
    exists bs', b', (Heard c :: new). rewrite <- app_assoc in HG'. split_and!; [done..|]. rewrite Hsb. apply OnConfirmation_others.
  - exists bs, b, []. rewrite app_nil_r. by split_and!.
Qed.

Lemma recv_some_app answers buf : recv_some answers buf = ((recv_some answers []).1, buf ++ delivered answers).
Proof.
  unfold delivered. revert buf. assert (HG : forall buf pre, recv_some answers (pre ++ buf) = ((recv_some answers buf).1, pre ++ (recv_some answers buf).2)).
  { induction answers as [|a answers IH]; intros buf pre; [done|]. cbn [recv_some]. destruct a as [bs| | |]; try apply IH; try done.
    destruct (0 <? length bs)%nat; [|done]. rewrite <- app_assoc. destruct (length bs <? RecvChunk)%nat; [done|]. apply IH. }
  intros buf. rewrite <- (app_nil_r buf) at 1. apply HG.
Qed.

Definition answer_ok (a : RecvAnswer) : Prop := match a with Got bs => Forall is_byte bs | _ => True end.

Lemma delivered_bytes answers : Forall answer_ok answers -> Forall is_byte (delivered answers).
Proof.
  unfold delivered. intros Ha. assert (HG : forall buf, Forall is_byte buf -> Forall is_byte (recv_some answers buf).2); [|by apply HG].
  induction Ha as [|a answers Hx _ IH]; intros buf Hb; [done|]. cbn [recv_some]. destruct a as [bs| | |]; try (by apply IH); try done.
  assert (Forall is_byte (buf ++ bs)) by (by apply Forall_app).
  destruct (0 <? length bs)%nat; [|done]. destruct (length bs <? RecvChunk)%nat; [done|]. by apply IH.
Qed.

(** Bytes that arrive. *)
Lemma good_arrive b sent seen log bs :
  good b sent seen log -> Forall is_byte bs -> good (set_recv_buf (RecvBuf b ++ bs) b) sent (seen ++ bs) log.
Proof.
  intros [[] []] Hb. split; constructor; try done; cbn.
  - by rewrite f_seen0, <- app_assoc.
  - by apply Forall_app.
Qed.

Lemma OnReadable_good answers b sent seen log :
  good b sent seen log -> Forall answer_ok answers ->
  exists ok b' new, OnReadable answers b = Ret (ok, b') /\ good b' sent (seen ++ delivered answers) (log ++ new) /\
    (ok = true -> (length (RecvBuf b') < 9)%nat) /\ SendBuf b' = SendBuf b.
Proof.
  intros HG Ha. pose proof (good_arrive _ _ _ _ _ HG (delivered_bytes _ Ha)) as HA. unfold OnReadable.
  rewrite recv_some_app. destruct (recv_some answers []).1; cbn [negb].
  - destruct (parse_good (S (length (RecvBuf b ++ delivered answers))) (RecvBuf b ++ delivered answers) b sent _ log
      ltac:(lia) (bk_bytes _ _ (g_books _ _ _ _ HA)) HA) as (bs' & b' & new & -> & HG' & Hl & Hs).
    cbn [mbind result_bind]. exists true, (set_recv_buf bs' b'), new. by split_and!.
  - exists false. eexists _, []. rewrite app_nil_r. by split_and!.
Qed.

(** *** Sending *)

Lemma send_some_ok again answers off left :
  again <> AllSent ->
  let '(e, off') := send_some again answers off left in
  (off <= off' <= off + left)%nat /\ (e = AllSent -> off' = off + left)%nat.
Proof.
  intros Ha. revert off left. induction answers as [|a answers IH]; intros off left; cbn [send_some].
  - destruct (Nat.eqb_spec left 0) as [->|]; split; try lia; done.
  - destruct (Nat.eqb_spec left 0) as [->|Hl]; [split; lia|]. destruct a; try (split; [lia|done]); [|apply IH].
    specialize (IH (off + OrderRouter.taken n left)%nat (left - OrderRouter.taken n left)%nat).
    assert (OrderRouter.taken n left <= left)%nat by (unfold OrderRouter.taken; lia).
    destruct (send_some _ _ _ _) as [e off']. destruct IH as [I1 I2]. split; [lia|]. intros He. rewrite (I2 He). lia.
Qed.

(** [Flush] moves bytes from the buffer to the network. *)
Lemma Flush_ok answers b :
  let '(ok, out, b') := Flush answers b in
  RecvBuf b' = RecvBuf b /\ BotClientId b' = BotClientId b /\
  if ok : bool then SendBuf b = out ++ SendBuf b' /\
    forall sent seen log, good b sent seen log -> good b' (sent ++ out) seen log
  else b' = b /\ out `prefix_of` SendBuf b.
Proof.
  unfold Flush. pose proof (send_some_ok WouldBlock answers 0 (length (SendBuf b)) ltac:(done)) as HS.
  destruct (send_some _ _ _ _) as [e off]. destruct HS as [H1 H2].
  assert (HG : forall buf st, SendBuf b = take off (SendBuf b) ++ buf -> (forall os cs, tallies (S_ b) os cs -> tallies st os cs) ->
    forall sent seen log, good b sent seen log -> good (set_send_buf buf (set_stats st b)) (sent ++ take off (SendBuf b)) seen log).
  { intros buf st Hb Ht sent seen log [[] []]. split; constructor; try done; cbn; [|by apply Ht]. by rewrite <- app_assoc, <- Hb. }
  destruct e; (split; [done|]); (split; [done|]).
  - specialize (H2 eq_refl). assert (Ht : SendBuf b = take off (SendBuf b) ++ []) by (rewrite app_nil_r, take_ge; [done|lia]).
    split; [exact Ht|]. intros sent seen log Hg. by apply (HG [] (S_ b) Ht).
  - assert (Hd : SendBuf b = take off (SendBuf b) ++ drop off (SendBuf b)) by (by rewrite take_drop).
    split; [exact Hd|]. apply HG; [exact Hd|]. intros os cs []. by constructor.
  - split; [done|]. apply prefix_take.
Qed.

(** *** Lines *)

(** The connection of client [id]: while it is open, what the network took and the
    buffer are the orders of [log], and less than a confirmation waits; of a closed
    one the network took a part. *)
Definition line_conduct (id : Z) (l : Line) : Prop :=
  exists sent log, good (bot l) sent (got l) log /\ took l `prefix_of` sent ++ SendBuf (bot l) /\
    (dead l = false -> took l = sent /\ (length (RecvBuf (bot l)) < 9)%nat).

Definition emitted (l : Line) : nat := length (took l) + length (SendBuf (bot l)).
Definition few_orders (l : Line) : Prop := Z.of_nat (emitted l) < 40 * (2 ^ 32 - 1).

Record line_inv (id : Z) (l : Line) : Prop := {
  li_bytes : Forall is_byte (RecvBuf (bot l));
  li_client : BotClientId (bot l) = id;
  li_conduct : few_orders l -> line_conduct id l
}.

Lemma line_turn_inv id mid now answers l : line_inv id l -> line_inv id (line_turn cfg mid now answers l).
Proof.
  intros HI. unfold line_turn. destruct (dead l) eqn:Ed; [done|]. destruct HI as [Hb Hid Hc].
  destruct (catch_up_extends 64 mid now (bot l)) as (HR & HC & HL & HE). set (b := catch_up 64 cfg mid now (bot l)) in *. clearbody b.
  assert (HG : within (took l) b -> exists log, good b (took l) (got l) log /\ (length (RecvBuf b) < 9)%nat).
  { intros Hw. destruct Hc as (sent & log & HG & _ & Ha); [unfold few_orders, emitted; unfold within in Hw; lia|].
    destruct (Ha Ed) as [<- Hs]. destruct (HE _ _ _ HG Hw) as [new HN]. exists (log ++ new). split; [done|]. by rewrite HR. }
  destruct (WantsWrite b); cbn [negb].
  - pose proof (Flush_ok answers b) as HF. destruct (Flush answers b) as [[ok out] b']. destruct HF as (F1 & F2 & F3).
    constructor; cbn [bot took got dead]; [by rewrite F1, HR|congruence|]. unfold few_orders, emitted. cbn [bot took]. rewrite length_app. intros Hw.
    destruct ok.
    + destruct F3 as [Hsb HF]. destruct HG as (log & HG & Hs); [unfold within; rewrite Hsb, length_app; lia|].
      exists (took l ++ out), log. cbn. split; [by apply HF|]. split; [apply prefix_app_r; done|]. rewrite F1. done.
    + destruct F3 as [-> Hp]. destruct HG as (log & HG & Hs); [unfold within; lia|].
      exists (took l), log. cbn. split; [done|]. split; [by apply prefix_app|done].
  - constructor; cbn [bot took got dead]; [by rewrite HR|congruence|]. unfold few_orders, emitted. cbn [bot took]. intros Hw.
    destruct HG as (log & HG & Hs); [exact Hw|]. exists (took l), log. split; [done|]. split; [apply prefix_app_r; done|done].
Qed.

Lemma parse_total fuel bs b :
  (length bs < fuel)%nat -> Forall is_byte bs ->
  exists bs' b', parse_confirmations fuel bs b = Ret (bs', b') /\ Forall is_byte bs' /\
    SendBuf b' = SendBuf b /\ BotClientId b' = BotClientId b.
Proof.
  revert bs b. induction fuel as [|fuel IH]; intros bs b Hf Hb; [lia|]. cbn [parse_confirmations].
  change (width Gateways.OrderConfirmation) with 9%nat. destruct (Nat.leb_spec 9 (length bs)) as [Hl|Hl]; [|by exists bs, b].
  destruct (confirmation_split bs Hb Hl) as (c & rest & -> & -> & Hc & Hr). cbn [deref mbind result_bind].
  rewrite length_app, (enc_length Gateways.OrderConfirmation c Hc) in Hf. change (width Gateways.OrderConfirmation) with 9%nat in Hf.
  destruct (IH rest (OnConfirmation c b)) as (bs' & b' & -> & H1 & H2 & H3); [lia|done|].
  destruct (OnConfirmation_others c b) as (E1 & E2 & _). exists bs', b'. split_and!; [done|done|congruence|congruence].
Qed.

Lemma line_event_inv id answers l :
  line_inv id l -> Forall answer_ok answers -> exists l', line_event answers l = Ret l' /\ line_inv id l'.
Proof.
  intros HI Ha. unfold line_event. destruct (dead l) eqn:Ed; [by exists l|]. destruct HI as [Hb Hid Hc].
  assert (HT : exists ok b, OnReadable answers (bot l) = Ret (ok, b) /\ Forall is_byte (RecvBuf b) /\
    SendBuf b = SendBuf (bot l) /\ BotClientId b = BotClientId (bot l)).
  { unfold OnReadable. rewrite recv_some_app. assert (Hall : Forall is_byte (RecvBuf (bot l) ++ delivered answers)).
    { apply Forall_app. split; [done|by apply delivered_bytes]. }
    destruct (recv_some answers []).1; cbn [negb]; [|by eexists _, _].
    destruct (parse_total (S (length (RecvBuf (bot l) ++ delivered answers))) (RecvBuf (bot l) ++ delivered answers) (bot l) ltac:(lia) Hall) as (bs' & b' & -> & H).
    eexists _, _. split; [done|]. exact H. }
  destruct HT as (ok & b & E & H1 & H2 & H3). rewrite E. cbn [mbind result_bind]. eexists. split; [done|].
  constructor; cbn [bot took got dead]; [done|congruence|]. unfold few_orders, emitted. cbn [bot took]. rewrite H2. intros Hw.
  destruct (Hc Hw) as (sent & log & HG & Hp & Hal). destruct (Hal Ed) as [<- _].
  destruct (OnReadable_good answers (bot l) (took l) (got l) log HG Ha) as (ok' & b' & new & E' & HG' & Hs & Hsb).
  rewrite E in E'. injection E' as <- <-. exists (took l), (log ++ new). cbn. split; [done|]. split; [apply prefix_app_r; done|].
  intros Hd. split; [done|]. apply Hs. by destruct ok.
Qed.

(** *** The main loop *)

Definition count_dead (ls : list Line) : nat := length (filter (fun l => dead l = true) ls).

Lemma count_dead_cons l ls : count_dead (l :: ls) = ((if dead l then 1 else 0) + count_dead ls)%nat.
Proof. unfold count_dead. destruct (dead l) eqn:E; [rewrite filter_cons_True by done|rewrite filter_cons_False by congruence]; done. Qed.

Lemma line_turn_dead mid now answers l :
  (newly_dead l (line_turn cfg mid now answers l) + (if dead l then 1 else 0) =
   if dead (line_turn cfg mid now answers l) then 1 else 0)%nat.
Proof. unfold newly_dead, line_turn. destruct (dead l) eqn:E; [by rewrite E|]. cbn [negb andb]. by destruct (dead _). Qed.

Lemma line_event_dead answers (l l' : Line) :
  line_event answers l = Ret l' -> (newly_dead l l' + (if dead l then 1 else 0) = if dead l' then 1 else 0)%nat.
Proof.
  unfold newly_dead, line_event. destruct (dead l) eqn:E; [intros [= <-]; by rewrite E|].
  intros _. cbn [negb andb]. by destruct (dead l').
Qed.

Definition lines_inv (i : nat) (ls : list Line) : Prop :=
  forall j l, ls !! j = Some l -> line_inv (u32 (Z.of_nat (i + j))) l.

Lemma lines_inv_cons i l ls : lines_inv i (l :: ls) <-> line_inv (u32 (Z.of_nat i)) l /\ lines_inv (S i) ls.
Proof.
  unfold lines_inv. split.
  - intros H. split; [specialize (H 0%nat l eq_refl); by rewrite Nat.add_0_r in H|].
    intros j x Hx. specialize (H (S j) x Hx). by rewrite Nat.add_succ_r in H.
  - intros [H1 H2] [|j] x Hx; [injection Hx as <-; by rewrite Nat.add_0_r|]. rewrite Nat.add_succ_r. by apply H2.
Qed.

Lemma turns_ok mid it i ls nb :
  lines_inv i ls ->
  let '(ls', nb') := turns cfg mid it i ls nb in
  length ls' = length ls /\ lines_inv i ls' /\ (nb' + count_dead ls = nb + count_dead ls')%nat.
Proof.
  revert i nb. induction ls as [|l ls IH]; intros i nb HI; cbn [turns]; [done|]. apply lines_inv_cons in HI as [Hl HI].
  set (l' := line_turn _ _ _ _ l). specialize (IH (S i) (nb + newly_dead l l')%nat HI).
  destruct (turns _ _ _ _ ls _) as [ls' nb']. destruct IH as (H1 & H2 & H3). split; [cbn [length]; by rewrite H1|]. split.
  - apply lines_inv_cons. split; [by apply line_turn_inv|done].
  - pose proof (line_turn_dead mid (now it) (sends it i) l) as Hd. fold l' in Hd. rewrite !count_dead_cons. lia.
Qed.

Lemma count_dead_insert ls i l l' :
  ls !! i = Some l -> (count_dead (<[i := l']> ls) + (if dead l then 1 else 0) = count_dead ls + (if dead l' then 1 else 0))%nat.
Proof.
  revert i. induction ls as [|x ls IH]; intros i Hi; [done|]. destruct i as [|i].
  - injection Hi as ->. change (<[0%nat := l']> (l :: ls)) with (l' :: ls). rewrite !count_dead_cons. lia.
  - change (<[S i := l']> (x :: ls)) with (x :: <[i := l']> ls). rewrite !count_dead_cons. specialize (IH i Hi). lia.
Qed.

Definition event_ok (n : nat) (e : nat * list RecvAnswer) : Prop := (e.1 < n)%nat /\ Forall answer_ok e.2.

Lemma events_ok evs ls nb :
  lines_inv 0 ls -> Forall (event_ok (length ls)) evs ->
  exists ls' nb', events evs ls nb = Ret (ls', nb') /\ length ls' = length ls /\ lines_inv 0 ls' /\
    (nb' + count_dead ls = nb + count_dead ls')%nat.
Proof.
  revert ls nb. induction evs as [|[idx answers] evs IH]; intros ls nb HI Hok; cbn [events]; [by exists ls, nb|].
  apply Forall_cons in Hok as [[Hidx Ha] Hok]. cbn [fst snd] in *. destruct (lookup_lt_is_Some_2 ls idx Hidx) as [l Hl]. rewrite Hl.
  destruct (line_event_inv _ answers l (HI _ _ Hl) Ha) as (l' & E & HI'). rewrite E. cbn [mbind result_bind].
  destruct (IH (<[idx := l']> ls) (nb + newly_dead l l')%nat) as (ls' & nb' & -> & H1 & H2 & H3).
  - intros j x Hx. apply list_lookup_insert_Some in Hx as [(-> & <- & _)|[_ Hx]]; [exact HI'|by apply HI].
  - by rewrite length_insert.
  - exists ls', nb'. split; [done|]. rewrite length_insert in H1. split; [done|]. split; [done|].
    pose proof (line_event_dead _ _ _ E) as Hd. pose proof (count_dead_insert ls idx l l' Hl) as Hi. lia.
Qed.

Record gen_inv (n : nat) (g : GenState) : Prop := {
  gi_length : length (lines g) = n;
  gi_lines : lines_inv 0 (lines g);
  gi_dead : nbDead g = count_dead (lines g)
}.

Definition iteration_ok (n : nat) (it : Iteration) : Prop := Forall (event_ok n) (readable it).

Lemma iterate_ok n it g : gen_inv n g -> iteration_ok n it -> exists g', iterate cfg it g = Ret g' /\ gen_inv n g'.
Proof.
  intros [H1 H2 H3] Hok. unfold iterate. pose proof (turns_ok (Mid (tracker g)) it 0 (lines g) (nbDead g) H2) as HT.
  destruct (turns _ _ _ _ _ _) as [ls nb]. destruct HT as (T1 & T2 & T3).
  destruct (if _ =? 0 then _ else _) as [m rng].
  destruct (events_ok (readable it) ls nb T2) as (ls' & nb' & -> & E1 & E2 & E3); [by rewrite T1, H1|].
  cbn [mbind result_bind]. eexists. split; [done|]. constructor; cbn [lines nbDead]; [congruence|done|lia].
Qed.

Lemma main_loop_ok n deadline its g :
  gen_inv n g -> Forall (iteration_ok n) its -> exists g', main_loop cfg deadline its g = Ret g' /\ gen_inv n g'.
Proof.
  intros HI Hok. revert g HI. induction Hok as [|it its Hit _ IH]; intros g HI; cbn [main_loop]; [by exists g|].
  destruct (deadline <=? now it); [by exists g|]. destruct (iterate_ok n it g HI Hit) as (g' & -> & HI'). cbn [mbind result_bind].
  destruct (nbDead g' =? length (lines g'))%nat; [by exists g'|]. by apply IH.
Qed.

Lemma schedule_bots_spec w start bots rng :
  exists times, (schedule_bots cfg w start bots rng).1 = zip_with (fun tg b => set_times tg.1 tg.2 b) times bots /\
    length times = length bots.
Proof.
  revert rng. induction bots as [|b bots IH]; intros rng; cbn [schedule_bots]; [by exists []|]. unfold schedule_bot.
  destruct (Below 2000000 rng) as [k rng']. destruct (IH rng') as (times & E & Hl).
  destruct (schedule_bots cfg w start bots rng') as [bots' rng'']. cbn [fst] in *. subst bots'.
  eexists ((_, _) :: times). split; [done|cbn; lia].
Qed.

(** A new bot, whenever it acts first. *)
Lemma fresh_line id fd kind seed t gap :
  in_u32 id -> line_inv id (MkLine (set_times t gap (bot_init id fd kind seed)) false [] []).
Proof.
  intros Hid. constructor; [constructor|done|]. intros _. exists [], []. split; [|split; [done|cbn; split; [done|lia]]].
  split; constructor; try done; try (by constructor); cbn.
  - intros coid. rewrite lookup_empty. split; [by intros ?%elem_of_nil|by intros []].
  - intros coid. rewrite lookup_empty. by intros [].
  - intros coid. rewrite lookup_empty. by intros [].
Qed.

Lemma gen_start_inv seed start fds :
  length fds = length (kinds cfg) -> gen_inv (length (kinds cfg)) (gen_start cfg seed start fds).
Proof.
  intros Hf. unfold gen_start. set (bots := make_bots cfg seed fds).
  assert (Hl : length bots = length (kinds cfg)) by (unfold bots, make_bots; rewrite length_imap, length_zip; lia).
  destruct (schedule_bots_spec (total_weight cfg bots) start bots (rng_init (Z.lxor seed 0xD1B54A32D192ED03))) as (times & E & Ht).
  destruct (schedule_bots _ _ _ _ _) as [bots' rng']. cbn [fst] in E. subst bots'.
  assert (HA : lines_inv 0 ((fun b => MkLine b false [] []) <$> zip_with (fun tg b => set_times tg.1 tg.2 b) times bots)).
  { intros j l Hj. apply list_lookup_fmap_Some in Hj as (b & -> & Hb). apply lookup_zip_with_Some in Hb as (tg & b0 & -> & _ & Hb).
    unfold bots, make_bots in Hb. apply list_lookup_imap_Some in Hb as ([kind fd] & _ & ->). apply fresh_line, u32_range. }
  constructor; cbn [lines nbDead]; [rewrite length_fmap, length_zip_with; lia|exact HA|].
  clear. induction (zip_with _ _ _) as [|b l IH]; [done|]. cbn [fmap list_fmap]. rewrite count_dead_cons. exact IH.
Qed.

End Conduct.

(** What the conduct of a client is, in terms of its connection. *)
Definition proper_client (cfg : Config) (id : Z) (l : Line) : Prop :=
  exists log,
    ledger log = Some (MkLedger (Pending (bot l)) (own_accepted (bot l))) /\
    took l `prefix_of` (placed log ≫= enc order_codec) /\
    (dead l = false -> placed log ≫= enc order_codec = took l ++ SendBuf (bot l)) /\
    got l = (heard log ≫= enc Gateways.OrderConfirmation) ++ RecvBuf (bot l) /\
    (dead l = false -> (length (RecvBuf (bot l)) < width Gateways.OrderConfirmation)%nat) /\
    ClientOrderId <$> placed log = Z.of_nat <$> seq 1 (length (placed log)) /\
    Forall (fun o => ClientId o = id /\ AssetId o = CfgAssetId cfg) (placed log) /\
    tallies (S_ (bot l)) (placed log) (heard log).

Lemma line_conduct_proper cfg id l : BotClientId (bot l) = id -> line_conduct cfg id l -> proper_client cfg id l.
Proof.
  intros <- (sent & log & [HF _] & Hp & Ha). destruct HF. exists log. rewrite <- f_sent0. split_and!; try done.
  - intros Hd. by destruct (Ha Hd) as [-> _].
  - intros Hd. by destruct (Ha Hd) as [_ H].
  - eapply Forall_impl; [exact f_mine0|]. by intros o (H1 & H2 & _).
Qed.

(** C38: whatever the random numbers, the times, what the network takes and the bytes
    the gateway sends, the load generator runs to its end, counts its closed
    connections, and each of its clients, as long as it placed fewer than 2^32 - 1
    orders, behaves: the bytes on its connection are whole orders, numbered from 1,
    of its own client id and asset; each confirmation is read once, however the
    bytes arrive; every cancel is of the oldest of its accepted orders, by the id
    the gateway gave it and the side it rests on, and none is cancelled twice; and
    the statistics count the orders and the confirmations by kind. *)
Theorem generator_follows_protocol cfg seed start fds deadline its :
  config_ok cfg -> length fds = length (kinds cfg) -> Forall (iteration_ok (length (kinds cfg))) its ->
  exists g, main_loop cfg deadline its (gen_start cfg seed start fds) = Ret g /\
    length (lines g) = length (kinds cfg) /\ nbDead g = count_dead (lines g) /\
    forall i l, lines g !! i = Some l -> few_orders l -> proper_client cfg (u32 (Z.of_nat i)) l.
Proof.
  intros Hc Hf Hok. destruct (main_loop_ok cfg Hc _ deadline its _ (gen_start_inv cfg seed start fds Hf) Hok) as (g & E & [H1 H2 H3]).
  exists g. split; [exact E|]. split; [exact H1|]. split; [exact H3|]. intros i l Hl Hw. destruct (H2 i l Hl) as [_ Hid Hco].
  apply line_conduct_proper; [exact Hid|by apply Hco].
Qed.

(** After the loop: the flush and the reads of a connection that is still open keep
    to the protocol too. *)
Lemma last_flush_conduct cfg id answers l :
  dead l = false -> line_inv cfg id l ->
  let '(ok, sent, b) := Flush answers (bot l) in
  ok = true -> line_inv cfg id (MkLine b false (took l ++ sent) (got l)).
Proof.
  intros Hd [Hb Hid Hc]. pose proof (Flush_ok cfg answers (bot l)) as HF. destruct (Flush answers (bot l)) as [[ok out] b].
  intros ->. destruct HF as (F1 & F2 & Hsb & HF). constructor; cbn [bot took got dead]; [by rewrite F1|congruence|].
  unfold few_orders, emitted. cbn [bot took]. rewrite length_app. intros Hw.
  destruct Hc as (sent & log & HG & _ & Ha); [unfold few_orders, emitted; rewrite Hsb, length_app; lia|]. destruct (Ha Hd) as [<- Hs].
  exists (took l ++ out), log. cbn. split; [by apply HF|]. split; [by apply prefix_app_r|]. by rewrite F1.
Qed.

(** The login of a bot is whole when its descriptor is valid. *)
Lemma ConnectAndAuth_sends (cfg : Config) clientId s p c answers fd bytes :
  ConnectAndAuth cfg clientId s p c answers = (fd, bytes) -> fd <> -1 ->
  fd = s /\ bytes = enc auth_request_codec (MkAuthRequest char_A clientId (CfgKey cfg)).
Proof.
  unfold ConnectAndAuth. destruct (s <? 0); [congruence|]. destruct (negb (p =? 1)); [congruence|]. destruct (c <? 0); [congruence|].
  set (req := enc _ _). pose proof (send_some_ok PeerClosed answers 0 (length req) ltac:(done)) as HS.
  destruct (send_some _ _ _ _) as [e off]. destruct HS as [_ HS]. intros [= <- <-]. destruct e; try done.
  intros _. split; [done|]. rewrite (HS eq_refl). apply take_ge. lia.
Qed.

(** The middle price stays two ticks above zero, and so a maker's bid is a tick at
    least and below its ask. *)
Lemma Drift_floor m rng :
  0 < MidTick m < 2 ^ 61 -> Mid m < 2 ^ 62 -> 2 * MidTick m <= Mid m ->
  let m' := (Drift m rng).1 in 2 * MidTick m' <= Mid m' /\ MidTick m' = MidTick m.
Proof.
  intros Ht Hm Hf. unfold Drift. pose proof (Below_range 3 rng ltac:(lia)) as Hk. destruct (Below 3 rng) as [k rng']. cbn [fst] in *.
  cbn [Mid MidTick]. split; [|done]. destruct (Z.ltb_spec (s64 (Mid m + (k - 1) * MidTick m)) (MidTick m * 2)); [|lia].
  rewrite s64_small; [lia|]. split; lia.
Qed.

Lemma maker_quotes_apart tick mid k :
  0 < tick < 2 ^ 60 -> 2 * tick <= mid < 2 ^ 62 -> 0 <= k < 3 ->
  let spread := s64 (tick * (1 + k)) in
  let bid := if s64 (mid - spread) <? tick then tick else s64 (mid - spread) in
  tick <= bid < mid /\ mid < s64 (mid + spread).
Proof.
  intros Ht Hm Hk spread bid. assert (Hs : spread = tick * (1 + k)) by (apply s64_small; split; nia).
  assert (s64 (mid - spread) = mid - spread) as E1 by (apply s64_small; split; nia).
  assert (s64 (mid + spread) = mid + spread) as E2 by (apply s64_small; split; nia).
  unfold bid. rewrite E1, E2. destruct (Z.ltb_spec (mid - spread) tick); nia.
Qed.

(** The printed totals add up: the orders by kind and by side are the orders
    submitted. *)
Definition balanced (s : Stats) : Prop :=
  Submitted s = u64 (Cancels s + Limits s + Markets s) /\ Submitted s = u64 (Buys s + Sells s).

Lemma how_many_split {A} (f g : A -> bool) l :
  (forall x, negb (f x && g x) = true) -> how_many (fun x => f x || g x) l = u64 (how_many f l + how_many g l).
Proof.
  intros Hd. unfold how_many. rewrite u64_add_l, Z.add_comm, u64_add_l. f_equal.
  induction l as [|x l IH]; [done|]. specialize (Hd x).
  rewrite !filter_cons. destruct (f x) eqn:Ef, (g x) eqn:Eg; try done; repeat case_decide; try done; cbn [length]; lia.
Qed.

Lemma tallies_balanced s os cs : tallies s os cs -> balanced s.
Proof.
  intros [H1 H2 H3 H4 H5 H6 _ _ _]. unfold balanced. rewrite H1, H2, H3, H4, H5, H6. split.
  - assert (E : how_many (fun _ => true) os = how_many (fun o => (is_cancel o || is_limit o) || is_market o) os).
    { unfold how_many. do 3 f_equal. apply list_filter_iff. intros [? ? ? ? ? ? [] [] []]; done. }
    rewrite E, how_many_split by (by intros [? ? ? ? ? ? [] [] []]).
    rewrite (how_many_split is_cancel is_limit) by (by intros [? ? ? ? ? ? [] [] []]). by rewrite u64_add_l.
  - assert (E : how_many (fun _ => true) os = how_many (fun o => is_buy o || negb (is_buy o)) os).
    { unfold how_many. do 3 f_equal. apply list_filter_iff. intros o. by destruct (is_buy o). }
    rewrite E. apply (how_many_split is_buy (fun o => negb (is_buy o))). intros o. by destruct (is_buy o).
Qed.

Lemma totals_balanced (ls : list Line) : Forall (fun l => balanced (S_ (bot l))) ls -> balanced (totals ls).
Proof.
  intros HL. unfold totals. assert (H0 : balanced stats0) by done. revert H0. generalize stats0 as t.
  induction HL as [|l ls Hl _ IH]; intros t Ht; [done|]. cbn [foldl]. apply IH. destruct Hl as [A1 A2], Ht as [B1 B2].
  assert (HU : forall x y, u64 (u64 x + u64 y) = u64 (x + y)) by (intros x y; by rewrite u64_add_l, Z.add_comm, u64_add_l, Z.add_comm).
  split; cbn [add_stats Submitted Cancels Limits Markets Buys Sells]; [rewrite A1, B1, HU|rewrite A2, B2, !HU; f_equal; lia].
  rewrite <- (u64_add_l (u64 _ + u64 _)), (HU (Cancels t + _) (Limits t + _)), HU. f_equal. lia.
Qed.

(** The loop that is to catch up with the turns a slow iteration missed takes one
    turn: [Act] counts the next gap from [now], not from the turn it was due. *)
Theorem catch_up_takes_one_turn cfg mid now b :
  (forall mean u, 0 < to_u64 (fmul (fneg mean) (flog u)) < 2 ^ 63) -> 0 <= now < 2 ^ 63 -> NextAt b <= now ->
  catch_up 64 cfg mid now b = Act cfg mid now b.
Proof.
  intros Hg Hn Hd. change 64%nat with (S (S 62)). cbn [catch_up]. rewrite (proj2 (Z.leb_le _ _)) by done.
  assert (HN : now < NextAt (Act cfg mid now b)).
  { unfold Act, Exponential. set (b1 := match Kind b with Maker => _ | Noise => _ | Taker => _ end). clearbody b1.
    destruct (Unit b1) as [u b2]. cbn [NextAt set_times].
    specialize (Hg (MeanGapNs b1) (if fle u (of_u64 0) then ulp else u)). rewrite u64_small; lia. }
  by rewrite (proj2 (Z.leb_gt _ _)).
Qed.

End Generator.

(** ** A run *)

(** Fixed point with 53 binary digits; the logarithm is -1. *)
#[local] Instance fixed_point : Real Z := {
  of_u64 n := n * 2 ^ 53; ulp := 1;
  fadd a b := a + b; fmul a b := a * b / 2 ^ 53; fdiv a b := a * 2 ^ 53 / b; fneg a := - a; flog _ := - 2 ^ 53;
  flt := Z.ltb; fle := Z.leb; to_u64 a := a / 2 ^ 53
}.

(** A maker that keeps one order, a noise trader and a taker, on asset 3. *)
Definition demo_config : Config (F := Z) :=
  MkConfig "127.0.0.1" 8081 3 (replicate 32 9) (of_u64 1) (of_u64 1000) 1 1 1 100 1
    (of_u64 3) (of_u64 1) (of_u64 1) 2 10 50 500 10 (of_u64 0) (of_u64 0) 5 4 1 false 0.

(** The gateway accepts order 1 of the maker under the id 77, in two pieces. *)
Definition demo_answer : list Z := enc Gateways.OrderConfirmation (Gateways.MkClientConfirmation 77 1 0).
Definition demo_iterations : list Iteration :=
  [MkIteration 5000000 (fun _ => [Took 49; SendAgain]) [(0%nat, [Got (take 4 demo_answer)])];
   MkIteration 6000000 (fun _ => [Took 1000]) [(0%nat, [Got (drop 4 demo_answer)])];
   MkIteration 90000000 (fun i => if (i =? 2)%nat then [SendFailed] else [Took 1000]) []].

Lemma generator_follows_protocol_witness :
  exists g, main_loop demo_config 1000000000 demo_iterations (gen_start demo_config 5 0 [4; 5; 6]) = Ret g /\
    nbDead g = 1%nat /\ exists l, lines g !! 0%nat = Some l /\ proper_client demo_config 0 l.
Proof.
  destruct (generator_follows_protocol demo_config 5 0 [4; 5; 6] 1000000000 demo_iterations) as (g & E & _ & _ & HP).
  - split; [split; vm_compute; congruence|split; vm_compute; congruence].
  - reflexivity.
  - repeat (constructor; [repeat constructor; vm_compute; congruence || lia|]). constructor.
  - exists g. split; [exact E|]. vm_compute in E. injection E as <-. split; [reflexivity|].
    eexists. split; [reflexivity|]. apply (HP 0%nat); [reflexivity|]. vm_compute. reflexivity.
Defined.

(** The first word of splitmix64 from the seed 0. *)
Example splitmix_first : (seed_word 0).1 = 0xE220A8397B1DCDAF.
Proof. vm_compute. reflexivity. Qed.

(** What the maker of the run above sent: it cancels its bid by the id it was told. *)
Definition demo_sent : option (list (OrderAction * OrderSide * Z)) :=
  match main_loop demo_config 1000000000 demo_iterations (gen_start demo_config 5 0 [4; 5; 6]) with
  | Ret g =>
      match lines g with
      | l :: _ =>
          match dec_stream order_codec 9 (took l) with
          | Some (os, _) => Some (map (fun o => (Action o, Side o, Amount o)) os)
          | None => None
          end
      | [] => None
      end
  | Crash _ => None
  end.
Example demo_maker_orders :
  demo_sent = Some [(EXECUTE, BUY, 7); (EXECUTE, SELL, 1); (CANCEL_ORDER, BUY, 77); (EXECUTE, BUY, 8); (EXECUTE, SELL, 5)].
Proof. vm_compute. reflexivity. Qed.

(** ** A cancel takes the order out of the engine's book *)

Lemma find_removed id L : find_order id (remove_order id L) = None.
Proof.
  unfold find_order, remove_order, side_orders, drop_order.
  assert (HF : Forall (fun o => u32 (OrderId o) <> id)
    (filter (fun lv : Z * list Order => lv.2 <> []) ((fun lv => (lv.1, filter (fun o => u32 (OrderId o) <> id) lv.2)) <$> L) ≫= snd)).
  { apply Forall_forall. intros o Ho. apply list_elem_of_bind in Ho as (lv & Ho & Hlv).
    apply list_elem_of_filter in Hlv as [_ Hlv]. apply list_elem_of_fmap in Hlv as ([p os] & -> & _).
    by apply list_elem_of_filter in Ho as [Ho _]. }
  induction HF as [|o os Ho _ IH]; [done|]. by rewrite filter_cons_False.
Qed.

(** A cancel that names an order of the same client with the side it rests on, as
    those of the generator do: the engine's book no longer has the order, and the
    other side is as before. *)
Theorem right_side_cancel_removes_order z renv benv s b o r :
  sizes_ok z -> (forall n, renv n = Accepted) -> (forall n, benv n = Accepted) -> holds z s b ->
  valid_run z (MarketAssetId s) [o] b -> Action o = CANCEL_ORDER ->
  find_order (Amount o) (get_side (Side o) b) = Some r -> ClientId r = ClientId o ->
  exists s' b', engine_run z renv benv [o] s = Ret s' /\ holds z s' b' /\
    find_order (Amount o) (get_side (Side o) b') = None /\ get_side (opposite (Side o)) b' = get_side (opposite (Side o)) b.
Proof.
  intros Hz H1 H2 Hh Hv Ha Hf Hc. pose proof (engine_run_from z renv benv s b [o] Hz H1 H2 Hh Hv) as HR.
  cbn [spec_run] in HR. unfold request in HR. rewrite Ha in HR. unfold cancel_order in HR. rewrite Hf, (proj2 (Z.eqb_eq _ _) Hc) in HR.
  cbn in HR. destruct HR as (s' & E & Hh' & _). exists s'. eexists. split; [exact E|]. split; [exact Hh'|].
  destruct (Side o); cbn; (split; [apply find_removed|done]).
Qed.
